(** * tsh: a small shell for a minimal UNIX-like system (user/tsh.c)

    A shallow embedding of the line buffer, the lexer, the parser and the
    executor of [user/tsh.c], and the properties of them that the
    specification states.

    Conventions of the embedding.
    - A C [int] is a [Z]; loop counters and array indices that the code keeps
      non-negative are [nat].
    - A [char *] of the shell points into the command line buffer
      ([shell->cmdline.buffer]) or is null: it is a [cptr], [None] for the
      null pointer and [Some k] for [&buffer[k]].  The string it denotes is
      read from the buffer when it is used ([cstr]).
    - A structure that the code fills in place ([SimpleCommand],
      [Pipeline], [CommandData]) is passed in with the contents it had and
      returned updated, so that what the code leaves untouched is seen.
    - A range of tokens [start, tail) is the list of the tokens in it.
    - An array is the list of its elements.  A store past its last element
      changes, in the program, whatever the compiler has laid out behind
      it; the model has no such bytes, and describes the program as long as
      every store is inside its array ([terminated], [line_fits]).
    - The diagnostic macros [ErrorU], [ErrorS] and [Debug] append to a log. *)

From Stdlib Require Import ZArith Ascii String List Lia Bool.
From stdpp Require Import base option list.
Import ListNotations.

(** * The program *)

Module Tsh.

(** ** Data model *)

Inductive TokenType :=
| TOKEN_INVALID
| TOKEN_WORD
| TOKEN_PIPE
| TOKEN_LIST
| TOKEN_REDIRECT_OUTPUT
| TOKEN_REDIRECT_OUTPUT_APPEND
| TOKEN_REDIRECT_INPUT
| TOKEN_BACKGROUND
| TOKEN_GROUP_START
| TOKEN_GROUP_END.

Definition TokenType_eqb (a b : TokenType) : bool :=
  match a, b with
  | TOKEN_INVALID, TOKEN_INVALID | TOKEN_WORD, TOKEN_WORD
  | TOKEN_PIPE, TOKEN_PIPE | TOKEN_LIST, TOKEN_LIST
  | TOKEN_REDIRECT_OUTPUT, TOKEN_REDIRECT_OUTPUT
  | TOKEN_REDIRECT_OUTPUT_APPEND, TOKEN_REDIRECT_OUTPUT_APPEND
  | TOKEN_REDIRECT_INPUT, TOKEN_REDIRECT_INPUT
  | TOKEN_BACKGROUND, TOKEN_BACKGROUND
  | TOKEN_GROUP_START, TOKEN_GROUP_START
  | TOKEN_GROUP_END, TOKEN_GROUP_END => true
  | _, _ => false
  end.

(** A [char *] into the command line buffer; [None] is the null pointer. *)
Definition cptr := option nat.

Record Token := { tok_type : TokenType; tok_value : cptr }.

Inductive RedirectionType :=
| REDIRECT_INPUT
| REDIRECT_OUTPUT
| REDIRECT_APPEND
| REDIRECT_NONE.

Record Redirection := {
  source_fd : Z;
  dest_fd : Z;
  path : cptr;
  r_type : RedirectionType
}.

Inductive CommandType :=
| CMD_INVALID
| CMD_EMPTY
| CMD_SIMPLE
| CMD_PIPELINE
| CMD_LIST.

Definition CMD_SYNTAX_ERROR : Z := 0x01.
Definition CMD_TOO_MANY_ARGUMENTS : Z := 0x02.
Definition CMD_MISSING_REDIRECTION_DESTINATION : Z := 0x04.
Definition CMD_ARGUMENT_AFTER_REDIRECT : Z := 0x08.
Definition CMD_PIPELINE_TOO_LONG : Z := 0x0f.
Definition CMD_TOO_MANY_COMMANDS : Z := 0x10.
Definition CMD_UNKNOWN_TYPE : Z := 0x20.
Definition CMD_BACKGROUND_MODE : Z := 0x010000.

(** The union [cmd] of a [Command]: a pointer to one of the simple
    commands of [CommandData._simples], or to [CommandData._pipeline]. *)
Inductive CommandRef :=
| ref_null
| ref_simple (k : nat)
| ref_pipeline.

Record Command := {
  c_type : CommandType;
  c_flag : Z;
  c_cmd : CommandRef
}.

Record SimpleCommand := {
  s_type : CommandType;
  s_flag : Z;
  name : cptr;
  argc : nat;
  argv : list cptr;              (* char *argv[TSH_MAX_NUM_ARGUMENTS + 1] *)
  redirects : list Redirection   (* Redirection redirects[3] *)
}.

Record Pipeline := {
  p_type : CommandType;
  p_flag : Z;
  p_len : nat;
  commands : list Command        (* Command commands[TSH_MAX_PIPELINE_LENGTH] *)
}.

Record CommandData := {
  n_simples : nat;
  _simples : list SimpleCommand; (* SimpleCommand _simples[TSH_MAX_CMD_LIST_LENGTH] *)
  _pipeline : Pipeline;
  cmd : Command
}.

(** The diagnostics of [ErrorU], [ErrorS] and [Debug], in the order of the
    calls.  A message is given without the newline that some of the calls
    end it with. *)
Inductive diagnostic :=
| ErrorU (msg : string)
| ErrorS (msg : string)
| DebugMsg (msg : string).

(** Test of a flag of a bitset, as in [flag & CMD_X]. *)
Definition has_flag (flag bit : Z) : Prop := Z.land flag bit <> 0%Z.

(** ** Parser *)

Section Parser.

(** The limits that [user/tsh.h] defines; the header is not part of the
    sources at hand, so they are parameters. *)
Variable TSH_MAX_NUM_ARGUMENTS : nat.
Variable TSH_MAX_PIPELINE_LENGTH : nat.
Variable TSH_MAX_CMD_LIST_LENGTH : nat.

Definition is_type (ty : TokenType) (t : Token) : bool :=
  TokenType_eqb (tok_type t) ty.

(** [find_next_toke_with_type]: the number of tokens of [tokens, tail)
    before the first one of the type, the length of the range when there
    is none (the function then returns [tail]). *)
Fixpoint find_next_toke_with_type (token_type : TokenType) (tokens : list Token) : nat :=
  match tokens with
  | [] => 0
  | p :: tokens' =>
      if is_type token_type p then 0
      else S (find_next_toke_with_type token_type tokens')
  end.

(* field updates of the structures *)
Definition set_redirect (fd : nat) (ty : RedirectionType) (simple : SimpleCommand) : SimpleCommand :=
  {| s_type := s_type simple; s_flag := s_flag simple; name := name simple;
     argc := argc simple; argv := argv simple;
     redirects :=
       alter (fun r => {| source_fd := Z.of_nat fd; dest_fd := dest_fd r;
                          path := path r; r_type := ty |}) fd (redirects simple) |}.

Definition set_redirect_path (fd : nat) (v : cptr) (simple : SimpleCommand) : SimpleCommand :=
  {| s_type := s_type simple; s_flag := s_flag simple; name := name simple;
     argc := argc simple; argv := argv simple;
     redirects :=
       alter (fun r => {| source_fd := source_fd r; dest_fd := dest_fd r;
                          path := v; r_type := r_type r |}) fd (redirects simple) |}.

Definition or_flag (bit : Z) (simple : SimpleCommand) : SimpleCommand :=
  {| s_type := s_type simple; s_flag := Z.lor (s_flag simple) bit; name := name simple;
     argc := argc simple; argv := argv simple; redirects := redirects simple |}.

(** The loop [while (p < tail && p->type == TOKEN_WORD && i < TSH_MAX_NUM_ARGUMENTS)]:
    the final [i], the tokens from the final [p] on, and [argv]. *)
Fixpoint get_arguments (p : list Token) (i : nat) (av : list cptr)
  : nat * list Token * list cptr :=
  match p with
  | t :: p' =>
      if is_type TOKEN_WORD t && (i <? TSH_MAX_NUM_ARGUMENTS)%nat
      then get_arguments p' (S i) (<[i := tok_value t]> av)
      else (i, p, av)
  | [] => (i, p, av)
  end.

(** The redirection that a token starts: the slot and its type. *)
Definition redirect_of (ty : TokenType) : option (nat * RedirectionType) :=
  match ty with
  | TOKEN_REDIRECT_INPUT => Some (0%nat, REDIRECT_INPUT)
  | TOKEN_REDIRECT_OUTPUT => Some (1%nat, REDIRECT_OUTPUT)
  | TOKEN_REDIRECT_OUTPUT_APPEND => Some (1%nat, REDIRECT_APPEND)
  | _ => None
  end.

(** The loop [while (p < tail)] over the redirections.  The result is the
    simple command, the log, and the tokens from the final [p] on when the
    loop is left at its condition, [None] when the function returns from
    inside the loop. *)
Fixpoint get_redirections (p : list Token) (simple : SimpleCommand) (log : list diagnostic)
  : SimpleCommand * list diagnostic * option (list Token) :=
  match p with
  | [] => (simple, log, Some p)
  | t :: p1 =>
      match redirect_of (tok_type t) with
      | Some (fd, ty) =>
          let simple := set_redirect fd ty simple in
          match p1 with
          | q :: p2 =>
              if is_type TOKEN_WORD q
              then get_redirections p2 (set_redirect_path fd (tok_value q) simple) log
              else (or_flag CMD_MISSING_REDIRECTION_DESTINATION simple,
                    log ++ [ErrorU "Missing redirection destination"], None)
          | [] =>
              (or_flag CMD_MISSING_REDIRECTION_DESTINATION simple,
               log ++ [ErrorU "Missing redirection destination"], None)
          end
      | None =>
          if is_type TOKEN_BACKGROUND t
          then get_redirections p1 (or_flag CMD_BACKGROUND_MODE simple) log
          else get_redirections p1 (or_flag CMD_SYNTAX_ERROR simple)
                 (log ++ [ErrorU "Syntax error - unexpected token type"])
      end
  end.

Definition init_redirects : list Redirection :=
  map (fun i => {| source_fd := Z.of_nat i; dest_fd := (-1)%Z;
                   path := None; r_type := REDIRECT_NONE |}) [0%nat; 1%nat; 2%nat].

(** [ParseSimpleCommand(start, tail, simple)]: [toks] is the range
    [start, tail), [simple] the structure as it is found.  The value the
    function returns is the [s_flag] of the result. *)
Definition ParseSimpleCommand (toks : list Token) (simple : SimpleCommand)
  : SimpleCommand * list diagnostic :=
  (* simple->type = CMD_EMPTY; and the command path *)
  let '(ty, fl, nm) :=
    match toks with
    | p :: _ =>
        if is_type TOKEN_WORD p then (CMD_SIMPLE, 0%Z, tok_value p)
        else (CMD_EMPTY, s_flag simple, name simple)
    | [] => (CMD_EMPTY, s_flag simple, name simple)
    end in
  (* the arguments *)
  let '(i, p, av) := get_arguments toks 0 (argv simple) in
  let simple :=
    {| s_type := ty; s_flag := fl; name := nm; argc := i;
       argv := <[i := None]> av; redirects := redirects simple |} in
  if (TSH_MAX_NUM_ARGUMENTS <? i)%nat then
    (or_flag CMD_TOO_MANY_ARGUMENTS simple, [ErrorU "too many arguments"])
  else
    (* the redirections *)
    let simple :=
      {| s_type := s_type simple; s_flag := s_flag simple; name := name simple;
         argc := argc simple; argv := argv simple; redirects := init_redirects |} in
    match get_redirections p simple [] with
    | (simple, log, None) => (simple, log)
    | (simple, log, Some p) =>
        match p with
        | [] => (simple, log)
        | _ :: _ =>
            (or_flag (Z.lor CMD_ARGUMENT_AFTER_REDIRECT CMD_SYNTAX_ERROR) simple,
             log ++ [ErrorU "Syntax error - argument after redirection"])
        end
    end.

(** Bits of the flag that the redirection loop leaves alone. *)
Definition untouched_bit (n : Z) : Prop :=
  Z.testbit CMD_SYNTAX_ERROR n = false /\
  Z.testbit CMD_MISSING_REDIRECTION_DESTINATION n = false /\
  Z.testbit CMD_BACKGROUND_MODE n = false.

(** The slots of the redirections: slot [i] is for descriptor [i], no
    slot holds an open descriptor, and a slot of type [REDIRECT_NONE] has
    no path. *)
Definition slot_ok (i : nat) (r : Redirection) : Prop :=
  source_fd r = Z.of_nat i /\ (dest_fd r < 0)%Z /\
  (r_type r = REDIRECT_NONE -> path r = None).

Definition slots_ok (rs : list Redirection) : Prop :=
  length rs = 3 /\ forall i r, rs !! i = Some r -> slot_ok i r.

(** The simple command as the redirection loop finds it. *)
Definition before_redirections (toks : list Token) (simple : SimpleCommand) : SimpleCommand :=
  let word_first := match toks with p :: _ => is_type TOKEN_WORD p | [] => false end in
  {| s_type := if word_first then CMD_SIMPLE else CMD_EMPTY;
     s_flag := if word_first then 0%Z else s_flag simple;
     name := if word_first then match toks with p :: _ => tok_value p | [] => None end
             else name simple;
     argc := (get_arguments toks 0 (argv simple)).1.1;
     argv := <[(get_arguments toks 0 (argv simple)).1.1 := None]>
               (get_arguments toks 0 (argv simple)).2;
     redirects := init_redirects |}.

(** [n] tokens of type [TOKEN_WORD], with the values [f k], [f (k + 1)], ... *)
Definition word_tokens (f : nat -> cptr) (k n : nat) : list Token :=
  map (fun j => {| tok_type := TOKEN_WORD; tok_value := f j |}) (seq k n).

(** *** Pipelines *)

Definition with_pipeline (pl : Pipeline) (cd : CommandData) : CommandData :=
  {| n_simples := n_simples cd; _simples := _simples cd; _pipeline := pl; cmd := cmd cd |}.

Definition with_cmd (c : Command) (cd : CommandData) : CommandData :=
  {| n_simples := n_simples cd; _simples := _simples cd; _pipeline := _pipeline cd; cmd := c |}.

Definition or_p_flag (bit : Z) (pl : Pipeline) : Pipeline :=
  {| p_type := p_type pl; p_flag := Z.lor (p_flag pl) bit; p_len := p_len pl;
     commands := commands pl |}.

Definition or_c_flag (bits : Z) (c : Command) : Command :=
  {| c_type := c_type c; c_flag := Z.lor (c_flag c) bits; c_cmd := c_cmd c |}.

Definition init_pipeline (pipeline : Pipeline) : Pipeline :=
  {| p_type := CMD_PIPELINE; p_flag := 0; p_len := 0; commands := commands pipeline |}.

(** [set_command(command, type, concrete_command)]: [ref] is the pointer
    [concrete_command] and [flag] the flag of the structure it points to. *)
Definition set_command (command : Command) (type : CommandType) (ref : CommandRef) (flag : Z)
  : Command :=
  match type with
  | CMD_PIPELINE => {| c_type := CMD_PIPELINE; c_flag := flag; c_cmd := ref |}
  | CMD_SIMPLE => {| c_type := CMD_SIMPLE; c_flag := flag; c_cmd := ref |}
  | _ => {| c_type := CMD_INVALID; c_flag := CMD_UNKNOWN_TYPE; c_cmd := c_cmd command |}
  end.

Definition CommandType_eqb (a b : CommandType) : bool :=
  match a, b with
  | CMD_INVALID, CMD_INVALID | CMD_EMPTY, CMD_EMPTY | CMD_SIMPLE, CMD_SIMPLE
  | CMD_PIPELINE, CMD_PIPELINE | CMD_LIST, CMD_LIST => true
  | _, _ => false
  end.

(** The contents of an all-zero [SimpleCommand] and [Command]; they stand
    for a read outside the arrays of the model. *)
Definition zero_redirection : Redirection :=
  {| source_fd := 0; dest_fd := 0; path := None; r_type := REDIRECT_INPUT |}.

Definition zero_simple : SimpleCommand :=
  {| s_type := CMD_INVALID; s_flag := 0; name := None; argc := 0;
     argv := replicate (S TSH_MAX_NUM_ARGUMENTS) None;
     redirects := replicate 3 zero_redirection |}.

Definition zero_command : Command :=
  {| c_type := CMD_INVALID; c_flag := 0; c_cmd := ref_null |}.

(** [simple = &cmd_data->_simples[cmd_data->n_simples++];
    ParseSimpleCommand(prev, curr, simple);] *)
Definition parse_next_simple (toks : list Token) (cd : CommandData)
  : nat * SimpleCommand * list diagnostic * CommandData :=
  let k := n_simples cd in
  let '(simple, log) := ParseSimpleCommand toks (nth k (_simples cd) zero_simple) in
  (k, simple, log,
   {| n_simples := S k; _simples := <[k := simple]> (_simples cd);
      _pipeline := _pipeline cd; cmd := cmd cd |}).

(** [set_command(&(pipeline->commands[pipeline->len]), CMD_SIMPLE, simple);
    pipeline->len++;] *)
Definition push_command (k : nat) (simple : SimpleCommand) (pl : Pipeline) : Pipeline :=
  {| p_type := p_type pl; p_flag := p_flag pl; p_len := S (p_len pl);
     commands :=
       <[p_len pl := set_command (nth (p_len pl) (commands pl) zero_command)
                       CMD_SIMPLE (ref_simple k) (s_flag simple)]> (commands pl) |}.

(** The loop of [ParsePipeline].  At its head [curr = prev], and [prev] is
    the list of the tokens of [prev, tail).  An iteration that finds a pipe
    leaves fewer tokens, one that finds none leaves the loop; [fuel] bounds
    the number of iterations and is the length of the range (see
    [ParsePipeline_loop_fuel]). *)
Fixpoint ParsePipeline_loop (fuel : nat) (prev : list Token) (cd : CommandData)
  (log : list diagnostic) : list Token * CommandData * list diagnostic :=
  match fuel with
  | O => (prev, cd, log)
  | S fuel' =>
      if (0 <? length prev)%nat
         && (p_len (_pipeline cd) <? TSH_MAX_PIPELINE_LENGTH)%nat
         && (n_simples cd <? TSH_MAX_CMD_LIST_LENGTH)%nat
      then
        let n := find_next_toke_with_type TOKEN_PIPE prev in
        if (n <? length prev)%nat then
          let cd :=
            if (p_len (_pipeline cd) =? 0)%nat then
              let pipeline := init_pipeline (_pipeline cd) in
              let cd := with_pipeline pipeline cd in
              if negb (CommandType_eqb (c_type (cmd cd)) CMD_LIST)
              then with_cmd (set_command (cmd cd) CMD_PIPELINE ref_pipeline (p_flag pipeline)) cd
              else cd
            else cd in
          let '(k, simple, log', cd) := parse_next_simple (take n prev) cd in
          let cd := with_pipeline (push_command k simple (_pipeline cd)) cd in
          ParsePipeline_loop fuel' (drop (S n) prev) cd (log ++ log')
        else (prev, cd, log)
      else (prev, cd, log)
  end.

(** [ParsePipeline(head, tail, cmd_data)]: [toks] is the range
    [head, tail). *)
Definition ParsePipeline (toks : list Token) (cd : CommandData)
  : CommandData * list diagnostic :=
  let '(prev, cd, log) := ParsePipeline_loop (length toks) toks cd [] in
  if (TSH_MAX_CMD_LIST_LENGTH <=? n_simples cd)%nat then
    let pipeline := or_p_flag CMD_TOO_MANY_COMMANDS (_pipeline cd) in
    (with_cmd (or_c_flag (p_flag pipeline) (cmd cd)) (with_pipeline pipeline cd),
     log ++ [ErrorU "Too many commands"])
  else
    let '(k, simple, log', cd) := parse_next_simple prev cd in
    let log := log ++ log' in
    let cd :=
      if (p_len (_pipeline cd) =? 0)%nat
      then with_cmd (set_command (cmd cd) CMD_SIMPLE (ref_simple k) (s_flag simple)) cd
      else cd in
    if (TSH_MAX_PIPELINE_LENGTH <=? p_len (_pipeline cd))%nat then
      let pipeline := or_p_flag CMD_PIPELINE_TOO_LONG (_pipeline cd) in
      (with_cmd (or_c_flag (p_flag pipeline) (cmd cd)) (with_pipeline pipeline cd),
       log ++ [ErrorU "Pipeline too long"])
    else if (0 <? p_len (_pipeline cd))%nat then
      (with_pipeline (push_command k simple (_pipeline cd)) cd, log)
    else (cd, log).

Definition ParseCommand (toks : list Token) (cd : CommandData)
  : CommandData * list diagnostic :=
  ParsePipeline toks cd.

End Parser.

(** The diagnostics of the parser before the test of the length of the
    pipeline. *)
Definition not_too_long (d : diagnostic) : Prop := d <> ErrorU "Pipeline too long".

(** ** Line buffer *)

Record BufferedLine := {
  len : nat;
  buffer : list ascii           (* char buffer[TSH_MAX_CMD_LINE_LENGTH] *)
}.

Definition NUL : ascii := "000"%char.
Definition newline : ascii := "010"%char.

(** [buf[k]] as the code reads it.  The one index past the array that the
    code reads is that of the terminator, which [ReadLine] stores at
    [buffer[len]] also when [len] is the size of the array; [Tokenize]
    reads that zero byte there.  The byte is not one of the array: it is
    padding or the first byte of [tokens.len], which [tl->len = idx]
    changes at the end of [Tokenize].  What the model says of a buffer
    after [Tokenize] is what the program does when the buffer is
    [terminated], that is, when the line is shorter than the buffer. *)
Definition rd (buf : list ascii) (k : nat) : ascii := nth k buf NUL.

Section LineBuffer.

(** [sizeof(line->buffer)], the limit [TSH_MAX_CMD_LINE_LENGTH] of
    [user/tsh.h]. *)
Variable TSH_MAX_CMD_LINE_LENGTH : nat.

(** Whether [char] is a signed type on the target: [c == EOF] compares a
    [char] with [-1], which only a signed [char] of value [0xff] equals. *)
Variable char_is_signed : bool.

Definition is_EOF (c : ascii) : bool :=
  char_is_signed && Ascii.eqb c "255"%char.

(** The bytes that do not end a line. *)
Definition in_line (c : ascii) : Prop :=
  (Ascii.eqb c newline || is_EOF c) = false.

(** The loop of [ReadLine].  [input] is what [read(0, &c, 1)] delivers, one
    byte for each call, and nothing (a result other than 1) once it is
    used up; [p] is the offset of the pointer [p] in the buffer.  The
    result is [nleft], the buffer and the input that is left. *)
Fixpoint ReadLine_loop (nleft : nat) (input : list ascii) (p : nat) (buf : list ascii)
  : nat * list ascii * list ascii :=
  match nleft with
  | O => (nleft, buf, input)
  | S nleft' =>
      match input with
      | [] => (nleft, buf, input)
      | c :: input' =>
          if Ascii.eqb c newline || is_EOF c then (nleft, buf, input')
          else ReadLine_loop nleft' input' (S p) (<[p := c]> buf)
      end
  end.

(** The result of [ReadLine]: the line, the value returned, the index at
    which the terminating zero is stored ([line->buffer[line->len] = 0]),
    and the input that is left.  A store at an index that is not below the
    size of the array is outside it; the buffer of the model is the array
    and is unchanged by such a store. *)
Record ReadLine_result := {
  rl_line : BufferedLine;
  rl_ret : nat;
  rl_terminator_index : nat;
  rl_input : list ascii
}.

Definition ReadLine (line : BufferedLine) (input : list ascii) : ReadLine_result :=
  let '(nleft, buf, input') :=
    ReadLine_loop TSH_MAX_CMD_LINE_LENGTH input 0 (buffer line) in
  let n := (TSH_MAX_CMD_LINE_LENGTH - nleft)%nat in
  {| rl_line := {| len := n; buffer := <[n := NUL]> buf |};
     rl_ret := n;
     rl_terminator_index := n;
     rl_input := input' |}.

Definition ClearLine (line : BufferedLine) : BufferedLine :=
  {| len := 0; buffer := replicate TSH_MAX_CMD_LINE_LENGTH NUL |}.

End LineBuffer.

(** ** Lexer *)

Record TokenList := {
  tl_len : nat;
  tl_tokens : list Token        (* Token tokens[TSH_MAX_NUM_TOKENS] *)
}.

Definition whitespace : list ascii :=
  [" "; "009"; "013"; "010"; "011"]%char.           (* " \t\r\n\v" *)
Definition symbols : list ascii :=
  ["<"; "|"; ">"; "&"; ";"]%char.

(** The characters of the two classes, for a character that is not zero. *)
Definition is_ws (c : ascii) : bool := existsb (Ascii.eqb c) whitespace.
Definition is_sym (c : ascii) : bool := existsb (Ascii.eqb c) symbols.

Section Lexer.

(** [sizeof(tl->tokens)], the bound on [idx] in the loop of [Tokenize]. *)
Variable sizeof_tokens : nat.

(** Whether [strchr(s, 0)] finds the terminator of [s] (the C library
    does, the [strchr] of a teaching kernel's [ulib.c] does not).
    [user/user.h] is not part of the sources at hand. *)
Variable strchr_finds_nul : bool.

(** [strchr(s, c) != 0] *)
Definition strchr (s : list ascii) (c : ascii) : bool :=
  if Ascii.eqb c NUL then strchr_finds_nul else existsb (Ascii.eqb c) s.

(** [strlen(buf)]: the index of the first zero byte. *)
Fixpoint strlen (buf : list ascii) : nat :=
  match buf with
  | [] => 0
  | c :: buf' => if Ascii.eqb c NUL then 0 else S (strlen buf')
  end.

(** [while (p < tail && f( *p )) p++;] with [n = tail - p]. *)
Fixpoint scan (f : ascii -> bool) (buf : list ascii) (p n : nat) : nat :=
  match n with
  | O => p
  | S n' => if f (rd buf p) then scan f buf (S p) n' else p
  end.

(** The [switch] on a symbol. *)
Definition symbol_type (c : ascii) : TokenType :=
  if Ascii.eqb c "<" then TOKEN_REDIRECT_INPUT
  else if Ascii.eqb c ">" then TOKEN_REDIRECT_OUTPUT
  else if Ascii.eqb c "|" then TOKEN_PIPE
  else if Ascii.eqb c "&" then TOKEN_BACKGROUND
  else if Ascii.eqb c ";" then TOKEN_LIST
  else TOKEN_INVALID.

Definition mk_token (ty : TokenType) (p : nat) : Token :=
  {| tok_type := ty; tok_value := Some p |}.

(** The loop of [Tokenize].  [toks] are the tokens stored so far, at the
    indices [0 .. idx - 1] of [tl->tokens], so that [idx] is their number
    (the code does not compare [idx] with the number of elements of the
    array, only with its size in bytes).  A token stored at an index from
    [TSH_MAX_NUM_TOKENS] on is outside the array: the program writes it
    over [cmd], [name] and [_cmd_data], which follow [tokens] in
    [ShellState], while the list of the model keeps it.  The types and
    the values of the tokens are those the program computes; what it has
    in memory afterwards is the list only when there are no more tokens
    than elements ([line_fits]).  Every iteration but the last
    moves [p] forward; [fuel] bounds the number of iterations (see
    [Tokenize_loop_fuel]). *)
Fixpoint Tokenize_loop (fuel : nat) (tail p : nat) (buf : list ascii) (toks : list Token)
  : list ascii * list Token :=
  match fuel with
  | O => (buf, toks)
  | S fuel' =>
      if (p <? tail)%nat && (length toks <? sizeof_tokens)%nat then
        (* skip leading whitespace *)
        let p := scan (strchr whitespace) buf p (tail - p) in
        if (p =? tail)%nat then (buf, toks)
        else
          let next_char := rd buf p in
          let '(p, next_char, buf, toks) :=
            if negb (strchr symbols next_char) then
              (* a word token *)
              let toks := toks ++ [mk_token TOKEN_WORD p] in
              let p :=
                scan (fun c => negb (strchr whitespace c) && negb (strchr symbols c))
                  buf p (tail - p) in
              (p, rd buf p, <[p := NUL]> buf, toks)
            else (p, next_char, buf, toks) in
          if strchr whitespace next_char then
            Tokenize_loop fuel' tail (S p) buf toks
          else if strchr symbols next_char then
            if Ascii.eqb next_char ">" && Ascii.eqb (rd buf (S p)) ">" then
              Tokenize_loop fuel' tail (p + 2) buf
                (toks ++ [mk_token TOKEN_REDIRECT_OUTPUT_APPEND p])
            else
              Tokenize_loop fuel' tail (S p) buf
                (toks ++ [mk_token (symbol_type next_char) p])
          else Tokenize_loop fuel' tail p buf toks
      else (buf, toks)
  end.

(** [Tokenize(line, tl)]: the line with the zero bytes written at the ends
    of the words, and the token list. *)
Definition Tokenize (line : BufferedLine) : BufferedLine * TokenList :=
  let tail := strlen (buffer line) in
  let '(buf, toks) := Tokenize_loop tail tail 0 (buffer line) [] in
  ({| len := len line; buffer := buf |},
   {| tl_len := length toks; tl_tokens := toks |}).

(** The kinds of the tokens of a list. *)
Definition token_types (tl : TokenList) : list TokenType :=
  map tok_type (take (tl_len tl) (tl_tokens tl)).

(** The lexer as the specification words it, on the characters of a line:
    whitespace separates, a word is a maximal run of characters that are
    neither whitespace nor symbols, [>>] is one [TOKEN_REDIRECT_OUTPUT_APPEND],
    a [>] that no [>] follows is one [TOKEN_REDIRECT_OUTPUT], and every
    other symbol is one token of its own.  [in_word] tells that the
    character before belongs to a word. *)
Fixpoint lex_spec (in_word : bool) (s : list ascii) : list TokenType :=
  match s with
  | [] => []
  | c :: s' =>
      if existsb (Ascii.eqb c) whitespace then lex_spec false s'
      else if Ascii.eqb c ">" then
        match s' with
        | c' :: s'' =>
            if Ascii.eqb c' ">"
            then TOKEN_REDIRECT_OUTPUT_APPEND :: lex_spec false s''
            else TOKEN_REDIRECT_OUTPUT :: lex_spec false s'
        | [] => TOKEN_REDIRECT_OUTPUT :: lex_spec false s'
        end
      else if existsb (Ascii.eqb c) symbols then symbol_type c :: lex_spec false s'
      else if in_word then lex_spec true s'
      else TOKEN_WORD :: lex_spec true s'
  end.

End Lexer.

(** ** Shell state *)

Record ShellState := {
  should_run : Z;
  last_exit_status : Z;
  cmdline : BufferedLine;
  tokens : TokenList;
  _cmd_data : CommandData       (* [shell->cmd] is [&_cmd_data.cmd] throughout *)
}.

Definition YES : Z := 1.
Definition NO : Z := 0.
Definition DEFAULT_HOME_DIR : list ascii := ["/"%char].

(** The string at [&mem[k]]: the bytes up to the first zero byte.  [mem] is
    the array of the line; where no zero byte follows inside the array, the
    string of the program runs on into the bytes behind it, and [cstr],
    which ends at the end of the array, is not that string.  The two are
    the same at every [k] up to the terminator of a [terminated] buffer. *)
Definition cstr (mem : list ascii) (k : nat) : list ascii :=
  take (strlen (drop k mem)) (drop k mem).

(** The strings of an argument vector, which ends at its first null
    pointer. *)
Fixpoint load_argv (mem : list ascii) (av : list cptr) : list (list ascii) :=
  match av with
  | Some k :: av' => cstr mem k :: load_argv mem av'
  | _ => []
  end.

(** ** The host system *)

(** What a file descriptor refers to. *)
Inductive file :=
| inherited (n : nat)                       (* open when the shell starts *)
| pipe_read (id : nat)
| pipe_write (id : nat)
| opened (path : list ascii) (flags : Z).

(** The system calls and diagnostics of one process, with their results. *)
Inductive event :=
| ev_fork (ret : Z)
| ev_pipe (ret : Z)
| ev_close (fd : Z) (ret : Z)
| ev_dup (fd : Z) (ret : Z)
| ev_open (path : list ascii) (flags : Z) (ret : Z)
| ev_exec (path : list ascii) (args : list (list ascii))
| ev_exit (status : Z)
| ev_wait (status : Z)
| ev_chdir (path : list ascii) (ret : Z)
| ev_diag (d : diagnostic).

(** The state of the system as one process sees it: its table of open
    files, what it has done so far, and how many times it has called
    [fork], [wait] and [pipe]. *)
Record world := {
  ofile : list (option file);
  trace : list event;
  forks : nat;
  waits : nat;
  pipes : nat
}.

(** The outcome of running code of the shell in a process. *)
Inductive outcome (A : Type) :=
| Ret (a : A) (w : world)       (* the code returns [a] *)
| Stop (w : world)              (* the process is over: [exit], or [exec] replaced its image *)
| Undef (w : world).            (* the code uses a null pointer, or one of the wrong type *)
Arguments Ret {A} a w.
Arguments Stop {A} w.
Arguments Undef {A} w.

Definition M (A : Type) : Type := world -> outcome A.

Definition ret {A} (a : A) : M A := fun w => Ret a w.

Definition bind {A B} (m : M A) (k : A -> M B) : M B :=
  fun w =>
    match m w with
    | Ret a w' => k a w'
    | Stop w' => Stop w'
    | Undef w' => Undef w'
    end.

Notation "x <- m ;; k" := (bind m (fun x => k))
  (at level 100, m at next level, right associativity).
Notation "m ;;; k" := (bind m (fun _ => k))
  (at level 100, right associativity).

Definition undef {A} : M A := fun w => Undef w.

Definition record (e : event) (w : world) : world :=
  {| ofile := ofile w; trace := trace w ++ [e]; forks := forks w;
     waits := waits w; pipes := pipes w |}.

Definition with_ofile (t : list (option file)) (w : world) : world :=
  {| ofile := t; trace := trace w; forks := forks w; waits := waits w; pipes := pipes w |}.

(** The file that a descriptor refers to. *)
Definition fd_file (t : list (option file)) (fd : Z) : option file :=
  if (fd <? 0)%Z then None
  else match t !! Z.to_nat fd with
       | Some (Some f) => Some f
       | _ => None
       end.

(** The lowest free descriptor. *)
Fixpoint fdalloc (t : list (option file)) : option nat :=
  match t with
  | [] => None
  | None :: _ => Some 0%nat
  | Some _ :: t' => S <$> fdalloc t'
  end.

Section System.

(** Modelled from the spec: the capabilities of the host system (section
    6), whose code is not part of the sources at hand.  [fork] returns 0
    in the child, the child's pid in the parent and a negative value when
    it fails; a process is followed through the values that its calls of
    [fork] return.  [dup], [open] and [pipe] take the lowest free
    descriptors.  [exec] returns only when it fails.  What the system
    answers is given by the functions below. *)
Variable fork_result : nat -> Z.        (* the value of the k-th [fork] of the process *)
Variable wait_status : nat -> Z.        (* the status that its k-th [wait] stores *)
Variable can_open : list ascii -> Z -> bool.
Variable exec_ok : list ascii -> list (list ascii) -> bool.
Variable chdir_ok : list ascii -> bool.

(** The flags of [kernel/fcntl.h], which is not part of the sources at hand. *)
Variable O_RDONLY O_WRONLY O_CREATE : Z.

(** [atoi] of [user/ulib.c], which is not part of the sources at hand. *)
Variable atoi : list ascii -> Z.

Definition sys_fork : M Z := fun w =>
  let r := fork_result (forks w) in
  Ret r {| ofile := ofile w; trace := trace w ++ [ev_fork r]; forks := S (forks w);
           waits := waits w; pipes := pipes w |}.

Definition sys_wait : M Z := fun w =>
  let st := wait_status (waits w) in
  Ret st {| ofile := ofile w; trace := trace w ++ [ev_wait st]; forks := forks w;
            waits := S (waits w); pipes := pipes w |}.

Definition sys_close (fd : Z) : M Z := fun w =>
  match fd_file (ofile w) fd with
  | Some _ => Ret 0%Z (record (ev_close fd 0) (with_ofile (<[Z.to_nat fd := None]> (ofile w)) w))
  | None => Ret (-1)%Z (record (ev_close fd (-1)) w)
  end.

Definition sys_dup (fd : Z) : M Z := fun w =>
  match fd_file (ofile w) fd with
  | Some f =>
      match fdalloc (ofile w) with
      | Some k => Ret (Z.of_nat k)
                    (record (ev_dup fd (Z.of_nat k)) (with_ofile (<[k := Some f]> (ofile w)) w))
      | None => Ret (-1)%Z (record (ev_dup fd (-1)) w)
      end
  | None => Ret (-1)%Z (record (ev_dup fd (-1)) w)
  end.

Definition sys_open (path : list ascii) (flags : Z) : M Z := fun w =>
  match (if can_open path flags then fdalloc (ofile w) else None) with
  | Some k => Ret (Z.of_nat k)
                (record (ev_open path flags (Z.of_nat k))
                   (with_ofile (<[k := Some (opened path flags)]> (ofile w)) w))
  | None => Ret (-1)%Z (record (ev_open path flags (-1)) w)
  end.

(** [pipe(pipeFD)]: the value returned and the contents of the array
    after the call; a call that fails leaves the array as it was. *)
Definition sys_pipe (pipeFD : Z * Z) : M (Z * (Z * Z)) := fun w =>
  let id := pipes w in
  match fdalloc (ofile w) with
  | Some r =>
      let t := <[r := Some (pipe_read id)]> (ofile w) in
      match fdalloc t with
      | Some wr =>
          Ret (0%Z, (Z.of_nat r, Z.of_nat wr))
            {| ofile := <[wr := Some (pipe_write id)]> t;
               trace := trace w ++ [ev_pipe 0]; forks := forks w; waits := waits w;
               pipes := S id |}
      | None => Ret ((-1)%Z, pipeFD) (record (ev_pipe (-1)) w)
      end
  | None => Ret ((-1)%Z, pipeFD) (record (ev_pipe (-1)) w)
  end.

Definition sys_exec (path : list ascii) (args : list (list ascii)) : M Z := fun w =>
  if exec_ok path args then Stop (record (ev_exec path args) w)
  else Ret (-1)%Z (record (ev_exec path args) w).

Definition sys_exit {A} (status : Z) : M A := fun w =>
  Stop (record (ev_exit status) w).

Definition sys_chdir (path : list ascii) : M Z := fun w =>
  let r := if chdir_ok path then 0%Z else (-1)%Z in
  Ret r (record (ev_chdir path r) w).

Definition diag (d : diagnostic) : M unit := fun w => Ret tt (record (ev_diag d) w).

(** ** Executor *)

(** The command line buffer, into which the pointers of the command tree
    point. *)
Variable mem : list ascii.

(** The string that a [char *] denotes, for a call that reads it. *)
Definition load_str (p : cptr) : M (list ascii) :=
  match p with
  | Some k => ret (cstr mem k)
  | None => undef
  end.

Definition RedirectionType_eqb (a b : RedirectionType) : bool :=
  match a, b with
  | REDIRECT_INPUT, REDIRECT_INPUT | REDIRECT_OUTPUT, REDIRECT_OUTPUT
  | REDIRECT_APPEND, REDIRECT_APPEND | REDIRECT_NONE, REDIRECT_NONE => true
  | _, _ => false
  end.

(** [command->redirects[i]] *)
Definition redirect (command : SimpleCommand) (i : nat) : Redirection :=
  nth i (redirects command) zero_redirection.

(** [close(to); dup(fd); close(fd);] *)
Definition move_fd (fd to : Z) : M unit :=
  sys_close to ;;; sys_dup fd ;;; sys_close fd ;;; ret tt.

(** The loop [for (redirectCounter = 0; redirectCounter < 3; redirectCounter++)]
    of a stage of a pipeline, over the slots [rs], for the redirections of
    type [ty]: the descriptor [fdIn] or [fdOut] that it leaves. *)
Fixpoint stage_redirect (ty : RedirectionType) (flags : Z) (rs : list Redirection) (fd : Z)
  : M Z :=
  match rs with
  | [] => ret fd
  | r :: rs' =>
      if RedirectionType_eqb (r_type r) ty then
        if (0 <=? dest_fd r)%Z then stage_redirect ty flags rs' (dest_fd r)
        else
          path <- load_str (path r) ;;
          fd' <- sys_open path flags ;;
          stage_redirect ty flags rs' fd'
      else stage_redirect ty flags rs' fd
  end.

Definition slots (command : SimpleCommand) : list Redirection :=
  map (redirect command) [0%nat; 1%nat; 2%nat].

(** What the child of stage [x] does before [exec]. *)
Definition stage_setup (numCommands x : nat) (pipeFD : Z * Z) (command : SimpleCommand)
  : M unit :=
  if (x =? 0)%nat then
    sys_close 1 ;;; sys_dup (snd pipeFD) ;;;
    sys_close (fst pipeFD) ;;; sys_close (snd pipeFD) ;;;
    fdIn <- stage_redirect REDIRECT_INPUT O_RDONLY (slots command) (-1) ;;
    if (0 <=? fdIn)%Z then move_fd fdIn 0 else ret tt
  else if (Z.of_nat x =? Z.of_nat numCommands - 1)%Z then
    sys_close 0 ;;; sys_dup (fst pipeFD) ;;;
    sys_close (fst pipeFD) ;;; sys_close (snd pipeFD) ;;;
    fdOut <- stage_redirect REDIRECT_OUTPUT (Z.lor O_WRONLY O_CREATE) (slots command) (-1) ;;
    if (0 <=? fdOut)%Z then move_fd fdOut 1 else ret tt
  else
    sys_close 1 ;;; sys_dup (fst pipeFD) ;;;
    sys_close 0 ;;; sys_dup (snd pipeFD) ;;;
    sys_close (fst pipeFD) ;;; sys_close (snd pipeFD) ;;; ret tt.

(** [exec(command->name, command->argv)] *)
Definition exec_command (command : SimpleCommand) : M Z :=
  path <- load_str (name command) ;;
  sys_exec path (load_argv mem (argv command)).

(** The loop [for (x = 0; x < numCommands; x++)] of [runPipelineCommnad],
    with [n = numCommands - x].  [simples] is the array that the pointers
    [pipeline->commands[x].cmd.simple] point into.  A child whose [exec]
    returns goes on with the loop. *)
Fixpoint pipeline_loop (simples : list SimpleCommand) (pipeline : Pipeline)
  (numCommands : nat) (pipeFD : Z * Z) (n x : nat) : M unit :=
  match n with
  | O => ret tt
  | S n' =>
      pid <- sys_fork ;;
      (if (pid =? 0)%Z then
         match c_cmd (nth x (commands pipeline) zero_command) with
         | ref_simple k =>
             match simples !! k with
             | Some command =>
                 stage_setup numCommands x pipeFD command ;;;
                 exec_command command ;;; ret tt
             | None => undef
             end
         | _ => undef
         end
       else ret tt) ;;;
      pipeline_loop simples pipeline numCommands pipeFD n' (S x)
  end.

(** The loop [for (x = 0; x < pipeline->len; x++) wait(0);] *)
Fixpoint wait_loop (n : nat) : M unit :=
  match n with
  | O => ret tt
  | S n' => sys_wait ;;; wait_loop n'
  end.

(** [runPipelineCommnad(pipeline)].  [pipeFD0] is what the array
    [pipeFD], which the code does not initialise, holds before [pipe]. *)
Definition runPipelineCommnad (simples : list SimpleCommand) (pipeFD0 : Z * Z)
  (pipeline : Pipeline) : M Z :=
  let numCommands := p_len pipeline in
  r <- sys_pipe pipeFD0 ;;
  let pipeFD := snd r in
  pipeline_loop simples pipeline numCommands pipeFD numCommands 0 ;;;
  sys_close (fst pipeFD) ;;;
  sys_close (snd pipeFD) ;;;
  wait_loop (p_len pipeline) ;;;
  ret 0%Z.

(** [runSimpleCommand(cmd)] *)
Definition runSimpleCommand (cmd : SimpleCommand) : M Z :=
  pid <- sys_fork ;;
  if (pid =? 0)%Z then
    if CommandType_eqb (s_type cmd) CMD_EMPTY then sys_exit 0
    else if CommandType_eqb (s_type cmd) CMD_INVALID then
      diag (ErrorU "Invalid command") ;;; sys_exit 1
    else
      (if RedirectionType_eqb (r_type (redirect cmd 0)) REDIRECT_INPUT then
         path <- load_str (path (redirect cmd 0)) ;;
         fd <- sys_open path O_RDONLY ;;
         if (fd <? 0)%Z then diag (ErrorS "Cannot open file descriptor") ;;; sys_exit 1
         else move_fd fd 0
       else ret tt) ;;;
      (if RedirectionType_eqb (r_type (redirect cmd 1)) REDIRECT_OUTPUT then
         path <- load_str (path (redirect cmd 1)) ;;
         fd <- sys_open path (Z.lor O_WRONLY O_CREATE) ;;
         if (fd <? 0)%Z then diag (ErrorS "Cannot open file descriptor") ;;; sys_exit 1
         else if negb (fd =? 1)%Z then move_fd fd 1
         else ret tt
       else ret tt) ;;;
      exec_command cmd ;;;
      diag (ErrorU "Command not found!") ;;;
      sys_exit 1
  else if (0 <? pid)%Z then
    status <- sys_wait ;;
    ret status
  else
    diag (ErrorS "Fork failed") ;;;
    ret (-1)%Z.

Definition set_should_run (v : Z) (shell : ShellState) : ShellState :=
  {| should_run := v; last_exit_status := last_exit_status shell;
     cmdline := cmdline shell; tokens := tokens shell; _cmd_data := _cmd_data shell |}.

Definition set_last_exit_status (v : Z) (shell : ShellState) : ShellState :=
  {| should_run := should_run shell; last_exit_status := v;
     cmdline := cmdline shell; tokens := tokens shell; _cmd_data := _cmd_data shell |}.

(** [cmd->argv[1]], read as a string. *)
Definition load_arg1 (cmd : SimpleCommand) : M (list ascii) :=
  match argv cmd !! 1%nat with
  | Some p => load_str p
  | None => undef
  end.

(** [strcmp(a, b) == 0] for a string [a] read from the buffer and a
    literal [b]. *)
Fixpoint bytes_eqb (a b : list ascii) : bool :=
  match a, b with
  | [], [] => true
  | c :: a', d :: b' => Ascii.eqb c d && bytes_eqb a' b'
  | _, _ => false
  end.

Definition strcmp_eq (a : list ascii) (b : string) : bool :=
  bytes_eqb a (list_ascii_of_string b).

(** [RunCommand(shell)]: the value returned and the shell state. *)
Definition RunCommand (pipeFD0 : Z * Z) (shell : ShellState) : M (Z * ShellState) :=
  let command := cmd (_cmd_data shell) in
  match c_type command with
  | CMD_EMPTY => ret (1%Z, shell)
  | CMD_INVALID => diag (ErrorU "invalid command") ;;; ret ((-1)%Z, shell)
  | CMD_SIMPLE =>
      match c_cmd command with
      | ref_simple k =>
          match _simples (_cmd_data shell) !! k with
          | Some cmd =>
              nm <- load_str (name cmd) ;;
              if strcmp_eq nm "quit" then
                let shell := set_should_run NO shell in
                if (1 <? argc cmd)%nat then
                  a <- load_arg1 cmd ;;
                  ret (0%Z, set_last_exit_status (atoi a) shell)
                else ret (0%Z, shell)
              else if strcmp_eq nm "exit" then
                if (1 <? argc cmd)%nat then
                  a <- load_arg1 cmd ;;
                  sys_exit (atoi a)
                else sys_exit 0
              else if strcmp_eq nm "cd" then
                let dir := if (1 <? argc cmd)%nat
                           then match argv cmd !! 1%nat with Some p => p | None => None end
                           else None in
                let dir := match dir with
                           | Some k => cstr mem k
                           | None => DEFAULT_HOME_DIR
                           end in
                r <- sys_chdir dir ;;
                (if (r <? 0)%Z
                 then diag (ErrorU "Directory does not exist or cannot be found!")
                 else ret tt) ;;;
                ret (0%Z, shell)
              else
                runSimpleCommand cmd ;;;
                ret (0%Z, shell)
          | None => undef
          end
      | _ => undef
      end
  | CMD_PIPELINE =>
      match c_cmd command with
      | ref_pipeline =>
          runPipelineCommnad (_simples (_cmd_data shell)) pipeFD0
            (_pipeline (_cmd_data shell)) ;;;
          ret (0%Z, shell)
      | _ => undef
      end
  | CMD_LIST => ret (0%Z, shell)
  end.

(** The commands that [RunCommand] hands to [runSimpleCommand]. *)
Definition external (shell : ShellState) (simple : SimpleCommand) : Prop :=
  c_type (cmd (_cmd_data shell)) = CMD_SIMPLE /\
  (exists k, c_cmd (cmd (_cmd_data shell)) = ref_simple k /\
             _simples (_cmd_data shell) !! k = Some simple) /\
  (exists n, name simple = Some n /\
             strcmp_eq (cstr mem n) "quit" = false /\
             strcmp_eq (cstr mem n) "exit" = false /\
             strcmp_eq (cstr mem n) "cd" = false).

End System.

(** ** Driver *)

Section Driver.

Variable TSH_MAX_CMD_LINE_LENGTH : nat.
Variable char_is_signed : bool.
Variable sizeof_tokens : nat.
Variable strchr_finds_nul : bool.
Variable TSH_MAX_NUM_ARGUMENTS : nat.
Variable TSH_MAX_PIPELINE_LENGTH : nat.
Variable TSH_MAX_CMD_LIST_LENGTH : nat.

(** The result of [GetCommand]: the value returned, the shell state, the
    input that is left and the diagnostics of the parser.  (The prompt
    that the function writes first is not part of the model.)  The
    parser is given the tokens of the list, and the command it builds is
    the one of the program for a line that [line_fits]: shorter than the
    buffer, with no more tokens than [tokens] has elements.  On a longer
    line the program parses what the stores outside the arrays have left
    in its memory. *)
Record GetCommand_result := {
  gc_ret : Z;
  gc_shell : ShellState;
  gc_input : list ascii;
  gc_log : list diagnostic
}.

Definition GetCommand (shell : ShellState) (input : list ascii) : GetCommand_result :=
  let r := ReadLine TSH_MAX_CMD_LINE_LENGTH char_is_signed
             (ClearLine TSH_MAX_CMD_LINE_LENGTH (cmdline shell)) input in
  let ret := Z.of_nat (rl_ret r) in
  if (0 <? ret)%Z then
    let '(line, tl) := Tokenize sizeof_tokens strchr_finds_nul (rl_line r) in
    let cd := _cmd_data shell in
    let pl := _pipeline cd in
    let cd :=
      {| n_simples := 0; _simples := _simples cd;
         _pipeline := {| p_type := p_type pl; p_flag := p_flag pl; p_len := 0;
                         commands := commands pl |};
         cmd := cmd cd |} in
    let '(cd, log) :=
      ParseCommand TSH_MAX_NUM_ARGUMENTS TSH_MAX_PIPELINE_LENGTH TSH_MAX_CMD_LIST_LENGTH
        (take (tl_len tl) (tl_tokens tl)) cd in
    {| gc_ret := ret;
       gc_shell := {| should_run := should_run shell;
                      last_exit_status := last_exit_status shell;
                      cmdline := line; tokens := tl; _cmd_data := cd |};
       gc_input := rl_input r;
       gc_log := log |}
  else
    {| gc_ret := ret;
       gc_shell := {| should_run := NO; last_exit_status := ret;
                      cmdline := rl_line r; tokens := tokens shell;
                      _cmd_data := _cmd_data shell |};
       gc_input := rl_input r;
       gc_log := [] |}.

(** The shell as [main] finds it: the global [this_shell] is all zero but
    for [should_run]. *)
Definition this_shell : ShellState :=
  {| should_run := 1; last_exit_status := 0;
     cmdline := {| len := 0; buffer := replicate TSH_MAX_CMD_LINE_LENGTH NUL |};
     tokens := {| tl_len := 0; tl_tokens := [] |};
     _cmd_data :=
       {| n_simples := 0;
          _simples := replicate TSH_MAX_CMD_LIST_LENGTH (zero_simple TSH_MAX_NUM_ARGUMENTS);
          _pipeline := {| p_type := CMD_INVALID; p_flag := 0; p_len := 0;
                          commands := replicate TSH_MAX_PIPELINE_LENGTH zero_command |};
          cmd := zero_command |} |}.

End Driver.

(** ** The main loop *)

Section Main.

Variable TSH_MAX_CMD_LINE_LENGTH : nat.
Variable char_is_signed : bool.
Variable sizeof_tokens : nat.
Variable strchr_finds_nul : bool.
Variable TSH_MAX_NUM_ARGUMENTS : nat.
Variable TSH_MAX_PIPELINE_LENGTH : nat.
Variable TSH_MAX_CMD_LIST_LENGTH : nat.
Variable fork_result : nat -> Z.
Variable wait_status : nat -> Z.
Variable can_open : list ascii -> Z -> bool.
Variable exec_ok : list ascii -> list (list ascii) -> bool.
Variable chdir_ok : list ascii -> bool.
Variable O_RDONLY O_WRONLY O_CREATE : Z.
Variable atoi : list ascii -> Z.

(** What the array [pipeFD] of [runPipelineCommnad] holds before [pipe]. *)
Variable pipeFD0 : Z * Z.

(** The diagnostics that the parser prints during [GetCommand]. *)
Fixpoint diags (log : list diagnostic) : M unit :=
  match log with
  | [] => ret tt
  | d :: log' => diag d ;;; diags log'
  end.

(** The loop [while (this_shell.should_run)] of [main].  [input] is what
    the process reads from its standard input; the pointers of the
    command point into the buffer of the line.  [fuel] bounds the number
    of iterations, and the result is [None] when it is used up (see
    [main_loop_fuel]). *)
Fixpoint main_loop (fuel : nat) (shell : ShellState) (input : list ascii)
  : M (option (ShellState * list ascii)) :=
  match fuel with
  | O => ret None
  | S fuel' =>
      if (should_run shell =? 0)%Z then ret (Some (shell, input))
      else
        let g := GetCommand TSH_MAX_CMD_LINE_LENGTH char_is_signed sizeof_tokens
                   strchr_finds_nul TSH_MAX_NUM_ARGUMENTS TSH_MAX_PIPELINE_LENGTH
                   TSH_MAX_CMD_LIST_LENGTH shell input in
        diags (gc_log g) ;;;
        if (0 <? gc_ret g)%Z then
          r <- RunCommand fork_result wait_status can_open exec_ok chdir_ok
                 O_RDONLY O_WRONLY O_CREATE atoi (buffer (cmdline (gc_shell g)))
                 pipeFD0 (gc_shell g) ;;
          main_loop fuel' (snd r) (gc_input g)
        else main_loop fuel' (gc_shell g) (gc_input g)
  end.

(** [main]: the loop from [this_shell] with [should_run = 1], and
    [exit(this_shell.last_exit_status)].  The prompt, and the line that
    [main] prints with [printf] before it calls [exit], go to the standard
    output and are not part of the model.  The value is returned only
    when the fuel is used up.  As [GetCommand], the loop is that of the
    program on an input all of whose lines fit ([line_fits] of every one
    of the [input_lines]).  A system call of the model returns at once
    with the answer of its oracle; the [wait] of the program blocks for
    as long as a child runs. *)
Definition main (fuel : nat) (input : list ascii) : M unit :=
  r <- main_loop fuel
         (this_shell TSH_MAX_CMD_LINE_LENGTH TSH_MAX_NUM_ARGUMENTS
            TSH_MAX_PIPELINE_LENGTH TSH_MAX_CMD_LIST_LENGTH) input ;;
  match r with
  | Some (shell, _) => sys_exit (last_exit_status shell)
  | None => ret tt
  end.

End Main.

(** ** Vocabulary of the properties of the executor *)

(** A slot of type [REDIRECT_NONE]. *)
Definition none_slot (i : nat) : Redirection :=
  {| source_fd := Z.of_nat i; dest_fd := (-1)%Z; path := None; r_type := REDIRECT_NONE |}.

(** The command with its slot for descriptor 1 emptied. *)
Definition without_output (cmd : SimpleCommand) : SimpleCommand :=
  {| s_type := s_type cmd; s_flag := s_flag cmd; name := name cmd; argc := argc cmd;
     argv := argv cmd; redirects := <[1%nat := none_slot 1]> (redirects cmd) |}.

(** The value that [RunCommand] returns for a command of a type, when it
    returns. *)
Definition RunCommand_value (ty : CommandType) : Z :=
  match ty with
  | CMD_EMPTY => 1%Z
  | CMD_INVALID => (-1)%Z
  | _ => 0%Z
  end.

(** The world after a call that extends the trace by [evs] and leaves the
    table of open files [t]. *)
Definition after (evs : list event) (t : list (option file)) (w : world) : world :=
  {| ofile := t; trace := trace w ++ evs; forks := forks w; waits := waits w;
     pipes := pipes w |}.

(** A table in which the standard input and output are open, and the two
    ends of the pipe [id] at [r] and [wr]. *)
Record piped (t : list (option file)) (r wr id : nat) (f0 f1 : file) : Prop := {
  piped_0 : t !! 0 = Some (Some f0);
  piped_1 : t !! 1 = Some (Some f1);
  piped_r : t !! r = Some (Some (pipe_read id));
  piped_w : t !! wr = Some (Some (pipe_write id));
  piped_r2 : 2 <= r;
  piped_w2 : 2 <= wr;
  piped_ne : r <> wr
}.

(** The events of [n] calls of [fork] and of [wait], from the [k]-th on. *)
Definition fork_events (fork_result : nat -> Z) (k n : nat) : list event :=
  map (fun j => ev_fork (fork_result (k + j))) (seq 0 n).

Definition wait_events (wait_status : nat -> Z) (k n : nat) : list event :=
  map (fun j => ev_wait (wait_status (k + j))) (seq 0 n).

(** The calls by which the child of stage [x] of [n] connects itself to the
    pipe with the descriptors [r] and [wr]. *)
Definition wiring_events (n x : nat) (r wr : nat) : list event :=
  if (x =? 0)%nat then
    [ev_close 1 0; ev_dup (Z.of_nat wr) 1;
     ev_close (Z.of_nat r) 0; ev_close (Z.of_nat wr) 0]
  else if (S x =? n)%nat then
    [ev_close 0 0; ev_dup (Z.of_nat r) 0;
     ev_close (Z.of_nat r) 0; ev_close (Z.of_nat wr) 0]
  else
    [ev_close 1 0; ev_dup (Z.of_nat r) 1; ev_close 0 0; ev_dup (Z.of_nat wr) 0;
     ev_close (Z.of_nat r) 0; ev_close (Z.of_nat wr) 0].

(** What the standard descriptors of the child of stage [x] of [n] refer to
    when it calls [exec], as far as the pipe [id] goes. *)
Definition wired (n x id : nat) (t : list (option file)) : Prop :=
  if (x =? 0)%nat then fd_file t 1 = Some (pipe_write id)
  else if (S x =? n)%nat then fd_file t 0 = Some (pipe_read id)
  else fd_file t 1 = Some (pipe_read id) /\ fd_file t 0 = Some (pipe_write id).

(** The slots of a command of a pipeline that its stage can use: none
    holds an open descriptor, and those of a type have a path. *)
Definition slots_usable (command : SimpleCommand) : Prop :=
  Forall (fun s => (dest_fd s < 0)%Z /\ (r_type s <> REDIRECT_NONE -> path s <> None))
    (slots command).

(** A descriptor that a stage has opened for itself, or -1. *)
Definition opened_fd (t : list (option file)) (fd : Z) : Prop :=
  fd = (-1)%Z \/ exists k f, fd = Z.of_nat k /\ 2 <= k /\ t !! k = Some (Some f).

(** A whitespace character that does not end the line. *)
Definition blank (c : ascii) : Prop := is_ws c = true /\ c <> newline.

(** ** Vocabulary of the further properties of the parser *)

(** The bits of a flag that tell an error, as in [simple->flag & 0xffff]
    of [PrintCommand]. *)
Definition error_bits (flag : Z) : Z := Z.land flag 0xffff.

(** The number of tokens of type [TOKEN_WORD] at the start of a range. *)
Fixpoint leading_words (toks : list Token) : nat :=
  match toks with
  | t :: toks' => if is_type TOKEN_WORD t then S (leading_words toks') else 0
  | [] => 0
  end.

(** A range that holds nothing but redirections, each a redirection token
    and a word, and [&] tokens. *)
Fixpoint only_redirections (p : list Token) : bool :=
  match p with
  | [] => true
  | t :: p1 =>
      match redirect_of (tok_type t) with
      | Some _ =>
          match p1 with
          | q :: p2 => is_type TOKEN_WORD q && only_redirections p2
          | [] => false
          end
      | None => is_type TOKEN_BACKGROUND t && only_redirections p1
      end
  end.

(** The ranges between the tokens of type [TOKEN_PIPE]: one more than there
    are such tokens. *)
Fixpoint split_pipes (toks : list Token) : list (list Token) :=
  match toks with
  | [] => [[]]
  | t :: toks' =>
      if is_type TOKEN_PIPE t then [] :: split_pipes toks'
      else match split_pipes toks' with
           | seg :: segs => (t :: seg) :: segs
           | [] => [[t]]
           end
  end.

(** The stages of the pipeline of a [CommandData] are in order: stage [i]
    is a [CMD_SIMPLE] that points to [_simples[i]] and holds its flag. *)
Definition stages_ok (cd : CommandData) : Prop :=
  forall i, i < p_len (_pipeline cd) ->
    exists s, _simples cd !! i = Some s /\
              commands (_pipeline cd) !! i =
              Some {| c_type := CMD_SIMPLE; c_flag := s_flag s; c_cmd := ref_simple i |}.

(** ** Vocabulary of the further properties of the lexer *)

(** The characters of a word. *)
Definition word_char (c : ascii) : bool := negb (is_ws c) && negb (is_sym c).

(** The word at the start of a string: its characters up to the first one
    that is whitespace or a symbol. *)
Fixpoint word_at (s : list ascii) : list ascii :=
  match s with
  | c :: s' => if word_char c then c :: word_at s' else []
  | [] => []
  end.

(** A token of the line [s], with the buffer [buf] as the lexer leaves it:
    the value of the token points to a character of the line, which is the
    symbol of its type, or the first character of a word that the buffer
    holds as a string. *)
Definition token_of_line (s buf : list ascii) (t : Token) : Prop :=
  exists q, tok_value t = Some q /\ q < length s /\
    match tok_type t with
    | TOKEN_WORD => word_char (rd s q) = true /\ cstr buf q = word_at (drop q s)
    | TOKEN_REDIRECT_OUTPUT_APPEND => rd s q = ">"%char /\ rd s (S q) = ">"%char
    | TOKEN_REDIRECT_OUTPUT => rd s q = ">"%char /\ rd s (S q) <> ">"%char
    | TOKEN_REDIRECT_INPUT => rd s q = "<"%char
    | TOKEN_PIPE => rd s q = "|"%char
    | TOKEN_BACKGROUND => rd s q = "&"%char
    | TOKEN_LIST => rd s q = ";"%char
    | TOKEN_INVALID | TOKEN_GROUP_START | TOKEN_GROUP_END => False
    end.

(** The tokens of a line [s] whose first character is at the offset [p] of
    the buffer, as the lexer of [lex_spec] cuts them, each with the offset
    of its first character as its value.  [in_word] tells that the
    character before belongs to a word. *)
Fixpoint lex_tokens (in_word : bool) (p : nat) (s : list ascii) : list Token :=
  match s with
  | [] => []
  | c :: s' =>
      if is_ws c then lex_tokens false (S p) s'
      else if Ascii.eqb c ">" then
        match s' with
        | c' :: s'' =>
            if Ascii.eqb c' ">"
            then mk_token TOKEN_REDIRECT_OUTPUT_APPEND p :: lex_tokens false (S (S p)) s''
            else mk_token TOKEN_REDIRECT_OUTPUT p :: lex_tokens false (S p) s'
        | [] => mk_token TOKEN_REDIRECT_OUTPUT p :: lex_tokens false (S p) s'
        end
      else if is_sym c then mk_token (symbol_type c) p :: lex_tokens false (S p) s'
      else if in_word then lex_tokens true (S p) s'
      else mk_token TOKEN_WORD p :: lex_tokens true (S p) s'
  end.

(** The words of a line: its maximal runs of characters that are neither
    whitespace nor symbols. *)
Fixpoint words_of (in_word : bool) (s : list ascii) : list (list ascii) :=
  match s with
  | [] => []
  | c :: s' =>
      if word_char c
      then if in_word then words_of true s' else word_at s :: words_of true s'
      else words_of false s'
  end.

(** ** Within the arrays *)

(** The buffer of the line and the array of the tokens are fields of
    [ShellState]: [cmdline], then [tokens], then [cmd], [name] and
    [_cmd_data].  The code bounds neither the terminator of a line that
    fills the buffer nor the index of a token by the number of elements,
    and a store past the end of an array changes the field behind it.  The
    model is that of the program where every store is inside its array,
    which is what the following say. *)

(** A zero byte lies inside the buffer, where the string of the line
    ends. *)
Definition terminated (buf : list ascii) : Prop := strlen buf < length buf.

(** The word that a token of type [TOKEN_WORD] points to is ended by a
    zero byte of the buffer. *)
Definition word_terminated (buf : list ascii) (t : Token) : Prop :=
  forall q, tok_type t = TOKEN_WORD -> tok_value t = Some q ->
    buf !! (q + length (cstr buf q)) = Some NUL.

(** The lines of an input, as [ReadLine] cuts it when none of them fills
    the buffer: a line is ended by a newline, by the byte [0xff] where
    [char] is signed, or by the end of the input. *)
Fixpoint input_lines (char_is_signed : bool) (input : list ascii) : list (list ascii) :=
  match input with
  | [] => [[]]
  | c :: input' =>
      if Ascii.eqb c newline || is_EOF char_is_signed c
      then [] :: input_lines char_is_signed input'
      else match input_lines char_is_signed input' with
           | l :: ls => (c :: l) :: ls
           | [] => [[c]]
           end
  end.

(** A line that [GetCommand] handles inside the arrays: it is shorter than
    the buffer ([N] is [TSH_MAX_CMD_LINE_LENGTH]), and the string up to its
    first zero byte has no more tokens than [tokens] has elements ([NTOK]
    is [TSH_MAX_NUM_TOKENS]). *)
Definition line_fits (N NTOK : nat) (l : list ascii) : Prop :=
  length l < N /\ length (lex_tokens false 0 (take (strlen l) l)) <= NTOK.

(** ** Examples *)

(** A line as it is typed. *)
Definition typed (s : string) : list ascii := list_ascii_of_string s ++ [newline].

(** The shell after its first command, with buffers of 64 bytes, at most 8
    arguments, 4 commands in a pipeline and 8 commands in all. *)
Definition first_command (s : string) : ShellState :=
  gc_shell (GetCommand 64 false 1024 false 8 4 8 (this_shell 64 8 4 8) (typed s)).

(** A process with the three standard descriptors open and five free. *)
Definition fresh_world : world :=
  {| ofile := [Some (inherited 0); Some (inherited 1); Some (inherited 2);
               None; None; None; None; None];
     trace := []; forks := 0; waits := 0; pipes := 0 |}.

(** The process that [fork] makes the parent of every child, with child
    pid 5; the one that it makes the child of the [x]-th call. *)
Definition as_parent : nat -> Z := fun _ => 5%Z.
Definition as_child (x : nat) : nat -> Z := fun k => if (k =? x)%nat then 0%Z else 5%Z.

(** A system in which [fork] fails. *)
Definition fork_fails : nat -> Z := fun _ => (-1)%Z.

End Tsh.

Import Tsh.

(** * Properties *)

(** ** Flags *)

Lemma land_bit (a : Z) (k : Z) :
  (0 <= k)%Z -> Z.land a (2 ^ k) = if Z.testbit a k then (2 ^ k)%Z else 0%Z.
Proof.
  intros Hk. apply Z.bits_inj'. intros n Hn.
  rewrite Z.land_spec, Z.pow2_bits_eqb by lia.
  destruct (Z.eqb_spec k n) as [->|Hne].
  - destruct (Z.testbit a n) eqn:E; simpl.
    + rewrite Z.pow2_bits_eqb by lia. now rewrite Z.eqb_refl.
    + now rewrite Z.bits_0.
  - rewrite andb_false_r. destruct (Z.testbit a k).
    + rewrite Z.pow2_bits_eqb by lia. symmetry. now apply Z.eqb_neq.
    + now rewrite Z.bits_0.
Qed.

Lemma has_flag_bit (a k : Z) :
  (0 <= k)%Z -> has_flag a (2 ^ k) <-> Z.testbit a k = true.
Proof.
  intros Hk. unfold has_flag. rewrite land_bit by lia.
  destruct (Z.testbit a k); split; intros H; try congruence.
  intros E. assert (0 < 2 ^ k)%Z by (apply Z.pow_pos_nonneg; lia). lia.
Qed.

(** ** The parser of simple commands *)

Section ParseSimpleCommand_facts.

Variable MAX : nat.

Local Abbreviation get_arguments := (get_arguments MAX).
Local Abbreviation before_redirections := (before_redirections MAX).

(** The argument loop stops with [i] at most the limit. *)
Lemma get_arguments_bound p i av :
  (i <= MAX)%nat -> (get_arguments p i av).1.1 <= MAX.
Proof.
  revert i av. induction p as [|t p IH]; intros i av Hi; simpl; [lia|].
  destruct (is_type TOKEN_WORD t && (i <? MAX)%nat) eqn:E; simpl; [|lia].
  apply andb_true_iff in E as [_ E%Nat.ltb_lt]. apply IH. lia.
Qed.

Lemma get_arguments_length p i av :
  length (get_arguments p i av).2 = length av.
Proof.
  revert i av. induction p as [|t p IH]; intros i av; simpl; [done|].
  destruct (is_type TOKEN_WORD t && (i <? MAX)%nat); simpl; [|done].
  rewrite IH. apply length_insert.
Qed.

Lemma get_arguments_mono p i av : i <= (get_arguments p i av).1.1.
Proof.
  revert i av. induction p as [|t p IH]; intros i av; simpl; [lia|].
  destruct (is_type TOKEN_WORD t && (i <? MAX)%nat); simpl; [|lia].
  specialize (IH (S i) (<[i:=tok_value t]> av)). lia.
Qed.

(** Where the argument loop stops: at the end, at a token that is not a
    word, or at a word when the limit is reached. *)
Lemma get_arguments_stop p i av :
  match (get_arguments p i av).1.2 with
  | [] => True
  | t :: _ => is_type TOKEN_WORD t = false \/ (get_arguments p i av).1.1 = MAX \/ MAX < i
  end.
Proof.
  revert i av. induction p as [|t p IH]; intros i av; simpl; [done|].
  destruct (is_type TOKEN_WORD t) eqn:Et; simpl; [|by left].
  destruct (Nat.ltb_spec i MAX) as [Hlt|Hge]; simpl.
  - specialize (IH (S i) (<[i:=tok_value t]> av)).
    destruct (get_arguments p (S i) (<[i:=tok_value t]> av)).1.2; [done|].
    destruct IH as [?|[?|?]]; auto.
    right. left. pose proof (get_arguments_bound p (S i) (<[i:=tok_value t]> av)). lia.
  - right. lia.
Qed.

(** Induction along the runs of the redirection loop. *)
Lemma get_redirections_cases
  (P : list Token -> SimpleCommand -> list diagnostic ->
       SimpleCommand * list diagnostic * option (list Token) -> Prop) :
  (forall simple log, P [] simple log (simple, log, Some [])) ->
  (forall t p1 fd ty simple log,
      redirect_of (tok_type t) = Some (fd, ty) ->
      match p1 with [] => True | q :: _ => is_type TOKEN_WORD q = false end ->
      P (t :: p1) simple log
        (or_flag CMD_MISSING_REDIRECTION_DESTINATION (set_redirect fd ty simple),
         log ++ [ErrorU "Missing redirection destination"], None)) ->
  (forall t q p2 fd ty simple log r,
      redirect_of (tok_type t) = Some (fd, ty) ->
      is_type TOKEN_WORD q = true ->
      P p2 (set_redirect_path fd (tok_value q) (set_redirect fd ty simple)) log r ->
      P (t :: q :: p2) simple log r) ->
  (forall t p1 simple log r,
      redirect_of (tok_type t) = None ->
      is_type TOKEN_BACKGROUND t = true ->
      P p1 (or_flag CMD_BACKGROUND_MODE simple) log r ->
      P (t :: p1) simple log r) ->
  (forall t p1 simple log r,
      redirect_of (tok_type t) = None ->
      is_type TOKEN_BACKGROUND t = false ->
      P p1 (or_flag CMD_SYNTAX_ERROR simple)
        (log ++ [ErrorU "Syntax error - unexpected token type"]) r ->
      P (t :: p1) simple log r) ->
  forall p simple log, P p simple log (get_redirections p simple log).
Proof.
  intros Hnil Hmiss Hredir Hbg Hsyn.
  enough (forall p,
             (forall simple log, P p simple log (get_redirections p simple log)) /\
             (forall t simple log,
                 P (t :: p) simple log (get_redirections (t :: p) simple log))) as H
      by apply H.
  induction p as [|q p [IH1 IH2]].
  - split; [apply Hnil|]. intros t simple log. simpl.
    destruct (redirect_of (tok_type t)) as [[fd ty]|] eqn:Er.
    + by apply Hmiss.
    + destruct (is_type TOKEN_BACKGROUND t) eqn:Eb; [apply Hbg|apply Hsyn]; auto.
  - split; [apply IH2|]. intros t simple log.
    change (get_redirections (t :: q :: p) simple log) with
      (match redirect_of (tok_type t) with
       | Some (fd, ty) =>
           if is_type TOKEN_WORD q
           then get_redirections p
                  (set_redirect_path fd (tok_value q) (set_redirect fd ty simple)) log
           else (or_flag CMD_MISSING_REDIRECTION_DESTINATION (set_redirect fd ty simple),
                 log ++ [ErrorU "Missing redirection destination"], None)
       | None =>
           if is_type TOKEN_BACKGROUND t
           then get_redirections (q :: p) (or_flag CMD_BACKGROUND_MODE simple) log
           else get_redirections (q :: p) (or_flag CMD_SYNTAX_ERROR simple)
                  (log ++ [ErrorU "Syntax error - unexpected token type"])
       end).
    destruct (redirect_of (tok_type t)) as [[fd ty]|] eqn:Er.
    + destruct (is_type TOKEN_WORD q) eqn:Eq.
      * eapply Hredir; eauto.
      * by apply Hmiss.
    + destruct (is_type TOKEN_BACKGROUND t) eqn:Eb; [apply Hbg|apply Hsyn]; auto.
Qed.

Lemma get_redirections_flag_bit n p simple log :
  untouched_bit n ->
  Z.testbit (s_flag (get_redirections p simple log).1.1) n = Z.testbit (s_flag simple) n.
Proof.
  intros (H1 & H2 & H3). revert p simple log.
  apply (get_redirections_cases
           (fun _ simple _ r => Z.testbit (s_flag r.1.1) n = Z.testbit (s_flag simple) n));
    simpl; intros;
    repeat match goal with
      | H : Z.testbit _ n = Z.testbit _ n |- _ => rewrite H; clear H
      end;
    simpl; rewrite ?Z.lor_spec, ?H1, ?H2, ?H3, ?orb_false_r; reflexivity.
Qed.

(** A flag that is set stays set. *)
Lemma get_redirections_flag_mono n p simple log :
  Z.testbit (s_flag simple) n = true ->
  Z.testbit (s_flag (get_redirections p simple log).1.1) n = true.
Proof.
  revert p simple log.
  apply (get_redirections_cases
           (fun _ simple _ r =>
              Z.testbit (s_flag simple) n = true -> Z.testbit (s_flag r.1.1) n = true));
    simpl; intros; auto.
  - rewrite Z.lor_spec. rewrite H1. done.
  - apply H1. rewrite Z.lor_spec, H2. done.
  - apply H1. rewrite Z.lor_spec, H2. done.
Qed.

(** The loop is left at its condition only with [p] at [tail]. *)
Lemma get_redirections_end p simple log q :
  (get_redirections p simple log).2 = Some q -> q = [].
Proof.
  revert p simple log.
  apply (get_redirections_cases (fun _ _ _ r => r.2 = Some q -> q = []));
    simpl; intros; auto; congruence.
Qed.

(** The loop changes only the flag and the redirections. *)
Lemma get_redirections_frame p simple log :
  let r := (get_redirections p simple log).1.1 in
  s_type r = s_type simple /\ name r = name simple /\
  argc r = argc simple /\ argv r = argv simple.
Proof.
  revert p simple log.
  apply (get_redirections_cases
           (fun _ simple _ r =>
              s_type r.1.1 = s_type simple /\ name r.1.1 = name simple /\
              argc r.1.1 = argc simple /\ argv r.1.1 = argv simple));
    simpl; intros; auto.
Qed.

(** A token that starts no redirection and is not [&] sets
    [CMD_SYNTAX_ERROR]. *)
Lemma get_redirections_word t p simple log :
  is_type TOKEN_WORD t = true ->
  Z.testbit (s_flag (get_redirections (t :: p) simple log).1.1) 0 = true.
Proof.
  intros Ht.
  assert (tok_type t = TOKEN_WORD) as E
      by (unfold is_type in Ht; destruct (tok_type t); done).
  replace (get_redirections (t :: p) simple log) with
    (get_redirections p (or_flag CMD_SYNTAX_ERROR simple)
       (log ++ [ErrorU "Syntax error - unexpected token type"]))
    by (simpl; unfold is_type; rewrite E; reflexivity).
  apply get_redirections_flag_mono. unfold or_flag. cbn [s_flag].
  rewrite Z.lor_spec. apply orb_true_r.
Qed.

Lemma init_redirects_ok : slots_ok init_redirects.
Proof.
  split; [done|]. intros [|[|[|i]]] r; simpl; intros [= <-]; by repeat split.
Qed.

Lemma set_redirect_ok fd ty simple :
  ty <> REDIRECT_NONE ->
  slots_ok (redirects simple) ->
  slots_ok (redirects (set_redirect fd ty simple)) /\
  forall v, slots_ok (redirects (set_redirect_path fd v (set_redirect fd ty simple))).
Proof.
  intros Hty [Hlen Hs]. unfold set_redirect, set_redirect_path. cbn [redirects].
  split; [|intros v]; (split; [by rewrite ?length_alter|]).
  - intros i r. destruct (decide (i = fd)) as [->|Hne].
    + rewrite list_lookup_alter_eq. destruct (redirects simple !! fd) as [r0|] eqn:E; [|done].
      intros [= <-]. destruct (Hs _ _ E) as (? & ? & ?). by repeat split.
    + rewrite list_lookup_alter_ne by done. apply Hs.
  - intros i r. destruct (decide (i = fd)) as [->|Hne].
    + rewrite !list_lookup_alter_eq.
      destruct (redirects simple !! fd) as [r0|] eqn:E; [|done].
      intros [= <-]. destruct (Hs _ _ E) as (? & ? & ?). by repeat split.
    + rewrite !list_lookup_alter_ne by done. apply Hs.
Qed.

Lemma redirect_of_not_none ty fd rt :
  redirect_of ty = Some (fd, rt) -> rt <> REDIRECT_NONE.
Proof. destruct ty; simpl; intros [= <- <-]; done. Qed.

Lemma get_redirections_slots p simple log :
  slots_ok (redirects simple) ->
  slots_ok (redirects (get_redirections p simple log).1.1).
Proof.
  revert p simple log.
  apply (get_redirections_cases
           (fun _ simple _ r => slots_ok (redirects simple) -> slots_ok (redirects r.1.1)));
    simpl; intros; auto.
  - apply (set_redirect_ok fd ty simple); eauto using redirect_of_not_none.
  - apply H1. apply (set_redirect_ok fd ty simple); eauto using redirect_of_not_none.
Qed.

(** [ParseSimpleCommand] never takes its branch [i > TSH_MAX_NUM_ARGUMENTS],
    nor the one [p != tail] after the redirection loop: its result is that
    of the loop. *)
Lemma ParseSimpleCommand_eq toks simple :
  ParseSimpleCommand MAX toks simple =
  (get_redirections (get_arguments toks 0 (argv simple)).1.2
     (before_redirections toks simple) []).1.
Proof.
  unfold ParseSimpleCommand, before_redirections.
  pose proof (get_arguments_bound toks 0 (argv simple) ltac:(lia)) as Hb.
  destruct (get_arguments toks 0 (argv simple)) as [[i p] av].
  cbn [fst snd] in *.
  assert ((MAX <? i)%nat = false) as Hlt by (apply Nat.ltb_ge; lia).
  destruct toks as [|t toks]; [|destruct (is_type TOKEN_WORD t)];
    cbv beta iota zeta; rewrite Hlt; cbn [s_type s_flag name argc argv];
    match goal with
    | |- context [get_redirections p ?s []] =>
        pose proof (get_redirections_end p s []) as Hq;
        destruct (get_redirections p s []) as [[s' log'] [q|]]; [|done];
        rewrite (Hq q eq_refl); done
    end.
Qed.

Lemma untouched_too_many : untouched_bit 1.
Proof. by repeat split. Qed.

Lemma untouched_after_redirect : untouched_bit 3.
Proof. by repeat split. Qed.

(** The flag of a command that starts with a word is built from 0 by the
    redirection loop. *)
Lemma ParseSimpleCommand_flag_bit n t toks simple :
  untouched_bit n -> is_type TOKEN_WORD t = true ->
  Z.testbit (s_flag (ParseSimpleCommand MAX (t :: toks) simple).1) n = false.
Proof.
  intros Hn Ht. rewrite ParseSimpleCommand_eq.
  rewrite get_redirections_flag_bit by done.
  unfold Tsh.before_redirections. cbn [s_flag]. rewrite Ht. apply Z.testbit_0_l.
Qed.

(** On more words than there is room for, the argument loop stops at the
    limit, with words left. *)
Lemma get_arguments_words f n k i av rest :
  i <= MAX -> MAX - i < n ->
  (get_arguments (word_tokens f k n ++ rest) i av).1 =
  (MAX, word_tokens f (k + (MAX - i)) (n - (MAX - i)) ++ rest).
Proof.
  revert k i av. induction n as [|n IH]; intros k i av Hi Hn; [lia|].
  cbn [word_tokens seq map app Tsh.get_arguments is_type tok_type TokenType_eqb andb].
  fold (word_tokens f (S k) n).
  destruct (Nat.ltb_spec i MAX) as [Hlt|Hge].
  - rewrite IH by lia. f_equal. f_equal; f_equal; lia.
  - assert (i = MAX) as -> by lia. rewrite Nat.sub_diag. simpl.
    rewrite Nat.add_0_r. done.
Qed.

(** On words that all fit, it takes them all. *)
Lemma get_arguments_all_words f n k i av :
  i + n <= MAX ->
  (get_arguments (word_tokens f k n) i av).1 = (i + n, []).
Proof.
  revert k i av. induction n as [|n IH]; intros k i av Hn.
  - simpl. by rewrite Nat.add_0_r.
  - cbn [word_tokens seq map app Tsh.get_arguments is_type tok_type TokenType_eqb andb].
    fold (word_tokens f (S k) n).
    destruct (Nat.ltb_spec i MAX) as [Hlt|Hge]; [|lia].
    rewrite IH by lia. f_equal. lia.
Qed.

(** C2, first half: exactly [TSH_MAX_NUM_ARGUMENTS] words, and at least
    one, give a simple command with no flag and with all of them as
    arguments. *)
Lemma ParseSimpleCommand_max_words f simple :
  1 <= MAX ->
  let r := (ParseSimpleCommand MAX (word_tokens f 0 MAX) simple).1 in
  s_flag r = 0%Z /\ argc r = MAX /\ s_type r = CMD_SIMPLE.
Proof.
  intros HM. cbv zeta. rewrite ParseSimpleCommand_eq.
  pose proof (get_arguments_all_words f MAX 0 0 (argv simple) ltac:(lia)) as Hg.
  unfold Tsh.before_redirections.
  destruct (get_arguments (word_tokens f 0 MAX) 0 (argv simple)) as [[i p] av] eqn:Ea.
  cbn [fst snd] in *. injection Hg as -> ->.
  simpl. destruct MAX as [|m]; [lia|]. done.
Qed.

End ParseSimpleCommand_facts.

(** C2 (second half, as the code has it): a command that begins with
    [TSH_MAX_NUM_ARGUMENTS + 1] words takes the first
    [TSH_MAX_NUM_ARGUMENTS] of them as arguments and meets the next one in
    the redirection loop, which sets [CMD_SYNTAX_ERROR]; the test
    [i > TSH_MAX_NUM_ARGUMENTS] cannot hold after a loop that runs only
    while [i < TSH_MAX_NUM_ARGUMENTS], and [CMD_TOO_MANY_ARGUMENTS] is not
    set. *)
Theorem ParseSimpleCommand_too_many_words
  (MAX : nat) (f : nat -> cptr) (rest : list Token) (simple : SimpleCommand) :
  let r := (ParseSimpleCommand MAX (word_tokens f 0 (S MAX) ++ rest) simple).1 in
  Z.land (s_flag r) CMD_TOO_MANY_ARGUMENTS = 0%Z /\
  has_flag (s_flag r) CMD_SYNTAX_ERROR /\
  argc r = MAX.
Proof.
  cbv zeta. split; [|split].
  - change CMD_TOO_MANY_ARGUMENTS with (2 ^ 1)%Z. rewrite land_bit by lia.
    change (word_tokens f 0 (S MAX) ++ rest) with
      ({| tok_type := TOKEN_WORD; tok_value := f 0 |} :: word_tokens f 1 MAX ++ rest).
    rewrite ParseSimpleCommand_flag_bit; auto using untouched_too_many.
  - change CMD_SYNTAX_ERROR with (2 ^ 0)%Z. apply has_flag_bit; [lia|].
    rewrite ParseSimpleCommand_eq.
    pose proof (get_arguments_words MAX f (S MAX) 0 0 (argv simple) rest
                  ltac:(lia) ltac:(lia)) as Hg.
    rewrite Hg. cbn [snd].
    replace (S MAX - (MAX - 0)) with 1 by lia.
    apply get_redirections_word. done.
  - rewrite ParseSimpleCommand_eq.
    destruct (get_redirections_frame
                (get_arguments MAX (word_tokens f 0 (S MAX) ++ rest) 0 (argv simple)).1.2
                (before_redirections MAX (word_tokens f 0 (S MAX) ++ rest) simple) [])
      as (_ & _ & -> & _).
    unfold before_redirections. cbn [argc].
    pose proof (get_arguments_words MAX f (S MAX) 0 0 (argv simple) rest
                  ltac:(lia) ltac:(lia)) as Hg.
    rewrite Hg. done.
Qed.

(** C4 (as the code has it): the redirection loop runs until [p] is at
    [tail], so that the test [p != tail] after it never holds and
    [CMD_ARGUMENT_AFTER_REDIRECT] is never set; a word after a redirection
    is met in the loop as an unexpected token.  For [a > b c] the flag is
    [CMD_SYNTAX_ERROR] alone. *)
Theorem ParseSimpleCommand_argument_after_redirect
  (MAX : nat) (a b c : cptr) (k : nat) (toks : list Token) (simple : SimpleCommand) :
  Z.land (s_flag (ParseSimpleCommand MAX
                    ({| tok_type := TOKEN_WORD; tok_value := a |} :: toks) simple).1)
    CMD_ARGUMENT_AFTER_REDIRECT = 0%Z /\
  s_flag (ParseSimpleCommand MAX
            [ {| tok_type := TOKEN_WORD; tok_value := a |};
              {| tok_type := TOKEN_REDIRECT_OUTPUT; tok_value := Some k |};
              {| tok_type := TOKEN_WORD; tok_value := b |};
              {| tok_type := TOKEN_WORD; tok_value := c |} ] simple).1
  = CMD_SYNTAX_ERROR.
Proof.
  split.
  - change CMD_ARGUMENT_AFTER_REDIRECT with (2 ^ 3)%Z. rewrite land_bit by lia.
    rewrite ParseSimpleCommand_flag_bit; auto using untouched_after_redirect.
  - rewrite ParseSimpleCommand_eq. destruct MAX as [|m]; reflexivity.
Qed.

(** C8 (amended): a simple command that the parser produces has a null
    pointer at [argv[argc]] and three slots, slot [i] for descriptor [i],
    with no open descriptor and with no path where the type is
    [REDIRECT_NONE]; when its type is [CMD_SIMPLE] and its flag is 0 it has
    at least one argument, and when its type is not [CMD_SIMPLE] (the range
    does not start with a word) it has none, whatever its flag. *)
Theorem ParseSimpleCommand_invariants
  (MAX : nat) (toks : list Token) (simple : SimpleCommand) :
  length (argv simple) = S MAX ->
  let r := (ParseSimpleCommand MAX toks simple).1 in
  (argv r !! argc r = Some None /\ slots_ok (redirects r)) /\
  (s_type r = CMD_SIMPLE -> s_flag r = 0%Z -> 1 <= argc r) /\
  (s_type r <> CMD_SIMPLE -> argc r = 0).
Proof.
  intros Hlen. cbv zeta. rewrite ParseSimpleCommand_eq.
  set (g := get_arguments MAX toks 0 (argv simple)).
  set (s0 := before_redirections MAX toks simple).
  destruct (get_redirections_frame g.1.2 s0 []) as (Hty & _ & Hargc & Hargv).
  cbv zeta in *. rewrite Hty, Hargc, Hargv.
  pose proof (get_arguments_bound MAX toks 0 (argv simple) ltac:(lia)) as Hb.
  pose proof (get_arguments_length MAX toks 0 (argv simple)) as Hl.
  split; [split|split].
  - unfold s0, before_redirections. cbn [argv argc].
    apply list_lookup_insert_eq. unfold cptr in *. lia.
  - apply get_redirections_slots. apply init_redirects_ok.
  - intros Hs Hf. destruct toks as [|t toks]; [done|].
    unfold s0, before_redirections in Hs. cbn [s_type] in Hs.
    destruct (is_type TOKEN_WORD t) eqn:Et; [|done].
    unfold s0, before_redirections. cbn [argc]. fold g.
    destruct MAX as [|m].
    + exfalso. assert (g = (0, t :: toks, argv simple)) as Hg.
      { unfold g. simpl. by rewrite Et. }
      rewrite Hg in Hf. cbn [fst snd] in Hf.
      pose proof (get_redirections_word t toks s0 [] Et) as Hw.
      rewrite Hf in Hw. done.
    + unfold g. simpl. rewrite Et. simpl.
      pose proof (get_arguments_mono (S m) toks 1 (<[0:=tok_value t]> (argv simple))). lia.
  - intros Hs. unfold s0, before_redirections in *. cbn [s_type argc] in *.
    destruct toks as [|t toks]; [done|].
    destruct (is_type TOKEN_WORD t) eqn:Et; [done|].
    simpl. by rewrite Et.
Qed.

(** C8, an instance: [ls -l] *)
Lemma ParseSimpleCommand_invariants_witness :
  let r := (ParseSimpleCommand 4
              [ {| tok_type := TOKEN_WORD; tok_value := Some 0 |};
                {| tok_type := TOKEN_WORD; tok_value := Some 3 |} ] (zero_simple 4)).1 in
  (argv r !! argc r = Some None /\ slots_ok (redirects r)) /\
  (s_type r = CMD_SIMPLE -> s_flag r = 0%Z -> 1 <= argc r) /\
  (s_type r <> CMD_SIMPLE -> argc r = 0).
Proof.
  apply (ParseSimpleCommand_invariants 4
           [ {| tok_type := TOKEN_WORD; tok_value := Some 0 |};
             {| tok_type := TOKEN_WORD; tok_value := Some 3 |} ] (zero_simple 4)).
  reflexivity.
Defined.

(** C8, as stated, fails on a range that does not start with a word: the
    first command of a shell, when it is [< in], is a [SimpleCommand] with
    flag 0 and no argument. *)
Lemma ParseSimpleCommand_flag_zero_no_argument :
  let r := (ParseSimpleCommand 4
              [ {| tok_type := TOKEN_REDIRECT_INPUT; tok_value := Some 0 |};
                {| tok_type := TOKEN_WORD; tok_value := Some 2 |} ] (zero_simple 4)).1 in
  s_flag r = 0%Z /\ argc r = 0 /\ ~ (argc r >= 1).
Proof. cbv zeta. simpl. repeat split. lia. Qed.

(** ** The parser of pipelines *)

Section ParsePipeline_facts.

Variables MAXA MAXP MAXC : nat.

(** More fuel than the length of the range changes nothing: the loop of
    [ParsePipeline] ends, and [ParsePipeline_loop (length toks) toks] is
    its result. *)
Lemma ParsePipeline_loop_fuel fuel prev cd log :
  length prev <= fuel ->
  ParsePipeline_loop MAXA MAXP MAXC fuel prev cd log =
  ParsePipeline_loop MAXA MAXP MAXC (length prev) prev cd log.
Proof.
  remember (length prev) as n eqn:Hn.
  revert fuel prev cd log Hn.
  induction n as [n IH] using lt_wf_ind. intros fuel prev cd log Hn Hle.
  destruct fuel as [|fuel], n as [|n]; try lia; try done.
  - destruct prev; [|done]. simpl. done.
  - cbn [ParsePipeline_loop].
    destruct (_ && _ && _); [|done].
    set (k := find_next_toke_with_type TOKEN_PIPE prev).
    destruct (Nat.ltb_spec k (length prev)) as [Hk|Hk]; [|done].
    destruct (parse_next_simple MAXA (take k prev) _) as [[[i simple] log'] cd'].
    assert (length (drop (S k) prev) <= n) as Hd by (rewrite length_drop; lia).
    rewrite (IH (length (drop (S k) prev)) ltac:(lia) fuel _ _ _ eq_refl ltac:(lia)).
    rewrite (IH (length (drop (S k) prev)) ltac:(lia) n _ _ _ eq_refl ltac:(lia)).
    done.
Qed.

Lemma get_redirections_log p simple log :
  Forall not_too_long log -> Forall not_too_long (get_redirections p simple log).1.2.
Proof.
  revert p simple log.
  apply (get_redirections_cases
           (fun _ _ log r => Forall not_too_long log -> Forall not_too_long r.1.2));
    simpl; intros; auto.
  - apply Forall_app; split; [done|]. by repeat constructor.
  - apply H1. apply Forall_app; split; [done|]. by repeat constructor.
Qed.

Lemma ParseSimpleCommand_log toks simple :
  Forall not_too_long (ParseSimpleCommand MAXA toks simple).2.
Proof. rewrite ParseSimpleCommand_eq. by apply get_redirections_log. Qed.

Lemma parse_next_simple_log toks cd :
  Forall not_too_long (parse_next_simple MAXA toks cd).1.2.
Proof.
  unfold parse_next_simple.
  pose proof (ParseSimpleCommand_log toks (nth (n_simples cd) (_simples cd) (zero_simple MAXA))).
  by destruct (ParseSimpleCommand MAXA toks _).
Qed.

Lemma ParsePipeline_loop_log fuel prev cd log :
  Forall not_too_long log ->
  Forall not_too_long (ParsePipeline_loop MAXA MAXP MAXC fuel prev cd log).2.
Proof.
  revert prev cd log. induction fuel as [|fuel IH]; intros prev cd log Hlog; [done|].
  cbn [ParsePipeline_loop].
  destruct (_ && _ && _); [|done].
  destruct (_ <? _)%nat; [|done].
  match goal with
  | |- context [parse_next_simple MAXA ?t ?c] =>
      pose proof (parse_next_simple_log t c) as Hp;
      destruct (parse_next_simple MAXA t c) as [[[i simple] log'] cd']
  end.
  apply IH. apply Forall_app; done.
Qed.

End ParsePipeline_facts.

Lemma too_long_bits :
  CMD_PIPELINE_TOO_LONG =
  Z.lor (Z.lor CMD_SYNTAX_ERROR CMD_TOO_MANY_ARGUMENTS)
    (Z.lor CMD_MISSING_REDIRECTION_DESTINATION CMD_ARGUMENT_AFTER_REDIRECT).
Proof. reflexivity. Qed.

Lemma has_flag_lor_too_long (fl : Z) (k : Z) :
  (0 <= k < 4)%Z -> has_flag (Z.lor fl CMD_PIPELINE_TOO_LONG) (2 ^ k).
Proof.
  intros Hk. apply has_flag_bit; [lia|]. rewrite Z.lor_spec.
  assert (k = 0 \/ k = 1 \/ k = 2 \/ k = 3)%Z as [-> | [-> | [-> | ->]]] by lia;
    apply orb_true_r.
Qed.

(** C10: when the parser reports a pipeline that is too long, the flags of
    the pipeline and of the command test positive for
    [CMD_SYNTAX_ERROR], [CMD_TOO_MANY_ARGUMENTS],
    [CMD_MISSING_REDIRECTION_DESTINATION] and [CMD_ARGUMENT_AFTER_REDIRECT]:
    [CMD_PIPELINE_TOO_LONG] is [0x0f], the four of them together. *)
Theorem ParsePipeline_too_long_sets_four_flags
  (MAXA MAXP MAXC : nat) (toks : list Token) (cd : CommandData) :
  let r := ParsePipeline MAXA MAXP MAXC toks cd in
  In (ErrorU "Pipeline too long") r.2 ->
  (forall fl, fl = p_flag (_pipeline r.1) \/ fl = c_flag (cmd r.1) ->
     has_flag fl CMD_SYNTAX_ERROR /\
     has_flag fl CMD_TOO_MANY_ARGUMENTS /\
     has_flag fl CMD_MISSING_REDIRECTION_DESTINATION /\
     has_flag fl CMD_ARGUMENT_AFTER_REDIRECT) /\
  CMD_PIPELINE_TOO_LONG =
  Z.lor (Z.lor CMD_SYNTAX_ERROR CMD_TOO_MANY_ARGUMENTS)
    (Z.lor CMD_MISSING_REDIRECTION_DESTINATION CMD_ARGUMENT_AFTER_REDIRECT).
Proof.
  cbv zeta. unfold ParsePipeline.
  pose proof (ParsePipeline_loop_log MAXA MAXP MAXC (length toks) toks cd [] ltac:(constructor))
    as Hloop.
  destruct (ParsePipeline_loop MAXA MAXP MAXC (length toks) toks cd []) as [[prev cd1] log1].
  cbn [snd] in Hloop.
  assert (forall l, Forall not_too_long l -> ~ In (ErrorU "Pipeline too long") l) as Hnot.
  { intros l Hl Hin. rewrite Forall_forall in Hl. apply list_elem_of_In in Hin.
    by apply (Hl _ Hin). }
  destruct (MAXC <=? n_simples cd1)%nat.
  { cbn [snd]. intros Hin. exfalso. apply in_app_or in Hin as [Hin|Hin].
    - by apply (Hnot log1).
    - destruct Hin as [Hin|[]]. discriminate Hin. }
  pose proof (parse_next_simple_log MAXA prev cd1) as Hp.
  destruct (parse_next_simple MAXA prev cd1) as [[[k simple] log2] cd2].
  cbn [fst snd] in Hp.
  set (cd3 := if (p_len (_pipeline cd2) =? 0)%nat then _ else cd2).
  destruct (MAXP <=? p_len (_pipeline cd3))%nat.
  - intros _. split; [|apply too_long_bits]. cbn [fst _pipeline cmd with_cmd with_pipeline].
    assert (forall fl,
               has_flag (Z.lor fl CMD_PIPELINE_TOO_LONG) CMD_SYNTAX_ERROR /\
               has_flag (Z.lor fl CMD_PIPELINE_TOO_LONG) CMD_TOO_MANY_ARGUMENTS /\
               has_flag (Z.lor fl CMD_PIPELINE_TOO_LONG) CMD_MISSING_REDIRECTION_DESTINATION /\
               has_flag (Z.lor fl CMD_PIPELINE_TOO_LONG) CMD_ARGUMENT_AFTER_REDIRECT) as Hfour.
    { intros fl. repeat split.
      - apply (has_flag_lor_too_long fl 0); lia.
      - apply (has_flag_lor_too_long fl 1); lia.
      - apply (has_flag_lor_too_long fl 2); lia.
      - apply (has_flag_lor_too_long fl 3); lia. }
    intros fl [-> | ->].
    + apply Hfour.
    + unfold or_c_flag, or_p_flag. cbn [c_flag p_flag].
      rewrite Z.lor_assoc. apply Hfour.
  - assert (~ In (ErrorU "Pipeline too long") (log1 ++ log2)) as Hno.
    { apply Hnot. by apply Forall_app. }
    destruct (0 <? p_len (_pipeline cd3))%nat; cbn [snd]; intros Hin; by destruct Hno.
Qed.

(** C10, an instance: [a | b | c] with pipelines of at most two commands. *)
Lemma ParsePipeline_too_long_witness :
  let r := ParsePipeline 4 2 8
             [ {| tok_type := TOKEN_WORD; tok_value := Some 0 |};
               {| tok_type := TOKEN_PIPE; tok_value := Some 2 |};
               {| tok_type := TOKEN_WORD; tok_value := Some 4 |};
               {| tok_type := TOKEN_PIPE; tok_value := Some 6 |};
               {| tok_type := TOKEN_WORD; tok_value := Some 8 |} ]
             (_cmd_data (this_shell 16 4 2 8)) in
  In (ErrorU "Pipeline too long") r.2 /\
  p_flag (_pipeline r.1) = 15%Z /\
  has_flag (p_flag (_pipeline r.1)) CMD_ARGUMENT_AFTER_REDIRECT /\
  has_flag (c_flag (cmd r.1)) CMD_TOO_MANY_ARGUMENTS.
Proof.
  cbv zeta.
  assert (In (ErrorU "Pipeline too long")
            (ParsePipeline 4 2 8
               [ {| tok_type := TOKEN_WORD; tok_value := Some 0 |};
                 {| tok_type := TOKEN_PIPE; tok_value := Some 2 |};
                 {| tok_type := TOKEN_WORD; tok_value := Some 4 |};
                 {| tok_type := TOKEN_PIPE; tok_value := Some 6 |};
                 {| tok_type := TOKEN_WORD; tok_value := Some 8 |} ]
               (_cmd_data (this_shell 16 4 2 8))).2) as Hin
      by (vm_compute; auto).
  destruct (ParsePipeline_too_long_sets_four_flags 4 2 8 _ _ Hin) as [H _].
  split; [exact Hin|]. split; [reflexivity|]. split.
  - apply (H _ (or_introl eq_refl)).
  - apply (H _ (or_intror eq_refl)).
Defined.

(** ** The line buffer *)

Section ReadLine_facts.

Variable N : nat.
Variable char_is_signed : bool.

Local Abbreviation in_line := (in_line char_is_signed).

(** Reading bytes that do not end the line stores them one after the
    other. *)
Lemma ReadLine_loop_app pre rest nleft p buf :
  Forall in_line pre -> length pre <= nleft -> p + length pre <= length buf ->
  ReadLine_loop char_is_signed nleft (pre ++ rest) p buf =
  ReadLine_loop char_is_signed (nleft - length pre) rest (p + length pre)
    (take p buf ++ pre ++ drop (p + length pre) buf).
Proof.
  revert nleft p buf. induction pre as [|c pre IH]; intros nleft p buf Hpre Hn Hp.
  - simpl. rewrite !Nat.add_0_r, Nat.sub_0_r, take_drop. done.
  - inversion Hpre as [|?? Hc Hpre']; subst. simpl in Hn, Hp.
    destruct nleft as [|nleft]; [lia|].
    cbn [ReadLine_loop app]. unfold in_line in Hc. rewrite Hc.
    rewrite IH by (rewrite ?length_insert; done || lia).
    cbn [length]. replace (p + S (length pre)) with (S p + length pre) by lia.
    replace (S nleft - S (length pre)) with (nleft - length pre) by lia.
    f_equal.
    rewrite drop_insert_lt by lia.
    rewrite insert_take_drop by lia.
    rewrite take_app_ge by (rewrite length_take; lia).
    rewrite length_take, Nat.min_l by lia.
    replace (S p - p) with 1 by lia. simpl. rewrite take_0.
    rewrite <- app_assoc. done.
Qed.

(** The length of the line is at most the size of the buffer. *)
Lemma ReadLine_loop_nleft nleft input p buf :
  (ReadLine_loop char_is_signed nleft input p buf).1.1 <= nleft.
Proof.
  revert input p buf. induction nleft as [|nleft IH]; intros input p buf; [done|].
  simpl. destruct input as [|c input]; [done|].
  destruct (_ || _); simpl; [lia|]. specialize (IH input (S p) (<[p:=c]> buf)). lia.
Qed.

Lemma ReadLine_loop_length nleft input p buf :
  length (ReadLine_loop char_is_signed nleft input p buf).1.2 = length buf.
Proof.
  revert input p buf. induction nleft as [|nleft IH]; intros input p buf; [done|].
  simpl. destruct input as [|c input]; [done|].
  destruct (_ || _); simpl; [done|]. rewrite IH. apply length_insert.
Qed.

Lemma ReadLine_len_le line input :
  let r := ReadLine N char_is_signed line input in
  rl_ret r <= N /\ len (rl_line r) = rl_ret r /\ rl_terminator_index r = rl_ret r /\
  length (buffer (rl_line r)) = length (buffer line).
Proof.
  unfold ReadLine.
  pose proof (ReadLine_loop_length N input 0 (buffer line)) as Hl.
  destruct (ReadLine_loop char_is_signed N input 0 (buffer line)) as [[nleft buf] input'].
  simpl in *. rewrite length_insert. repeat split; lia || done.
Qed.

(** A line shorter than the buffer: the bytes before the newline are
    stored, the terminator is stored after them, inside the buffer, and
    the newline is consumed. *)
Lemma ReadLine_short_line line pre rest :
  Forall in_line pre -> length pre < N ->
  let r := ReadLine N char_is_signed (ClearLine N line) (pre ++ newline :: rest) in
  rl_ret r = length pre /\
  buffer (rl_line r) = pre ++ replicate (N - length pre) NUL /\
  rl_terminator_index r < length (buffer (rl_line r)) /\
  rd (buffer (rl_line r)) (rl_terminator_index r) = NUL /\
  rl_input r = rest.
Proof.
  intros Hpre Hlen. unfold ReadLine, ClearLine. cbn [buffer].
  rewrite ReadLine_loop_app by (rewrite ?length_replicate; done || lia).
  destruct (N - length pre) as [|m] eqn:Em; [lia|].
  cbn [ReadLine_loop]. change (Ascii.eqb newline newline) with true. cbn [orb].
  cbv zeta. cbn [rl_ret rl_line buffer rl_terminator_index rl_input].
  replace (N - S m) with (length pre) by lia.
  rewrite take_0, drop_replicate. simpl.
  replace (N - length pre) with (S m) by lia.
  assert (<[length pre:=NUL]> (pre ++ replicate (S m) NUL) = pre ++ replicate (S m) NUL) as ->.
  { apply list_insert_id. rewrite lookup_app_r by lia.
    rewrite Nat.sub_diag. done. }
  repeat split.
  - rewrite length_app, length_replicate. lia.
  - unfold rd. rewrite app_nth2 by lia. by rewrite Nat.sub_diag.
Qed.

End ReadLine_facts.

(** C7 (as the code has it): a line of [TSH_MAX_CMD_LINE_LENGTH] bytes or
    more fills the buffer, [len] is the size of the buffer, and the
    terminator is stored at [buffer[len]], one past the last element of the
    array; the array itself holds no zero byte. *)
Theorem ReadLine_terminator_past_buffer
  (N : nat) (char_is_signed : bool) (line : BufferedLine) (rest : list ascii) :
  let r := ReadLine N char_is_signed (ClearLine N line) (replicate N "a"%char ++ rest) in
  rl_ret r = N /\
  length (buffer (rl_line r)) = N /\
  rl_terminator_index r = N /\
  ~ (rl_terminator_index r < length (buffer (rl_line r))) /\
  buffer (rl_line r) = replicate N "a"%char.
Proof.
  unfold ReadLine, ClearLine. cbn [buffer].
  rewrite (ReadLine_loop_app char_is_signed (replicate N "a"%char) rest N 0 (replicate N NUL)).
  - rewrite length_replicate, Nat.sub_diag. cbn [ReadLine_loop].
    cbv zeta. cbn [rl_ret rl_line buffer rl_terminator_index].
    rewrite Nat.sub_0_r, take_0, drop_replicate, Nat.sub_diag. simpl.
    rewrite app_nil_r.
    rewrite list_insert_ge by (rewrite length_replicate; lia).
    rewrite length_replicate. repeat split. lia.
  - apply Forall_replicate. unfold in_line, is_EOF. simpl. apply andb_false_r.
  - rewrite length_replicate. lia.
  - rewrite !length_replicate. lia.
Qed.

(** ** The lexer *)

Lemma rd_lookup (l : list ascii) k c : l !! k = Some c -> rd l k = c.
Proof. apply nth_lookup_Some. Qed.

Lemma rd_ge (l : list ascii) k : length l <= k -> rd l k = NUL.
Proof. intros. unfold rd. by apply nth_overflow. Qed.

Lemma drop_rd (l : list ascii) p : p < length l -> drop p l = rd l p :: drop (S p) l.
Proof.
  intros Hp. destruct (lookup_lt_is_Some_2 l p Hp) as [c Hc].
  rewrite (rd_lookup _ _ _ Hc). by apply drop_S.
Qed.

Lemma rd_insert_ne (l : list ascii) i k c : i <> k -> rd (<[i:=c]> l) k = rd l k.
Proof. intros. unfold rd. rewrite !nth_lookup, list_lookup_insert_ne; done. Qed.

Lemma rd_insert_NUL (l : list ascii) i : rd (<[i:=NUL]> l) i = NUL.
Proof.
  destruct (Nat.lt_ge_cases i (length l)).
  - apply rd_lookup. by apply list_lookup_insert_eq.
  - apply rd_ge. by rewrite length_insert.
Qed.

(** [strlen]: the bytes before it are not zero, the one at it is. *)
Lemma strlen_le buf : strlen buf <= length buf.
Proof.
  induction buf as [|c buf IH]; simpl; [lia|]. destruct (Ascii.eqb c NUL); simpl; lia.
Qed.

Lemma strlen_rd buf : rd buf (strlen buf) = NUL.
Proof.
  induction buf as [|c buf IH]; simpl; [done|].
  destruct (Ascii.eqb_spec c NUL); simpl; done.
Qed.

Lemma strlen_take buf : Forall (fun c => c <> NUL) (take (strlen buf) buf).
Proof.
  induction buf as [|c buf IH]; simpl; [constructor|].
  destruct (Ascii.eqb_spec c NUL); simpl; by constructor.
Qed.

Section Tokenize_facts.

Variable sizeof_tokens : nat.
Variable strchr_finds_nul : bool.

Local Abbreviation strchr := (strchr strchr_finds_nul).
Local Abbreviation Tokenize_loop := (Tokenize_loop sizeof_tokens strchr_finds_nul).

Lemma strchr_not_nul l c : c <> NUL -> strchr l c = existsb (Ascii.eqb c) l.
Proof. intros Hc. unfold Tsh.strchr. by destruct (Ascii.eqb_spec c NUL). Qed.

Lemma strchr_nul l : strchr l NUL = strchr_finds_nul.
Proof. done. Qed.

(** What the scanning loop leaves. *)
Lemma scan_spec f buf p n :
  let p' := scan f buf p n in
  p <= p' /\ p' <= p + n /\
  (forall k, p <= k -> k < p' -> f (rd buf k) = true) /\
  (p' < p + n -> f (rd buf p') = false).
Proof.
  revert p. induction n as [|n IH]; intros p; simpl.
  - repeat split; lia.
  - destruct (f (rd buf p)) eqn:E.
    + destruct (IH (S p)) as (H1 & H2 & H3 & H4). repeat split; try lia.
      * intros k Hk1 Hk2. destruct (decide (k = p)) as [->|]; [done|]. apply H3; lia.
      * intros. apply H4. lia.
    + repeat split; try lia. done.
Qed.

(** One iteration of the loop of [Tokenize]. *)
Lemma Tokenize_loop_S fuel tail p buf toks :
  Tokenize_loop (S fuel) tail p buf toks =
  if (p <? tail)%nat && (length toks <? sizeof_tokens)%nat then
    let p := scan (strchr whitespace) buf p (tail - p) in
    if (p =? tail)%nat then (buf, toks)
    else
      let next_char := rd buf p in
      let '(p, next_char, buf, toks) :=
        if negb (strchr symbols next_char) then
          let toks := toks ++ [mk_token TOKEN_WORD p] in
          let p :=
            scan (fun c => negb (strchr whitespace c) && negb (strchr symbols c))
              buf p (tail - p) in
          (p, rd buf p, <[p := NUL]> buf, toks)
        else (p, next_char, buf, toks) in
      if strchr whitespace next_char then
        Tokenize_loop fuel tail (S p) buf toks
      else if strchr symbols next_char then
        if Ascii.eqb next_char ">" && Ascii.eqb (rd buf (S p)) ">" then
          Tokenize_loop fuel tail (p + 2) buf
            (toks ++ [mk_token TOKEN_REDIRECT_OUTPUT_APPEND p])
        else
          Tokenize_loop fuel tail (S p) buf
            (toks ++ [mk_token (symbol_type next_char) p])
      else Tokenize_loop fuel tail p buf toks
  else (buf, toks).
Proof. reflexivity. Qed.

(** *** The specification of the lexer along a line *)

Section Line.

Variable s : list ascii.
Hypothesis s_no_nul : Forall (fun c => c <> NUL) s.

Lemma line_rd_not_nul k : k < length s -> rd s k <> NUL.
Proof.
  intros Hk. destruct (lookup_lt_is_Some_2 s k Hk) as [c Hc].
  rewrite (rd_lookup _ _ _ Hc). rewrite Forall_lookup in s_no_nul. by eapply s_no_nul.
Qed.

Lemma lex_spec_end b p : length s <= p -> lex_spec b (drop p s) = [].
Proof. intros. by rewrite drop_ge. Qed.

Lemma lex_spec_ws p :
  p < length s -> is_ws (rd s p) = true ->
  forall b, lex_spec b (drop p s) = lex_spec false (drop (S p) s).
Proof.
  intros Hp Hw b. rewrite drop_rd by done. cbn [lex_spec].
  unfold is_ws in Hw. by rewrite Hw.
Qed.

Lemma lex_spec_ws_run d p :
  p + d <= length s ->
  (forall k, p <= k -> k < p + d -> is_ws (rd s k) = true) ->
  lex_spec false (drop p s) = lex_spec false (drop (p + d) s).
Proof.
  revert p. induction d as [|d IH]; intros p Hp Hw.
  - by rewrite Nat.add_0_r.
  - rewrite lex_spec_ws by (lia || apply Hw; lia).
    rewrite IH by (lia || intros; apply Hw; lia). f_equal. f_equal. lia.
Qed.

Lemma is_sym_gt c : Ascii.eqb c ">" = true -> is_sym c = true.
Proof. intros ->%Ascii.eqb_eq. done. Qed.

Lemma lex_spec_word_char p :
  p < length s -> is_ws (rd s p) = false -> is_sym (rd s p) = false ->
  forall b, lex_spec b (drop p s) =
            (if b then [] else [TOKEN_WORD]) ++ lex_spec true (drop (S p) s).
Proof.
  intros Hp Hw Hs b. rewrite drop_rd by done. cbn [lex_spec].
  destruct (Ascii.eqb (rd s p) ">") eqn:E.
  - apply is_sym_gt in E. congruence.
  - unfold is_ws, is_sym in *. rewrite Hw, Hs. by destruct b.
Qed.

Lemma lex_spec_word_run d p :
  p + d <= length s ->
  (forall k, p <= k -> k < p + d -> is_ws (rd s k) = false /\ is_sym (rd s k) = false) ->
  lex_spec true (drop p s) = lex_spec true (drop (p + d) s).
Proof.
  revert p. induction d as [|d IH]; intros p Hp Hw.
  - by rewrite Nat.add_0_r.
  - destruct (Hw p) as [H1 H2]; [lia..|].
    rewrite lex_spec_word_char by (lia || done). simpl.
    rewrite IH by (lia || intros; apply Hw; lia). f_equal. f_equal. lia.
Qed.

(** At the end of the line, at whitespace and at a symbol, being in a
    word makes no difference. *)
Lemma lex_spec_boundary p :
  length s <= p \/ is_ws (rd s p) = true \/ is_sym (rd s p) = true ->
  lex_spec true (drop p s) = lex_spec false (drop p s).
Proof.
  intros H. destruct (Nat.lt_ge_cases p (length s)) as [Hp|Hp].
  - destruct H as [H|H]; [lia|]. rewrite drop_rd by done. cbn [lex_spec].
    unfold is_ws, is_sym in *.
    destruct (existsb (Ascii.eqb (rd s p)) whitespace); [done|].
    destruct (Ascii.eqb (rd s p) ">"); [done|].
    destruct H as [H|H]; [done|]. by rewrite H.
  - by rewrite !lex_spec_end.
Qed.

Lemma lex_spec_symbol p :
  p < length s -> is_ws (rd s p) = false -> is_sym (rd s p) = true ->
  lex_spec false (drop p s) =
  if Ascii.eqb (rd s p) ">" && Ascii.eqb (rd s (S p)) ">"
  then TOKEN_REDIRECT_OUTPUT_APPEND :: lex_spec false (drop (p + 2) s)
  else symbol_type (rd s p) :: lex_spec false (drop (S p) s).
Proof.
  intros Hp Hw Hs. rewrite (drop_rd s p) by done. cbn [lex_spec].
  unfold is_ws, is_sym in *. rewrite Hw, Hs.
  destruct (Ascii.eqb_spec (rd s p) ">") as [E|E]; cbn [andb]; [|done].
  rewrite E. destruct (Nat.lt_ge_cases (S p) (length s)) as [Hp'|Hp'].
  - rewrite (drop_rd s (S p)) by done.
    destruct (Ascii.eqb (rd s (S p)) ">"); [|done].
    do 2 f_equal. f_equal. lia.
  - rewrite (drop_ge s (S p)) by done. rewrite (rd_ge s (S p)) by done. done.
Qed.

Local Abbreviation tail := (length s).

Lemma strchr_line l k : k < tail -> strchr l (rd s k) = existsb (Ascii.eqb (rd s k)) l.
Proof. intros. apply strchr_not_nul. by apply line_rd_not_nul. Qed.

(** The step at a symbol, given what the loop does from there on. *)
Lemma Tokenize_symbol_step fuel p buf toks :
  (forall p' buf' toks',
      tail - p' <= fuel -> length toks' <= p' ->
      (forall k, p' <= k -> k <= tail -> rd buf' k = rd s k) ->
      exists rest,
        map tok_type toks' ++ lex_spec false (drop p' s) =
        map tok_type (Tokenize_loop fuel tail p' buf' toks').2 ++ rest /\
        (tail <= sizeof_tokens -> rest = [])) ->
  p < tail -> tail - p <= S fuel -> length toks <= p ->
  (forall k, p < k -> k <= tail -> rd buf k = rd s k) ->
  is_ws (rd s p) = false -> is_sym (rd s p) = true ->
  exists rest,
    map tok_type toks ++ lex_spec false (drop p s) =
    map tok_type
      (if Ascii.eqb (rd s p) ">" && Ascii.eqb (rd buf (S p)) ">" then
         Tokenize_loop fuel tail (p + 2) buf
           (toks ++ [mk_token TOKEN_REDIRECT_OUTPUT_APPEND p])
       else
         Tokenize_loop fuel tail (S p) buf
           (toks ++ [mk_token (symbol_type (rd s p)) p])).2 ++ rest /\
    (tail <= sizeof_tokens -> rest = []).
Proof.
  intros IH Hp Hfuel Htoks Hbuf Hw Hs.
  rewrite lex_spec_symbol by done.
  rewrite (Hbuf (S p)) by lia.
  destruct (Ascii.eqb (rd s p) ">" && Ascii.eqb (rd s (S p)) ">") eqn:E.
  - destruct (IH (p + 2) buf (toks ++ [mk_token TOKEN_REDIRECT_OUTPUT_APPEND p]))
      as (rest & Hrest & Hcap).
    + lia.
    + rewrite length_app. simpl. lia.
    + intros k Hk1 Hk2. apply Hbuf; lia.
    + exists rest. split; [|done]. rewrite <- Hrest.
      rewrite map_app, <- app_assoc. done.
  - destruct (IH (S p) buf (toks ++ [mk_token (symbol_type (rd s p)) p]))
      as (rest & Hrest & Hcap).
    + lia.
    + rewrite length_app. simpl. lia.
    + intros k Hk1 Hk2. apply Hbuf; lia.
    + exists rest. split; [|done]. rewrite <- Hrest.
      rewrite map_app, <- app_assoc. done.
Qed.

(** The loop of [Tokenize] from [p] on produces the tokens of the rest
    of the line, all of them unless it stops at the bound on their
    number. *)
Lemma Tokenize_loop_spec fuel p buf toks :
  tail - p <= fuel -> length toks <= p ->
  (forall k, p <= k -> k <= tail -> rd buf k = rd s k) ->
  exists rest,
    map tok_type toks ++ lex_spec false (drop p s) =
    map tok_type (Tokenize_loop fuel tail p buf toks).2 ++ rest /\
    (tail <= sizeof_tokens -> rest = []).
Proof.
  revert p buf toks. induction fuel as [|fuel IH]; intros p buf toks Hfuel Htoks Hbuf.
  { exists []. rewrite lex_spec_end by lia. done. }
  rewrite Tokenize_loop_S.
  destruct (Nat.ltb_spec p tail) as [Hp|Hp]; cycle 1.
  { exists []. rewrite lex_spec_end by lia. done. }
  destruct (Nat.ltb_spec (length toks) sizeof_tokens) as [Hcap|Hcap]; cycle 1.
  { cbn [andb snd]. exists (lex_spec false (drop p s)). split; [done|]. lia. }
  cbn [andb]. cbv zeta.
  (* the whitespace before the token *)
  destruct (scan_spec (strchr whitespace) buf p (tail - p)) as (Hp1 & Hp1' & Hws & Hstop).
  set (p1 := scan (strchr whitespace) buf p (tail - p)) in *.
  assert (lex_spec false (drop p s) = lex_spec false (drop p1 s)) as ->.
  { replace p1 with (p + (p1 - p)) by lia. apply lex_spec_ws_run; [lia|].
    intros k Hk1 Hk2. unfold is_ws. rewrite <- strchr_line by lia.
    rewrite <- Hbuf by lia. apply Hws; lia. }
  destruct (Nat.eqb_spec p1 tail) as [Hend|Hne].
  { exists []. rewrite lex_spec_end by lia. done. }
  assert (p1 < tail) as Hp1t by lia.
  assert (is_ws (rd s p1) = false) as Hnws.
  { unfold is_ws. rewrite <- strchr_line by lia. rewrite <- Hbuf by lia.
    apply Hstop. lia. }
  rewrite (Hbuf p1) by lia.
  rewrite (strchr_line symbols p1) by done. fold (is_sym (rd s p1)).
  destruct (is_sym (rd s p1)) eqn:Hsym; cbn [negb].
  - (* a symbol *)
    rewrite (strchr_line whitespace p1) by done. fold (is_ws (rd s p1)).
    rewrite Hnws. rewrite (strchr_line symbols p1) by done.
    fold (is_sym (rd s p1)). rewrite Hsym.
    apply Tokenize_symbol_step;
      [exact IH|done|lia|lia|intros; apply Hbuf; lia|done|done].
  - (* a word *)
    set (wordc := fun c => negb (strchr whitespace c) && negb (strchr symbols c)).
    destruct (scan_spec wordc buf p1 (tail - p1)) as (Hp2 & Hp2' & Hword & Hstop2).
    set (p2 := scan wordc buf p1 (tail - p1)) in *.
    assert (forall k, k < tail -> wordc (rd s k) = negb (is_ws (rd s k)) && negb (is_sym (rd s k)))
      as Hwordc.
    { intros k Hk. unfold wordc. by rewrite !strchr_line. }
    assert (p1 < p2) as Hlt.
    { destruct (decide (p1 = p2)) as [E|]; [|lia]. exfalso.
      rewrite <- E in Hstop2. rewrite Hbuf, Hwordc, Hnws, Hsym in Hstop2 by lia.
      specialize (Hstop2 ltac:(lia)). done. }
    assert (lex_spec false (drop p1 s) = TOKEN_WORD :: lex_spec true (drop p2 s)) as ->.
    { rewrite lex_spec_word_char by done. simpl. f_equal.
      replace p2 with (S p1 + (p2 - S p1)) by lia. apply lex_spec_word_run; [lia|].
      intros k Hk1 Hk2. specialize (Hword k ltac:(lia) ltac:(lia)).
      rewrite Hbuf, Hwordc in Hword by lia.
      apply andb_true_iff in Hword as [H1%negb_true_iff H2%negb_true_iff]. done. }
    set (toks1 := toks ++ [mk_token TOKEN_WORD p1]).
    assert (map tok_type toks ++ TOKEN_WORD :: lex_spec true (drop p2 s) =
            map tok_type toks1 ++ lex_spec true (drop p2 s)) as ->.
    { unfold toks1. rewrite map_app, <- app_assoc. done. }
    assert (length toks1 <= p2) as Htoks1.
    { unfold toks1. rewrite length_app. simpl. lia. }
    assert (forall k, p2 < k -> k <= tail -> rd (<[p2:=NUL]> buf) k = rd s k) as Hbuf2.
    { intros k Hk1 Hk2. rewrite rd_insert_ne by lia. apply Hbuf; lia. }
    rewrite (Hbuf p2) by lia.
    destruct (Nat.lt_ge_cases p2 tail) as [Hp2t|Hp2t].
    + (* the word ends before the end of the line *)
      specialize (Hstop2 ltac:(lia)).
      rewrite Hbuf, Hwordc in Hstop2 by lia.
      rewrite (strchr_line whitespace p2) by done. fold (is_ws (rd s p2)).
      rewrite (strchr_line symbols p2) by done. fold (is_sym (rd s p2)).
      destruct (is_ws (rd s p2)) eqn:Hw2.
      * rewrite lex_spec_boundary by auto.
        rewrite (lex_spec_ws p2) by done.
        apply IH; [lia|lia|]. intros k Hk1 Hk2. apply Hbuf2; lia.
      * destruct (is_sym (rd s p2)) eqn:Hs2; [|done].
        rewrite lex_spec_boundary by auto.
        apply Tokenize_symbol_step; [exact IH|done|lia|lia|done|done|done].
    + (* the word ends the line *)
      assert (p2 = tail) as Hp2e by lia.
      rewrite (rd_ge s p2) by lia. rewrite !strchr_nul.
      rewrite (lex_spec_end true p2) by lia.
      destruct strchr_finds_nul.
      * destruct (IH (S p2) (<[p2:=NUL]> buf) toks1) as (rest & Hrest & Hc);
          [lia|lia|intros k Hk1 Hk2; apply Hbuf2; lia|].
        rewrite (lex_spec_end false (S p2)) in Hrest by lia. by exists rest.
      * destruct (IH p2 (<[p2:=NUL]> buf) toks1) as (rest & Hrest & Hc); [lia|lia| |].
        { intros k Hk1 Hk2. assert (k = p2) as -> by lia.
          rewrite rd_insert_NUL. symmetry. apply rd_ge. lia. }
        rewrite (lex_spec_end false p2) in Hrest by lia. by exists rest.
Qed.

End Line.

(** Enough fuel: the loop of [Tokenize] ends within [tail - p]
    iterations, and more fuel gives the same result. *)
Lemma Tokenize_loop_fuel fuel1 fuel2 tail p buf toks :
  tail - p <= fuel1 -> tail - p <= fuel2 ->
  Tokenize_loop fuel1 tail p buf toks = Tokenize_loop fuel2 tail p buf toks.
Proof.
  revert fuel2 p buf toks. induction fuel1 as [|fuel1 IH]; intros fuel2 p buf toks H1 H2.
  - destruct fuel2 as [|fuel2]; [done|]. rewrite Tokenize_loop_S.
    destruct (Nat.ltb_spec p tail); [lia|]. done.
  - destruct fuel2 as [|fuel2].
    + rewrite Tokenize_loop_S. destruct (Nat.ltb_spec p tail); [lia|]. done.
    + rewrite !Tokenize_loop_S.
      destruct (Nat.ltb_spec p tail) as [Hp|Hp]; [|done].
      destruct (_ <? sizeof_tokens)%nat; [|done]. cbn [andb]. cbv zeta.
      destruct (scan_spec (strchr whitespace) buf p (tail - p)) as (Hp1 & Hp1' & _ & _).
      set (p1 := scan (strchr whitespace) buf p (tail - p)) in *.
      destruct (Nat.eqb_spec p1 tail) as [Hend|Hne]; [done|].
      set (wordc := fun c => negb (strchr whitespace c) && negb (strchr symbols c)).
      destruct (scan_spec wordc buf p1 (tail - p1)) as (Hp2 & Hp2' & _ & Hstop2).
      set (p2 := scan wordc buf p1 (tail - p1)) in *.
      destruct (strchr symbols (rd buf p1)) eqn:Es; cbn [negb].
      * rewrite Es. destruct (strchr whitespace (rd buf p1)); [apply IH; lia|].
        destruct (_ && _); apply IH; lia.
      * destruct (strchr whitespace (rd buf p2)) eqn:Ew2; [apply IH; lia|].
        destruct (strchr symbols (rd buf p2)) eqn:Es2.
        -- destruct (_ && _); apply IH; lia.
        -- apply IH; [|]; destruct (Nat.lt_ge_cases p2 tail) as [Hlt|Hge]; try lia;
             specialize (Hstop2 ltac:(lia)); unfold wordc in Hstop2;
             rewrite Ew2, Es2 in Hstop2; done.
Qed.

End Tokenize_facts.

(** The loop of [Tokenize] on a whole line: the bytes of the buffer before
    the first zero byte. *)
Lemma Tokenize_loop_line (sizeof_tokens : nat) (strchr_finds_nul : bool) (buf : list ascii) :
  let s := take (strlen buf) buf in
  exists rest,
    lex_spec false s =
    map tok_type
      (Tokenize_loop sizeof_tokens strchr_finds_nul (strlen buf) (strlen buf) 0 buf []).2
    ++ rest /\
    (length s <= sizeof_tokens -> rest = []).
Proof.
  cbv zeta. set (s := take (strlen buf) buf).
  assert (length s = strlen buf) as Hlen.
  { unfold s. rewrite length_take. pose proof (strlen_le buf). lia. }
  rewrite <- Hlen.
  destruct (Tokenize_loop_spec sizeof_tokens strchr_finds_nul s (strlen_take _)
              (length s) 0 buf []) as (rest & Hrest & Hcap).
  - lia.
  - simpl. lia.
  - intros k _ Hk. destruct (decide (k = length s)) as [->|Hne].
    + rewrite (rd_ge s) by lia. rewrite Hlen. apply strlen_rd.
    + unfold s, rd. rewrite !nth_lookup, lookup_take_lt by lia. done.
  - exists rest. rewrite drop_0 in Hrest. done.
Qed.

(** C9: the kinds of the tokens that [Tokenize] stores are those of the
    lexer of the specification on the line (the bytes of the buffer before
    the first zero byte): [>>] is one [TOKEN_REDIRECT_OUTPUT_APPEND], a [>]
    that no [>] follows is one [TOKEN_REDIRECT_OUTPUT], and every other
    symbol is one token.  The loop of [Tokenize] stops when [idx] reaches
    [sizeof(tl->tokens)], and the tokens are then the first of the line;
    they are all of them when the line is not longer than that. *)
Theorem Tokenize_refines_lex_spec
  (sizeof_tokens : nat) (strchr_finds_nul : bool) (line : BufferedLine) :
  let s := take (strlen (buffer line)) (buffer line) in
  let tl := (Tokenize sizeof_tokens strchr_finds_nul line).2 in
  exists rest,
    lex_spec false s = token_types tl ++ rest /\
    (length s <= sizeof_tokens -> rest = []).
Proof.
  cbv zeta. unfold Tokenize, token_types.
  destruct (Tokenize_loop_line sizeof_tokens strchr_finds_nul (buffer line))
    as (rest & Hrest & Hcap).
  destruct (Tokenize_loop sizeof_tokens strchr_finds_nul _ _ 0 (buffer line) [])
    as [buf toks].
  cbn [snd tl_len tl_tokens] in *. rewrite firstn_all.
  by exists rest.
Qed.

(** The lexer of the specification on [>]: two of them are one token, and
    the third of three is a token of its own. *)
Lemma lex_spec_append (b : bool) (s : list ascii) :
  lex_spec b (">" :: ">" :: s)%char = TOKEN_REDIRECT_OUTPUT_APPEND :: lex_spec false s.
Proof. reflexivity. Qed.

Lemma lex_spec_output (b : bool) (c : ascii) (s : list ascii) :
  Ascii.eqb c ">" = false ->
  lex_spec b (">" :: c :: s)%char = TOKEN_REDIRECT_OUTPUT :: lex_spec false (c :: s).
Proof. intros H. cbn [lex_spec]. simpl. rewrite H. reflexivity. Qed.

Lemma Tokenize_three_gt :
  token_types (Tokenize 64 false
                 {| len := 3; buffer := [">"; ">"; ">"; NUL]%char |}).2
  = [TOKEN_REDIRECT_OUTPUT_APPEND; TOKEN_REDIRECT_OUTPUT].
Proof. reflexivity. Qed.

(** ** The executor *)

Lemma bind_Ret {A B} (m : M A) (k : A -> M B) w a w' :
  m w = Ret a w' -> bind m k w = k a w'.
Proof. unfold bind. by intros ->. Qed.

Lemma bind_Stop {A B} (m : M A) (k : A -> M B) w w' :
  m w = Stop w' -> bind m k w = Stop w'.
Proof. unfold bind. by intros ->. Qed.

Lemma bind_Ret_inv {A B} (m : M A) (k : A -> M B) w b w' :
  bind m k w = Ret b w' -> exists a w1, m w = Ret a w1 /\ k a w1 = Ret b w'.
Proof. unfold bind. destruct (m w) as [a w1| |]; [eauto|done..]. Qed.

Section Executor_facts.

Variable fork_result : nat -> Z.
Variable wait_status : nat -> Z.
Variable can_open : list ascii -> Z -> bool.
Variable exec_ok : list ascii -> list (list ascii) -> bool.
Variable chdir_ok : list ascii -> bool.
Variables O_RDONLY O_WRONLY O_CREATE : Z.
Variable atoi : list ascii -> Z.
Variable mem : list ascii.

Local Abbreviation external := (external mem).
Local Abbreviation runSimpleCommand :=
  (runSimpleCommand fork_result wait_status can_open exec_ok O_RDONLY O_WRONLY O_CREATE mem).
Local Abbreviation runPipelineCommnad :=
  (runPipelineCommnad fork_result wait_status can_open exec_ok O_RDONLY O_WRONLY O_CREATE mem).
Local Abbreviation RunCommand :=
  (RunCommand fork_result wait_status can_open exec_ok chdir_ok
     O_RDONLY O_WRONLY O_CREATE atoi mem).

(** *** Simple commands *)

Lemma redirect_without_output_0 cmd : redirect (without_output cmd) 0 = redirect cmd 0.
Proof.
  unfold redirect, without_output. cbn [redirects].
  rewrite !nth_lookup, list_lookup_insert_ne by done. done.
Qed.

Lemma redirect_without_output_1 cmd :
  r_type (redirect cmd 1) = REDIRECT_APPEND ->
  r_type (redirect (without_output cmd) 1) = REDIRECT_NONE.
Proof.
  unfold redirect, without_output. cbn [redirects]. rewrite !nth_lookup.
  destruct (redirects cmd !! 1) as [r|] eqn:E; [|done]. intros _.
  rewrite list_lookup_insert_eq by (by eapply lookup_lt_Some). done.
Qed.

(** A slot for descriptor 1 of type [REDIRECT_APPEND] is as good as
    none. *)
Lemma runSimpleCommand_append cmd w :
  r_type (redirect cmd 1) = REDIRECT_APPEND ->
  runSimpleCommand cmd w = runSimpleCommand (without_output cmd) w.
Proof.
  intros Ha. unfold Tsh.runSimpleCommand, exec_command.
  rewrite redirect_without_output_0, (redirect_without_output_1 cmd Ha), Ha.
  reflexivity.
Qed.

(** The child of a command with no redirection that the executor
    honours goes to [exec] at once. *)
Lemma runSimpleCommand_child_plain cmd w k :
  fork_result (forks w) = 0%Z ->
  s_type cmd = CMD_SIMPLE ->
  r_type (redirect cmd 0) <> REDIRECT_INPUT ->
  r_type (redirect cmd 1) <> REDIRECT_OUTPUT ->
  name cmd = Some k ->
  exists w',
    runSimpleCommand cmd w = Stop w' /\
    ofile w' = ofile w /\
    trace w' =
      trace w ++ ev_fork 0 :: ev_exec (cstr mem k) (load_argv mem (argv cmd)) ::
        (if exec_ok (cstr mem k) (load_argv mem (argv cmd)) then []
         else [ev_diag (ErrorU "Command not found!"); ev_exit 1]).
Proof.
  intros Hf Hty H0 H1 Hn. unfold Tsh.runSimpleCommand, exec_command.
  unfold bind at 1. unfold sys_fork at 1. rewrite Hf. cbn [Z.eqb].
  rewrite Hty. cbn [CommandType_eqb].
  destruct (r_type (redirect cmd 0)) eqn:E0; [done|..];
    destruct (r_type (redirect cmd 1)) eqn:E1; try done;
    cbn [RedirectionType_eqb]; rewrite Hn;
    cbv [bind ret load_str sys_exec diag sys_exit record ofile trace forks waits pipes];
    destruct (exec_ok (cstr mem k) (load_argv mem (argv cmd)));
    eexists; (split; [reflexivity|]); cbn [ofile trace];
    rewrite <- ?app_assoc; done.
Qed.

(** When [fork] fails [runSimpleCommand] reports it and returns -1. *)
Lemma runSimpleCommand_fork_fails cmd w :
  (fork_result (forks w) < 0)%Z ->
  runSimpleCommand cmd w =
  Ret (-1)%Z
    {| ofile := ofile w;
       trace := trace w ++ [ev_fork (fork_result (forks w)); ev_diag (ErrorS "Fork failed")];
       forks := S (forks w); waits := waits w; pipes := pipes w |}.
Proof.
  intros Hf. unfold Tsh.runSimpleCommand.
  unfold bind at 1. unfold sys_fork at 1.
  destruct (Z.eqb_spec (fork_result (forks w)) 0) as [E|_]; [lia|].
  destruct (Z.ltb_spec 0 (fork_result (forks w))) as [E|_]; [lia|].
  cbv [bind ret diag record ofile trace forks waits pipes].
  by rewrite <- app_assoc.
Qed.

Lemma RunCommand_external pipeFD0 shell cmd w :
  external shell cmd ->
  RunCommand pipeFD0 shell w =
  (runSimpleCommand cmd ;;; ret (0%Z, shell)) w.
Proof.
  intros (Hty & (k & Hk & Hs) & (n & Hn & Hq & He & Hc)).
  unfold Tsh.RunCommand. rewrite Hty, Hk, Hs, Hn.
  unfold load_str. unfold bind at 1. unfold ret at 1.
  rewrite Hq, He, Hc. done.
Qed.

(** [RunCommand] returns 0 whenever it returns from a command that is
    neither empty nor invalid. *)
Lemma RunCommand_returns_0 pipeFD0 shell w r shell' w' :
  RunCommand pipeFD0 shell w = Ret (r, shell') w' ->
  r = RunCommand_value (c_type (cmd (_cmd_data shell))).
Proof.
  unfold Tsh.RunCommand.
  destruct (c_type (cmd (_cmd_data shell))); cbn [RunCommand_value].
  - intros (? & ? & _ & H)%bind_Ret_inv. by injection H.
  - intros H. by injection H.
  - destruct (c_cmd (cmd (_cmd_data shell))) as [|k|]; [done| |done].
    destruct (_simples (_cmd_data shell) !! k) as [c|]; [|done].
    intros (nm & w1 & _ & H)%bind_Ret_inv.
    destruct (strcmp_eq nm "quit").
    { destruct (1 <? argc c)%nat.
      - apply bind_Ret_inv in H as (? & ? & _ & H). by injection H.
      - by injection H. }
    destruct (strcmp_eq nm "exit").
    { destruct (1 <? argc c)%nat; [|done].
      apply bind_Ret_inv in H as (? & ? & _ & H). done. }
    destruct (strcmp_eq nm "cd").
    { apply bind_Ret_inv in H as (? & ? & _ & H).
      apply bind_Ret_inv in H as (? & ? & _ & H). by injection H. }
    apply bind_Ret_inv in H as (? & ? & _ & H). by injection H.
  - destruct (c_cmd (cmd (_cmd_data shell))); [done..|].
    intros (? & ? & _ & H)%bind_Ret_inv. by injection H.
  - intros H. by injection H.
Qed.

End Executor_facts.

(** C3 (amended): a slot for descriptor 1 of type [REDIRECT_APPEND] is
    ignored: [runSimpleCommand] does what it does for the command without
    that slot, and when the slot for descriptor 0 is not an input
    redirection either, the child calls [exec] at once, with the open
    files it was forked with. *)
Theorem runSimpleCommand_append_ignored
  (fork_result wait_status : nat -> Z) (can_open : list ascii -> Z -> bool)
  (exec_ok : list ascii -> list (list ascii) -> bool) (O_RDONLY O_WRONLY O_CREATE : Z)
  (mem : list ascii) (cmd : SimpleCommand) (w : world) :
  r_type (redirect cmd 1) = REDIRECT_APPEND ->
  runSimpleCommand fork_result wait_status can_open exec_ok O_RDONLY O_WRONLY O_CREATE mem cmd w
  = runSimpleCommand fork_result wait_status can_open exec_ok O_RDONLY O_WRONLY O_CREATE mem
      (without_output cmd) w /\
  (forall k,
      fork_result (forks w) = 0%Z -> s_type cmd = CMD_SIMPLE ->
      r_type (redirect cmd 0) <> REDIRECT_INPUT -> name cmd = Some k ->
      exists w',
        runSimpleCommand fork_result wait_status can_open exec_ok
          O_RDONLY O_WRONLY O_CREATE mem cmd w = Stop w' /\
        ofile w' = ofile w /\
        trace w' =
          trace w ++ ev_fork 0 :: ev_exec (cstr mem k) (load_argv mem (argv cmd)) ::
            (if exec_ok (cstr mem k) (load_argv mem (argv cmd)) then []
             else [ev_diag (ErrorU "Command not found!"); ev_exit 1])).
Proof.
  intros Ha. split.
  - by apply runSimpleCommand_append.
  - intros k Hf Hty H0 Hn. apply runSimpleCommand_child_plain; try done.
    rewrite Ha. done.
Qed.

(** *** Descriptors *)

Lemma fdalloc_Some t k :
  fdalloc t = Some k ->
  t !! k = Some None /\ forall j, j < k -> exists f, t !! j = Some (Some f).
Proof.
  revert k. induction t as [|[f|] t IH]; intros k; simpl; [done| |].
  - destruct (fdalloc t) as [k'|]; [|done]. simpl. intros [= <-].
    destruct (IH k' eq_refl) as [H1 H2]. split; [done|].
    intros [|j] Hj; simpl; [eauto|]. apply H2. lia.
  - intros [= <-]. split; [done|]. intros j Hj. lia.
Qed.

Lemma fdalloc_first t k :
  t !! k = Some None -> (forall j, j < k -> exists f, t !! j = Some (Some f)) ->
  fdalloc t = Some k.
Proof.
  revert k. induction t as [|[f|] t IH]; intros k Hk Hlt; [done| |].
  - destruct k as [|k]; [done|]. simpl. rewrite (IH k); [done|done|].
    intros j Hj. apply (Hlt (S j)). lia.
  - destruct k as [|k]; [done|]. destruct (Hlt 0) as [f Hf]; [lia|done].
Qed.

Lemma fd_file_nat t k :
  fd_file t (Z.of_nat k) = match t !! k with Some (Some f) => Some f | _ => None end.
Proof.
  unfold fd_file. destruct (Z.ltb_spec (Z.of_nat k) 0); [lia|]. by rewrite Nat2Z.id.
Qed.

Lemma after_after evs1 evs2 t1 t2 w :
  after evs2 t2 (after evs1 t1 w) = after (evs1 ++ evs2) t2 w.
Proof. unfold after. cbn. by rewrite app_assoc. Qed.

Lemma sys_close_open {B} k f (K : Z -> M B) w :
  ofile w !! k = Some (Some f) ->
  bind (sys_close (Z.of_nat k)) K w =
  K 0%Z (after [ev_close (Z.of_nat k) 0] (<[k:=None]> (ofile w)) w).
Proof.
  intros Hk. unfold bind, sys_close. rewrite fd_file_nat, Hk, Nat2Z.id. done.
Qed.

Lemma sys_dup_open {B} k j f (K : Z -> M B) w :
  ofile w !! k = Some (Some f) -> fdalloc (ofile w) = Some j ->
  bind (sys_dup (Z.of_nat k)) K w =
  K (Z.of_nat j) (after [ev_dup (Z.of_nat k) (Z.of_nat j)] (<[j:=Some f]> (ofile w)) w).
Proof.
  intros Hk Hj. unfold bind, sys_dup. rewrite fd_file_nat, Hk, Hj. done.
Qed.

Lemma piped_length t r wr id f0 f1 :
  piped t r wr id f0 f1 -> r < length t /\ wr < length t /\ 2 <= length t.
Proof.
  intros [H0 H1 Hr Hw _ _ _]. repeat split.
  - by eapply lookup_lt_Some.
  - by eapply lookup_lt_Some.
  - apply (lookup_lt_Some _ 1 _ H1).
Qed.

Ltac lookups :=
  repeat first
    [ rewrite list_lookup_insert_ne by lia
    | rewrite list_lookup_insert_eq by (rewrite ?length_insert; lia) ];
  try done.

Ltac lowest k :=
  apply (fdalloc_first _ k);
  [ lookups
  | let j := fresh "j" in let Hj := fresh "Hj" in
    intros j Hj;
    first [ lia
          | destruct j as [|j];
            [ eexists; lookups
            | first [ lia | destruct j as [|j]; [eexists; lookups | lia] ] ] ] ].

Section Wiring.

Variables (t : list (option file)) (r wr id : nat) (f0 f1 : file).
Hypothesis Ht : piped t r wr id f0 f1.

(** The first stage: descriptor 1 becomes the write end. *)
Lemma wire_first {B} (K : M B) w :
  ofile w = t ->
  (sys_close 1 ;;; sys_dup (Z.of_nat wr) ;;;
   sys_close (Z.of_nat r) ;;; sys_close (Z.of_nat wr) ;;; K) w =
  K (after [ev_close 1 0; ev_dup (Z.of_nat wr) 1;
            ev_close (Z.of_nat r) 0; ev_close (Z.of_nat wr) 0]
       (<[wr:=None]> (<[r:=None]> (<[1:=Some (pipe_write id)]> (<[1:=None]> t)))) w).
Proof.
  intros Hw. destruct (piped_length _ _ _ _ _ _ Ht) as (Hr & Hwr & H2). destruct Ht.
  change 1%Z with (Z.of_nat 1).
  erewrite (sys_close_open 1) by (rewrite Hw; done).
  erewrite (sys_dup_open wr 1); cycle 1.
  { cbn [ofile after]. rewrite Hw. lookups. }
  { cbn [ofile after]. rewrite Hw. lowest 1. }
  erewrite (sys_close_open r); cycle 1.
  { cbn [ofile after]. rewrite Hw. lookups. }
  erewrite (sys_close_open wr); cycle 1.
  { cbn [ofile after]. rewrite Hw. lookups. }
  rewrite !after_after. cbn [ofile after app]. rewrite Hw. done.
Qed.

(** The last stage: descriptor 0 becomes the read end. *)
Lemma wire_last {B} (K : M B) w :
  ofile w = t ->
  (sys_close 0 ;;; sys_dup (Z.of_nat r) ;;;
   sys_close (Z.of_nat r) ;;; sys_close (Z.of_nat wr) ;;; K) w =
  K (after [ev_close 0 0; ev_dup (Z.of_nat r) 0;
            ev_close (Z.of_nat r) 0; ev_close (Z.of_nat wr) 0]
       (<[wr:=None]> (<[r:=None]> (<[0:=Some (pipe_read id)]> (<[0:=None]> t)))) w).
Proof.
  intros Hw. destruct (piped_length _ _ _ _ _ _ Ht) as (Hr & Hwr & H2). destruct Ht.
  change 0%Z with (Z.of_nat 0).
  erewrite (sys_close_open 0) by (rewrite Hw; done).
  erewrite (sys_dup_open r 0); cycle 1.
  { cbn [ofile after]. rewrite Hw. lookups. }
  { cbn [ofile after]. rewrite Hw. lowest 0. }
  erewrite (sys_close_open r); cycle 1.
  { cbn [ofile after]. rewrite Hw. lookups. }
  erewrite (sys_close_open wr); cycle 1.
  { cbn [ofile after]. rewrite Hw. lookups. }
  rewrite !after_after. cbn [ofile after app]. rewrite Hw. done.
Qed.

(** A middle stage: descriptor 1 becomes the read end and descriptor 0
    the write end. *)
Lemma wire_middle {B} (K : M B) w :
  ofile w = t ->
  (sys_close 1 ;;; sys_dup (Z.of_nat r) ;;;
   sys_close 0 ;;; sys_dup (Z.of_nat wr) ;;;
   sys_close (Z.of_nat r) ;;; sys_close (Z.of_nat wr) ;;; K) w =
  K (after [ev_close 1 0; ev_dup (Z.of_nat r) 1;
            ev_close 0 0; ev_dup (Z.of_nat wr) 0;
            ev_close (Z.of_nat r) 0; ev_close (Z.of_nat wr) 0]
       (<[wr:=None]> (<[r:=None]>
          (<[0:=Some (pipe_write id)]> (<[0:=None]>
             (<[1:=Some (pipe_read id)]> (<[1:=None]> t)))))) w).
Proof.
  intros Hw. destruct (piped_length _ _ _ _ _ _ Ht) as (Hr & Hwr & H2). destruct Ht.
  change 1%Z with (Z.of_nat 1). change 0%Z with (Z.of_nat 0).
  erewrite (sys_close_open 1) by (rewrite Hw; done).
  erewrite (sys_dup_open r 1); cycle 1.
  { cbn [ofile after]. rewrite Hw. lookups. }
  { cbn [ofile after]. rewrite Hw. lowest 1. }
  erewrite (sys_close_open 0); cycle 1.
  { cbn [ofile after]. rewrite Hw. lookups. }
  erewrite (sys_dup_open wr 0); cycle 1.
  { cbn [ofile after]. rewrite Hw. lookups. }
  { cbn [ofile after]. rewrite Hw. lowest 0. }
  erewrite (sys_close_open r); cycle 1.
  { cbn [ofile after]. rewrite Hw. lookups. }
  erewrite (sys_close_open wr); cycle 1.
  { cbn [ofile after]. rewrite Hw. lookups. }
  rewrite !after_after. cbn [ofile after app]. rewrite Hw. done.
Qed.

End Wiring.

(** *** Pipelines *)

Section Pipeline_facts.

Variable fork_result : nat -> Z.
Variable wait_status : nat -> Z.
Variable can_open : list ascii -> Z -> bool.
Variable exec_ok : list ascii -> list (list ascii) -> bool.
Variables O_RDONLY O_WRONLY O_CREATE : Z.
Variable mem : list ascii.

Local Abbreviation pipeline_loop :=
  (pipeline_loop fork_result can_open exec_ok O_RDONLY O_WRONLY O_CREATE mem).
Local Abbreviation stage_setup := (stage_setup can_open O_RDONLY O_WRONLY O_CREATE mem).
Local Abbreviation stage_redirect := (stage_redirect can_open mem).
Local Abbreviation exec_command := (exec_command exec_ok mem).
Local Abbreviation runPipelineCommnad :=
  (runPipelineCommnad fork_result wait_status can_open exec_ok O_RDONLY O_WRONLY O_CREATE mem).

Lemma fork_events_S k n :
  fork_events fork_result k (S n) =
  ev_fork (fork_result k) :: fork_events fork_result (S k) n.
Proof.
  unfold fork_events. cbn [seq map]. rewrite Nat.add_0_r. f_equal.
  rewrite <- seq_shift, map_map. apply map_ext. intros j. do 2 f_equal. lia.
Qed.

Lemma wait_events_S k n :
  wait_events wait_status k (S n) =
  ev_wait (wait_status k) :: wait_events wait_status (S k) n.
Proof.
  unfold wait_events. cbn [seq map]. rewrite Nat.add_0_r. f_equal.
  rewrite <- seq_shift, map_map. apply map_ext. intros j. do 2 f_equal. lia.
Qed.

(** The loop in the parent, where no [fork] returns 0: [n] calls of
    [fork] and nothing else. *)
Lemma pipeline_loop_parent simples pipeline numCommands pipeFD n x w :
  (forall j, j < n -> fork_result (forks w + j) <> 0%Z) ->
  pipeline_loop simples pipeline numCommands pipeFD n x w =
  Ret tt {| ofile := ofile w;
            trace := trace w ++ fork_events fork_result (forks w) n;
            forks := forks w + n; waits := waits w; pipes := pipes w |}.
Proof.
  revert x w. induction n as [|n IH]; intros x w Hf.
  - simpl. unfold ret, fork_events. simpl. rewrite app_nil_r, Nat.add_0_r. by destruct w.
  - cbn [Tsh.pipeline_loop]. unfold bind at 1. unfold sys_fork at 1.
    pose proof (Hf 0 ltac:(lia)) as H0. rewrite Nat.add_0_r in H0.
    destruct (Z.eqb_spec (fork_result (forks w)) 0) as [E|_]; [done|].
    unfold bind at 1. unfold ret at 1.
    rewrite IH; cbn [forks ofile trace waits pipes].
    + rewrite fork_events_S, <- app_assoc. do 2 f_equal. lia.
    + intros j Hj. replace (S (forks w) + j) with (forks w + S j) by lia. apply Hf. lia.
Qed.

(** The loop in the child of stage [x + j]: after [j] calls of [fork] as
    a parent, the next one returns 0, and the process is over when the
    child is. *)
Lemma pipeline_loop_child simples pipeline numCommands pipeFD j n x w k command w' :
  j < n ->
  (forall i, i < j -> fork_result (forks w + i) <> 0%Z) ->
  fork_result (forks w + j) = 0%Z ->
  c_cmd (nth (x + j) (commands pipeline) zero_command) = ref_simple k ->
  simples !! k = Some command ->
  (stage_setup numCommands (x + j) pipeFD command ;;; exec_command command ;;; ret tt)
    {| ofile := ofile w;
       trace := trace w ++ fork_events fork_result (forks w) j ++ [ev_fork 0];
       forks := forks w + S j; waits := waits w; pipes := pipes w |} = Stop w' ->
  pipeline_loop simples pipeline numCommands pipeFD n x w = Stop w'.
Proof.
  revert n x w. induction j as [|j IH]; intros n x w Hn Hpar Hch Hk Hs Hbody.
  - destruct n as [|n]; [lia|]. cbn [Tsh.pipeline_loop].
    rewrite Nat.add_0_r in *. unfold bind at 1. unfold sys_fork at 1.
    rewrite Hch. cbn [Z.eqb]. rewrite Hk, Hs.
    apply bind_Stop. unfold fork_events in Hbody. simpl in Hbody.
    replace (forks w + 1) with (S (forks w)) in Hbody by lia. done.
  - destruct n as [|n]; [lia|]. cbn [Tsh.pipeline_loop].
    unfold bind at 1. unfold sys_fork at 1.
    pose proof (Hpar 0 ltac:(lia)) as H0. rewrite Nat.add_0_r in H0.
    destruct (Z.eqb_spec (fork_result (forks w)) 0) as [E|_]; [done|].
    unfold bind at 1. unfold ret at 1.
    apply (IH n (S x)); cbn [forks ofile trace waits pipes].
    + lia.
    + intros i Hi. replace (S (forks w) + i) with (forks w + S i) by lia. apply Hpar. lia.
    + replace (S (forks w) + j) with (forks w + S j) by lia. done.
    + replace (S x + j) with (x + S j) by lia. done.
    + done.
    + replace (S x + j) with (x + S j) by lia.
      rewrite fork_events_S in Hbody. rewrite <- app_assoc. cbn [app] in Hbody |- *.
      replace (S (forks w) + S j) with (forks w + S (S j)) by lia. done.
Qed.

Lemma wait_loop_spec n w :
  wait_loop wait_status n w =
  Ret tt {| ofile := ofile w; trace := trace w ++ wait_events wait_status (waits w) n;
            forks := forks w; waits := waits w + n; pipes := pipes w |}.
Proof.
  revert w. induction n as [|n IH]; intros w.
  - simpl. unfold ret, wait_events. simpl. rewrite app_nil_r, Nat.add_0_r. by destruct w.
  - cbn [wait_loop]. unfold bind at 1. unfold sys_wait at 1.
    rewrite IH. cbn [forks ofile trace waits pipes].
    rewrite wait_events_S, <- app_assoc. do 2 f_equal. lia.
Qed.

(** [pipe] with two free descriptors, the standard input and output
    being open. *)
Lemma sys_pipe_spec {B} pipeFD0 (K : Z * (Z * Z) -> M B) w r wr f0 f1 :
  ofile w !! 0 = Some (Some f0) -> ofile w !! 1 = Some (Some f1) ->
  fdalloc (ofile w) = Some r ->
  fdalloc (<[r:=Some (pipe_read (pipes w))]> (ofile w)) = Some wr ->
  piped (<[wr:=Some (pipe_write (pipes w))]> (<[r:=Some (pipe_read (pipes w))]> (ofile w)))
    r wr (pipes w) f0 f1 /\
  <[wr:=None]> (<[r:=None]>
    (<[wr:=Some (pipe_write (pipes w))]> (<[r:=Some (pipe_read (pipes w))]> (ofile w))))
  = ofile w /\
  bind (sys_pipe pipeFD0) K w =
  K (0%Z, (Z.of_nat r, Z.of_nat wr))
    {| ofile := <[wr:=Some (pipe_write (pipes w))]>
                  (<[r:=Some (pipe_read (pipes w))]> (ofile w));
       trace := trace w ++ [ev_pipe 0]; forks := forks w; waits := waits w;
       pipes := S (pipes w) |}.
Proof.
  intros H0 H1 Hr Hwr.
  destruct (fdalloc_Some _ _ Hr) as [Hr1 Hr2].
  destruct (fdalloc_Some _ _ Hwr) as [Hw1 Hw2].
  assert (r < length (ofile w)) as Hrl by (by eapply lookup_lt_Some).
  assert (wr < length (ofile w)) as Hwl.
  { apply lookup_lt_Some in Hw1. by rewrite length_insert in Hw1. }
  assert (r <> wr) as Hne.
  { intros <-. rewrite list_lookup_insert_eq in Hw1 by done. done. }
  rewrite list_lookup_insert_ne in Hw1 by done.
  assert (2 <= r) as Hr2'.
  { destruct r as [|[|r]]; [congruence|congruence|lia]. }
  assert (2 <= wr) as Hw2'.
  { destruct wr as [|[|wr']]; [congruence|congruence|lia]. }
  split; [|split].
  - split; try done; lookups.
  - apply list_eq. intros i.
    destruct (decide (i = wr)) as [->|]; [lookups|].
    destruct (decide (i = r)) as [->|]; lookups.
  - unfold bind, sys_pipe. rewrite Hr, Hwr. done.
Qed.

Lemma bind_assoc {A B C} (m : M A) (f : A -> M B) (g : B -> M C) w :
  bind (bind m f) g w = bind m (fun a => bind (f a) g) w.
Proof. unfold bind. by destruct (m w). Qed.

Lemma after_nil w : after [] (ofile w) w = w.
Proof. unfold after. rewrite app_nil_r. by destruct w. Qed.

Lemma RedirectionType_eqb_eq a b : RedirectionType_eqb a b = true -> a = b.
Proof. by destruct a, b. Qed.

(** The redirections of its own that a stage opens leave the standard
    descriptors alone. *)
Lemma stage_redirect_spec ty flags rs fd w f0 f1 :
  ofile w !! 0 = Some (Some f0) -> ofile w !! 1 = Some (Some f1) ->
  Forall (fun s => (dest_fd s < 0)%Z /\ (r_type s <> REDIRECT_NONE -> path s <> None)) rs ->
  ty <> REDIRECT_NONE ->
  opened_fd (ofile w) fd ->
  exists fd' t' own,
    stage_redirect ty flags rs fd w = Ret fd' (after own t' w) /\
    t' !! 0 = Some (Some f0) /\ t' !! 1 = Some (Some f1) /\ opened_fd t' fd'.
Proof.
  intros H0 H1 Hrs Hty. revert fd w H0 H1.
  induction Hrs as [|s rs [Hd Hp] _ IH]; intros fd w H0 H1 Hfd.
  - exists fd, (ofile w), []. rewrite after_nil. done.
  - cbn [Tsh.stage_redirect].
    destruct (RedirectionType_eqb (r_type s) ty) eqn:E; [|by apply IH].
    apply RedirectionType_eqb_eq in E.
    destruct (Z.leb_spec 0 (dest_fd s)) as [?|_]; [lia|].
    destruct (path s) as [p|] eqn:Ep; [|by destruct Hp; congruence].
    unfold load_str. unfold bind at 1. unfold ret at 1.
    unfold bind at 1. unfold sys_open at 1.
    destruct (if can_open (cstr mem p) flags then fdalloc (ofile w) else None)
      as [k|] eqn:Eo.
    + assert (fdalloc (ofile w) = Some k) as Hk
          by (destruct (can_open (cstr mem p) flags); done).
      destruct (fdalloc_Some _ _ Hk) as [Hk1 _].
      assert (2 <= k) as Hk2 by (destruct k as [|[|k]]; [congruence|congruence|lia]).
      assert (k < length (ofile w)) as Hkl by (by eapply lookup_lt_Some).
      destruct (IH (Z.of_nat k)
                  (record (ev_open (cstr mem p) flags (Z.of_nat k))
                     (with_ofile (<[k:=Some (opened (cstr mem p) flags)]> (ofile w)) w)))
        as (fd' & t' & own & Hrun & Ht0 & Ht1 & Hfd').
      * cbn [ofile record with_ofile]. lookups.
      * cbn [ofile record with_ofile]. lookups.
      * right. exists k, (opened (cstr mem p) flags).
        split; [done|split; [done|]].
        cbn [ofile record with_ofile]. lookups.
      * rewrite Hrun. exists fd', t', (ev_open (cstr mem p) flags (Z.of_nat k) :: own).
        split; [|done]. f_equal. unfold after, record, with_ofile. cbn.
        by rewrite <- app_assoc.
    + destruct (IH (-1)%Z (record (ev_open (cstr mem p) flags (-1)) w))
        as (fd' & t' & own & Hrun & Ht0 & Ht1 & Hfd'); [done|done|by left|].
      rewrite Hrun. exists fd', t', (ev_open (cstr mem p) flags (-1) :: own).
      split; [|done]. f_equal. unfold after, record. cbn.
      by rewrite <- app_assoc.
Qed.

(** [close(0); dup(fd); close(fd)] and [close(1); dup(fd); close(fd)] for
    a descriptor that the stage has opened. *)
Lemma move_fd_0 k f f0 w :
  ofile w !! 0 = Some (Some f0) -> 2 <= k -> ofile w !! k = Some (Some f) ->
  move_fd (Z.of_nat k) 0 w =
  Ret tt (after [ev_close 0 0; ev_dup (Z.of_nat k) 0; ev_close (Z.of_nat k) 0]
            (<[k:=None]> (<[0:=Some f]> (<[0:=None]> (ofile w)))) w).
Proof.
  intros H0 Hk2 Hk. assert (k < length (ofile w)) as Hkl by (by eapply lookup_lt_Some).
  unfold move_fd. change 0%Z with (Z.of_nat 0).
  erewrite (sys_close_open 0) by done.
  erewrite (sys_dup_open k 0); cycle 1.
  { cbn [ofile after]. lookups. }
  { cbn [ofile after]. lowest 0. }
  erewrite (sys_close_open k); cycle 1.
  { cbn [ofile after]. lookups. }
  unfold ret. rewrite !after_after. done.
Qed.

Lemma move_fd_1 k f f0 f1 w :
  ofile w !! 0 = Some (Some f0) -> ofile w !! 1 = Some (Some f1) ->
  2 <= k -> ofile w !! k = Some (Some f) ->
  move_fd (Z.of_nat k) 1 w =
  Ret tt (after [ev_close 1 0; ev_dup (Z.of_nat k) 1; ev_close (Z.of_nat k) 0]
            (<[k:=None]> (<[1:=Some f]> (<[1:=None]> (ofile w)))) w).
Proof.
  intros H0 H1 Hk2 Hk. assert (k < length (ofile w)) as Hkl by (by eapply lookup_lt_Some).
  unfold move_fd. change 1%Z with (Z.of_nat 1).
  erewrite (sys_close_open 1) by done.
  erewrite (sys_dup_open k 1); cycle 1.
  { cbn [ofile after]. lookups. }
  { cbn [ofile after]. lowest 1. }
  erewrite (sys_close_open k); cycle 1.
  { cbn [ofile after]. lookups. }
  unfold ret. rewrite !after_after. done.
Qed.

(** What the child of a stage does before [exec]: it connects itself to
    the pipe, and then opens the redirection of its own. *)
Lemma stage_setup_spec numCommands x r wr id f0 f1 command w :
  piped (ofile w) r wr id f0 f1 ->
  slots_usable command ->
  exists t' own,
    stage_setup numCommands x (Z.of_nat r, Z.of_nat wr) command w =
    Ret tt (after (wiring_events numCommands x r wr ++ own) t' w) /\
    wired numCommands x id t'.
Proof.
  intros Ht Hs. destruct (piped_length _ _ _ _ _ _ Ht) as (Hr & Hwr & H2).
  pose proof Ht as [H0 H1 Hpr Hpw Hr2 Hw2 Hne].
  unfold Tsh.stage_setup, wiring_events, wired. cbn [fst snd].
  destruct (Nat.eqb_spec x 0) as [Hx|Hx].
  - (* the first stage *)
    erewrite (wire_first _ _ _ _ _ _ Ht) by done.
    set (w1 := after _ _ w).
    destruct (stage_redirect_spec REDIRECT_INPUT O_RDONLY (slots command) (-1) w1
                f0 (pipe_write id)) as (fdIn & t' & own & Hrun & Ht0 & Ht1 & Hfd);
      [unfold w1; cbn [ofile after]; lookups..|done|done|by left|].
    unfold bind at 1. rewrite Hrun.
    destruct Hfd as [->|(k & f & -> & Hk2 & Hk)].
    + cbn [Z.leb]. unfold ret. unfold w1. rewrite after_after.
      exists t', own. split; [done|]. change 1%Z with (Z.of_nat 1).
      rewrite fd_file_nat, Ht1. done.
    + destruct (Z.leb_spec 0 (Z.of_nat k)) as [_|]; [|lia].
      erewrite move_fd_0 by (cbn [ofile after]; done).
      unfold w1. rewrite !after_after. cbn [ofile after].
      eexists _, _. split; [reflexivity|].
      change 1%Z with (Z.of_nat 1). rewrite fd_file_nat.
      assert (1 < length t') by (by eapply lookup_lt_Some). lookups. by rewrite Ht1.
  - destruct (Z.eqb_spec (Z.of_nat x) (Z.of_nat numCommands - 1)) as [Hl|Hl];
      destruct (Nat.eqb_spec (S x) numCommands) as [Hl'|Hl']; try lia.
    + (* the last stage *)
      erewrite (wire_last _ _ _ _ _ _ Ht) by done.
      set (w1 := after _ _ w).
      destruct (stage_redirect_spec REDIRECT_OUTPUT (Z.lor O_WRONLY O_CREATE)
                  (slots command) (-1) w1 (pipe_read id) f1)
        as (fdOut & t' & own & Hrun & Ht0 & Ht1 & Hfd);
        [unfold w1; cbn [ofile after]; lookups..|done|done|by left|].
      unfold bind at 1. rewrite Hrun.
      destruct Hfd as [->|(k & f & -> & Hk2 & Hk)].
      * cbn [Z.leb]. unfold ret. unfold w1. rewrite after_after.
        exists t', own. split; [done|]. change 0%Z with (Z.of_nat 0).
        rewrite fd_file_nat, Ht0. done.
      * destruct (Z.leb_spec 0 (Z.of_nat k)) as [_|]; [|lia].
        erewrite move_fd_1 by (cbn [ofile after]; done).
        unfold w1. rewrite !after_after. cbn [ofile after].
        eexists _, _. split; [reflexivity|].
        change 0%Z with (Z.of_nat 0). rewrite fd_file_nat.
        assert (1 < length t') by (by eapply lookup_lt_Some). lookups. by rewrite Ht0.
    + (* a middle stage *)
      erewrite (wire_middle _ _ _ _ _ _ Ht) by done. unfold ret.
      eexists _, []. rewrite app_nil_r. split; [done|].
      change 1%Z with (Z.of_nat 1). change 0%Z with (Z.of_nat 0).
      rewrite !fd_file_nat. split; lookups.
Qed.

Lemma exec_command_ok command nm w :
  name command = Some nm ->
  exec_ok (cstr mem nm) (load_argv mem (argv command)) = true ->
  exec_command command w =
  Stop (after [ev_exec (cstr mem nm) (load_argv mem (argv command))] (ofile w) w).
Proof.
  intros Hn He. unfold Tsh.exec_command. rewrite Hn.
  unfold load_str. unfold bind, ret, sys_exec. rewrite He. done.
Qed.

(** The parent: one pipe, the children, the two ends closed, one [wait]
    for each child. *)
Lemma runPipelineCommnad_parent simples pipeFD0 pipeline w r wr f0 f1 :
  ofile w !! 0 = Some (Some f0) -> ofile w !! 1 = Some (Some f1) ->
  fdalloc (ofile w) = Some r ->
  fdalloc (<[r:=Some (pipe_read (pipes w))]> (ofile w)) = Some wr ->
  (forall j, j < p_len pipeline -> fork_result (forks w + j) <> 0%Z) ->
  runPipelineCommnad simples pipeFD0 pipeline w =
  Ret 0%Z
    {| ofile := ofile w;
       trace := trace w ++ [ev_pipe 0] ++
                fork_events fork_result (forks w) (p_len pipeline) ++
                [ev_close (Z.of_nat r) 0; ev_close (Z.of_nat wr) 0] ++
                wait_events wait_status (waits w) (p_len pipeline);
       forks := forks w + p_len pipeline;
       waits := waits w + p_len pipeline;
       pipes := S (pipes w) |}.
Proof.
  intros H0 H1 Hr Hwr Hf. unfold Tsh.runPipelineCommnad.
  destruct (sys_pipe_spec pipeFD0
              (fun r0 : Z * (Z * Z) =>
                 pipeline_loop simples pipeline (p_len pipeline) r0.2 (p_len pipeline) 0 ;;;
                 sys_close r0.2.1 ;;; sys_close r0.2.2 ;;;
                 wait_loop wait_status (p_len pipeline) ;;; ret 0%Z)
              w r wr f0 f1 H0 H1 Hr Hwr) as (Ht & Hback & ->).
  cbn [fst snd].
  erewrite bind_Ret by (apply pipeline_loop_parent; done).
  cbn [ofile trace forks waits pipes].
  pose proof Ht as [_ _ Hpr Hpw _ _ Hne].
  destruct (piped_length _ _ _ _ _ _ Ht) as (Hrl & Hwl & _).
  rewrite !length_insert in Hrl, Hwl.
  erewrite (sys_close_open r) by (cbn [ofile]; exact Hpr).
  erewrite (sys_close_open wr); cycle 1.
  { cbn [ofile after]. rewrite list_lookup_insert_ne by done. exact Hpw. }
  erewrite bind_Ret by apply wait_loop_spec.
  unfold ret, after. cbn [ofile trace forks waits pipes].
  rewrite Hback. rewrite <- !app_assoc. done.
Qed.

(** The child of stage [x]: the pipe, the calls of [fork] before its
    own, the connection to the pipe, its own redirection, and [exec]. *)
Lemma runPipelineCommnad_child simples pipeFD0 pipeline w r wr f0 f1 x k command nm :
  ofile w !! 0 = Some (Some f0) -> ofile w !! 1 = Some (Some f1) ->
  fdalloc (ofile w) = Some r ->
  fdalloc (<[r:=Some (pipe_read (pipes w))]> (ofile w)) = Some wr ->
  x < p_len pipeline ->
  (forall i, i < x -> fork_result (forks w + i) <> 0%Z) ->
  fork_result (forks w + x) = 0%Z ->
  c_cmd (nth x (commands pipeline) zero_command) = ref_simple k ->
  simples !! k = Some command ->
  slots_usable command ->
  name command = Some nm ->
  exec_ok (cstr mem nm) (load_argv mem (argv command)) = true ->
  exists w' own,
    runPipelineCommnad simples pipeFD0 pipeline w = Stop w' /\
    trace w' =
      trace w ++ [ev_pipe 0] ++ fork_events fork_result (forks w) x ++ [ev_fork 0] ++
      wiring_events (p_len pipeline) x r wr ++ own ++
      [ev_exec (cstr mem nm) (load_argv mem (argv command))] /\
    wired (p_len pipeline) x (pipes w) (ofile w').
Proof.
  intros H0 H1 Hr Hwr Hx Hpar Hch Hk Hs Hslots Hn He.
  unfold Tsh.runPipelineCommnad.
  destruct (sys_pipe_spec pipeFD0
              (fun r0 : Z * (Z * Z) =>
                 pipeline_loop simples pipeline (p_len pipeline) r0.2 (p_len pipeline) 0 ;;;
                 sys_close r0.2.1 ;;; sys_close r0.2.2 ;;;
                 wait_loop wait_status (p_len pipeline) ;;; ret 0%Z)
              w r wr f0 f1 H0 H1 Hr Hwr) as (Ht & _ & ->).
  cbn [fst snd].
  set (w1 := {| ofile := _; trace := trace w ++ [ev_pipe 0] |}).
  set (wx := {| ofile := ofile w1;
                trace := trace w1 ++ fork_events fork_result (forks w1) x ++ [ev_fork 0];
                forks := forks w1 + S x; waits := waits w1; pipes := pipes w1 |}).
  destruct (stage_setup_spec (p_len pipeline) x r wr (pipes w) f0 f1 command wx Ht Hslots)
    as (t' & own & Hsetup & Hwired).
  exists (after [ev_exec (cstr mem nm) (load_argv mem (argv command))] t'
            (after (wiring_events (p_len pipeline) x r wr ++ own) t' wx)), own.
  split; [|split].
  - apply bind_Stop.
    apply (pipeline_loop_child simples pipeline (p_len pipeline) _ x (p_len pipeline) 0 w1
             k command); try done.
    fold wx. erewrite bind_Ret by exact Hsetup.
    apply bind_Stop. by apply exec_command_ok.
  - unfold after, wx, w1. cbn [trace forks]. rewrite <- !app_assoc. done.
  - done.
Qed.

End Pipeline_facts.

(** C6: [runPipelineCommnad] on a pipeline of [N] commands, run by a process
    that has its standard input and output open and two free descriptors.
    The parent creates one pipe, before the children, closes both ends of
    it after them, and calls [wait] [N] times.  The child of the first
    stage has the write end of the pipe as descriptor 1 when it calls
    [exec], the child of the last stage (of two or more) the read end as
    descriptor 0, and the child of a stage between them the read end as
    descriptor 1 and the write end as descriptor 0. *)
Theorem runPipelineCommnad_one_pipe
  (fork_result wait_status : nat -> Z) (can_open : list ascii -> Z -> bool)
  (exec_ok : list ascii -> list (list ascii) -> bool) (O_RDONLY O_WRONLY O_CREATE : Z)
  (mem : list ascii) (simples : list SimpleCommand) (pipeFD0 : Z * Z)
  (pipeline : Pipeline) (w : world) (r wr : nat) (f0 f1 : file) :
  ofile w !! 0 = Some (Some f0) -> ofile w !! 1 = Some (Some f1) ->
  fdalloc (ofile w) = Some r ->
  fdalloc (<[r:=Some (pipe_read (pipes w))]> (ofile w)) = Some wr ->
  let N := p_len pipeline in
  let run :=
    runPipelineCommnad fork_result wait_status can_open exec_ok
      O_RDONLY O_WRONLY O_CREATE mem simples pipeFD0 pipeline w in
  ((forall j, j < N -> fork_result (forks w + j) <> 0%Z) ->
   run =
   Ret 0%Z
     {| ofile := ofile w;
        trace := trace w ++ [ev_pipe 0] ++
                 fork_events fork_result (forks w) N ++
                 [ev_close (Z.of_nat r) 0; ev_close (Z.of_nat wr) 0] ++
                 wait_events wait_status (waits w) N;
        forks := forks w + N; waits := waits w + N; pipes := S (pipes w) |}) /\
  (forall x k command nm,
      x < N ->
      (forall i, i < x -> fork_result (forks w + i) <> 0%Z) ->
      fork_result (forks w + x) = 0%Z ->
      c_cmd (nth x (commands pipeline) zero_command) = ref_simple k ->
      simples !! k = Some command ->
      slots_usable command ->
      name command = Some nm ->
      exec_ok (cstr mem nm) (load_argv mem (argv command)) = true ->
      exists w' own,
        run = Stop w' /\
        trace w' =
          trace w ++ [ev_pipe 0] ++ fork_events fork_result (forks w) x ++ [ev_fork 0] ++
          wiring_events N x r wr ++ own ++
          [ev_exec (cstr mem nm) (load_argv mem (argv command))] /\
        wired N x (pipes w) (ofile w')).
Proof.
  intros H0 H1 Hr Hwr. cbv zeta. split.
  - intros Hf. by eapply runPipelineCommnad_parent.
  - intros x k command nm. by eapply runPipelineCommnad_child.
Qed.

Ltac computed := vm_compute; first [reflexivity | discriminate | lia].

(** C6, an instance: [ls | sort | wc], in the parent and in the child of
    the middle stage. *)
Lemma runPipelineCommnad_one_pipe_witness :
  let sh := first_command "ls | sort | wc" in
  let run fork_result :=
    runPipelineCommnad fork_result (fun _ => 0%Z) (fun _ _ => true) (fun _ _ => true)
      0 1 512 (buffer (cmdline sh)) (_simples (_cmd_data sh)) (0%Z, 0%Z)
      (_pipeline (_cmd_data sh)) fresh_world in
  run as_parent =
  Ret 0%Z
    {| ofile := ofile fresh_world;
       trace := [ev_pipe 0; ev_fork 5; ev_fork 5; ev_fork 5; ev_close 3 0; ev_close 4 0;
                 ev_wait 0; ev_wait 0; ev_wait 0];
       forks := 3; waits := 3; pipes := 1 |} /\
  exists w' own,
    run (as_child 1) = Stop w' /\
    trace w' =
      [ev_pipe 0; ev_fork 5; ev_fork 0;
       ev_close 1 0; ev_dup 3 1; ev_close 0 0; ev_dup 4 0; ev_close 3 0; ev_close 4 0] ++
      own ++ [ev_exec (list_ascii_of_string "sort") [list_ascii_of_string "sort"]] /\
    fd_file (ofile w') 1 = Some (pipe_read 0) /\
    fd_file (ofile w') 0 = Some (pipe_write 0).
Proof.
  cbv zeta. split.
  - destruct (runPipelineCommnad_one_pipe as_parent (fun _ => 0%Z) (fun _ _ => true)
                (fun _ _ => true) 0 1 512
                (buffer (cmdline (first_command "ls | sort | wc")))
                (_simples (_cmd_data (first_command "ls | sort | wc"))) (0%Z, 0%Z)
                (_pipeline (_cmd_data (first_command "ls | sort | wc")))
                fresh_world 3 4 (inherited 0) (inherited 1)
                eq_refl eq_refl eq_refl eq_refl) as [Hparent _].
    rewrite Hparent; [computed|]. intros j _. discriminate.
  - destruct (runPipelineCommnad_one_pipe (as_child 1) (fun _ => 0%Z) (fun _ _ => true)
                (fun _ _ => true) 0 1 512
                (buffer (cmdline (first_command "ls | sort | wc")))
                (_simples (_cmd_data (first_command "ls | sort | wc"))) (0%Z, 0%Z)
                (_pipeline (_cmd_data (first_command "ls | sort | wc")))
                fresh_world 3 4 (inherited 0) (inherited 1)
                eq_refl eq_refl eq_refl eq_refl) as [_ Hchild].
    destruct (Hchild 1 1
                (nth 1 (_simples (_cmd_data (first_command "ls | sort | wc"))) (zero_simple 8))
                5) as (w' & own & Hrun & Htrace & Hwired).
    + computed.
    + intros i Hi. assert (i = 0) as -> by lia. discriminate.
    + computed.
    + computed.
    + computed.
    + vm_compute. repeat constructor; (lia || discriminate || done).
    + computed.
    + computed.
    + exists w', own. split; [exact Hrun|]. split.
      * rewrite Htrace. vm_compute. reflexivity.
      * vm_compute in Hwired. vm_compute. exact Hwired.
Defined.

(** C3, an instance: [cat >> out] in the child. *)
Lemma runSimpleCommand_append_ignored_witness :
  let sh := first_command "cat >> out" in
  let cmd := nth 0 (_simples (_cmd_data sh)) (zero_simple 8) in
  exists w',
    runSimpleCommand (as_child 0) (fun _ => 0%Z) (fun _ _ => true) (fun _ _ => true)
      0 1 512 (buffer (cmdline sh)) cmd fresh_world = Stop w' /\
    ofile w' = ofile fresh_world /\
    trace w' = [ev_fork 0; ev_exec (list_ascii_of_string "cat") [list_ascii_of_string "cat"]].
Proof.
  cbv zeta.
  assert (r_type (redirect (nth 0 (_simples (_cmd_data (first_command "cat >> out")))
                              (zero_simple 8)) 1) = REDIRECT_APPEND) as Happend by computed.
  destruct (runSimpleCommand_append_ignored (as_child 0) (fun _ => 0%Z) (fun _ _ => true)
              (fun _ _ => true) 0 1 512
              (buffer (cmdline (first_command "cat >> out")))
              (nth 0 (_simples (_cmd_data (first_command "cat >> out"))) (zero_simple 8))
              fresh_world Happend) as [_ H].
  destruct (H 0) as (w' & Hrun & Hofile & Htrace).
  - reflexivity.
  - computed.
  - computed.
  - computed.
  - exists w'. split; [exact Hrun|]. split; [exact Hofile|].
    rewrite Htrace. vm_compute. reflexivity.
Defined.

(** C3, as stated, fails: with [cat >> out] the child opens nothing and
    keeps its descriptor 1, while with [cat > out] it opens [out] and
    makes it its descriptor 1. *)
Lemma runSimpleCommand_append_is_not_output :
  let run s :=
    runSimpleCommand (as_child 0) (fun _ => 0%Z) (fun _ _ => true) (fun _ _ => true)
      0 1 512 (buffer (cmdline (first_command s)))
      (nth 0 (_simples (_cmd_data (first_command s))) (zero_simple 8)) fresh_world in
  run "cat >> out"%string =
  Stop {| ofile := ofile fresh_world;
          trace := [ev_fork 0;
                    ev_exec (list_ascii_of_string "cat") [list_ascii_of_string "cat"]];
          forks := 1; waits := 0; pipes := 0 |} /\
  run "cat > out"%string =
  Stop {| ofile := [Some (inherited 0); Some (opened (list_ascii_of_string "out") 513);
                    Some (inherited 2); None; None; None; None; None];
          trace := [ev_fork 0; ev_open (list_ascii_of_string "out") 513 3;
                    ev_close 1 0; ev_dup 3 1; ev_close 3 0;
                    ev_exec (list_ascii_of_string "cat") [list_ascii_of_string "cat"]];
          forks := 1; waits := 0; pipes := 0 |}.
Proof. split; computed. Qed.

(** C5 (amended): [RunCommand] returns 1 for an empty command, -1 for an
    invalid one, and 0 whenever it returns from any other command; that
    includes an external simple command for which [fork] fails, where
    [runSimpleCommand] returns -1 and [RunCommand], which does not look at
    that value, returns 0. *)
Theorem RunCommand_return_values
  (fork_result wait_status : nat -> Z) (can_open : list ascii -> Z -> bool)
  (exec_ok : list ascii -> list (list ascii) -> bool) (chdir_ok : list ascii -> bool)
  (O_RDONLY O_WRONLY O_CREATE : Z) (atoi : list ascii -> Z) (mem : list ascii)
  (pipeFD0 : Z * Z) (shell : ShellState) (w : world) :
  let run :=
    RunCommand fork_result wait_status can_open exec_ok chdir_ok
      O_RDONLY O_WRONLY O_CREATE atoi mem pipeFD0 shell w in
  let ty := c_type (cmd (_cmd_data shell)) in
  (ty = CMD_EMPTY -> run = Ret (1%Z, shell) w) /\
  (ty = CMD_INVALID ->
   run = Ret ((-1)%Z, shell) (after [ev_diag (ErrorU "invalid command")] (ofile w) w)) /\
  (forall r shell' w', run = Ret (r, shell') w' -> r = RunCommand_value ty) /\
  (forall simple,
      external mem shell simple -> (fork_result (forks w) < 0)%Z ->
      exists w',
        runSimpleCommand fork_result wait_status can_open exec_ok
          O_RDONLY O_WRONLY O_CREATE mem simple w = Ret (-1)%Z w' /\
        run = Ret (0%Z, shell) w').
Proof.
  cbv zeta. repeat split.
  - intros Hty. unfold RunCommand. by rewrite Hty.
  - intros Hty. unfold RunCommand. by rewrite Hty.
  - intros r shell' w'. apply RunCommand_returns_0.
  - intros simple Hext Hf. eexists. split.
    + by apply runSimpleCommand_fork_fails.
    + rewrite (RunCommand_external _ _ _ _ _ _ _ _ _ _ _ _ _ _ Hext).
      erewrite bind_Ret by (by apply runSimpleCommand_fork_fails). done.
Qed.

(** C5, as stated, fails when [fork] fails: for [ls], [RunCommand] returns
    0 after the diagnostic of [runSimpleCommand]. *)
Lemma RunCommand_fork_fails_returns_0 :
  RunCommand fork_fails (fun _ => 0%Z) (fun _ _ => true) (fun _ _ => true) (fun _ => true)
    0 1 512 (fun _ => 0%Z) (buffer (cmdline (first_command "ls"))) (0%Z, 0%Z)
    (first_command "ls") fresh_world
  = Ret (0%Z, first_command "ls")
      {| ofile := ofile fresh_world;
         trace := [ev_fork (-1); ev_diag (ErrorS "Fork failed")];
         forks := 1; waits := 0; pipes := 0 |}.
Proof. vm_compute. reflexivity. Qed.

(** ** The driver *)

Lemma strlen_app_nul l r :
  Forall (fun c => c <> NUL) l -> strlen (l ++ NUL :: r) = length l.
Proof.
  induction 1 as [|c l Hc _ IH]; simpl; [done|].
  destruct (Ascii.eqb_spec c NUL); [done|]. by rewrite IH.
Qed.

Lemma lex_spec_blank ws b : Forall (fun c => is_ws c = true) ws -> lex_spec b ws = [].
Proof.
  intros H. revert b. induction H as [|c l Hc _ IH]; intros b; [done|].
  cbn [lex_spec]. unfold is_ws in Hc. rewrite Hc. apply IH.
Qed.

Lemma blank_not_nul c : blank c -> c <> NUL.
Proof. intros [Hw _] ->. done. Qed.

Lemma blank_in_line sg c : blank c -> in_line sg c.
Proof.
  intros [Hw Hn]. unfold in_line, is_EOF.
  destruct (Ascii.eqb_spec c newline) as [|_]; [done|].
  destruct (Ascii.eqb_spec c "255") as [->|_]; [done|]. by rewrite andb_false_r.
Qed.

Section GetCommand_facts.

Variable N : nat.
Variable char_is_signed : bool.
Variable sizeof_tokens : nat.
Variable strchr_finds_nul : bool.
Variables MAXA MAXP MAXC : nat.

Local Abbreviation GetCommand :=
  (GetCommand N char_is_signed sizeof_tokens strchr_finds_nul MAXA MAXP MAXC).

(** A line of whitespace has no token. *)
Lemma Tokenize_blank n ws m :
  Forall blank ws ->
  (Tokenize sizeof_tokens strchr_finds_nul
     {| len := n; buffer := ws ++ replicate (S m) NUL |}).2
  = {| tl_len := 0; tl_tokens := [] |}.
Proof.
  intros Hws. unfold Tokenize. cbn [buffer].
  destruct (Tokenize_loop_line sizeof_tokens strchr_finds_nul
              (ws ++ replicate (S m) NUL)) as (rest & Hrest & _).
  change (replicate (S m) NUL) with (NUL :: replicate m NUL) in *.
  rewrite strlen_app_nul in *
    by (eapply Forall_impl; [exact Hws|apply blank_not_nul]).
  rewrite take_app_length in Hrest.
  rewrite lex_spec_blank in Hrest by (eapply Forall_impl; [exact Hws|by intros ? []]).
  symmetry in Hrest. apply app_eq_nil in Hrest as [Hk _].
  destruct (Tokenize_loop _ _ _ _ _ _ _) as [buf toks]. cbn [snd] in *.
  apply map_eq_nil in Hk. by rewrite Hk.
Qed.

(** The parser on no token at all: one simple command, marked empty,
    to which the command points as a [CMD_SIMPLE]; its name is the one
    that [_simples[0]] had before. *)
Lemma ParsePipeline_nil cd :
  n_simples cd = 0 -> p_len (_pipeline cd) = 0 ->
  1 <= MAXC -> 1 <= length (_simples cd) ->
  let cd' := (ParsePipeline MAXA MAXP MAXC [] cd).1 in
  c_type (cmd cd') = CMD_SIMPLE /\ c_cmd (cmd cd') = ref_simple 0 /\
  exists simple,
    _simples cd' !! 0 = Some simple /\ s_type simple = CMD_EMPTY /\ argc simple = 0 /\
    name simple = name (nth 0 (_simples cd) (zero_simple MAXA)).
Proof.
  intros Hn Hp HC Hl. cbv zeta. unfold ParsePipeline. cbn [length ParsePipeline_loop].
  rewrite Hn. destruct (Nat.leb_spec MAXC 0) as [|_]; [lia|].
  unfold parse_next_simple. rewrite Hn.
  rewrite ParseSimpleCommand_eq.
  cbn [get_arguments fst snd get_redirections before_redirections _pipeline].
  rewrite Hp. cbn [Nat.eqb with_cmd _pipeline set_command].
  rewrite Hp.
  destruct (MAXP <=? 0)%nat; cbn [Nat.ltb Nat.leb fst cmd with_cmd with_pipeline
                                    or_c_flag c_type c_cmd _simples];
    (split; [done|split; [done|]]);
    (eexists; split; [apply list_lookup_insert_eq; lia|done]).
Qed.

End GetCommand_facts.

(** [RunCommand] on a simple command without a name, which is a null
    pointer that [strcmp] is given. *)
Lemma RunCommand_null_name
  fork_result wait_status can_open exec_ok chdir_ok O_RDONLY O_WRONLY O_CREATE atoi mem
  pipeFD0 (shell : ShellState) (k : nat) (simple : SimpleCommand) (w : world) :
  c_type (cmd (_cmd_data shell)) = CMD_SIMPLE ->
  c_cmd (cmd (_cmd_data shell)) = ref_simple k ->
  _simples (_cmd_data shell) !! k = Some simple ->
  name simple = None ->
  RunCommand fork_result wait_status can_open exec_ok chdir_ok O_RDONLY O_WRONLY O_CREATE
    atoi mem pipeFD0 shell w = Undef w.
Proof.
  intros Hty Hk Hs Hn. unfold RunCommand. rewrite Hty, Hk, Hs, Hn. reflexivity.
Qed.

(** C1 (as the code has it): an empty line makes [GetCommand] return 0
    without calling the lexer or the parser, and stops the shell
    ([should_run] is [NO], [last_exit_status] is 0).  A line that is not
    empty and holds only whitespace has no token; the parser makes of it a
    simple command marked [CMD_EMPTY], with no argument and with the name
    that [_simples[0]] had before, and [set_command] gives the command of
    the shell the type [CMD_SIMPLE].  The test [command->type == CMD_EMPTY]
    of [RunCommand] therefore fails and 1 is not returned: [RunCommand]
    hands the name to [strcmp], a null pointer when no command was parsed
    before, and returns 0 if it returns. *)
Theorem GetCommand_blank_line
  (N : nat) (char_is_signed : bool) (sizeof_tokens : nat) (strchr_finds_nul : bool)
  (MAXA MAXP MAXC : nat) (shell : ShellState) (rest : list ascii) :
  (let g := GetCommand N char_is_signed sizeof_tokens strchr_finds_nul MAXA MAXP MAXC
              shell (newline :: rest) in
   gc_ret g = 0%Z /\ should_run (gc_shell g) = NO /\
   last_exit_status (gc_shell g) = 0%Z /\
   _cmd_data (gc_shell g) = _cmd_data shell /\ gc_log g = []) /\
  (forall ws,
      ws <> [] -> Forall blank ws -> length ws < N ->
      1 <= MAXC -> 1 <= length (_simples (_cmd_data shell)) ->
      let g := GetCommand N char_is_signed sizeof_tokens strchr_finds_nul MAXA MAXP MAXC
                 shell (ws ++ newline :: rest) in
      let cd := _cmd_data (gc_shell g) in
      let old_name := name (nth 0 (_simples (_cmd_data shell)) (zero_simple MAXA)) in
      gc_ret g = Z.of_nat (length ws) /\ gc_input g = rest /\
      should_run (gc_shell g) = should_run shell /\
      tl_len (tokens (gc_shell g)) = 0 /\
      c_type (cmd cd) = CMD_SIMPLE /\ c_cmd (cmd cd) = ref_simple 0 /\
      (exists simple,
          _simples cd !! 0 = Some simple /\ s_type simple = CMD_EMPTY /\ argc simple = 0 /\
          name simple = old_name) /\
      (forall fork_result wait_status can_open exec_ok chdir_ok O_RDONLY O_WRONLY O_CREATE
              atoi mem pipeFD0 w,
          let run :=
            RunCommand fork_result wait_status can_open exec_ok chdir_ok
              O_RDONLY O_WRONLY O_CREATE atoi mem pipeFD0 (gc_shell g) w in
          (forall r shell' w', run = Ret (r, shell') w' -> r = 0%Z) /\
          (old_name = None -> run = Undef w))).
Proof.
  split.
  - cbv zeta. unfold GetCommand, ReadLine, ClearLine. cbn [buffer].
    destruct N as [|n]; cbn [ReadLine_loop].
    + done.
    + change (Ascii.eqb newline newline) with true. cbn [orb]. cbv zeta.
      rewrite Nat.sub_diag. done.
  - intros ws Hne Hws Hlen HC Hl. cbv zeta.
    unfold GetCommand.
    destruct (ReadLine_short_line N char_is_signed (cmdline shell) ws rest)
      as (Hret & Hbuf & _ & _ & Hin);
      [eapply Forall_impl; [exact Hws|apply blank_in_line]|done|].
    destruct (ReadLine_len_le N char_is_signed (ClearLine N (cmdline shell))
                (ws ++ newline :: rest)) as (_ & Hlen' & _).
    destruct (ReadLine N char_is_signed (ClearLine N (cmdline shell))
                (ws ++ newline :: rest)) as [[n buf] ret ti input].
    cbn [rl_ret rl_line buffer rl_input len] in *. subst ret buf input.
    assert (0 < length ws) as Hpos by (destruct ws; [done|simpl; lia]).
    destruct (Z.ltb_spec 0 (Z.of_nat (length ws))) as [_|]; [|lia].
    pose proof (Tokenize_blank sizeof_tokens strchr_finds_nul n ws (N - length ws - 1) Hws)
      as Htok.
    replace (S (N - length ws - 1)) with (N - length ws) in Htok by lia.
    destruct (Tokenize sizeof_tokens strchr_finds_nul _) as [line tl].
    cbn [snd] in Htok. subst tl. cbn [tl_len tl_tokens take].
    set (cd0 := {| n_simples := 0 |}).
    destruct (ParsePipeline_nil MAXA MAXP MAXC cd0 eq_refl eq_refl HC Hl)
      as (Hty & Hcmd & simple & Hsimple & Hempty & Hargc & Hname).
    unfold ParseCommand.
    destruct (ParsePipeline MAXA MAXP MAXC [] cd0) as [cd' log].
    cbn [fst gc_ret gc_shell gc_input should_run tokens tl_len _cmd_data] in *.
    split; [done|]. split; [done|]. split; [done|]. split; [done|].
    split; [done|]. split; [done|]. split; [by exists simple|].
    intros fork_result wait_status can_open exec_ok chdir_ok O_RDONLY O_WRONLY O_CREATE
      atoi mem pipeFD0 w. split.
    + intros r shell' w' Hrun.
      apply RunCommand_returns_0 in Hrun. cbn [_cmd_data] in Hrun. by rewrite Hty in Hrun.
    + intros Hnone. apply (RunCommand_null_name _ _ _ _ _ _ _ _ _ _ _ _ 0 simple); try done.
      by rewrite Hname.
Qed.

(** C1, an instance: a line of two spaces, typed as the first command.
    The command has the type [CMD_SIMPLE] and no name, and [RunCommand]
    uses the null pointer. *)
Lemma GetCommand_blank_line_witness :
  let g := GetCommand 64 false 1024 false 8 4 8 (this_shell 64 8 4 8) (typed "  ") in
  gc_ret g = 2%Z /\ tl_len (tokens (gc_shell g)) = 0 /\
  c_type (cmd (_cmd_data (gc_shell g))) = CMD_SIMPLE /\
  (exists simple,
    _simples (_cmd_data (gc_shell g)) !! 0 = Some simple /\
    s_type simple = CMD_EMPTY /\ argc simple = 0 /\ name simple = None) /\
  RunCommand as_parent (fun _ => 0%Z) (fun _ _ => true) (fun _ _ => true) (fun _ => true)
    0 1 512 (fun _ => 0%Z) (buffer (cmdline (gc_shell g))) (0%Z, 0%Z)
    (gc_shell g) fresh_world
  = Undef fresh_world.
Proof.
  cbv zeta.
  destruct (GetCommand_blank_line 64 false 1024 false 8 4 8 (this_shell 64 8 4 8) [])
    as [_ H].
  destruct (H (list_ascii_of_string "  "))
    as (Hret & _ & _ & Htl & Hty & _ & Hsimple & Hrun).
  - discriminate.
  - repeat constructor; discriminate.
  - vm_compute. lia.
  - lia.
  - vm_compute. lia.
  - split; [exact Hret|]. split; [exact Htl|]. split; [exact Hty|].
    split; [exact Hsimple|]. apply Hrun. reflexivity.
Defined.

(** C1, on concrete lines.  After [ls], a line of two spaces gives a
    command of type [CMD_SIMPLE] whose name still points to the start of
    the buffer: [RunCommand] forks a child for it, waits and returns 0.
    An empty line stops the shell. *)
Lemma GetCommand_blank_line_runs_a_child :
  let blank_line :=
    GetCommand 64 false 1024 false 8 4 8 (first_command "ls") (typed "  ") in
  let empty_line :=
    GetCommand 64 false 1024 false 8 4 8 (first_command "ls") (typed "") in
  c_type (cmd (_cmd_data (gc_shell blank_line))) = CMD_SIMPLE /\
  RunCommand as_parent (fun _ => 0%Z) (fun _ _ => true) (fun _ _ => true) (fun _ => true)
    0 1 512 (fun _ => 0%Z) (buffer (cmdline (gc_shell blank_line))) (0%Z, 0%Z)
    (gc_shell blank_line) fresh_world
  = Ret (0%Z, gc_shell blank_line)
      {| ofile := ofile fresh_world; trace := [ev_fork 5; ev_wait 0];
         forks := 1; waits := 1; pipes := 0 |} /\
  gc_ret empty_line = 0%Z /\ should_run (gc_shell empty_line) = NO.
Proof. cbv zeta. repeat split; vm_compute; reflexivity. Qed.

(** * Further properties *)

(** ** The parser of simple commands, on the whole grammar *)

Lemma error_bits_lor a b : error_bits (Z.lor a b) = Z.lor (error_bits a) (error_bits b).
Proof. unfold error_bits. apply Z.land_lor_distr_l. Qed.

Lemma error_bits_testbit a n :
  (0 <= n < 16)%Z -> Z.testbit a n = true -> error_bits a <> 0%Z.
Proof.
  intros Hn Ha E. assert (Z.testbit (error_bits a) n = true) as Hb.
  { unfold error_bits. change 65535%Z with (Z.ones 16).
    rewrite Z.land_ones by lia. rewrite Z.mod_pow2_bits_low by lia. exact Ha. }
  rewrite E in Hb. by rewrite Z.bits_0 in Hb.
Qed.

Section Grammar.

Variable MAX : nat.

(** Where the argument loop stops: after the leading words, or after
    [TSH_MAX_NUM_ARGUMENTS] of them. *)
Lemma get_arguments_leading toks i av :
  i <= MAX ->
  (get_arguments MAX toks i av).1 =
  (i + min (leading_words toks) (MAX - i), drop (min (leading_words toks) (MAX - i)) toks).
Proof.
  revert i av. induction toks as [|t toks IH]; intros i av Hi.
  - simpl. by rewrite Nat.add_0_r.
  - cbn [Tsh.get_arguments leading_words]. destruct (is_type TOKEN_WORD t); cbn [andb].
    + destruct (Nat.ltb_spec i MAX) as [Hlt|Hge].
      * rewrite IH by lia. replace (MAX - i) with (S (MAX - S i)) by lia.
        cbn [min drop]. f_equal. lia.
      * replace (MAX - i) with 0 by lia. rewrite Nat.min_0_r. cbn [drop fst].
        by rewrite Nat.add_0_r.
    + cbn [min drop fst]. by rewrite Nat.add_0_r.
Qed.

(** The values of the words that the argument loop takes are stored in
    [argv], in their order. *)
Lemma get_arguments_stored toks i av k :
  i <= MAX -> i + min (leading_words toks) (MAX - i) <= length av ->
  k < min (leading_words toks) (MAX - i) ->
  (get_arguments MAX toks i av).2 !! (i + k) = tok_value <$> toks !! k.
Proof.
  revert i av k. induction toks as [|t toks IH]; intros i av k Hi Hl Hk; [simpl in Hk; lia|].
  cbn [Tsh.get_arguments leading_words] in *.
  destruct (is_type TOKEN_WORD t); cbn [andb]; [|simpl in Hk; lia].
  destruct (Nat.ltb_spec i MAX) as [Hlt|Hge]; [|lia].
  replace (MAX - i) with (S (MAX - S i)) in Hk, Hl by lia. cbn [min] in Hk, Hl.
  destruct k as [|k].
  - rewrite Nat.add_0_r. cbn [lookup list_lookup fmap option_fmap option_map].
    assert (forall p j av', i < j -> (get_arguments MAX p j av').2 !! i = av' !! i) as Hkeep.
    { clear. induction p as [|c p IHp]; intros j av' Hj; [done|]. simpl.
      destruct (is_type TOKEN_WORD c && (j <? MAX)%nat); [|done].
      rewrite IHp by lia. apply list_lookup_insert_ne. lia. }
    rewrite Hkeep by lia. apply list_lookup_insert_eq. lia.
  - replace (i + S k) with (S i + k) by lia.
    rewrite IH; [done|lia|rewrite length_insert; lia|lia].
Qed.

(** The redirection loop keeps the flags that are set, and adds an error
    flag unless the range holds nothing but redirections and [&]. *)
Lemma get_redirections_accepts p simple log :
  let r := (get_redirections p simple log).1.1 in
  (forall n, Z.testbit (s_flag simple) n = true -> Z.testbit (s_flag r) n = true) /\
  (error_bits (s_flag simple) = 0%Z ->
   (error_bits (s_flag r) = 0%Z <-> only_redirections p = true)).
Proof.
  revert p simple log.
  apply (get_redirections_cases
           (fun p simple _ r =>
              (forall n, Z.testbit (s_flag simple) n = true ->
                         Z.testbit (s_flag r.1.1) n = true) /\
              (error_bits (s_flag simple) = 0%Z ->
               (error_bits (s_flag r.1.1) = 0%Z <-> only_redirections p = true)))).
  - intros simple log. cbn. split; [done|]. intros H. done.
  - intros t p1 fd ty simple log Hr Hq. cbn [fst s_flag or_flag set_redirect].
    split; [intros n Hn; rewrite Z.lor_spec, Hn; done|]. intros H0.
    rewrite error_bits_lor, H0. cbn [only_redirections]. rewrite Hr.
    destruct p1 as [|q p2]; [done|]. rewrite Hq. done.
  - intros t q p2 fd ty simple log r Hr Hq [Hmono Hiff].
    cbn [s_flag set_redirect set_redirect_path] in *. split; [done|].
    intros H0. rewrite (Hiff H0). cbn [only_redirections]. rewrite Hr, Hq. done.
  - intros t p1 simple log r Hr Hb [Hmono Hiff]. cbn [s_flag or_flag] in *. split.
    + intros n Hn. apply Hmono. rewrite Z.lor_spec, Hn. done.
    + intros H0. rewrite Hiff by (by rewrite error_bits_lor, H0).
      cbn [only_redirections]. rewrite Hr, Hb. done.
  - intros t p1 simple log r Hr Hb [Hmono Hiff]. cbn [s_flag or_flag] in *. split.
    + intros n Hn. apply Hmono. rewrite Z.lor_spec, Hn. done.
    + intros H0. cbn [only_redirections]. rewrite Hr, Hb. cbn [andb]. split; [|done].
      intros E. exfalso. apply (error_bits_testbit _ 0) in E; [done|lia|].
      apply Hmono. rewrite Z.lor_spec. apply orb_true_r.
Qed.

End Grammar.

(** X1: a range that starts with a word is parsed without an error flag
    exactly when what follows its arguments (its leading words, at most
    [TSH_MAX_NUM_ARGUMENTS] of them) is nothing but redirections, each a
    redirection token and a word, and [&] tokens.  The simple command then
    has the type [CMD_SIMPLE] and as many arguments as there are leading
    words. *)
Theorem ParseSimpleCommand_accepts
  (MAX : nat) (t : Token) (toks : list Token) (simple : SimpleCommand) :
  is_type TOKEN_WORD t = true ->
  let r := (ParseSimpleCommand MAX (t :: toks) simple).1 in
  let n := min (leading_words (t :: toks)) MAX in
  (error_bits (s_flag r) = 0%Z <-> only_redirections (drop n (t :: toks)) = true) /\
  s_type r = CMD_SIMPLE /\ name r = tok_value t /\ argc r = n.
Proof.
  intros Ht. cbv zeta. rewrite ParseSimpleCommand_eq.
  pose proof (get_arguments_leading MAX (t :: toks) 0 (argv simple) ltac:(lia)) as Hg.
  rewrite Nat.sub_0_r, Nat.add_0_l in Hg.
  destruct (get_redirections_frame
              (get_arguments MAX (t :: toks) 0 (argv simple)).1.2
              (before_redirections MAX (t :: toks) simple) [])
    as (Hty & Hname & Hargc & _). cbv zeta in *.
  rewrite Hty, Hname, Hargc.
  destruct (get_redirections_accepts
              (get_arguments MAX (t :: toks) 0 (argv simple)).1.2
              (before_redirections MAX (t :: toks) simple) []) as [_ Hiff].
  cbv zeta in Hiff. unfold before_redirections in *. cbn [s_flag s_type name argc] in *.
  rewrite Ht in *. rewrite Hg in *. cbn [fst snd] in *.
  split; [by apply Hiff|done].
Qed.

(** X1, an instance: [a b < c &] *)
Lemma ParseSimpleCommand_accepts_witness :
  let toks := [ {| tok_type := TOKEN_WORD; tok_value := Some 2 |};
                {| tok_type := TOKEN_REDIRECT_INPUT; tok_value := Some 4 |};
                {| tok_type := TOKEN_WORD; tok_value := Some 6 |};
                {| tok_type := TOKEN_BACKGROUND; tok_value := Some 8 |} ] in
  let r := (ParseSimpleCommand 4 ({| tok_type := TOKEN_WORD; tok_value := Some 0 |} :: toks)
              (zero_simple 4)).1 in
  error_bits (s_flag r) = 0%Z /\ s_flag r = CMD_BACKGROUND_MODE /\ argc r = 2.
Proof.
  cbv zeta.
  destruct (ParseSimpleCommand_accepts 4
              {| tok_type := TOKEN_WORD; tok_value := Some 0 |}
              [ {| tok_type := TOKEN_WORD; tok_value := Some 2 |};
                {| tok_type := TOKEN_REDIRECT_INPUT; tok_value := Some 4 |};
                {| tok_type := TOKEN_WORD; tok_value := Some 6 |};
                {| tok_type := TOKEN_BACKGROUND; tok_value := Some 8 |} ]
              (zero_simple 4) eq_refl) as (Hiff & _ & _ & Hargc).
  split; [apply Hiff; reflexivity|]. split; [reflexivity|exact Hargc].
Defined.

Section Redirections.

Variable MAX : nat.

Lemma get_redirections_redir t q p2 fd ty simple log :
  redirect_of (tok_type t) = Some (fd, ty) -> is_type TOKEN_WORD q = true ->
  get_redirections (t :: q :: p2) simple log =
  get_redirections p2 (set_redirect_path fd (tok_value q) (set_redirect fd ty simple)) log.
Proof. intros Hr Hq. simpl. rewrite Hr, Hq. reflexivity. Qed.

Lemma get_redirections_other t p1 simple log :
  redirect_of (tok_type t) = None ->
  get_redirections (t :: p1) simple log =
  if is_type TOKEN_BACKGROUND t
  then get_redirections p1 (or_flag CMD_BACKGROUND_MODE simple) log
  else get_redirections p1 (or_flag CMD_SYNTAX_ERROR simple)
         (log ++ [ErrorU "Syntax error - unexpected token type"]).
Proof. intros Hr. destruct p1; simpl; rewrite Hr; reflexivity. Qed.

Lemma get_redirections_miss t p1 fd ty simple log :
  redirect_of (tok_type t) = Some (fd, ty) ->
  match p1 with [] => True | q :: _ => is_type TOKEN_WORD q = false end ->
  get_redirections (t :: p1) simple log =
  (or_flag CMD_MISSING_REDIRECTION_DESTINATION (set_redirect fd ty simple),
   log ++ [ErrorU "Missing redirection destination"], None).
Proof. intros Hr Hq. destruct p1 as [|q p2]; simpl; rewrite Hr, ?Hq; reflexivity. Qed.

(** What the redirection loop does on a range of redirections and [&]
    that is followed by more tokens: it runs through the range without a
    diagnostic and goes on with the tokens that follow. *)
Lemma get_redirections_app p rest simple log :
  only_redirections p = true ->
  (get_redirections p simple log).1.2 = log /\
  (get_redirections p simple log).2 = Some [] /\
  get_redirections (p ++ rest) simple log =
  get_redirections rest (get_redirections p simple log).1.1 log.
Proof.
  revert p simple log.
  apply (get_redirections_cases
           (fun p simple log r =>
              only_redirections p = true ->
              r.1.2 = log /\ r.2 = Some [] /\
              get_redirections (p ++ rest) simple log = get_redirections rest r.1.1 log)).
  - done.
  - intros t p1 fd ty simple log Hr Hq. cbn [only_redirections]. rewrite Hr.
    destruct p1 as [|q p2]; [done|]. by rewrite Hq.
  - intros t q p2 fd ty simple log r Hr Hq IH. cbn [only_redirections]. rewrite Hr, Hq.
    cbn [andb]. intros Ho. destruct (IH Ho) as (H1 & H2 & H3). split; [done|]. split; [done|].
    rewrite <- H3. change ((t :: q :: p2) ++ rest) with (t :: q :: (p2 ++ rest)).
    by apply get_redirections_redir.
  - intros t p1 simple log r Hr Hb IH. cbn [only_redirections]. rewrite Hr, Hb.
    cbn [andb]. intros Ho. destruct (IH Ho) as (H1 & H2 & H3). split; [done|]. split; [done|].
    rewrite <- H3. change ((t :: p1) ++ rest) with (t :: (p1 ++ rest)).
    rewrite get_redirections_other by done. by rewrite Hb.
  - intros t p1 simple log r Hr Hb _. cbn [only_redirections]. by rewrite Hr, Hb.
Qed.

(** A token that is not a word stops the argument loop, whatever follows
    it. *)
Lemma get_arguments_app a t rest i av :
  is_type TOKEN_WORD t = false ->
  get_arguments MAX (a ++ t :: rest) i av =
  ((get_arguments MAX a i av).1.1, (get_arguments MAX a i av).1.2 ++ t :: rest,
   (get_arguments MAX a i av).2).
Proof.
  intros Ht. revert i av. induction a as [|c a IH]; intros i av.
  - simpl. by rewrite Ht.
  - cbn [app Tsh.get_arguments].
    destruct (is_type TOKEN_WORD c && (i <? MAX)%nat); [apply IH|done].
Qed.

Lemma redirect_of_not_word t fd ty :
  redirect_of (tok_type t) = Some (fd, ty) -> is_type TOKEN_WORD t = false.
Proof. unfold is_type. destruct (tok_type t); simpl; done. Qed.

Lemma redirect_of_slot ty fd rt : redirect_of ty = Some (fd, rt) -> fd < 3.
Proof. destruct ty; simpl; intros [= <- <-]; lia. Qed.

(** The parse of a range that starts with a word and is followed by a
    token that is not a word, from the parse of the range. *)
Lemma ParseSimpleCommand_app t toks c rest simple :
  is_type TOKEN_WORD t = true -> is_type TOKEN_WORD c = false ->
  error_bits (s_flag (ParseSimpleCommand MAX (t :: toks) simple).1) = 0%Z ->
  (ParseSimpleCommand MAX (t :: toks) simple).2 = [] /\
  ParseSimpleCommand MAX (t :: toks ++ c :: rest) simple =
  (get_redirections (c :: rest) (ParseSimpleCommand MAX (t :: toks) simple).1 []).1.
Proof.
  intros Ht Hc. rewrite !ParseSimpleCommand_eq. intros He.
  pose proof (get_redirections_accepts
                (get_arguments MAX (t :: toks) 0 (argv simple)).1.2
                (before_redirections MAX (t :: toks) simple) []) as [_ Hiff].
  cbv zeta in Hiff.
  assert (s_flag (before_redirections MAX (t :: toks) simple) = 0%Z) as H0
      by (unfold before_redirections; cbn [s_flag]; by rewrite Ht).
  apply Hiff in He; [|by rewrite H0].
  destruct (get_redirections_app _ (c :: rest)
              (before_redirections MAX (t :: toks) simple) [] He) as (Hlog & _ & Happ).
  split; [exact Hlog|].
  change (t :: toks ++ c :: rest) with ((t :: toks) ++ c :: rest).
  assert (before_redirections MAX ((t :: toks) ++ c :: rest) simple =
          before_redirections MAX (t :: toks) simple) as Hb.
  { unfold before_redirections. rewrite (get_arguments_app (t :: toks) c rest) by done.
    cbn [fst snd]. reflexivity. }
  rewrite Hb. rewrite (get_arguments_app (t :: toks) c rest) by done. cbn [fst snd].
  rewrite Happ. reflexivity.
Qed.

End Redirections.

(** X2: a redirection with its word, added at the end of a command that is
    parsed without an error flag, changes nothing but its slot: the slot
    takes the type of the new redirection and the new path, whatever it
    held (the last redirection of a descriptor is the one that counts). *)
Theorem ParseSimpleCommand_later_redirection
  (MAX : nat) (t : Token) (toks : list Token) (r q : Token) (fd : nat) (ty : RedirectionType)
  (simple : SimpleCommand) :
  is_type TOKEN_WORD t = true ->
  error_bits (s_flag (ParseSimpleCommand MAX (t :: toks) simple).1) = 0%Z ->
  redirect_of (tok_type r) = Some (fd, ty) ->
  is_type TOKEN_WORD q = true ->
  let old := (ParseSimpleCommand MAX (t :: toks) simple).1 in
  let new := ParseSimpleCommand MAX (t :: toks ++ [r; q]) simple in
  new = (set_redirect_path fd (tok_value q) (set_redirect fd ty old), []) /\
  redirects new.1 !! fd =
    Some {| source_fd := Z.of_nat fd; dest_fd := (-1)%Z; path := tok_value q; r_type := ty |} /\
  forall i, i <> fd -> redirects new.1 !! i = redirects old !! i.
Proof.
  intros Ht He Hr Hq old new. subst old new.
  destruct (ParseSimpleCommand_app MAX t toks r [q] simple Ht
              (redirect_of_not_word _ _ _ Hr) He) as [_ ->].
  rewrite (get_redirections_redir r q [] fd ty) by done.
  change (get_redirections [] ?s ?l) with (s, l, Some (@nil Token)). cbn [fst].
  split; [done|]. unfold set_redirect_path, set_redirect. cbn [redirects].
  split.
  - rewrite !list_lookup_alter_eq.
    assert (exists d, redirects (ParseSimpleCommand MAX (t :: toks) simple).1 !! fd = Some d /\
                      dest_fd d = (-1)%Z) as (d & -> & Hd); [|simpl; by rewrite Hd].
    rewrite ParseSimpleCommand_eq.
    assert (forall p s l,
               (forall i d, redirects s !! i = Some d -> dest_fd d = (-1)%Z) ->
               forall i d, redirects (get_redirections p s l).1.1 !! i = Some d ->
                           dest_fd d = (-1)%Z) as Hkeep.
    { apply (get_redirections_cases
               (fun _ s _ r0 =>
                  (forall i d, redirects s !! i = Some d -> dest_fd d = (-1)%Z) ->
                  forall i d, redirects r0.1.1 !! i = Some d -> dest_fd d = (-1)%Z));
        cbn [fst redirects or_flag]; auto.
      - intros _ _ fd' ty' s _ _ _ Hs i d. unfold set_redirect. cbn [redirects].
        destruct (decide (i = fd')) as [->|Hne].
        + rewrite list_lookup_alter_eq. destruct (redirects s !! fd') eqn:E; [|done].
          intros [= <-]. simpl. eauto.
        + rewrite list_lookup_alter_ne by done. eauto.
      - intros _ q' _ fd' ty' s _ r0 _ _ IH Hs. apply IH.
        intros i d. unfold set_redirect_path, set_redirect. cbn [redirects].
        destruct (decide (i = fd')) as [->|Hne].
        + rewrite !list_lookup_alter_eq. destruct (redirects s !! fd') eqn:E; [|done].
          intros [= <-]. simpl. eauto.
        + rewrite !list_lookup_alter_ne by done. eauto. }
    pose proof (get_redirections_slots
                  (get_arguments MAX (t :: toks) 0 (argv simple)).1.2
                  (before_redirections MAX (t :: toks) simple) [] init_redirects_ok)
      as [Hlen _].
    pose proof (redirect_of_slot _ _ _ Hr) as Hfd.
    destruct (lookup_lt_is_Some_2
                (redirects (get_redirections
                              (get_arguments MAX (t :: toks) 0 (argv simple)).1.2
                              (before_redirections MAX (t :: toks) simple) []).1.1) fd
                ltac:(lia)) as [d Hd].
    exists d. split; [done|]. eapply Hkeep; [|exact Hd].
    intros [|[|[|i]]] d'; simpl; intros [= <-]; done.
  - intros i Hi. by rewrite !list_lookup_alter_ne.
Qed.

(** X2, an instance: [a > x > y] *)
Lemma ParseSimpleCommand_later_redirection_witness :
  let w k := {| tok_type := TOKEN_WORD; tok_value := Some k |} in
  let out k := {| tok_type := TOKEN_REDIRECT_OUTPUT; tok_value := Some k |} in
  path <$> redirects (ParseSimpleCommand 4 [w 0; out 2; w 4; out 6; w 8] (zero_simple 4)).1 !! 1
  = Some (Some 8).
Proof.
  cbv zeta.
  destruct (ParseSimpleCommand_later_redirection 4
              {| tok_type := TOKEN_WORD; tok_value := Some 0 |}
              [ {| tok_type := TOKEN_REDIRECT_OUTPUT; tok_value := Some 2 |};
                {| tok_type := TOKEN_WORD; tok_value := Some 4 |} ]
              {| tok_type := TOKEN_REDIRECT_OUTPUT; tok_value := Some 6 |}
              {| tok_type := TOKEN_WORD; tok_value := Some 8 |}
              1 REDIRECT_OUTPUT (zero_simple 4) eq_refl eq_refl eq_refl eq_refl)
    as (_ & Hslot & _).
  cbn [app] in Hslot. rewrite Hslot. reflexivity.
Defined.

(** X3: a redirection token that is not followed by a word ends the parse
    of a command that was without an error flag up to there: the flag gets
    [CMD_MISSING_REDIRECTION_DESTINATION], the slot of the token has its
    type but keeps its path, one diagnostic is printed, and the tokens
    after it are not looked at. *)
Theorem ParseSimpleCommand_missing_destination
  (MAX : nat) (t : Token) (toks : list Token) (r : Token) (rest : list Token)
  (fd : nat) (ty : RedirectionType) (simple : SimpleCommand) :
  is_type TOKEN_WORD t = true ->
  error_bits (s_flag (ParseSimpleCommand MAX (t :: toks) simple).1) = 0%Z ->
  redirect_of (tok_type r) = Some (fd, ty) ->
  match rest with [] => True | q :: _ => is_type TOKEN_WORD q = false end ->
  let old := (ParseSimpleCommand MAX (t :: toks) simple).1 in
  ParseSimpleCommand MAX (t :: toks ++ r :: rest) simple =
  (or_flag CMD_MISSING_REDIRECTION_DESTINATION (set_redirect fd ty old),
   [ErrorU "Missing redirection destination"]) /\
  error_bits (s_flag (ParseSimpleCommand MAX (t :: toks ++ r :: rest) simple).1)
  = CMD_MISSING_REDIRECTION_DESTINATION.
Proof.
  intros Ht He Hr Hrest old. subst old.
  destruct (ParseSimpleCommand_app MAX t toks r rest simple Ht
              (redirect_of_not_word _ _ _ Hr) He) as [_ ->].
  rewrite (get_redirections_miss r rest fd ty) by done. cbn [fst app].
  split; [done|]. cbn [s_flag or_flag set_redirect].
  rewrite error_bits_lor, He. reflexivity.
Qed.

(** X3, an instance: [a > | b] as one range *)
Lemma ParseSimpleCommand_missing_destination_witness :
  ParseSimpleCommand 4
    [ {| tok_type := TOKEN_WORD; tok_value := Some 0 |};
      {| tok_type := TOKEN_REDIRECT_OUTPUT; tok_value := Some 2 |};
      {| tok_type := TOKEN_LIST; tok_value := Some 4 |};
      {| tok_type := TOKEN_WORD; tok_value := Some 6 |} ] (zero_simple 4)
  = (or_flag CMD_MISSING_REDIRECTION_DESTINATION
       (set_redirect 1 REDIRECT_OUTPUT
          (ParseSimpleCommand 4 [ {| tok_type := TOKEN_WORD; tok_value := Some 0 |} ]
             (zero_simple 4)).1),
     [ErrorU "Missing redirection destination"]).
Proof.
  destruct (ParseSimpleCommand_missing_destination 4
              {| tok_type := TOKEN_WORD; tok_value := Some 0 |} []
              {| tok_type := TOKEN_REDIRECT_OUTPUT; tok_value := Some 2 |}
              [ {| tok_type := TOKEN_LIST; tok_value := Some 4 |};
                {| tok_type := TOKEN_WORD; tok_value := Some 6 |} ]
              1 REDIRECT_OUTPUT (zero_simple 4) eq_refl eq_refl eq_refl eq_refl)
    as [H _].
  exact H.
Defined.

(** X4: the arguments of a parsed command are the values of the words at
    the start of its range, in their order and at most
    [TSH_MAX_NUM_ARGUMENTS] of them; the name of a command of type
    [CMD_SIMPLE] is its first argument; a range that does not start with a
    word keeps the name that the structure held. *)
Theorem ParseSimpleCommand_arguments
  (MAX : nat) (toks : list Token) (simple : SimpleCommand) :
  length (argv simple) = S MAX ->
  let r := (ParseSimpleCommand MAX toks simple).1 in
  argc r = min (leading_words toks) MAX /\
  length (argv r) = S MAX /\
  (forall k, k < argc r ->
     exists tk, toks !! k = Some tk /\ is_type TOKEN_WORD tk = true /\
                argv r !! k = Some (tok_value tk)) /\
  (forall k, argc r < k -> argv r !! k = argv simple !! k) /\
  (s_type r = CMD_SIMPLE -> 0 < MAX -> argv r !! 0 = Some (name r)) /\
  (s_type r <> CMD_SIMPLE -> name r = name simple /\ argc r = 0).
Proof.
  intros Hlen r. subst r. rewrite ParseSimpleCommand_eq.
  destruct (get_redirections_frame
              (get_arguments MAX toks 0 (argv simple)).1.2
              (before_redirections MAX toks simple) [])
    as (Hty & Hname & Hargc & Hargv). cbv zeta in *.
  rewrite Hty, Hname, Hargc, Hargv. clear Hty Hname Hargc Hargv.
  pose proof (get_arguments_leading MAX toks 0 (argv simple) ltac:(lia)) as Hg.
  rewrite Nat.sub_0_r, Nat.add_0_l in Hg.
  unfold before_redirections. cbn [s_type name argc argv].
  assert ((get_arguments MAX toks 0 (argv simple)).1.1 = min (leading_words toks) MAX) as Hi
      by (by rewrite Hg).
  rewrite Hi.
  assert (forall k, k < min (leading_words toks) MAX ->
            exists tk, toks !! k = Some tk /\ is_type TOKEN_WORD tk = true) as Hwords.
  { clear. generalize MAX. induction toks as [|c toks IH]; intros m k Hk; [simpl in Hk; lia|].
    cbn [leading_words] in Hk. destruct (is_type TOKEN_WORD c) eqn:Ec; [|simpl in Hk; lia].
    destruct m as [|m]; [lia|]. destruct k as [|k]; [by exists c|].
    cbn [min] in Hk. apply (IH m k). lia. }
  assert (forall k, k < min (leading_words toks) MAX ->
            (get_arguments MAX toks 0 (argv simple)).2 !! k = tok_value <$> toks !! k) as Hst.
  { intros k Hk. apply (get_arguments_stored MAX toks 0 (argv simple) k); [lia| |].
    - unfold cptr in *. rewrite Hlen. lia.
    - by rewrite Nat.sub_0_r. }
  split; [done|]. split; [by rewrite length_insert, get_arguments_length|].
  split; [|split; [|split]].
  - intros k Hk. destruct (Hwords k Hk) as (tk & Htk & Hw). exists tk.
    split; [done|]. split; [done|].
    rewrite list_lookup_insert_ne by lia. rewrite Hst by done. by rewrite Htk.
  - intros k Hk. rewrite list_lookup_insert_ne by lia.
    assert (forall p i av, i <= k -> (get_arguments MAX p i av).1.1 < k ->
                           (get_arguments MAX p i av).2 !! k = av !! k) as Hkeep.
    { clear. induction p as [|c p IHp]; intros i av Hi Hlt; [done|]. simpl in *.
      destruct (is_type TOKEN_WORD c && (i <? MAX)%nat); [|done].
      pose proof (get_arguments_mono MAX p (S i) (<[i:=tok_value c]> av)).
      rewrite IHp by lia. apply list_lookup_insert_ne. lia. }
    apply Hkeep; [lia|]. by rewrite Hi.
  - destruct toks as [|c toks]; [done|]. destruct (is_type TOKEN_WORD c) eqn:Ec; [|done].
    intros _ Hmax. cbn [leading_words]. rewrite Ec.
    rewrite list_lookup_insert_ne by (destruct MAX; simpl; lia).
    rewrite Hst by (cbn [leading_words]; rewrite Ec; destruct MAX; simpl; lia). done.
  - destruct toks as [|c toks]; [done|]. cbn [leading_words].
    destruct (is_type TOKEN_WORD c) eqn:Ec; done.
Qed.

(** X4, an instance: [a b c] with room for two arguments *)
Lemma ParseSimpleCommand_arguments_witness :
  let w k := {| tok_type := TOKEN_WORD; tok_value := Some k |} in
  let r := (ParseSimpleCommand 2 [w 0; w 2; w 4] (zero_simple 2)).1 in
  argc r = 2 /\ argv r !! 1 = Some (Some 2).
Proof.
  cbv zeta.
  destruct (ParseSimpleCommand_arguments 2
              [ {| tok_type := TOKEN_WORD; tok_value := Some 0 |};
                {| tok_type := TOKEN_WORD; tok_value := Some 2 |};
                {| tok_type := TOKEN_WORD; tok_value := Some 4 |} ]
              (zero_simple 2) eq_refl) as (Hargc & _ & Hw & _).
  split; [exact Hargc|]. reflexivity.
Defined.

(** X5: [find_next_toke_with_type] returns the first token of the type in
    the range: no token before the one it returns has the type, and it
    returns [tail] exactly when no token of the range has it. *)
Theorem find_next_toke_with_type_first (ty : TokenType) (tokens : list Token) :
  let n := find_next_toke_with_type ty tokens in
  n <= length tokens /\
  (forall k t, k < n -> tokens !! k = Some t -> is_type ty t = false) /\
  (n < length tokens -> exists t, tokens !! n = Some t /\ is_type ty t = true) /\
  (n = length tokens <-> forall t, In t tokens -> is_type ty t = false).
Proof.
  induction tokens as [|c tokens IH]; cbn [Tsh.find_next_toke_with_type length].
  - cbv zeta. split; [lia|]. split; [intros; lia|]. split; [intros; lia|]. by split.
  - cbv zeta in *. destruct IH as (IH1 & IH2 & IH3 & IH4).
    destruct (is_type ty c) eqn:Ec.
    + split; [lia|]. split; [intros; lia|]. split; [by exists c|].
      split; [lia|]. intros H. specialize (H c (or_introl eq_refl)). congruence.
    + split; [lia|]. split; [|split; [|split]].
      * intros [|k] t Hk; cbn; [by intros [= <-]|]. apply IH2. lia.
      * intros Hn. apply IH3. lia.
      * intros Hn t [<-|Hin]; [done|]. apply IH4; [lia|done].
      * intros H. f_equal. apply IH4. intros t Hin. apply H. by right.
Qed.

Lemma find_next_toke_with_type_le ty tokens :
  find_next_toke_with_type ty tokens <= length tokens.
Proof.
  induction tokens as [|c tokens IH]; simpl; [lia|]. destruct (is_type ty c); simpl; lia.
Qed.

(** ** Diagnostics and flags *)

(** The redirection loop prints a diagnostic whenever it sets an error
    flag, and only then. *)
Lemma get_redirections_diagnostics p simple log :
  let r := get_redirections p simple log in
  exists extra, r.1.2 = log ++ extra /\
    (error_bits (s_flag simple) <> 0%Z -> error_bits (s_flag r.1.1) <> 0%Z) /\
    (error_bits (s_flag simple) = 0%Z ->
     (extra = [] <-> error_bits (s_flag r.1.1) = 0%Z)).
Proof.
  revert p simple log.
  apply (get_redirections_cases
           (fun _ simple log r =>
              exists extra, r.1.2 = log ++ extra /\
                (error_bits (s_flag simple) <> 0%Z -> error_bits (s_flag r.1.1) <> 0%Z) /\
                (error_bits (s_flag simple) = 0%Z ->
                 (extra = [] <-> error_bits (s_flag r.1.1) = 0%Z)))).
  - intros simple log. exists []. rewrite app_nil_r. cbn [fst snd]. by repeat split.
  - intros t p1 fd ty simple log Hr Hq. eexists. split; [reflexivity|].
    cbn [fst s_flag or_flag set_redirect]. rewrite error_bits_lor. split.
    + intros H E. apply Z.lor_eq_0_iff in E as [E _]. done.
    + intros H0. rewrite H0. split; [done|]. intros E. done.
  - intros t q p2 fd ty simple log r Hr Hq IH. exact IH.
  - intros t p1 simple log r Hr Hb (extra & He & Hmono & Hiff).
    cbn [s_flag or_flag] in *. rewrite error_bits_lor in Hmono, Hiff.
    change (error_bits CMD_BACKGROUND_MODE) with 0%Z in *. rewrite Z.lor_0_r in *.
    by exists extra.
  - intros t p1 simple log r Hr Hb (extra & He & Hmono & Hiff).
    cbn [s_flag or_flag] in *. rewrite error_bits_lor in Hmono.
    exists (ErrorU "Syntax error - unexpected token type" :: extra).
    split; [by rewrite He, <- app_assoc|].
    assert (error_bits (s_flag r.1.1) <> 0%Z) as Hne.
    { apply Hmono. intros E. apply Z.lor_eq_0_iff in E as [_ E]. done. }
    split; [done|]. intros _. split; [done|]. intros E. done.
Qed.

(** X6: for a range that starts with a word, [ParseSimpleCommand] prints
    a diagnostic exactly when the flag that it returns has an error bit;
    [CMD_BACKGROUND_MODE] is no error. *)
Theorem ParseSimpleCommand_diagnostics
  (MAX : nat) (t : Token) (toks : list Token) (simple : SimpleCommand) :
  is_type TOKEN_WORD t = true ->
  let r := ParseSimpleCommand MAX (t :: toks) simple in
  r.2 = [] <-> error_bits (s_flag r.1) = 0%Z.
Proof.
  intros Ht. cbv zeta. rewrite ParseSimpleCommand_eq.
  destruct (get_redirections_diagnostics
              (get_arguments MAX (t :: toks) 0 (argv simple)).1.2
              (before_redirections MAX (t :: toks) simple) [])
    as (extra & He & _ & Hiff).
  cbv zeta in *. rewrite He. cbn [app]. apply Hiff.
  unfold before_redirections. cbn [s_flag]. by rewrite Ht.
Qed.

(** X6, an instance: [a &] *)
Lemma ParseSimpleCommand_diagnostics_witness :
  let r := ParseSimpleCommand 4
             [ {| tok_type := TOKEN_WORD; tok_value := Some 0 |};
               {| tok_type := TOKEN_BACKGROUND; tok_value := Some 2 |} ] (zero_simple 4) in
  r.2 = [] /\ s_flag r.1 = CMD_BACKGROUND_MODE.
Proof.
  cbv zeta.
  destruct (ParseSimpleCommand_diagnostics 4
              {| tok_type := TOKEN_WORD; tok_value := Some 0 |}
              [ {| tok_type := TOKEN_BACKGROUND; tok_value := Some 2 |} ]
              (zero_simple 4) eq_refl) as [_ H].
  split; [apply H; reflexivity|reflexivity].
Defined.

(** ** The parser of pipelines, stage by stage *)

Lemma split_pipes_length toks : 1 <= length (split_pipes toks).
Proof.
  induction toks as [|t toks IH]; cbn [split_pipes]; [simpl; lia|].
  destruct (is_type TOKEN_PIPE t); [simpl; lia|].
  destruct (split_pipes toks); simpl; lia.
Qed.

(** The ranges between the pipes, as [find_next_toke_with_type] finds
    them. *)
Lemma split_pipes_find toks :
  let n := find_next_toke_with_type TOKEN_PIPE toks in
  split_pipes toks =
  if (n <? length toks)%nat then take n toks :: split_pipes (drop (S n) toks) else [toks].
Proof.
  induction toks as [|t toks IH]; [done|]. cbv zeta in *.
  cbn [Tsh.find_next_toke_with_type split_pipes length].
  destruct (is_type TOKEN_PIPE t); [done|]. rewrite IH.
  change (S ?a <? S ?b)%nat with (a <? b)%nat.
  by destruct (_ <? _)%nat.
Qed.

Section Stages.

Variables MAXA MAXP MAXC : nat.

Lemma parse_next_simple_eq toks cd :
  parse_next_simple MAXA toks cd =
  let r := ParseSimpleCommand MAXA toks (nth (n_simples cd) (_simples cd) (zero_simple MAXA)) in
  (n_simples cd, r.1, r.2,
   {| n_simples := S (n_simples cd); _simples := <[n_simples cd := r.1]> (_simples cd);
      _pipeline := _pipeline cd; cmd := cmd cd |}).
Proof. unfold parse_next_simple. by destruct (ParseSimpleCommand _ _ _). Qed.

(** One run of the body of the loop of [ParsePipeline], when
    [find_next_toke_with_type] finds a pipe. *)
Lemma ParsePipeline_loop_step fuel prev cd log :
  prev <> [] -> p_len (_pipeline cd) < MAXP -> n_simples cd < MAXC ->
  find_next_toke_with_type TOKEN_PIPE prev < length prev ->
  ParsePipeline_loop MAXA MAXP MAXC (S fuel) prev cd log =
  let n := find_next_toke_with_type TOKEN_PIPE prev in
  let pl0 := if (p_len (_pipeline cd) =? 0)%nat then init_pipeline (_pipeline cd)
             else _pipeline cd in
  let c0 := if (p_len (_pipeline cd) =? 0)%nat && negb (CommandType_eqb (c_type (cmd cd)) CMD_LIST)
            then set_command (cmd cd) CMD_PIPELINE ref_pipeline 0 else cmd cd in
  let r := ParseSimpleCommand MAXA (take n prev)
             (nth (n_simples cd) (_simples cd) (zero_simple MAXA)) in
  ParsePipeline_loop MAXA MAXP MAXC fuel (drop (S n) prev)
    {| n_simples := S (n_simples cd); _simples := <[n_simples cd := r.1]> (_simples cd);
       _pipeline := push_command (n_simples cd) r.1 pl0; cmd := c0 |}
    (log ++ r.2).
Proof.
  intros Hne Hp Hc Hn. cbn [ParsePipeline_loop].
  destruct prev as [|t prev]; [done|].
  destruct (Nat.ltb_spec (p_len (_pipeline cd)) MAXP); [|lia].
  destruct (Nat.ltb_spec (n_simples cd) MAXC); [|lia].
  destruct (Nat.ltb_spec (find_next_toke_with_type TOKEN_PIPE (t :: prev)) (length (t :: prev)));
    [|lia].
  cbn [length Nat.ltb Nat.leb andb]. cbv zeta.
  unfold with_pipeline, with_cmd.
  cbn [_pipeline cmd n_simples _simples init_pipeline p_flag].
  destruct (p_len (_pipeline cd) =? 0)%nat;
    [destruct (negb (CommandType_eqb (c_type (cmd cd)) CMD_LIST))|];
    rewrite parse_next_simple_eq; cbv zeta;
    cbn [_pipeline cmd n_simples _simples andb negb init_pipeline p_flag fst snd];
    reflexivity.
Qed.

(** The loop is left when no pipe is found, and when a limit is reached. *)
Lemma ParsePipeline_loop_stop fuel prev cd log :
  prev = [] \/ MAXP <= p_len (_pipeline cd) \/ MAXC <= n_simples cd \/
  find_next_toke_with_type TOKEN_PIPE prev = length prev ->
  ParsePipeline_loop MAXA MAXP MAXC fuel prev cd log = (prev, cd, log).
Proof.
  intros H. destruct fuel as [|fuel]; [done|]. cbn [ParsePipeline_loop].
  destruct prev as [|t prev]; [done|].
  change (0 <? length (t :: prev))%nat with true.
  destruct (Nat.ltb_spec (p_len (_pipeline cd)) MAXP); [|done].
  destruct (Nat.ltb_spec (n_simples cd) MAXC); [|done]. cbn [andb].
  destruct H as [H|[H|[H|H]]]; [done|lia|lia|].
  rewrite H. by rewrite Nat.ltb_irrefl.
Qed.

Lemma nth_insert_ne {A} (l : list A) i j x d : i <> j -> nth j (<[i := x]> l) d = nth j l d.
Proof. intros H. by rewrite !nth_lookup, list_lookup_insert_ne. Qed.

(** What the loop keeps: the counters agree and stay within the limits,
    the arrays keep their sizes, and the stages are in order. *)
Lemma ParsePipeline_loop_stages_ok fuel prev cd log :
  n_simples cd = p_len (_pipeline cd) ->
  p_len (_pipeline cd) <= MAXP -> n_simples cd <= MAXC ->
  length (_simples cd) = MAXC -> length (commands (_pipeline cd)) = MAXP ->
  stages_ok cd ->
  let cd' := (ParsePipeline_loop MAXA MAXP MAXC fuel prev cd log).1.2 in
  n_simples cd' = p_len (_pipeline cd') /\
  p_len (_pipeline cd') <= MAXP /\ n_simples cd' <= MAXC /\
  length (_simples cd') = MAXC /\ length (commands (_pipeline cd')) = MAXP /\
  stages_ok cd' /\
  p_len (_pipeline cd) <= p_len (_pipeline cd') /\
  (p_len (_pipeline cd') = p_len (_pipeline cd) -> cd' = cd) /\
  (0 < p_len (_pipeline cd) -> cmd cd' = cmd cd) /\
  (p_len (_pipeline cd) = 0 -> 0 < p_len (_pipeline cd') ->
   c_type (cmd cd) <> CMD_LIST ->
   cmd cd' = {| c_type := CMD_PIPELINE; c_flag := 0; c_cmd := ref_pipeline |}).
Proof.
  revert prev cd log. induction fuel as [|fuel IH]; intros prev cd log Hj Hp Hc Hls Hlc Hst.
  { cbn. repeat split; auto; lia. }
  destruct (decide (prev <> [] /\ p_len (_pipeline cd) < MAXP /\ n_simples cd < MAXC /\
                    find_next_toke_with_type TOKEN_PIPE prev < length prev))
    as [(H1 & H2 & H3 & H4)|Hstop].
  - rewrite ParsePipeline_loop_step by done. cbv zeta.
    match goal with
    | |- context [ParsePipeline_loop _ _ _ fuel ?p ?c ?l] =>
        specialize (IH p c l); set (cd1 := c) in *
    end.
    assert (p_len (_pipeline cd1) = S (p_len (_pipeline cd))) as Hlen1.
    { subst cd1. cbn [_pipeline push_command p_len].
      destruct (p_len (_pipeline cd) =? 0)%nat eqn:E; [|done].
      apply Nat.eqb_eq in E. simpl. lia. }
    assert (n_simples cd1 = S (n_simples cd)) as Hn1 by done.
    assert (stages_ok cd1) as Hst1.
    { intros i Hi. rewrite Hlen1 in Hi. subst cd1.
      cbn [_simples _pipeline push_command commands].
      assert (p_len (if (p_len (_pipeline cd) =? 0)%nat then init_pipeline (_pipeline cd)
                     else _pipeline cd) = p_len (_pipeline cd)) as ->.
      { destruct (p_len (_pipeline cd) =? 0)%nat eqn:E; [|done].
        apply Nat.eqb_eq in E. simpl. lia. }
      assert (commands (if (p_len (_pipeline cd) =? 0)%nat then init_pipeline (_pipeline cd)
                        else _pipeline cd) = commands (_pipeline cd)) as ->
          by (by destruct (p_len (_pipeline cd) =? 0)%nat).
      destruct (decide (i = p_len (_pipeline cd))) as [->|Hne].
      - rewrite Hj. eexists. split; [apply list_lookup_insert_eq; lia|].
        rewrite list_lookup_insert_eq by lia. rewrite <- Hj. reflexivity.
      - rewrite !list_lookup_insert_ne by lia. apply Hst. lia. }
    destruct IH as (I1 & I2 & I3 & I4 & I5 & I6 & I7 & I8 & I9 & I10);
      [lia|lia|lia| | |done|].
    { subst cd1. cbn [_simples]. by rewrite length_insert. }
    { subst cd1. cbn [_pipeline push_command commands]. rewrite length_insert.
      by destruct (p_len (_pipeline cd) =? 0)%nat. }
    repeat split; auto; try lia.
    + intros Hp0. rewrite I9 by lia. subst cd1. cbn [cmd].
      destruct (Nat.eqb_spec (p_len (_pipeline cd)) 0); [lia|done].
    + intros Hp0 _ Hlist. rewrite I9 by lia. subst cd1. cbn [cmd].
      rewrite Hp0. cbn [Nat.eqb andb].
      destruct (c_type (cmd cd)); done.
  - rewrite ParsePipeline_loop_stop.
    + cbn. repeat split; auto; lia.
    + destruct prev as [|t prev]; [by left|].
      destruct (Nat.lt_ge_cases (p_len (_pipeline cd)) MAXP); [|by right; left].
      destruct (Nat.lt_ge_cases (n_simples cd) MAXC); [|by right; right; left].
      right. right. right.
      pose proof (find_next_toke_with_type_le TOKEN_PIPE (t :: prev)).
      destruct (decide (find_next_toke_with_type TOKEN_PIPE (t :: prev) < length (t :: prev)));
        [|lia].
      exfalso. apply Hstop. done.
Qed.

End Stages.

(** X7: whatever the tokens and the limits, [ParsePipeline] (called as
    [GetCommand] calls it, with both counters at 0) leaves the counters
    within the limits of the arrays, and the stages of the pipeline in
    order: stage [i] is a [CMD_SIMPLE] that points to [_simples[i]] and
    holds the flag that [ParseSimpleCommand] gave it.  With room for one
    simple command, the command of the shell is a [CMD_SIMPLE] that points
    to [_simples[0]], or a [CMD_PIPELINE] with at least one stage: it is
    never left [CMD_EMPTY] or [CMD_INVALID]. *)
Theorem ParsePipeline_stages_in_order
  (MAXA MAXP MAXC : nat) (toks : list Token) (cd : CommandData) :
  n_simples cd = 0 -> p_len (_pipeline cd) = 0 ->
  length (_simples cd) = MAXC -> length (commands (_pipeline cd)) = MAXP ->
  let cd' := (ParsePipeline MAXA MAXP MAXC toks cd).1 in
  n_simples cd' <= MAXC /\ p_len (_pipeline cd') <= MAXP /\
  p_len (_pipeline cd') <= n_simples cd' /\
  length (_simples cd') = MAXC /\ length (commands (_pipeline cd')) = MAXP /\
  stages_ok cd' /\
  (0 < MAXC -> c_type (cmd cd) <> CMD_LIST ->
   (c_type (cmd cd') = CMD_SIMPLE /\ c_cmd (cmd cd') = ref_simple 0 /\
    p_len (_pipeline cd') = 0 /\ n_simples cd' = 1) \/
   (c_type (cmd cd') = CMD_PIPELINE /\ c_cmd (cmd cd') = ref_pipeline /\
    0 < p_len (_pipeline cd'))).
Proof.
  intros Hn Hp Hls Hlc. cbv zeta. unfold ParsePipeline.
  assert (stages_ok cd) as Hst by (intros i Hi; lia).
  pose proof (ParsePipeline_loop_stages_ok MAXA MAXP MAXC (length toks) toks cd []
                ltac:(lia) ltac:(lia) ltac:(lia) Hls Hlc Hst) as H.
  cbv zeta in H.
  destruct (ParsePipeline_loop MAXA MAXP MAXC (length toks) toks cd []) as [[prev cd1] log].
  cbn [fst snd] in H. destruct H as (I1 & I2 & I3 & I4 & I5 & I6 & _ & I8 & _ & I10).
  rewrite Hp in I8, I10. specialize (I10 eq_refl).
  destruct (Nat.leb_spec MAXC (n_simples cd1)) as [Hfull|Hroom].
  - cbn [fst with_cmd with_pipeline or_p_flag or_c_flag n_simples _pipeline p_len
           _simples commands cmd c_type c_cmd].
    repeat split; try lia; try done.
    intros HC Hlist. right. rewrite I10 by (lia || done); repeat split; try done; lia.
  - rewrite parse_next_simple_eq. cbv zeta. cbn [_pipeline cmd].
    set (s := (ParseSimpleCommand MAXA prev
                 (nth (n_simples cd1) (_simples cd1) (zero_simple MAXA))).1).
    assert (forall c fl,
               stages_ok {| n_simples := S (n_simples cd1);
                            _simples := <[n_simples cd1 := s]> (_simples cd1);
                            _pipeline := or_p_flag fl (_pipeline cd1); cmd := c |}) as Hkeep.
    { intros c fl i Hi. cbn [_pipeline or_p_flag p_len _simples commands] in *.
      rewrite list_lookup_insert_ne by lia. by apply I6. }
    destruct (Nat.eqb_spec (p_len (_pipeline cd1)) 0) as [H0|H0].
    + (* a simple command *)
      cbn [with_cmd _pipeline n_simples _simples cmd].
      assert (n_simples cd1 = 0) as Hn0 by lia.
      destruct (Nat.leb_spec MAXP (p_len (_pipeline cd1))) as [Hlong|Hshort].
      * cbn [fst with_cmd with_pipeline or_p_flag or_c_flag n_simples _pipeline p_len
               _simples commands cmd c_type c_cmd set_command].
        rewrite length_insert.
        repeat split; try lia; try done.
        -- apply Hkeep.
        -- intros _ _. left. rewrite Hn0. repeat split; done.
      * destruct (Nat.ltb_spec 0 (p_len (_pipeline cd1))) as [Hpos|_]; [lia|].
        cbn [fst with_cmd n_simples _pipeline p_len _simples commands cmd c_type c_cmd set_command].
        rewrite length_insert.
        repeat split; try lia; try done.
        -- unfold stages_ok. cbn [_pipeline with_cmd]. intros i Hi. lia.
        -- intros _ _. left. rewrite Hn0. repeat split; done.
    + (* a pipeline *)
      cbn [with_cmd _pipeline n_simples _simples cmd].
      destruct (Nat.leb_spec MAXP (p_len (_pipeline cd1))) as [Hlong|Hshort].
      * cbn [fst with_cmd with_pipeline or_p_flag or_c_flag n_simples _pipeline p_len
               _simples commands cmd c_type c_cmd].
        rewrite length_insert.
        repeat split; try lia; try done.
        -- apply Hkeep.
        -- intros _ Hlist. right. rewrite I10 by (lia || done); repeat split; try done; lia.
      * destruct (Nat.ltb_spec 0 (p_len (_pipeline cd1))) as [Hpos|]; [|lia].
        cbn [fst with_cmd with_pipeline push_command n_simples _pipeline p_len
               _simples commands cmd c_type c_cmd].
        rewrite !length_insert.
        repeat split; try lia; try done.
        -- unfold stages_ok, with_pipeline.
           cbn [_pipeline push_command p_len _simples commands set_command].
           intros i Hi.
           destruct (decide (i = p_len (_pipeline cd1))) as [->|Hne].
           ++ exists s. rewrite <- I1.
              rewrite !list_lookup_insert_eq by lia. done.
           ++ rewrite I1. rewrite !list_lookup_insert_ne by lia. apply I6. lia.
        -- intros _ Hlist. right. rewrite I10 by (lia || done). repeat split; try done; lia.
Qed.

(** X7, an instance: [a | b | c] with room for two stages *)
Lemma ParsePipeline_stages_in_order_witness :
  let w k := {| tok_type := TOKEN_WORD; tok_value := Some k |} in
  let bar k := {| tok_type := TOKEN_PIPE; tok_value := Some k |} in
  let cd := _cmd_data (this_shell 16 4 2 4) in
  let cd' := (ParsePipeline 4 2 4 [w 0; bar 2; w 4; bar 6; w 8] cd).1 in
  stages_ok cd' /\ p_len (_pipeline cd') <= 2.
Proof.
  cbv zeta.
  destruct (ParsePipeline_stages_in_order 4 2 4
              [ {| tok_type := TOKEN_WORD; tok_value := Some 0 |};
                {| tok_type := TOKEN_PIPE; tok_value := Some 2 |};
                {| tok_type := TOKEN_WORD; tok_value := Some 4 |};
                {| tok_type := TOKEN_PIPE; tok_value := Some 6 |};
                {| tok_type := TOKEN_WORD; tok_value := Some 8 |} ]
              (_cmd_data (this_shell 16 4 2 4)) eq_refl eq_refl eq_refl eq_refl)
    as (_ & Hp & _ & _ & _ & Hst & _).
  split; [exact Hst|exact Hp].
Defined.

Section Segments.

Variables MAXA MAXP MAXC : nat.

Lemma find_next_toke_with_type_none ty tokens :
  (forall t, In t tokens -> is_type ty t = false) ->
  find_next_toke_with_type ty tokens = length tokens.
Proof.
  induction tokens as [|c tokens IH]; intros H; [done|].
  cbn [Tsh.find_next_toke_with_type length]. rewrite (H c) by (by left).
  f_equal. apply IH. intros t Ht. apply H. by right.
Qed.

(** The loop of [ParsePipeline] within the limits: it parses the ranges
    between the pipes, one after the other, into [_simples], and stops
    before the last one. *)
Lemma ParsePipeline_loop_segments fuel prev cd log :
  length prev <= fuel ->
  n_simples cd = p_len (_pipeline cd) ->
  length (_simples cd) = MAXC ->
  p_len (_pipeline cd) + length (split_pipes prev) <= MAXP ->
  n_simples cd + length (split_pipes prev) <= MAXC ->
  let r := ParsePipeline_loop MAXA MAXP MAXC fuel prev cd log in
  let segs := split_pipes prev in
  last segs = Some r.1.1 /\
  p_len (_pipeline r.1.2) + 1 = p_len (_pipeline cd) + length segs /\
  (forall i seg, S i < length segs -> segs !! i = Some seg ->
     _simples r.1.2 !! (n_simples cd + i) =
     Some (ParseSimpleCommand MAXA seg
             (nth (n_simples cd + i) (_simples cd) (zero_simple MAXA))).1) /\
  (forall i, i < n_simples cd \/ n_simples cd + length segs <= S i ->
     _simples r.1.2 !! i = _simples cd !! i) /\
  (0 < p_len (_pipeline cd) ->
   p_type (_pipeline r.1.2) = p_type (_pipeline cd) /\
   p_flag (_pipeline r.1.2) = p_flag (_pipeline cd)) /\
  (p_len (_pipeline cd) = 0 -> 2 <= length segs ->
   p_type (_pipeline r.1.2) = CMD_PIPELINE /\ p_flag (_pipeline r.1.2) = 0%Z).
Proof.
  revert prev cd log. induction fuel as [fuel IH] using lt_wf_ind.
  intros prev cd log Hfuel Hj Hls Hp Hc. cbv zeta.
  pose proof (split_pipes_find prev) as Hsplit. cbv zeta in Hsplit.
  pose proof (find_next_toke_with_type_le TOKEN_PIPE prev) as Hle.
  destruct (Nat.ltb_spec (find_next_toke_with_type TOKEN_PIPE prev) (length prev))
    as [Hfound|Hnone].
  - (* a pipe *)
    set (n := find_next_toke_with_type TOKEN_PIPE prev) in *.
    pose proof (split_pipes_length (drop (S n) prev)) as Hrest.
    rewrite Hsplit in Hp, Hc |- *. cbn [length] in Hp, Hc |- *.
    destruct fuel as [|fuel]; [lia|].
    assert (prev <> []) as Hne by (intros ->; simpl in Hfound; lia).
    rewrite ParsePipeline_loop_step by (done || lia). cbv zeta. fold n.
    set (s := (ParseSimpleCommand MAXA (take n prev)
                 (nth (n_simples cd) (_simples cd) (zero_simple MAXA))).1).
    match goal with
    | |- context [ParsePipeline_loop _ _ _ fuel ?p ?c ?l] =>
        pose proof (IH fuel ltac:(lia) p c l) as IH1; set (cd1 := c) in *
    end.
    assert (p_len (_pipeline cd1) = S (p_len (_pipeline cd))) as Hlen1.
    { subst cd1. cbn [_pipeline push_command p_len].
      destruct (p_len (_pipeline cd) =? 0)%nat eqn:E; [|done].
      apply Nat.eqb_eq in E. simpl. lia. }
    assert (n_simples cd1 = S (n_simples cd)) as Hn1 by done.
    assert (_simples cd1 = <[n_simples cd := s]> (_simples cd)) as Hs1 by done.
    cbv zeta in IH1. rewrite Hlen1, Hn1, Hs1 in IH1.
    destruct IH1 as (J1 & J2 & J3 & J4 & J5 & J6);
      [rewrite length_drop; lia|lia|by rewrite length_insert|lia|lia|].
    split; [|split; [|split; [|split; [|split]]]].
    + rewrite <- J1. destruct (split_pipes (drop (S n) prev)); [simpl in Hrest; lia|done].
    + lia.
    + intros [|i] seg Hi; cbn [lookup list_lookup].
      * intros [= <-]. rewrite Nat.add_0_r. rewrite J4 by lia.
        apply list_lookup_insert_eq. lia.
      * intros Hseg. specialize (J3 i seg ltac:(lia) Hseg).
        replace (n_simples cd + S i) with (S (n_simples cd + i)) by lia.
        cbn [Nat.add] in J3. rewrite J3.
        rewrite nth_insert_ne by lia. done.
    + intros i Hi. rewrite J4 by lia. apply list_lookup_insert_ne. lia.
    + intros Hpos. destruct (J5 ltac:(lia)) as [-> ->]. subst cd1.
      cbn [_pipeline push_command p_type p_flag].
      destruct (Nat.eqb_spec (p_len (_pipeline cd)) 0); [lia|done].
    + intros H0 _. destruct (J5 ltac:(lia)) as [-> ->]. subst cd1.
      cbn [_pipeline push_command p_type p_flag]. rewrite H0. done.
  - (* no pipe *)
    rewrite Hsplit. rewrite ParsePipeline_loop_stop by (right; right; right; lia).
    cbn [fst snd length last]. repeat split; try done; try lia.
Qed.

End Segments.

(** X8: a range with pipes and no more ranges between them than there is
    room for stages and simple commands is parsed into the pipeline of
    these ranges: range [i] is parsed by [ParseSimpleCommand] into
    [_simples[i]], and stage [i] points to it.  A range may be empty, as
    after a pipe at the end of the line.  The command of the shell is a
    [CMD_PIPELINE] whose flag is 0, and so is the flag of the pipeline,
    whatever the flags of the stages. *)
Theorem ParsePipeline_stages
  (MAXA MAXP MAXC : nat) (toks : list Token) (cd : CommandData) :
  n_simples cd = 0 -> p_len (_pipeline cd) = 0 ->
  length (_simples cd) = MAXC -> length (commands (_pipeline cd)) = MAXP ->
  c_type (cmd cd) <> CMD_LIST ->
  2 <= length (split_pipes toks) ->
  length (split_pipes toks) <= MAXP -> length (split_pipes toks) <= MAXC ->
  let cd' := (ParsePipeline MAXA MAXP MAXC toks cd).1 in
  cmd cd' = {| c_type := CMD_PIPELINE; c_flag := 0; c_cmd := ref_pipeline |} /\
  p_type (_pipeline cd') = CMD_PIPELINE /\ p_flag (_pipeline cd') = 0%Z /\
  p_len (_pipeline cd') = length (split_pipes toks) /\
  n_simples cd' = length (split_pipes toks) /\
  forall i seg, split_pipes toks !! i = Some seg ->
    let s := (ParseSimpleCommand MAXA seg (nth i (_simples cd) (zero_simple MAXA))).1 in
    _simples cd' !! i = Some s /\
    commands (_pipeline cd') !! i =
    Some {| c_type := CMD_SIMPLE; c_flag := s_flag s; c_cmd := ref_simple i |}.
Proof.
  intros Hn Hp Hls Hlc Hlist H2 HP HC. cbv zeta. unfold ParsePipeline.
  assert (stages_ok cd) as Hst by (intros i Hi; lia).
  pose proof (ParsePipeline_loop_stages_ok MAXA MAXP MAXC (length toks) toks cd []
                ltac:(lia) ltac:(lia) ltac:(lia) Hls Hlc Hst) as H.
  pose proof (ParsePipeline_loop_segments MAXA MAXP MAXC (length toks) toks cd []
                ltac:(lia) ltac:(lia) Hls ltac:(lia) ltac:(lia)) as K.
  cbv zeta in H, K.
  destruct (ParsePipeline_loop MAXA MAXP MAXC (length toks) toks cd []) as [[prev cd1] log].
  cbn [fst snd] in H, K.
  destruct H as (I1 & I2 & I3 & I4 & I5 & I6 & _ & _ & _ & I10).
  destruct K as (K1 & K2 & K3 & K4 & _ & K6).
  rewrite Hp in K2, I10. rewrite Hn in K3, K4. cbn [Nat.add] in K2, K3.
  destruct (K6 Hp H2) as [Kt Kf].
  specialize (I10 eq_refl ltac:(lia) Hlist).
  destruct (Nat.leb_spec MAXC (n_simples cd1)) as [Hfull|Hroom]; [lia|].
  rewrite parse_next_simple_eq. cbv zeta. cbn [_pipeline cmd].
  set (s := (ParseSimpleCommand MAXA prev
               (nth (n_simples cd1) (_simples cd1) (zero_simple MAXA))).1).
  destruct (Nat.eqb_spec (p_len (_pipeline cd1)) 0) as [H0|H0]; [lia|].
  cbn [with_cmd _pipeline n_simples _simples cmd].
  destruct (Nat.leb_spec MAXP (p_len (_pipeline cd1))) as [Hlong|Hshort]; [lia|].
  destruct (Nat.ltb_spec 0 (p_len (_pipeline cd1))) as [Hpos|]; [|lia].
  unfold with_pipeline.
  cbn [fst push_command n_simples _pipeline p_len p_type p_flag _simples commands cmd
         set_command].
  split; [done|]. split; [done|]. split; [done|]. split; [lia|]. split; [lia|].
  intros i seg Hseg.
  pose proof (lookup_lt_Some _ _ _ Hseg) as Hi.
  destruct (decide (i = n_simples cd1)) as [->|Hne].
  - rewrite <- I1. rewrite !list_lookup_insert_eq by lia.
    rewrite last_lookup in K1.
    replace (pred (length (split_pipes toks))) with (n_simples cd1) in K1 by lia.
    rewrite Hseg in K1. injection K1 as ->.
    subst s. rewrite (nth_lookup (_simples cd1)), K4 by lia.
    rewrite <- nth_lookup. done.
  - rewrite !list_lookup_insert_ne by lia.
    rewrite (K3 i seg) by (done || lia).
    destruct (I6 i ltac:(lia)) as (s' & Hs' & Hc').
    rewrite (K3 i seg) in Hs' by (done || lia). injection Hs' as <-. done.
Qed.

(** X8, an instance: [a | b] and the limits 8, 4 and 8 *)
Lemma ParsePipeline_stages_witness :
  let w k := {| tok_type := TOKEN_WORD; tok_value := Some k |} in
  let bar k := {| tok_type := TOKEN_PIPE; tok_value := Some k |} in
  let cd := _cmd_data (this_shell 64 8 4 8) in
  let cd' := (ParsePipeline 8 4 8 [w 0; bar 2; w 4] cd).1 in
  c_flag (cmd cd') = 0%Z /\ p_len (_pipeline cd') = 2.
Proof.
  cbv zeta.
  destruct (ParsePipeline_stages 8 4 8
              [ {| tok_type := TOKEN_WORD; tok_value := Some 0 |};
                {| tok_type := TOKEN_PIPE; tok_value := Some 2 |};
                {| tok_type := TOKEN_WORD; tok_value := Some 4 |} ]
              (_cmd_data (this_shell 64 8 4 8)) eq_refl eq_refl eq_refl eq_refl)
    as (Hc & _ & _ & Hp & _); [done|simpl; lia|simpl; lia|simpl; lia|].
  split; [by rewrite Hc|exact Hp].
Defined.

(** X9: a range without a pipe is parsed as one simple command, into
    [_simples[0]]; the command of the shell is a [CMD_SIMPLE] that points
    to it and holds its flag, and the pipeline is left as it was. *)
Theorem ParsePipeline_no_pipe
  (MAXA MAXP MAXC : nat) (toks : list Token) (cd : CommandData) :
  n_simples cd = 0 -> p_len (_pipeline cd) = 0 ->
  0 < MAXP -> 0 < MAXC ->
  (forall t, In t toks -> is_type TOKEN_PIPE t = false) ->
  let r := ParseSimpleCommand MAXA toks (nth 0 (_simples cd) (zero_simple MAXA)) in
  ParsePipeline MAXA MAXP MAXC toks cd =
  ({| n_simples := 1; _simples := <[0 := r.1]> (_simples cd); _pipeline := _pipeline cd;
      cmd := {| c_type := CMD_SIMPLE; c_flag := s_flag r.1; c_cmd := ref_simple 0 |} |},
   r.2).
Proof.
  intros Hn Hp HP HC Hnone. cbv zeta. unfold ParsePipeline.
  rewrite ParsePipeline_loop_stop
    by (right; right; right; by apply find_next_toke_with_type_none).
  rewrite Hn. destruct (Nat.leb_spec MAXC 0) as [|_]; [lia|].
  rewrite parse_next_simple_eq. cbv zeta. rewrite Hn. cbn [_pipeline].
  rewrite Hp. cbn [Nat.eqb with_cmd _pipeline n_simples _simples cmd set_command].
  rewrite Hp. destruct (Nat.leb_spec MAXP 0) as [|_]; [lia|].
  cbn [Nat.ltb Nat.leb app]. done.
Qed.

(** X9, an instance: [a < b] *)
Lemma ParsePipeline_no_pipe_witness :
  let toks := [ {| tok_type := TOKEN_WORD; tok_value := Some 0 |};
                {| tok_type := TOKEN_REDIRECT_INPUT; tok_value := Some 2 |};
                {| tok_type := TOKEN_WORD; tok_value := Some 4 |} ] in
  c_type (cmd (ParsePipeline 8 4 8 toks (_cmd_data (this_shell 64 8 4 8))).1) = CMD_SIMPLE.
Proof.
  cbv zeta.
  rewrite (ParsePipeline_no_pipe 8 4 8
             [ {| tok_type := TOKEN_WORD; tok_value := Some 0 |};
               {| tok_type := TOKEN_REDIRECT_INPUT; tok_value := Some 2 |};
               {| tok_type := TOKEN_WORD; tok_value := Some 4 |} ]
             (_cmd_data (this_shell 64 8 4 8)) eq_refl eq_refl ltac:(lia) ltac:(lia)).
  - reflexivity.
  - intros t [<-|[<-|[<-|[]]]]; reflexivity.
Defined.

(** ** Pipelines over the limits *)

Section Limits.

Variables MAXA MAXP MAXC : nat.

(** With more ranges between pipes than there is room for, the loop of
    [ParsePipeline] runs until a counter is at its limit. *)
Lemma ParsePipeline_loop_limit fuel prev cd log :
  length prev <= fuel ->
  n_simples cd = p_len (_pipeline cd) ->
  p_len (_pipeline cd) <= Nat.min MAXP MAXC ->
  Nat.min MAXP MAXC < p_len (_pipeline cd) + length (split_pipes prev) ->
  let cd' := (ParsePipeline_loop MAXA MAXP MAXC fuel prev cd log).1.2 in
  n_simples cd' = Nat.min MAXP MAXC /\ p_len (_pipeline cd') = Nat.min MAXP MAXC.
Proof.
  revert prev cd log. induction fuel as [fuel IH] using lt_wf_ind.
  intros prev cd log Hfuel Hj Hle Hover. cbv zeta.
  destruct (decide (p_len (_pipeline cd) = Nat.min MAXP MAXC)) as [Hat|Hbelow].
  - rewrite ParsePipeline_loop_stop by lia. cbn [fst snd]. lia.
  - pose proof (split_pipes_find prev) as Hsplit. cbv zeta in Hsplit.
    pose proof (find_next_toke_with_type_le TOKEN_PIPE prev) as Hfind.
    destruct (Nat.ltb_spec (find_next_toke_with_type TOKEN_PIPE prev) (length prev))
      as [Hfound|Hnone]; [|rewrite Hsplit in Hover; simpl in Hover; lia].
    set (n := find_next_toke_with_type TOKEN_PIPE prev) in *.
    rewrite Hsplit in Hover. cbn [length] in Hover.
    destruct fuel as [|fuel]; [lia|].
    assert (prev <> []) as Hne by (intros ->; simpl in Hfound; lia).
    rewrite ParsePipeline_loop_step by (done || lia). cbv zeta. fold n.
    match goal with
    | |- context [ParsePipeline_loop _ _ _ fuel ?p ?c ?l] =>
        pose proof (IH fuel ltac:(lia) p c l) as IH1; set (cd1 := c) in *
    end.
    assert (p_len (_pipeline cd1) = S (p_len (_pipeline cd))) as Hlen1.
    { subst cd1. cbn [_pipeline push_command p_len].
      destruct (p_len (_pipeline cd) =? 0)%nat eqn:E; [|done].
      apply Nat.eqb_eq in E. simpl. lia. }
    assert (n_simples cd1 = S (n_simples cd)) as Hn1 by done.
    cbv zeta in IH1. rewrite Hlen1, Hn1 in IH1.
    apply IH1; [rewrite length_drop; lia|lia|lia|lia].
Qed.

End Limits.

Lemma has_flag_lor_bit (fl : Z) (k : Z) : (0 <= k)%Z -> has_flag (Z.lor fl (2 ^ k)) (2 ^ k).
Proof.
  intros Hk. apply has_flag_bit; [done|]. rewrite Z.lor_spec, Z.pow2_bits_eqb by done.
  rewrite Z.eqb_refl. apply orb_true_r.
Qed.

(** X10: a line with more ranges between its pipes than
    [TSH_MAX_PIPELINE_LENGTH] or [TSH_MAX_CMD_LIST_LENGTH] allows is an
    error, and which one depends on the smaller limit.  When that is
    [TSH_MAX_CMD_LIST_LENGTH], the parser stops after that many simple
    commands, sets [CMD_TOO_MANY_COMMANDS] in the flags of the pipeline
    and of the command and prints [Too many commands]; otherwise it
    parses what is left of the line as one more simple command and
    reports a pipeline that is too long. *)
Theorem ParsePipeline_over_the_limits
  (MAXA MAXP MAXC : nat) (toks : list Token) (cd : CommandData) :
  n_simples cd = 0 -> p_len (_pipeline cd) = 0 ->
  Nat.min MAXP MAXC < length (split_pipes toks) ->
  let r := ParsePipeline MAXA MAXP MAXC toks cd in
  if (MAXC <=? MAXP)%nat then
    last r.2 = Some (ErrorU "Too many commands") /\
    n_simples r.1 = MAXC /\ p_len (_pipeline r.1) = MAXC /\
    has_flag (p_flag (_pipeline r.1)) CMD_TOO_MANY_COMMANDS /\
    has_flag (c_flag (cmd r.1)) CMD_TOO_MANY_COMMANDS
  else
    last r.2 = Some (ErrorU "Pipeline too long") /\
    n_simples r.1 = S MAXP /\ p_len (_pipeline r.1) = MAXP.
Proof.
  intros Hn Hp Hover. cbv zeta. unfold ParsePipeline.
  pose proof (ParsePipeline_loop_limit MAXA MAXP MAXC (length toks) toks cd []
                ltac:(lia) ltac:(lia) ltac:(lia) ltac:(lia)) as H.
  cbv zeta in H.
  destruct (ParsePipeline_loop MAXA MAXP MAXC (length toks) toks cd []) as [[prev cd1] log].
  cbn [fst snd] in H. destruct H as [H1 H2].
  destruct (Nat.leb_spec MAXC MAXP) as [Hle|Hlt].
  - rewrite Nat.min_r in H1, H2 by done.
    destruct (Nat.leb_spec MAXC (n_simples cd1)) as [_|]; [|lia].
    cbn [fst snd with_cmd with_pipeline or_p_flag or_c_flag n_simples _pipeline p_len
           p_flag cmd c_flag].
    split; [apply last_snoc|]. split; [done|]. split; [done|].
    change CMD_TOO_MANY_COMMANDS with (2 ^ 4)%Z.
    split; [by apply has_flag_lor_bit|].
    apply has_flag_bit; [done|]. rewrite !Z.lor_spec.
    change (Z.testbit (2 ^ 4) 4) with true. by rewrite !orb_true_r.
  - rewrite Nat.min_l in H1, H2 by lia.
    destruct (Nat.leb_spec MAXC (n_simples cd1)) as [|_]; [lia|].
    rewrite parse_next_simple_eq. cbv zeta. cbn [_pipeline cmd].
    destruct (p_len (_pipeline cd1) =? 0)%nat;
      cbn [with_cmd _pipeline n_simples _simples cmd];
      (destruct (Nat.leb_spec MAXP (p_len (_pipeline cd1))) as [_|]; [|lia]);
      cbn [fst snd with_cmd with_pipeline or_p_flag or_c_flag n_simples _pipeline p_len];
      (split; [apply last_snoc|]); (split; [by rewrite H1|done]).
Qed.

(** X10, an instance: [a | b | c] with room for two stages *)
Lemma ParsePipeline_over_the_limits_witness :
  let w k := {| tok_type := TOKEN_WORD; tok_value := Some k |} in
  let bar k := {| tok_type := TOKEN_PIPE; tok_value := Some k |} in
  let r := ParsePipeline 4 2 4 [w 0; bar 2; w 4; bar 6; w 8] (_cmd_data (this_shell 16 4 2 4)) in
  last r.2 = Some (ErrorU "Pipeline too long") /\ n_simples r.1 = 3.
Proof.
  cbv zeta.
  pose proof (ParsePipeline_over_the_limits 4 2 4
                [ {| tok_type := TOKEN_WORD; tok_value := Some 0 |};
                  {| tok_type := TOKEN_PIPE; tok_value := Some 2 |};
                  {| tok_type := TOKEN_WORD; tok_value := Some 4 |};
                  {| tok_type := TOKEN_PIPE; tok_value := Some 6 |};
                  {| tok_type := TOKEN_WORD; tok_value := Some 8 |} ]
                (_cmd_data (this_shell 16 4 2 4)) eq_refl eq_refl ltac:(simpl; lia)) as H.
  cbv zeta in H. change (4 <=? 2)%nat with false in H. cbv iota in H.
  destruct H as (Hlog & Hn & _). split; [exact Hlog|exact Hn].
Defined.

(** ** The line buffer, line by line *)

(** X11: [ReadLine] on a line shorter than the buffer, ended by a newline,
    by the byte [0xff] where [char] is signed, or by the end of the input:
    it returns the number of the bytes before the end, which it stores at
    the start of the buffer with a zero byte after them; the bytes of the
    buffer after that are left as they were; the byte that ends the line
    is taken from the input and the bytes after it are left there. *)
Theorem ReadLine_reads_line
  (N : nat) (char_is_signed : bool) (line : BufferedLine) (pre rest : list ascii) :
  length (buffer line) = N ->
  Forall (in_line char_is_signed) pre -> length pre < N ->
  match rest with [] => True | c :: _ => ~ in_line char_is_signed c end ->
  let r := ReadLine N char_is_signed line (pre ++ rest) in
  rl_ret r = length pre /\ len (rl_line r) = length pre /\
  buffer (rl_line r) = pre ++ NUL :: drop (S (length pre)) (buffer line) /\
  rl_input r = drop 1 rest.
Proof.
  intros Hbuf Hpre Hlen Hrest. unfold ReadLine.
  rewrite ReadLine_loop_app by (done || lia).
  destruct (N - length pre) as [|m] eqn:Em; [lia|].
  assert (N - S m = length pre) as Hn by lia.
  assert (<[length pre:=NUL]> (take 0 (buffer line) ++ pre ++ drop (0 + length pre) (buffer line))
          = pre ++ NUL :: drop (S (length pre)) (buffer line)) as Hins.
  { rewrite take_0. cbn [app Nat.add].
    rewrite insert_app_r_alt by lia. rewrite Nat.sub_diag.
    destruct (lookup_lt_is_Some_2 (buffer line) (length pre) ltac:(lia)) as [c Hc].
    rewrite (drop_S _ _ _ Hc). done. }
  destruct rest as [|c rest]; cbn [ReadLine_loop].
  - cbv zeta. cbn [rl_ret rl_line len buffer rl_input]. rewrite Hn, Hins. done.
  - unfold in_line in Hrest.
    destruct (Ascii.eqb c newline || is_EOF char_is_signed c); [|done].
    cbv zeta. cbn [rl_ret rl_line len buffer rl_input]. rewrite Hn, Hins. done.
Qed.

(** X11, an instance: the line [ls] and the start of the next one *)
Lemma ReadLine_reads_line_witness :
  let r := ReadLine 8 false (ClearLine 8 {| len := 0; buffer := [] |})
             (["l"; "s"; newline; "p"]%char) in
  rl_ret r = 2 /\ rl_input r = ["p"%char].
Proof.
  cbv zeta.
  destruct (ReadLine_reads_line 8 false (ClearLine 8 {| len := 0; buffer := [] |})
              ["l"; "s"]%char [newline; "p"%char] eq_refl) as (H1 & _ & _ & H2).
  - repeat constructor.
  - simpl. lia.
  - intros H. discriminate H.
  - split; [exact H1|exact H2].
Defined.

(** X12: [ReadLine] on a line that is not shorter than the buffer: it
    takes from the input as many bytes as the buffer has, fills the buffer
    with them and returns their number; the rest of the line stays in the
    input, where the next call finds it as a line of its own. *)
Theorem ReadLine_splits_long_line
  (N : nat) (char_is_signed : bool) (line : BufferedLine) (pre rest : list ascii) :
  length (buffer line) = N ->
  Forall (in_line char_is_signed) pre -> N <= length pre ->
  let r := ReadLine N char_is_signed line (pre ++ rest) in
  rl_ret r = N /\ len (rl_line r) = N /\
  buffer (rl_line r) = take N pre /\
  rl_input r = drop N pre ++ rest.
Proof.
  intros Hbuf Hpre Hlen. unfold ReadLine.
  replace (pre ++ rest) with (take N pre ++ (drop N pre ++ rest))
    by (by rewrite app_assoc, take_drop).
  assert (length (take N pre) = N) as Ht by (rewrite length_take; lia).
  rewrite ReadLine_loop_app; [|by apply Forall_take|lia|lia].
  rewrite Ht, Nat.sub_diag. cbn [ReadLine_loop]. cbv zeta.
  cbn [rl_ret rl_line len buffer rl_input]. rewrite Nat.sub_0_r.
  rewrite take_0, (drop_ge (buffer line)) by lia. cbn [app]. rewrite app_nil_r.
  rewrite list_insert_ge by lia. done.
Qed.

(** X12, an instance: five bytes and a buffer of four *)
Lemma ReadLine_splits_long_line_witness :
  let r := ReadLine 4 false (ClearLine 4 {| len := 0; buffer := [] |})
             (["a"; "b"; "c"; "d"; "e"; newline]%char) in
  rl_ret r = 4 /\ rl_input r = ["e"%char; newline].
Proof.
  cbv zeta.
  destruct (ReadLine_splits_long_line 4 false (ClearLine 4 {| len := 0; buffer := [] |})
              ["a"; "b"; "c"; "d"; "e"]%char [newline] eq_refl) as (H1 & _ & _ & H2).
  - repeat constructor.
  - simpl. lia.
  - split; [exact H1|exact H2].
Defined.

(** ** The lexer, token by token *)

Lemma cstr_eq (b : list ascii) (w : list ascii) (q : nat) :
  (forall i, i < length w -> rd b (q + i) = nth i w NUL /\ nth i w NUL <> NUL) ->
  rd b (q + length w) = NUL ->
  cstr b q = w.
Proof.
  unfold cstr. revert q. induction w as [|c w IH]; intros q Hw Hend.
  - simpl in Hend. rewrite Nat.add_0_r in Hend.
    destruct (Nat.lt_ge_cases q (length b)) as [Hq|Hq].
    + rewrite drop_rd by done. rewrite Hend. done.
    + by rewrite drop_ge.
  - destruct (Hw 0 ltac:(simpl; lia)) as [H0 Hc]. rewrite Nat.add_0_r in H0. simpl in H0, Hc.
    assert (q < length b) as Hq.
    { destruct (Nat.lt_ge_cases q (length b)); [done|].
      rewrite rd_ge in H0 by done. congruence. }
    rewrite drop_rd by done. rewrite H0. cbn [strlen].
    destruct (Ascii.eqb_spec c NUL) as [|_]; [done|].
    cbn [take]. f_equal. apply IH.
    + intros i Hi. specialize (Hw (S i) ltac:(simpl; lia)).
      replace (S q + i) with (q + S i) by lia. done.
    + replace (S q + length w) with (q + length (c :: w)) by (simpl; lia). done.
Qed.

Lemma word_at_run (s : list ascii) (d q : nat) :
  q + d <= length s ->
  (forall k, q <= k -> k < q + d -> word_char (rd s k) = true) ->
  (q + d < length s -> word_char (rd s (q + d)) = false) ->
  word_at (drop q s) = take d (drop q s).
Proof.
  revert q. induction d as [|d IH]; intros q Hq Hw Hend.
  - rewrite Nat.add_0_r in *. destruct (Nat.lt_ge_cases q (length s)) as [Hlt|Hge].
    + rewrite drop_rd by done. cbn [word_at]. by rewrite Hend.
    + by rewrite drop_ge.
  - rewrite drop_rd by lia. cbn [word_at take]. rewrite Hw by lia. f_equal.
    apply IH; [lia|intros; apply Hw; lia|].
    replace (S q + d) with (q + S d) by lia. done.
Qed.

Lemma symbol_type_cases (c : ascii) :
  is_sym c = true ->
  (c = "<"%char /\ symbol_type c = TOKEN_REDIRECT_INPUT) \/
  (c = ">"%char /\ symbol_type c = TOKEN_REDIRECT_OUTPUT) \/
  (c = "|"%char /\ symbol_type c = TOKEN_PIPE) \/
  (c = "&"%char /\ symbol_type c = TOKEN_BACKGROUND) \/
  (c = ";"%char /\ symbol_type c = TOKEN_LIST).
Proof.
  unfold is_sym, symbols. cbn [existsb]. intros H.
  destruct (Ascii.eqb_spec c "<") as [E|_]; [subst; by left|].
  destruct (Ascii.eqb_spec c "|") as [E|_]; [subst; by right; right; left|].
  destruct (Ascii.eqb_spec c ">") as [E|_]; [subst; by right; left|].
  destruct (Ascii.eqb_spec c "&") as [E|_]; [subst; by right; right; right; left|].
  destruct (Ascii.eqb_spec c ";") as [E|_]; [subst; by right; right; right; right|].
  done.
Qed.

Section Tokens.

Variable sizeof_tokens : nat.
Variable strchr_finds_nul : bool.
Variable s : list ascii.
Hypothesis s_no_nul : Forall (fun c => c <> NUL) s.

Local Abbreviation strchr := (strchr strchr_finds_nul).
Local Abbreviation Tokenize_loop := (Tokenize_loop sizeof_tokens strchr_finds_nul).
Local Abbreviation tail := (length s).

Local Abbreviation from p t := (exists q, tok_value t = Some q /\ p <= q).
Local Abbreviation Inv p buf toks r :=
  (length (fst r) = length buf /\
   (forall k, k < p \/ tail < k -> rd (fst r) k = rd buf k) /\
   (forall k, rd (fst r) k = rd buf k \/ rd (fst r) k = NUL) /\
   exists new, snd r = toks ++ new /\
     Forall (fun t => token_of_line s (fst r) t /\ from p t) new /\
     length new <= tail - p /\
     length (snd r) <= Nat.max (length toks) (S sizeof_tokens)).

Lemma Tokenize_loop_combine (r : list ascii * list Token) p p' buf buf' toks add :
  p <= p' -> length add + (tail - p') <= tail - p ->
  length toks < sizeof_tokens -> length add <= 2 ->
  length buf' = length buf ->
  (forall k, k < p \/ tail < k -> rd buf' k = rd buf k) ->
  (forall k, rd buf' k = rd buf k \/ rd buf' k = NUL) ->
  (forall b, (forall k, k < p' -> rd b k = rd buf' k) ->
             (forall k, rd b k = rd buf' k \/ rd b k = NUL) ->
             Forall (fun t => token_of_line s b t /\ from p t) add) ->
  Inv p' buf' (toks ++ add) r -> Inv p buf toks r.
Proof.
  intros Hp Hcount Hcap Hadd Hlen Hframe Hnul Htok (I1 & I2 & I3 & new & I4 & I5 & I6 & I7).
  split; [congruence|]. split; [|split].
  - intros k Hk. rewrite I2 by lia. apply Hframe. lia.
  - intros k. destruct (I3 k) as [E|E]; [|by right]. rewrite E. apply Hnul.
  - exists (add ++ new). split; [by rewrite I4, app_assoc|]. split; [|split].
    + apply Forall_app. split.
      * apply Htok; [|done]. intros k Hk. apply I2. lia.
      * eapply Forall_impl; [exact I5|]. intros t [Ht (q & Hq & Hle)].
        split; [done|]. exists q. split; [done|lia].
    + rewrite length_app. lia.
    + rewrite length_app in I7. lia.
Qed.

Lemma symbol_token_ok p b :
  p < tail -> is_sym (rd s p) = true ->
  token_of_line s b
    (if Ascii.eqb (rd s p) ">" && Ascii.eqb (rd s (S p)) ">"
     then mk_token TOKEN_REDIRECT_OUTPUT_APPEND p
     else mk_token (symbol_type (rd s p)) p).
Proof.
  intros Hp Hs. exists p.
  destruct (Ascii.eqb_spec (rd s p) ">") as [E|E]; cbn [andb].
  - destruct (Ascii.eqb_spec (rd s (S p)) ">") as [E'|E'].
    + split; [done|]. split; [done|]. done.
    + split; [done|]. split; [done|]. cbn [mk_token tok_type]. rewrite E. done.
  - split; [done|]. split; [done|]. cbn [mk_token tok_type].
    destruct (symbol_type_cases _ Hs) as [[? ->]|[[? ->]|[[? ->]|[[? ->]|[? ->]]]]]; done.
Qed.

Lemma word_token_ok p1 p2 b :
  p1 < p2 -> p2 <= tail ->
  (forall k, p1 <= k -> k < p2 -> word_char (rd s k) = true) ->
  (p2 < tail -> word_char (rd s p2) = false) ->
  (forall k, p1 <= k -> k < p2 -> rd b k = rd s k) ->
  rd b p2 = NUL ->
  token_of_line s b (mk_token TOKEN_WORD p1).
Proof.
  intros Hlt Hle Hw Hend Hb Hnul. exists p1. split; [done|]. split; [lia|].
  cbn [mk_token tok_type]. split; [apply Hw; lia|].
  rewrite (word_at_run s (p2 - p1) p1);
    [|lia|intros; apply Hw; lia|replace (p1 + (p2 - p1)) with p2 by lia; done].
  apply cstr_eq.
  - intros i Hi. rewrite length_take, length_drop in Hi.
    assert (nth i (take (p2 - p1) (drop p1 s)) NUL = rd s (p1 + i)) as ->.
    { unfold rd. rewrite !nth_lookup, lookup_take_lt, lookup_drop by lia. done. }
    split; [apply Hb; lia|]. apply (line_rd_not_nul s s_no_nul). lia.
  - rewrite length_take, length_drop.
    replace (p1 + (p2 - p1) `min` (tail - p1)) with p2 by lia. done.
Qed.

(** The loop of [Tokenize] from [p] on: the tokens that it adds are tokens
    of the line, each takes at least one character of it, and the buffer
    is changed only by zero bytes, stored at [p] or after it and not after
    [tail]. *)
Lemma Tokenize_loop_tokens fuel p buf toks :
  (forall k, p <= k -> k <= tail -> rd buf k = rd s k) ->
  Inv p buf toks (Tokenize_loop fuel tail p buf toks).
Proof.
  revert p buf toks. induction fuel as [|fuel IH]; intros p buf toks Hbuf.
  { cbn. repeat split; auto. exists []. rewrite app_nil_r. repeat split; auto; simpl; lia. }
  assert (Inv p buf toks (buf, toks)) as Hstop.
  { cbn. repeat split; auto. exists []. rewrite app_nil_r. repeat split; auto; simpl; lia. }
  rewrite Tokenize_loop_S.
  destruct (Nat.ltb_spec p tail) as [Hp|Hp]; [|exact Hstop].
  destruct (Nat.ltb_spec (length toks) sizeof_tokens) as [Hcap|Hcap]; [|exact Hstop].
  cbn [andb]. cbv zeta.
  destruct (scan_spec (strchr whitespace) buf p (tail - p)) as (Hp1 & Hp1' & Hws & Hstop1).
  set (p1 := scan (strchr whitespace) buf p (tail - p)) in *.
  destruct (Nat.eqb_spec p1 tail) as [Hend|Hne]; [exact Hstop|].
  assert (p1 < tail) as Hp1t by lia.
  assert (is_ws (rd s p1) = false) as Hnws.
  { unfold is_ws. rewrite <- (strchr_line strchr_finds_nul s s_no_nul) by lia.
    rewrite <- Hbuf by lia. apply Hstop1. lia. }
  rewrite (Hbuf p1) by lia.
  rewrite (strchr_line strchr_finds_nul s s_no_nul symbols p1) by done.
  fold (is_sym (rd s p1)).
  (* the step at a symbol, at [p0] in the buffer [buf0] *)
  assert (forall p0 buf0 toks0,
             p0 < tail -> is_sym (rd s p0) = true ->
             (forall k, p0 < k -> k <= tail -> rd buf0 k = rd s k) ->
             Inv (S p0) buf0
               (toks0 ++ [if Ascii.eqb (rd s p0) ">" && Ascii.eqb (rd s (S p0)) ">"
                          then mk_token TOKEN_REDIRECT_OUTPUT_APPEND p0
                          else mk_token (symbol_type (rd s p0)) p0])
               (if Ascii.eqb (rd s p0) ">" && Ascii.eqb (rd buf0 (S p0)) ">" then
                  Tokenize_loop fuel tail (p0 + 2) buf0
                    (toks0 ++ [mk_token TOKEN_REDIRECT_OUTPUT_APPEND p0])
                else
                  Tokenize_loop fuel tail (S p0) buf0
                    (toks0 ++ [mk_token (symbol_type (rd s p0)) p0]))) as Hsymstep.
  { intros p0 buf0 toks0 Hp0 Hs0 Hbuf0.
    rewrite (Hbuf0 (S p0)) by lia.
    destruct (Ascii.eqb (rd s p0) ">" && Ascii.eqb (rd s (S p0)) ">") eqn:E.
    - apply andb_true_iff in E as [_ E2%Ascii.eqb_eq].
      assert (S p0 < tail) as Hlt.
      { destruct (Nat.lt_ge_cases (S p0) tail); [done|].
        rewrite (rd_ge s (S p0)) in E2 by lia. done. }
      destruct (IH (p0 + 2) buf0 (toks0 ++ [mk_token TOKEN_REDIRECT_OUTPUT_APPEND p0]))
        as (I1 & I2 & I3 & new & I4 & I5 & I6 & I7).
      { intros k Hk1 Hk2. apply Hbuf0; lia. }
      split; [done|]. split; [intros k Hk; apply I2; lia|]. split; [done|].
      exists new. split; [done|]. split; [|split; [lia|done]].
      eapply Forall_impl; [exact I5|]. intros t [Ht (q & Hq & Hle)].
      split; [done|]. exists q. split; [done|lia].
    - apply IH. intros k Hk1 Hk2. apply Hbuf0; lia. }
  destruct (is_sym (rd s p1)) eqn:Hsym; cbn [negb].
  - (* a symbol *)
    rewrite (strchr_line strchr_finds_nul s s_no_nul whitespace p1) by done.
    fold (is_ws (rd s p1)). rewrite Hnws.
    rewrite (strchr_line strchr_finds_nul s s_no_nul symbols p1) by done.
    fold (is_sym (rd s p1)). rewrite Hsym.
    eapply (Tokenize_loop_combine _ p (S p1) buf buf toks
              [if Ascii.eqb (rd s p1) ">" && Ascii.eqb (rd s (S p1)) ">"
               then mk_token TOKEN_REDIRECT_OUTPUT_APPEND p1
               else mk_token (symbol_type (rd s p1)) p1]);
      [lia|simpl; lia|done|simpl; lia|done|done|by left| |].
    + intros b _ _. constructor; [|constructor]. split; [by apply symbol_token_ok|].
      exists p1. split; [by destruct (_ && _)|lia].
    + apply (Hsymstep p1 buf toks); auto. intros; apply Hbuf; lia.
  - (* a word *)
    set (wordc := fun c => negb (strchr whitespace c) && negb (strchr symbols c)).
    destruct (scan_spec wordc buf p1 (tail - p1)) as (Hp2 & Hp2' & Hword & Hstop2).
    set (p2 := scan wordc buf p1 (tail - p1)) in *.
    assert (forall k, k < tail -> wordc (rd s k) = word_char (rd s k)) as Hwordc.
    { intros k Hk. unfold wordc, word_char.
      by rewrite !(strchr_line strchr_finds_nul s s_no_nul). }
    assert (p1 < p2) as Hlt.
    { destruct (decide (p1 = p2)) as [E|]; [|lia]. exfalso.
      rewrite <- E in Hstop2. rewrite Hbuf, Hwordc in Hstop2 by lia.
      unfold word_char in Hstop2. rewrite Hnws, Hsym in Hstop2.
      specialize (Hstop2 ltac:(lia)). done. }
    assert (forall k, p1 <= k -> k < p2 -> word_char (rd s k) = true) as Hw.
    { intros k Hk1 Hk2. rewrite <- Hwordc, <- Hbuf by lia. apply Hword; lia. }
    assert (p2 < tail -> word_char (rd s p2) = false) as Hwend.
    { intros Hk. rewrite <- Hwordc, <- Hbuf by lia. apply Hstop2. lia. }
    assert (forall k, p2 < k -> k <= tail -> rd (<[p2:=NUL]> buf) k = rd s k) as Hbuf2.
    { intros k Hk1 Hk2. rewrite rd_insert_ne by lia. apply Hbuf; lia. }
    assert (forall k, rd (<[p2:=NUL]> buf) k = rd buf k \/ rd (<[p2:=NUL]> buf) k = NUL)
      as Hnul2.
    { intros k. destruct (decide (k = p2)) as [->|Hk].
      - right. apply rd_insert_NUL.
      - left. apply rd_insert_ne. lia. }
    assert (forall k, k < p \/ tail < k -> rd (<[p2:=NUL]> buf) k = rd buf k) as Hframe2.
    { intros k Hk. apply rd_insert_ne. lia. }
    assert (forall b, (forall k, k < p2 -> rd b k = rd (<[p2:=NUL]> buf) k) ->
                      rd b p2 = NUL ->
                      token_of_line s b (mk_token TOKEN_WORD p1) /\
                      from p (mk_token TOKEN_WORD p1)) as Hwordtok.
    { intros b Hb Hb2. split; [|exists p1; split; [done|lia]].
      apply (word_token_ok p1 p2); auto; [lia|].
      intros k Hk1 Hk2. rewrite Hb by lia. rewrite rd_insert_ne by lia. apply Hbuf; lia. }
    rewrite (Hbuf p2) by lia.
    destruct (Nat.lt_ge_cases p2 tail) as [Hp2t|Hp2t].
    + (* the word ends before the end of the line *)
      specialize (Hwend Hp2t).
      rewrite (strchr_line strchr_finds_nul s s_no_nul whitespace p2) by done.
      fold (is_ws (rd s p2)).
      rewrite (strchr_line strchr_finds_nul s s_no_nul symbols p2) by done.
      fold (is_sym (rd s p2)).
      destruct (is_ws (rd s p2)) eqn:Hw2.
      * eapply (Tokenize_loop_combine _ p (S p2) buf (<[p2:=NUL]> buf) toks
                  [mk_token TOKEN_WORD p1]);
          [lia|simpl; lia|done|simpl; lia|by rewrite length_insert|done|done| |].
        -- intros b Hb1 Hb2. constructor; [|constructor]. apply Hwordtok.
           ++ intros k Hk. apply Hb1. lia.
           ++ rewrite Hb1 by lia. apply rd_insert_NUL.
        -- apply IH. intros k Hk1 Hk2. apply Hbuf2; lia.
      * destruct (is_sym (rd s p2)) eqn:Hs2;
          [|unfold word_char in Hwend; rewrite Hw2, Hs2 in Hwend; done].
        eapply (Tokenize_loop_combine _ p (S p2) buf (<[p2:=NUL]> buf) toks
                  ([mk_token TOKEN_WORD p1] ++
                   [if Ascii.eqb (rd s p2) ">" && Ascii.eqb (rd s (S p2)) ">"
                    then mk_token TOKEN_REDIRECT_OUTPUT_APPEND p2
                    else mk_token (symbol_type (rd s p2)) p2]));
          [lia|simpl; lia|done|simpl; lia|by rewrite length_insert|done|done| |].
        -- intros b Hb1 Hb2. constructor; [|constructor; [|constructor]].
           ++ apply Hwordtok.
              ** intros k Hk. apply Hb1. lia.
              ** rewrite Hb1 by lia. apply rd_insert_NUL.
           ++ split; [by apply symbol_token_ok|].
              exists p2. split; [by destruct (_ && _)|lia].
        -- rewrite app_assoc.
           apply (Hsymstep p2 (<[p2:=NUL]> buf) (toks ++ [mk_token TOKEN_WORD p1])); auto.
    + (* the word ends the line *)
      assert (p2 = tail) as Hp2e by lia.
      rewrite (rd_ge s p2) by lia. rewrite !(strchr_nul strchr_finds_nul).
      destruct strchr_finds_nul.
      * eapply (Tokenize_loop_combine _ p (S p2) buf (<[p2:=NUL]> buf) toks
                  [mk_token TOKEN_WORD p1]);
          [lia|simpl; lia|done|simpl; lia|by rewrite length_insert|done|done| |].
        -- intros b Hb1 Hb2. constructor; [|constructor]. apply Hwordtok.
           ++ intros k Hk. apply Hb1. lia.
           ++ rewrite Hb1 by lia. apply rd_insert_NUL.
        -- apply IH. intros k Hk1 Hk2. lia.
      * eapply (Tokenize_loop_combine _ p p2 buf (<[p2:=NUL]> buf) toks
                  [mk_token TOKEN_WORD p1]);
          [lia|simpl; lia|done|simpl; lia|by rewrite length_insert|done|done| |].
        -- intros b Hb1 Hb2. constructor; [|constructor]. apply Hwordtok; [done|].
           destruct (Hb2 p2) as [E|E]; [|done]. rewrite E. apply rd_insert_NUL.
        -- apply IH. intros k Hk1 Hk2. assert (k = p2) as -> by lia.
           rewrite rd_insert_NUL. symmetry. apply rd_ge. lia.
Qed.

End Tokens.

Lemma strlen_le_nul (b : list ascii) (k : nat) : rd b k = NUL -> strlen b <= k.
Proof.
  revert k. induction b as [|c b IH]; intros k Hk; [simpl; lia|].
  cbn [strlen]. destruct (Ascii.eqb_spec c NUL) as [|Hc]; [lia|].
  destruct k as [|k]; [done|]. specialize (IH k Hk). lia.
Qed.

(** The loop of [Tokenize] on the buffer of a line. *)
Lemma Tokenize_loop_buffer (sizeof_tokens : nat) (strchr_finds_nul : bool) (buf : list ascii) :
  let s := take (strlen buf) buf in
  let r := Tokenize_loop sizeof_tokens strchr_finds_nul (strlen buf) (strlen buf) 0 buf [] in
  length r.1 = length buf /\
  (forall k, strlen buf < k -> rd r.1 k = rd buf k) /\
  (forall k, rd r.1 k = rd buf k \/ rd r.1 k = NUL) /\
  Forall (token_of_line s r.1) r.2 /\
  length r.2 <= strlen buf /\ length r.2 <= S sizeof_tokens.
Proof.
  cbv zeta. set (s := take (strlen buf) buf).
  assert (length s = strlen buf) as Hlen.
  { unfold s. rewrite length_take. pose proof (strlen_le buf). lia. }
  rewrite <- Hlen.
  destruct (Tokenize_loop_tokens sizeof_tokens strchr_finds_nul s (strlen_take _)
              (length s) 0 buf []) as (I1 & I2 & I3 & new & I4 & I5 & I6 & I7).
  { intros k _ Hk. destruct (decide (k = length s)) as [->|Hne].
    - rewrite (rd_ge s) by lia. rewrite Hlen. apply strlen_rd.
    - unfold s, rd. rewrite !nth_lookup, lookup_take_lt by lia. done. }
  cbn [app] in I4. rewrite I4 in *.
  split; [done|]. split; [intros k Hk; apply I2; lia|]. split; [done|].
  split; [|split; [lia|simpl in I7; lia]].
  eapply Forall_impl; [exact I5|]. by intros t [Ht _].
Qed.

(** The first zero byte of a list that has one. *)
Lemma strlen_lookup_nul (l : list ascii) (k : nat) :
  l !! k = Some NUL -> l !! strlen l = Some NUL.
Proof.
  revert k. induction l as [|c l IH]; intros k Hk; [done|].
  cbn [strlen]. destruct (Ascii.eqb_spec c NUL) as [->|Hc]; [done|].
  destruct k as [|k]; [by injection Hk|]. exact (IH k Hk).
Qed.

(** The string at [k] is ended by a zero byte of the buffer when one
    follows [k]. *)
Lemma cstr_terminated (buf : list ascii) (k e : nat) :
  k <= e -> buf !! e = Some NUL -> buf !! (k + length (cstr buf k)) = Some NUL.
Proof.
  intros Hk He. unfold cstr. rewrite length_take.
  pose proof (strlen_le (drop k buf)).
  rewrite Nat.min_l by done. rewrite <- lookup_drop.
  apply (strlen_lookup_nul _ (e - k)). rewrite lookup_drop.
  by replace (k + (e - k)) with e by lia.
Qed.

(** X13: on a line whose zero byte lies inside the buffer, every token that
    [Tokenize] stores is a token of the line (the bytes of the buffer
    before the first zero byte): its value points to a character of the
    line -- for a word to its first character, and the buffer then holds
    the word as a string, ended by a zero byte of the buffer; for another
    token to the symbol of its type.  No token has the type
    [TOKEN_INVALID], [TOKEN_GROUP_START] or [TOKEN_GROUP_END].  There are
    no more tokens than the line has characters, and at most one more than
    [sizeof(tl->tokens)].  The buffer still has its zero byte inside. *)
Theorem Tokenize_tokens_of_line
  (sizeof_tokens : nat) (strchr_finds_nul : bool) (line : BufferedLine) :
  terminated (buffer line) ->
  let s := take (strlen (buffer line)) (buffer line) in
  let r := Tokenize sizeof_tokens strchr_finds_nul line in
  Forall (token_of_line s (buffer r.1)) (tl_tokens r.2) /\
  Forall (word_terminated (buffer r.1)) (tl_tokens r.2) /\
  terminated (buffer r.1) /\
  tl_len r.2 = length (tl_tokens r.2) /\
  tl_len r.2 <= length s /\ tl_len r.2 <= S sizeof_tokens.
Proof.
  intros Hterm. cbv zeta. unfold Tokenize.
  pose proof (Tokenize_loop_buffer sizeof_tokens strchr_finds_nul (buffer line)) as H.
  cbv zeta in H.
  destruct (Tokenize_loop sizeof_tokens strchr_finds_nul _ _ 0 (buffer line) []) as [buf toks].
  cbn [fst snd buffer tl_len tl_tokens] in *.
  destruct H as (Hlen & _ & Hnul & Htok & Hn & Hcap).
  unfold terminated in *.
  assert (length (take (strlen (buffer line)) (buffer line)) = strlen (buffer line)) as Hs.
  { rewrite length_take. lia. }
  assert (buf !! strlen (buffer line) = Some NUL) as Hend.
  { destruct (lookup_lt_is_Some_2 buf (strlen (buffer line)) ltac:(lia)) as [c Hc].
    rewrite Hc. f_equal. rewrite <- (rd_lookup _ _ _ Hc).
    destruct (Hnul (strlen (buffer line))) as [E|E]; [|done].
    rewrite E. apply strlen_rd. }
  split; [done|]. split; [|split; [|split; [done|split; [lia|done]]]].
  - eapply Forall_impl; [exact Htok|]. intros t (q & Hq & Hlt & _) q' _ Hq'.
    rewrite Hq in Hq'. injection Hq' as <-.
    apply (cstr_terminated buf q (strlen (buffer line))); [lia|done].
  - pose proof (strlen_le_nul buf (strlen (buffer line))) as Hle.
    rewrite (rd_lookup _ _ _ Hend) in Hle. specialize (Hle eq_refl). lia.
Qed.

(** X13, an instance: the line [ls -l] in a buffer of eight bytes *)
Lemma Tokenize_tokens_of_line_witness :
  let line := {| len := 5; buffer := list_ascii_of_string "ls -l" ++ replicate 3 NUL |} in
  let r := Tokenize 1024 false line in
  terminated (buffer line) /\
  Forall (token_of_line (list_ascii_of_string "ls -l") (buffer r.1)) (tl_tokens r.2) /\
  Forall (word_terminated (buffer r.1)) (tl_tokens r.2) /\
  terminated (buffer r.1).
Proof.
  cbv zeta.
  assert (terminated (list_ascii_of_string "ls -l" ++ replicate 3 NUL)) as Hterm
      by (vm_compute; lia).
  destruct (Tokenize_tokens_of_line 1024 false
              {| len := 5; buffer := list_ascii_of_string "ls -l" ++ replicate 3 NUL |} Hterm)
    as (H1 & H2 & H3 & _).
  split; [exact Hterm|]. split; [exact H1|]. split; [exact H2|exact H3].
Defined.

(** X14: [Tokenize] changes the line in place by zero bytes only: the
    buffer keeps its size, every byte of it is as it was or is zero, no
    byte after the terminator of the line is changed, and [len] is
    kept.  The string in the buffer does not get longer. *)
Theorem Tokenize_writes_zero_bytes
  (sizeof_tokens : nat) (strchr_finds_nul : bool) (line : BufferedLine) :
  let line' := (Tokenize sizeof_tokens strchr_finds_nul line).1 in
  len line' = len line /\
  length (buffer line') = length (buffer line) /\
  (forall k, rd (buffer line') k = rd (buffer line) k \/
             (rd (buffer line') k = NUL /\ k <= strlen (buffer line))) /\
  strlen (buffer line') <= strlen (buffer line).
Proof.
  cbv zeta. unfold Tokenize.
  pose proof (Tokenize_loop_buffer sizeof_tokens strchr_finds_nul (buffer line)) as H.
  cbv zeta in H.
  destruct (Tokenize_loop sizeof_tokens strchr_finds_nul _ _ 0 (buffer line) []) as [buf toks].
  cbn [fst snd buffer len] in *.
  destruct H as (Hlen & Hframe & Hnul & _).
  split; [done|]. split; [done|]. split.
  - intros k. destruct (Nat.lt_ge_cases (strlen (buffer line)) k) as [Hk|Hk].
    + left. by apply Hframe.
    + destruct (Hnul k) as [E|E]; [by left|by right].
  - apply strlen_le_nul. destruct (Hnul (strlen (buffer line))) as [E|E]; [|done].
    rewrite E. apply strlen_rd.
Qed.

(** ** The lexer, with the values of the tokens *)

Section Exact.

Variable sizeof_tokens : nat.
Variable strchr_finds_nul : bool.
Variable s : list ascii.
Hypothesis s_no_nul : Forall (fun c => c <> NUL) s.

Local Abbreviation strchr := (strchr strchr_finds_nul).
Local Abbreviation Tokenize_loop := (Tokenize_loop sizeof_tokens strchr_finds_nul).
Local Abbreviation tail := (length s).
Local Abbreviation lex_at b p := (lex_tokens b p (drop p s)).

Lemma lex_at_end b p : length s <= p -> lex_at b p = [].
Proof. intros. by rewrite drop_ge. Qed.

Lemma lex_at_ws p :
  p < length s -> is_ws (rd s p) = true -> forall b, lex_at b p = lex_at false (S p).
Proof. intros Hp Hw b. rewrite drop_rd by done. cbn [lex_tokens]. by rewrite Hw. Qed.

Lemma lex_at_ws_run d p :
  p + d <= length s ->
  (forall k, p <= k -> k < p + d -> is_ws (rd s k) = true) ->
  lex_at false p = lex_at false (p + d).
Proof.
  revert p. induction d as [|d IH]; intros p Hp Hw.
  - by rewrite Nat.add_0_r.
  - rewrite lex_at_ws by (lia || apply Hw; lia).
    rewrite IH by (lia || intros; apply Hw; lia).
    by replace (S p + d) with (p + S d) by lia.
Qed.

Lemma lex_at_word_char p :
  p < length s -> is_ws (rd s p) = false -> is_sym (rd s p) = false ->
  forall b, lex_at b p = (if b then [] else [mk_token TOKEN_WORD p]) ++ lex_at true (S p).
Proof.
  intros Hp Hw Hs b. rewrite drop_rd by done. cbn [lex_tokens]. rewrite Hw.
  destruct (Ascii.eqb (rd s p) ">") eqn:E.
  - apply is_sym_gt in E. congruence.
  - rewrite Hs. by destruct b.
Qed.

Lemma lex_at_word_run d p :
  p + d <= length s ->
  (forall k, p <= k -> k < p + d -> is_ws (rd s k) = false /\ is_sym (rd s k) = false) ->
  lex_at true p = lex_at true (p + d).
Proof.
  revert p. induction d as [|d IH]; intros p Hp Hw.
  - by rewrite Nat.add_0_r.
  - destruct (Hw p) as [H1 H2]; [lia..|].
    rewrite lex_at_word_char by (lia || done). cbn [app].
    rewrite IH by (lia || intros; apply Hw; lia).
    by replace (S p + d) with (p + S d) by lia.
Qed.

Lemma lex_at_boundary p :
  length s <= p \/ is_ws (rd s p) = true \/ is_sym (rd s p) = true ->
  lex_at true p = lex_at false p.
Proof.
  intros H. destruct (Nat.lt_ge_cases p (length s)) as [Hp|Hp].
  - destruct H as [H|H]; [lia|]. rewrite drop_rd by done. cbn [lex_tokens].
    destruct (is_ws (rd s p)); [done|].
    destruct (Ascii.eqb (rd s p) ">"); [done|].
    destruct H as [H|H]; [done|]. by rewrite H.
  - by rewrite !lex_at_end.
Qed.

Lemma lex_at_symbol p :
  p < length s -> is_ws (rd s p) = false -> is_sym (rd s p) = true ->
  lex_at false p =
  if Ascii.eqb (rd s p) ">" && Ascii.eqb (rd s (S p)) ">"
  then mk_token TOKEN_REDIRECT_OUTPUT_APPEND p :: lex_at false (p + 2)
  else mk_token (symbol_type (rd s p)) p :: lex_at false (S p).
Proof.
  intros Hp Hw Hs. rewrite (drop_rd s p) by done. cbn [lex_tokens].
  rewrite Hw, Hs.
  destruct (Ascii.eqb_spec (rd s p) ">") as [E|E]; cbn [andb]; [|done].
  rewrite E. destruct (Nat.lt_ge_cases (S p) (length s)) as [Hp'|Hp'].
  - rewrite (drop_rd s (S p)) by done.
    destruct (Ascii.eqb (rd s (S p)) ">"); [|done].
    by replace (p + 2) with (S (S p)) by lia.
  - rewrite (drop_ge s (S p)) by done. rewrite (rd_ge s (S p)) by done. done.
Qed.

(** The step at a symbol, given what the loop does from there on. *)
Lemma Tokenize_symbol_exact fuel p buf toks :
  (forall p' buf' toks',
      tail - p' <= fuel -> length toks' <= p' ->
      (forall k, p' <= k -> k <= tail -> rd buf' k = rd s k) ->
      exists rest,
        toks' ++ lex_at false p' = (Tokenize_loop fuel tail p' buf' toks').2 ++ rest /\
        (tail <= sizeof_tokens -> rest = [])) ->
  p < tail -> tail - p <= S fuel -> length toks <= p ->
  (forall k, p < k -> k <= tail -> rd buf k = rd s k) ->
  is_ws (rd s p) = false -> is_sym (rd s p) = true ->
  exists rest,
    toks ++ lex_at false p =
    (if Ascii.eqb (rd s p) ">" && Ascii.eqb (rd buf (S p)) ">" then
       Tokenize_loop fuel tail (p + 2) buf
         (toks ++ [mk_token TOKEN_REDIRECT_OUTPUT_APPEND p])
     else
       Tokenize_loop fuel tail (S p) buf
         (toks ++ [mk_token (symbol_type (rd s p)) p])).2 ++ rest /\
    (tail <= sizeof_tokens -> rest = []).
Proof.
  intros IH Hp Hfuel Htoks Hbuf Hw Hs.
  rewrite lex_at_symbol by done.
  rewrite (Hbuf (S p)) by lia.
  destruct (Ascii.eqb (rd s p) ">" && Ascii.eqb (rd s (S p)) ">") eqn:E.
  - destruct (IH (p + 2) buf (toks ++ [mk_token TOKEN_REDIRECT_OUTPUT_APPEND p]))
      as (rest & Hrest & Hcap).
    + lia.
    + rewrite length_app. simpl. lia.
    + intros k Hk1 Hk2. apply Hbuf; lia.
    + exists rest. split; [|done]. rewrite <- Hrest. by rewrite <- app_assoc.
  - destruct (IH (S p) buf (toks ++ [mk_token (symbol_type (rd s p)) p]))
      as (rest & Hrest & Hcap).
    + lia.
    + rewrite length_app. simpl. lia.
    + intros k Hk1 Hk2. apply Hbuf; lia.
    + exists rest. split; [|done]. rewrite <- Hrest. by rewrite <- app_assoc.
Qed.

(** The loop of [Tokenize] from [p] on stores the tokens of the rest of
    the line, with their values; all of them unless it stops at the bound
    on their number. *)
Lemma Tokenize_loop_exact fuel p buf toks :
  tail - p <= fuel -> length toks <= p ->
  (forall k, p <= k -> k <= tail -> rd buf k = rd s k) ->
  exists rest,
    toks ++ lex_at false p = (Tokenize_loop fuel tail p buf toks).2 ++ rest /\
    (tail <= sizeof_tokens -> rest = []).
Proof.
  revert p buf toks. induction fuel as [|fuel IH]; intros p buf toks Hfuel Htoks Hbuf.
  { exists []. rewrite lex_at_end by lia. done. }
  rewrite Tokenize_loop_S.
  destruct (Nat.ltb_spec p tail) as [Hp|Hp]; cycle 1.
  { exists []. rewrite lex_at_end by lia. done. }
  destruct (Nat.ltb_spec (length toks) sizeof_tokens) as [Hcap|Hcap]; cycle 1.
  { cbn [andb snd]. exists (lex_at false p). split; [done|]. lia. }
  cbn [andb]. cbv zeta.
  destruct (scan_spec (strchr whitespace) buf p (tail - p)) as (Hp1 & Hp1' & Hws & Hstop).
  set (p1 := scan (strchr whitespace) buf p (tail - p)) in *.
  assert (lex_at false p = lex_at false p1) as ->.
  { replace p1 with (p + (p1 - p)) by lia. apply lex_at_ws_run; [lia|].
    intros k Hk1 Hk2. unfold is_ws.
    rewrite <- (strchr_line strchr_finds_nul s s_no_nul) by lia.
    rewrite <- Hbuf by lia. apply Hws; lia. }
  destruct (Nat.eqb_spec p1 tail) as [Hend|Hne].
  { exists []. rewrite lex_at_end by lia. done. }
  assert (p1 < tail) as Hp1t by lia.
  assert (is_ws (rd s p1) = false) as Hnws.
  { unfold is_ws. rewrite <- (strchr_line strchr_finds_nul s s_no_nul) by lia.
    rewrite <- Hbuf by lia. apply Hstop. lia. }
  rewrite (Hbuf p1) by lia.
  rewrite (strchr_line strchr_finds_nul s s_no_nul symbols p1) by done.
  fold (is_sym (rd s p1)).
  destruct (is_sym (rd s p1)) eqn:Hsym; cbn [negb].
  - (* a symbol *)
    rewrite (strchr_line strchr_finds_nul s s_no_nul whitespace p1) by done.
    fold (is_ws (rd s p1)). rewrite Hnws.
    rewrite (strchr_line strchr_finds_nul s s_no_nul symbols p1) by done.
    fold (is_sym (rd s p1)). rewrite Hsym.
    apply Tokenize_symbol_exact;
      [exact IH|done|lia|lia|intros; apply Hbuf; lia|done|done].
  - (* a word *)
    set (wordc := fun c => negb (strchr whitespace c) && negb (strchr symbols c)).
    destruct (scan_spec wordc buf p1 (tail - p1)) as (Hp2 & Hp2' & Hword & Hstop2).
    set (p2 := scan wordc buf p1 (tail - p1)) in *.
    assert (forall k, k < tail -> wordc (rd s k) = negb (is_ws (rd s k)) && negb (is_sym (rd s k)))
      as Hwordc.
    { intros k Hk. unfold wordc. by rewrite !(strchr_line strchr_finds_nul s s_no_nul). }
    assert (p1 < p2) as Hlt.
    { destruct (decide (p1 = p2)) as [E|]; [|lia]. exfalso.
      rewrite <- E in Hstop2. rewrite Hbuf, Hwordc, Hnws, Hsym in Hstop2 by lia.
      specialize (Hstop2 ltac:(lia)). done. }
    assert (lex_at false p1 = mk_token TOKEN_WORD p1 :: lex_at true p2) as ->.
    { rewrite lex_at_word_char by done. cbn [app]. f_equal.
      replace p2 with (S p1 + (p2 - S p1)) by lia. apply lex_at_word_run; [lia|].
      intros k Hk1 Hk2. specialize (Hword k ltac:(lia) ltac:(lia)).
      rewrite Hbuf, Hwordc in Hword by lia.
      apply andb_true_iff in Hword as [H1%negb_true_iff H2%negb_true_iff]. done. }
    set (toks1 := toks ++ [mk_token TOKEN_WORD p1]).
    assert (toks ++ mk_token TOKEN_WORD p1 :: lex_at true p2 = toks1 ++ lex_at true p2) as ->.
    { unfold toks1. by rewrite <- app_assoc. }
    assert (length toks1 <= p2) as Htoks1.
    { unfold toks1. rewrite length_app. simpl. lia. }
    assert (forall k, p2 < k -> k <= tail -> rd (<[p2:=NUL]> buf) k = rd s k) as Hbuf2.
    { intros k Hk1 Hk2. rewrite rd_insert_ne by lia. apply Hbuf; lia. }
    rewrite (Hbuf p2) by lia.
    destruct (Nat.lt_ge_cases p2 tail) as [Hp2t|Hp2t].
    + specialize (Hstop2 ltac:(lia)).
      rewrite Hbuf, Hwordc in Hstop2 by lia.
      rewrite (strchr_line strchr_finds_nul s s_no_nul whitespace p2) by done.
      fold (is_ws (rd s p2)).
      rewrite (strchr_line strchr_finds_nul s s_no_nul symbols p2) by done.
      fold (is_sym (rd s p2)).
      destruct (is_ws (rd s p2)) eqn:Hw2.
      * rewrite lex_at_boundary by auto.
        rewrite (lex_at_ws p2) by done.
        apply IH; [lia|lia|]. intros k Hk1 Hk2. apply Hbuf2; lia.
      * destruct (is_sym (rd s p2)) eqn:Hs2; [|done].
        rewrite lex_at_boundary by auto.
        apply Tokenize_symbol_exact; [exact IH|done|lia|lia|done|done|done].
    + assert (p2 = tail) as Hp2e by lia.
      rewrite (rd_ge s p2) by lia. rewrite !(strchr_nul strchr_finds_nul).
      rewrite (lex_at_end true p2) by lia.
      destruct strchr_finds_nul.
      * destruct (IH (S p2) (<[p2:=NUL]> buf) toks1) as (rest & Hrest & Hc);
          [lia|lia|intros k Hk1 Hk2; apply Hbuf2; lia|].
        rewrite (lex_at_end false (S p2)) in Hrest by lia. by exists rest.
      * destruct (IH p2 (<[p2:=NUL]> buf) toks1) as (rest & Hrest & Hc); [lia|lia| |].
        { intros k Hk1 Hk2. assert (k = p2) as -> by lia.
          rewrite rd_insert_NUL. symmetry. apply rd_ge. lia. }
        rewrite (lex_at_end false p2) in Hrest by lia. by exists rest.
Qed.

End Exact.

(** The loop of [Tokenize] on a whole line, with the values of the
    tokens. *)
Lemma Tokenize_loop_line_exact
  (sizeof_tokens : nat) (strchr_finds_nul : bool) (buf : list ascii) :
  let s := take (strlen buf) buf in
  exists rest,
    lex_tokens false 0 s =
    (Tokenize_loop sizeof_tokens strchr_finds_nul (strlen buf) (strlen buf) 0 buf []).2 ++ rest /\
    (length s <= sizeof_tokens -> rest = []).
Proof.
  cbv zeta. set (s := take (strlen buf) buf).
  assert (length s = strlen buf) as Hlen.
  { unfold s. rewrite length_take. pose proof (strlen_le buf). lia. }
  rewrite <- Hlen.
  destruct (Tokenize_loop_exact sizeof_tokens strchr_finds_nul s (strlen_take _)
              (length s) 0 buf []) as (rest & Hrest & Hcap).
  - lia.
  - simpl. lia.
  - intros k _ Hk. destruct (decide (k = length s)) as [->|Hne].
    + rewrite (rd_ge s) by lia. rewrite Hlen. apply strlen_rd.
    + unfold s, rd. rewrite !nth_lookup, lookup_take_lt by lia. done.
  - exists rest. rewrite drop_0 in Hrest. done.
Qed.

Lemma lex_tokens_types (b : bool) (p : nat) (s : list ascii) :
  map tok_type (lex_tokens b p s) = lex_spec b s.
Proof.
  revert b p. remember (length s) as n eqn:Hn. revert s Hn.
  induction n as [n IH] using lt_wf_ind. intros s Hn b p. subst n.
  assert (forall s' b' p', length s' < length s ->
                           map tok_type (lex_tokens b' p' s') = lex_spec b' s') as IH'
      by (intros s' b' p' Hlt; by apply (IH (length s'))).
  clear IH. destruct s as [|c s]; [done|].
  cbn [lex_tokens lex_spec]. fold (is_ws c). fold (is_sym c).
  destruct (is_ws c); [apply IH'; simpl; lia|].
  destruct (Ascii.eqb c ">").
  - destruct s as [|c' s]; [done|].
    destruct (Ascii.eqb c' ">"); cbn [map]; f_equal; apply IH'; simpl; lia.
  - destruct (is_sym c); [cbn [map]; f_equal; apply IH'; simpl; lia|].
    destruct b; [apply IH'; simpl; lia|cbn [map]; f_equal; apply IH'; simpl; lia].
Qed.

(** X15: the tokens that [Tokenize] stores are the tokens of the line (the
    bytes of the buffer before the first zero byte), in their order, each
    with the address of its first character as its value: the words, the
    maximal runs of characters that are neither whitespace nor symbols;
    [>>] as one token; every other symbol as a token of its own.  When
    the loop stops at [sizeof(tl->tokens)] they are the first tokens of
    the line; they are all of them when the line is not longer than
    that. *)
Theorem Tokenize_tokens_exact
  (sizeof_tokens : nat) (strchr_finds_nul : bool) (line : BufferedLine) :
  let s := take (strlen (buffer line)) (buffer line) in
  let tl := (Tokenize sizeof_tokens strchr_finds_nul line).2 in
  exists rest,
    lex_tokens false 0 s = take (tl_len tl) (tl_tokens tl) ++ rest /\
    (length s <= sizeof_tokens -> rest = []) /\
    map tok_type (lex_tokens false 0 s) = lex_spec false s.
Proof.
  cbv zeta. unfold Tokenize.
  destruct (Tokenize_loop_line_exact sizeof_tokens strchr_finds_nul (buffer line))
    as (rest & Hrest & Hcap).
  destruct (Tokenize_loop sizeof_tokens strchr_finds_nul _ _ 0 (buffer line) [])
    as [buf toks].
  cbn [snd tl_len tl_tokens] in *. rewrite firstn_all.
  exists rest. split; [done|]. split; [done|]. apply lex_tokens_types.
Qed.

(** ** From a line to a command *)

(** The tokens of a line without symbols are its words. *)
Lemma lex_tokens_words (s0 : list ascii) :
  Forall (fun c => is_sym c = false) s0 ->
  forall n p b, length s0 - p <= n ->
  exists qs,
    lex_tokens b p (drop p s0) = map (mk_token TOKEN_WORD) qs /\
    map (fun q => word_at (drop q s0)) qs = words_of b (drop p s0).
Proof.
  intros Hsym. induction n as [|n IH]; intros p b Hn.
  - exists []. rewrite drop_ge by lia. done.
  - destruct (Nat.lt_ge_cases p (length s0)) as [Hp|Hp];
      [|exists []; rewrite drop_ge by lia; done].
    assert (is_sym (rd s0 p) = false) as Hs.
    { destruct (lookup_lt_is_Some_2 s0 p Hp) as [c Hc].
      rewrite (rd_lookup _ _ _ Hc). rewrite Forall_lookup in Hsym. by eapply Hsym. }
    assert (Ascii.eqb (rd s0 p) ">" = false) as Hgt.
    { destruct (Ascii.eqb_spec (rd s0 p) ">") as [E|]; [|done]. by rewrite E in Hs. }
    rewrite (drop_rd s0 p) by done. cbn [lex_tokens words_of]. unfold word_char.
    rewrite Hs, Hgt.
    destruct (is_ws (rd s0 p)); cbn [negb andb].
    + apply IH. lia.
    + destruct b.
      * apply IH. lia.
      * destruct (IH (S p) true ltac:(lia)) as (qs & H1 & H2).
        exists (p :: qs). cbn [map]. rewrite H1, H2.
        rewrite (drop_rd s0 p) by done. cbn [word_at]. unfold word_char.
        rewrite Hs. done.
Qed.

(** The strings of an argument vector that holds the pointers [qs] and a
    null pointer after them. *)
Lemma load_argv_pointers mem (qs : list nat) (av : list cptr) :
  (forall k q, qs !! k = Some q -> av !! k = Some (Some q)) ->
  av !! length qs = Some None ->
  load_argv mem av = map (cstr mem) qs.
Proof.
  revert av. induction qs as [|q qs IH]; intros av Hq Hend.
  - destruct av as [|[a|] av]; done.
  - pose proof (Hq 0 q eq_refl) as H0. destruct av as [|a av]; [done|].
    injection H0 as ->. cbn [load_argv map]. f_equal. apply IH; [|done].
    intros k q' Hk. apply (Hq (S k)). done.
Qed.

(** [ParseSimpleCommand] on words that fit into the argument vector. *)
Lemma ParseSimpleCommand_words MAX (q0 : nat) (qs : list nat) simple :
  length (q0 :: qs) <= MAX -> length (argv simple) = S MAX ->
  let r := ParseSimpleCommand MAX (map (mk_token TOKEN_WORD) (q0 :: qs)) simple in
  r.2 = [] /\ s_type r.1 = CMD_SIMPLE /\ s_flag r.1 = 0%Z /\ name r.1 = Some q0 /\
  argc r.1 = length (q0 :: qs) /\ redirects r.1 = init_redirects /\
  (forall k q, (q0 :: qs) !! k = Some q -> argv r.1 !! k = Some (Some q)) /\
  argv r.1 !! length (q0 :: qs) = Some None.
Proof.
  intros Hlen Hav. cbv zeta. rewrite ParseSimpleCommand_eq.
  set (toks := map (mk_token TOKEN_WORD) (q0 :: qs)).
  assert (leading_words toks = length (q0 :: qs)) as Hlead.
  { unfold toks. generalize (q0 :: qs). clear. induction l as [|q l IH]; [done|].
    cbn [map leading_words length]. by rewrite IH. }
  assert (length toks = length (q0 :: qs)) as Htl by (unfold toks; by rewrite length_map).
  pose proof (get_arguments_leading MAX toks 0 (argv simple) ltac:(lia)) as Hg.
  rewrite Nat.sub_0_r, Nat.add_0_l, Hlead in Hg.
  rewrite (Nat.min_l _ _ Hlen) in Hg.
  rewrite drop_ge in Hg by lia.
  assert ((get_arguments MAX toks 0 (argv simple)).1.2 = []) as -> by (by rewrite Hg).
  cbn [get_redirections fst snd].
  unfold before_redirections. cbn [s_type s_flag name argc argv redirects].
  assert ((get_arguments MAX toks 0 (argv simple)).1.1 = length (q0 :: qs)) as ->
      by (by rewrite Hg).
  change (match toks with p :: _ => is_type TOKEN_WORD p | [] => false end) with true.
  cbv iota.
  repeat split; try done.
  - intros k q Hk. pose proof (lookup_lt_Some _ _ _ Hk) as Hkl.
    rewrite list_lookup_insert_ne by lia.
    pose proof (get_arguments_stored MAX toks 0 (argv simple) k ltac:(lia)) as Hst.
    rewrite Nat.sub_0_r, Nat.add_0_l, Hlead, (Nat.min_l _ _ Hlen) in Hst.
    cbn [Nat.add] in Hst. unfold cptr in *. rewrite Hst; [|lia|lia].
    unfold toks. rewrite list_lookup_fmap, Hk. done.
  - apply list_lookup_insert_eq. unfold cptr in *.
    rewrite get_arguments_length. unfold cptr in *. lia.
Qed.

(** X16: a line shorter than the buffer, with no symbol and no zero byte,
    with at least one word, no more words than a command has room for and
    no more than the array of the tokens has elements
    ([TSH_MAX_NUM_TOKENS]), is read, cut into tokens and parsed by
    [GetCommand] into a simple command whose name is the first word and
    whose argument vector holds the words of the line in their order, as
    strings of the buffer, followed by a null pointer.  Every word is a
    token of the array and the buffer has its zero byte inside.  The
    command has no redirection and no flag, the command of the shell points
    to it, and the rest of the input is left for the next call. *)
Theorem GetCommand_words
  (N : nat) (char_is_signed : bool) (sizeof_tokens TSH_MAX_NUM_TOKENS : nat)
  (strchr_finds_nul : bool)
  (MAXA MAXP MAXC : nat) (shell : ShellState) (s rest : list ascii)
  (w1 : list ascii) (ws : list (list ascii)) :
  Forall (in_line char_is_signed) s -> Forall (fun c => c <> NUL) s ->
  Forall (fun c => is_sym c = false) s ->
  length s < N -> length s <= sizeof_tokens ->
  words_of false s = w1 :: ws -> length (w1 :: ws) <= MAXA ->
  length (w1 :: ws) <= TSH_MAX_NUM_TOKENS ->
  0 < MAXP -> 0 < MAXC ->
  length (_simples (_cmd_data shell)) = MAXC ->
  length (argv (nth 0 (_simples (_cmd_data shell)) (zero_simple MAXA))) = S MAXA ->
  let g := GetCommand N char_is_signed sizeof_tokens strchr_finds_nul MAXA MAXP MAXC
             shell (s ++ newline :: rest) in
  let mem := buffer (cmdline (gc_shell g)) in
  gc_ret g = Z.of_nat (length s) /\ gc_input g = rest /\ gc_log g = [] /\
  tl_len (tokens (gc_shell g)) = length (w1 :: ws) /\
  tl_len (tokens (gc_shell g)) <= TSH_MAX_NUM_TOKENS /\
  terminated mem /\
  cmd (_cmd_data (gc_shell g)) =
    {| c_type := CMD_SIMPLE; c_flag := 0; c_cmd := ref_simple 0 |} /\
  exists simple n,
    _simples (_cmd_data (gc_shell g)) !! 0 = Some simple /\
    s_type simple = CMD_SIMPLE /\ s_flag simple = 0%Z /\
    argc simple = length (w1 :: ws) /\
    name simple = Some n /\ cstr mem n = w1 /\
    load_argv mem (argv simple) = w1 :: ws /\
    redirects simple = init_redirects.
Proof.
  intros Hline Hnul Hsym Hlen Hcap Hwords Hroom Hfit HP HC Hls Hav. cbv zeta.
  unfold GetCommand.
  destruct (ReadLine_short_line N char_is_signed (cmdline shell) s rest Hline Hlen)
    as (Hret & Hbuf & _ & _ & Hin).
  destruct (ReadLine N char_is_signed (ClearLine N (cmdline shell)) (s ++ newline :: rest))
    as [[n0 buf] ret ti input].
  cbn [rl_ret rl_line buffer rl_input len] in *. subst ret buf input.
  assert (0 < length s) as Hpos.
  { destruct s; [done|simpl; lia]. }
  destruct (Z.ltb_spec 0 (Z.of_nat (length s))) as [_|]; [|lia].
  (* the lexer *)
  unfold Tokenize. cbn [buffer len].
  set (buf := s ++ replicate (N - length s) NUL).
  assert (strlen buf = length s) as Hstrlen.
  { unfold buf. destruct (N - length s) as [|m] eqn:Em; [lia|].
    change (replicate (S m) NUL) with (NUL :: replicate m NUL).
    by apply strlen_app_nul. }
  assert (take (strlen buf) buf = s) as Htake.
  { rewrite Hstrlen. unfold buf. by rewrite take_app_length. }
  destruct (Tokenize_loop_line_exact sizeof_tokens strchr_finds_nul buf)
    as (rest' & Hexact & Hall).
  pose proof (Tokenize_loop_buffer sizeof_tokens strchr_finds_nul buf) as Htok.
  cbv zeta in Hexact, Hall, Htok. rewrite Htake in Hexact, Hall, Htok.
  rewrite (Hall Hcap), app_nil_r in Hexact.
  destruct (Tokenize_loop sizeof_tokens strchr_finds_nul (strlen buf) (strlen buf) 0 buf [])
    as [buf' toks].
  cbn [fst snd] in *. destruct Htok as (Hsize & _ & Hzero & Htok & _).
  assert (terminated buf') as Hterm.
  { unfold terminated. rewrite Hsize.
    assert (length buf = N) as -> by (unfold buf; rewrite length_app, length_replicate; lia).
    pose proof (strlen_le_nul buf' (length s)) as Hle.
    destruct (Hzero (length s)) as [E|E]; [|specialize (Hle E); lia].
    rewrite E, <- Hstrlen in Hle. specialize (Hle (strlen_rd buf)). lia. }
  destruct (lex_tokens_words s Hsym (length s) 0 false ltac:(lia)) as (qs & Hqs & Hws).
  rewrite drop_0 in Hqs, Hws. rewrite Hwords in Hws.
  rewrite Hqs in Hexact. subst toks.
  destruct qs as [|q0 qs]; [done|].
  cbn [tl_len tl_tokens]. rewrite firstn_all.
  (* the parser *)
  unfold ParseCommand, ParsePipeline.
  rewrite ParsePipeline_loop_stop; cycle 1.
  { right. right. right. apply find_next_toke_with_type_none.
    intros t (q & <- & _)%in_map_iff. done. }
  cbn [n_simples]. destruct (Nat.leb_spec MAXC 0) as [|_]; [lia|].
  rewrite parse_next_simple_eq. cbv zeta. cbn [n_simples _simples _pipeline p_len cmd].
  cbn [Nat.eqb with_cmd _pipeline n_simples _simples cmd set_command p_len].
  destruct (Nat.leb_spec MAXP 0) as [|_]; [lia|].
  cbn [Nat.ltb Nat.leb app].
  destruct (ParseSimpleCommand_words MAXA q0 qs
              (nth 0 (_simples (_cmd_data shell)) (zero_simple MAXA)))
    as (Hlog & Hty & Hfl & Hnm & Hargc & Hred & Hargv & Hend).
  { apply (f_equal length) in Hws. rewrite length_map in Hws. simpl in *. lia. }
  { done. }
  cbn [gc_ret gc_input gc_log gc_shell _cmd_data cmd _simples cmdline buffer tokens tl_len].
  assert (length (map (mk_token TOKEN_WORD) (q0 :: qs)) = length (w1 :: ws)) as Hcount.
  { apply (f_equal length) in Hws. by rewrite !length_map in *. }
  split; [done|]. split; [done|]. split; [done|].
  split; [done|]. split; [lia|]. split; [done|]. split; [by rewrite Hfl|].
  eexists _, q0. split; [apply list_lookup_insert_eq; lia|].
  split; [done|]. split; [done|].
  assert (forall q, In q (q0 :: qs) -> cstr buf' q = word_at (drop q s)) as Hcstr.
  { intros q Hq. rewrite Forall_forall in Htok.
    destruct (Htok (mk_token TOKEN_WORD q)) as (q' & [= <-] & _ & _ & Hc).
    - apply list_elem_of_In, in_map_iff. by exists q.
    - done. }
  split; [rewrite Hargc; apply (f_equal length) in Hws; by rewrite length_map in Hws|].
  split; [done|]. split.
  - rewrite Hcstr by (by left). by injection Hws.
  - split; [|done]. rewrite (load_argv_pointers buf' (q0 :: qs)) by done.
    rewrite <- Hws. apply map_ext_in. intros q Hq. by apply Hcstr.
Qed.

(** X16, an instance: [ls -l /tmp], with an array of 64 tokens of 16
    bytes *)
Lemma GetCommand_words_witness :
  let g := GetCommand 64 false 1024 false 8 4 8 (this_shell 64 8 4 8) (typed "ls -l /tmp") in
  tl_len (tokens (gc_shell g)) = 3 /\
  exists simple,
    _simples (_cmd_data (gc_shell g)) !! 0 = Some simple /\
    load_argv (buffer (cmdline (gc_shell g))) (argv simple) =
    [list_ascii_of_string "ls"; list_ascii_of_string "-l"; list_ascii_of_string "/tmp"].
Proof.
  cbv zeta.
  destruct (GetCommand_words 64 false 1024 64 false 8 4 8 (this_shell 64 8 4 8)
              (list_ascii_of_string "ls -l /tmp") []
              (list_ascii_of_string "ls")
              [list_ascii_of_string "-l"; list_ascii_of_string "/tmp"])
    as (_ & _ & _ & Hn & _ & _ & _ & simple & n & Hs & _ & _ & _ & _ & _ & Hav & _).
  - repeat constructor.
  - repeat constructor; discriminate.
  - repeat constructor.
  - vm_compute. lia.
  - vm_compute. lia.
  - reflexivity.
  - simpl. lia.
  - simpl. lia.
  - lia.
  - lia.
  - reflexivity.
  - reflexivity.
  - split; [exact Hn|]. exists simple. split; [exact Hs|exact Hav].
Defined.

(** ** The executor, case by case *)

Lemma fdalloc_insert_open t i f g :
  t !! i = Some (Some f) -> fdalloc (<[i:=Some g]> t) = fdalloc t.
Proof.
  revert i. induction t as [|[h|] t IH]; intros [|i] Hi; try done; simpl in *.
  by rewrite (IH i).
Qed.

Lemma fdalloc_ge_2 t k f0 f1 :
  t !! 0 = Some (Some f0) -> t !! 1 = Some (Some f1) -> fdalloc t = Some k ->
  2 <= k /\ k < length t /\ t !! k = Some None.
Proof.
  intros H0 H1 Hk. destruct (fdalloc_Some _ _ Hk) as [Hn _].
  split; [|split; [by eapply lookup_lt_Some|done]].
  destruct k as [|[|k]]; [congruence|congruence|lia].
Qed.

(** A descriptor that is opened, moved to [to] and closed again leaves
    the table as it was but for [to]. *)
Lemma table_moved (t : list (option file)) (k to : nat) (f : file) :
  t !! k = Some None -> to <> k -> to < length t ->
  <[k:=None]> (<[to:=Some f]> (<[to:=None]> (<[k:=Some f]> t))) = <[to:=Some f]> t.
Proof.
  intros Hk Hne Hto. assert (k < length t) by (by eapply lookup_lt_Some).
  apply list_eq. intros j.
  destruct (decide (j = k)) as [->|Hjk].
  - rewrite list_lookup_insert_eq by (rewrite !length_insert; lia).
    rewrite list_lookup_insert_ne by done. done.
  - rewrite list_lookup_insert_ne by done.
    destruct (decide (j = to)) as [->|Hjt].
    + rewrite !list_lookup_insert_eq by (rewrite ?length_insert; lia). done.
    + rewrite !list_lookup_insert_ne by done. done.
Qed.

Section Simple_facts.

Variable fork_result : nat -> Z.
Variable wait_status : nat -> Z.
Variable can_open : list ascii -> Z -> bool.
Variable exec_ok : list ascii -> list (list ascii) -> bool.
Variable chdir_ok : list ascii -> bool.
Variables O_RDONLY O_WRONLY O_CREATE : Z.
Variable atoi : list ascii -> Z.
Variable mem : list ascii.

Local Abbreviation runSimpleCommand :=
  (runSimpleCommand fork_result wait_status can_open exec_ok O_RDONLY O_WRONLY O_CREATE mem).
Local Abbreviation RunCommand :=
  (RunCommand fork_result wait_status can_open exec_ok chdir_ok
     O_RDONLY O_WRONLY O_CREATE atoi mem).

(** [runSimpleCommand] in the parent. *)
Lemma runSimpleCommand_parent cmd w :
  (0 < fork_result (forks w))%Z ->
  runSimpleCommand cmd w =
  Ret (wait_status (waits w))
    {| ofile := ofile w;
       trace := trace w ++ [ev_fork (fork_result (forks w)); ev_wait (wait_status (waits w))];
       forks := S (forks w); waits := S (waits w); pipes := pipes w |}.
Proof.
  intros Hf. unfold Tsh.runSimpleCommand.
  unfold bind at 1. unfold sys_fork at 1.
  destruct (Z.eqb_spec (fork_result (forks w)) 0) as [E|_]; [lia|].
  destruct (Z.ltb_spec 0 (fork_result (forks w))) as [_|E]; [|lia].
  cbv [bind ret sys_wait ofile trace forks waits pipes].
  by rewrite <- app_assoc.
Qed.

End Simple_facts.

(** X17: [RunCommand] on a simple command that is not built in, in the
    parent: it calls [fork] once and [wait] once, and returns 0 with the
    shell state as it was; the status that [wait] stores is not kept. *)
Theorem RunCommand_external_in_parent
  (fork_result wait_status : nat -> Z) (can_open : list ascii -> Z -> bool)
  (exec_ok : list ascii -> list (list ascii) -> bool) (chdir_ok : list ascii -> bool)
  (O_RDONLY O_WRONLY O_CREATE : Z) (atoi : list ascii -> Z) (mem : list ascii)
  (pipeFD0 : Z * Z) (shell : ShellState) (simple : SimpleCommand) (w : world) :
  external mem shell simple -> (0 < fork_result (forks w))%Z ->
  RunCommand fork_result wait_status can_open exec_ok chdir_ok
    O_RDONLY O_WRONLY O_CREATE atoi mem pipeFD0 shell w =
  Ret (0%Z, shell)
    {| ofile := ofile w;
       trace := trace w ++ [ev_fork (fork_result (forks w)); ev_wait (wait_status (waits w))];
       forks := S (forks w); waits := S (waits w); pipes := pipes w |}.
Proof.
  intros Hext Hf.
  rewrite (RunCommand_external _ _ _ _ _ _ _ _ _ _ _ _ _ _ Hext).
  erewrite bind_Ret by (by apply runSimpleCommand_parent). done.
Qed.

(** X17, an instance: [ls], with a child that ends with the status 3 *)
Lemma RunCommand_external_in_parent_witness :
  RunCommand as_parent (fun _ => 3%Z) (fun _ _ => true) (fun _ _ => true) (fun _ => true)
    0 1 512 (fun _ => 0%Z) (buffer (cmdline (first_command "ls"))) (0%Z, 0%Z)
    (first_command "ls") fresh_world
  = Ret (0%Z, first_command "ls")
      {| ofile := ofile fresh_world; trace := [ev_fork 5; ev_wait 3];
         forks := 1; waits := 1; pipes := 0 |}.
Proof.
  assert (external (buffer (cmdline (first_command "ls"))) (first_command "ls")
            (nth 0 (_simples (_cmd_data (first_command "ls"))) (zero_simple 8))) as Hext.
  { split; [computed|]. split.
    - exists 0. split; computed.
    - exists 0. repeat split; computed. }
  rewrite (RunCommand_external_in_parent as_parent (fun _ => 3%Z) (fun _ _ => true)
             (fun _ _ => true) (fun _ => true) 0 1 512 (fun _ => 0%Z)
             (buffer (cmdline (first_command "ls"))) (0%Z, 0%Z) (first_command "ls")
             _ fresh_world Hext ltac:(reflexivity)).
  reflexivity.
Defined.

(** X18: the child of [runSimpleCommand], for a command whose files can
    be opened, in a process with its standard input and output open and
    a free descriptor: when it calls [exec], descriptor 0 refers to the
    file of the slot for descriptor 0 if that is of type
    [REDIRECT_INPUT], opened with [O_RDONLY], descriptor 1 to the file of
    the slot for descriptor 1 if that is of type [REDIRECT_OUTPUT], opened
    with [O_WRONLY | O_CREATE], and every other descriptor is as it was at
    [fork]: the descriptors that [open] returned are closed again. *)
Theorem runSimpleCommand_child_redirects
  (fork_result wait_status : nat -> Z) (can_open : list ascii -> Z -> bool)
  (exec_ok : list ascii -> list (list ascii) -> bool) (O_RDONLY O_WRONLY O_CREATE : Z)
  (mem : list ascii) (cmd : SimpleCommand) (w : world)
  (nm k : nat) (f0 f1 : file) (pin pout : nat) :
  fork_result (forks w) = 0%Z -> s_type cmd = CMD_SIMPLE -> name cmd = Some nm ->
  ofile w !! 0 = Some (Some f0) -> ofile w !! 1 = Some (Some f1) ->
  fdalloc (ofile w) = Some k ->
  (r_type (redirect cmd 0) = REDIRECT_INPUT ->
   path (redirect cmd 0) = Some pin /\ can_open (cstr mem pin) O_RDONLY = true) ->
  (r_type (redirect cmd 1) = REDIRECT_OUTPUT ->
   path (redirect cmd 1) = Some pout /\
   can_open (cstr mem pout) (Z.lor O_WRONLY O_CREATE) = true) ->
  exec_ok (cstr mem nm) (load_argv mem (argv cmd)) = true ->
  let input := RedirectionType_eqb (r_type (redirect cmd 0)) REDIRECT_INPUT in
  let output := RedirectionType_eqb (r_type (redirect cmd 1)) REDIRECT_OUTPUT in
  let to0 := ev_open (cstr mem pin) O_RDONLY (Z.of_nat k) ::
             [ev_close 0 0; ev_dup (Z.of_nat k) 0; ev_close (Z.of_nat k) 0] in
  let to1 := ev_open (cstr mem pout) (Z.lor O_WRONLY O_CREATE) (Z.of_nat k) ::
             [ev_close 1 0; ev_dup (Z.of_nat k) 1; ev_close (Z.of_nat k) 0] in
  exists w',
    runSimpleCommand fork_result wait_status can_open exec_ok
      O_RDONLY O_WRONLY O_CREATE mem cmd w = Stop w' /\
    ofile w' !! 0 = Some (Some (if input then opened (cstr mem pin) O_RDONLY else f0)) /\
    ofile w' !! 1 =
      Some (Some (if output then opened (cstr mem pout) (Z.lor O_WRONLY O_CREATE) else f1)) /\
    (forall j, 2 <= j -> ofile w' !! j = ofile w !! j) /\
    trace w' =
      trace w ++ [ev_fork 0] ++ (if input then to0 else []) ++ (if output then to1 else []) ++
      [ev_exec (cstr mem nm) (load_argv mem (argv cmd))].
Proof.
  intros Hf Hty Hn H0 H1 Hk Hin Hout He. cbv zeta.
  destruct (fdalloc_ge_2 _ _ _ _ H0 H1 Hk) as (Hk2 & Hkl & Hkn).
  unfold runSimpleCommand.
  unfold bind at 1. unfold sys_fork at 1. rewrite Hf. cbn [Z.eqb].
  rewrite Hty. cbn [CommandType_eqb].
  set (w0 := {| ofile := ofile w; trace := trace w ++ [ev_fork 0] |}).
  destruct (RedirectionType_eqb (r_type (redirect cmd 0)) REDIRECT_INPUT) eqn:Ei.
  - apply RedirectionType_eqb_eq in Ei. destruct (Hin Ei) as [Hp Hc]. rewrite Hp.
    unfold load_str at 1. rewrite bind_assoc. unfold bind at 1. unfold ret at 1.
    rewrite bind_assoc.
    unfold bind at 1. unfold sys_open at 1. rewrite Hc.
    change (ofile w0) with (ofile w). rewrite Hk.
    destruct (Z.ltb_spec (Z.of_nat k) 0) as [|_]; [lia|].
    erewrite bind_Ret; cycle 1.
    { apply (move_fd_0 k (opened (cstr mem pin) O_RDONLY) f0);
        cbn [ofile record with_ofile]; [lookups|done|lookups]. }
    cbn [ofile record with_ofile after].
    rewrite (table_moved (ofile w) k 0) by (done || lia).
    destruct (RedirectionType_eqb (r_type (redirect cmd 1)) REDIRECT_OUTPUT) eqn:Eo.
    + apply RedirectionType_eqb_eq in Eo. destruct (Hout Eo) as [Hp' Hc']. rewrite Hp'.
      unfold load_str at 1. rewrite bind_assoc. unfold bind at 1. unfold ret at 1.
      rewrite bind_assoc.
      unfold bind at 1. unfold sys_open at 1. rewrite Hc'.
      cbn [ofile after]. rewrite (fdalloc_insert_open _ 0 f0) by done. rewrite Hk.
      destruct (Z.ltb_spec (Z.of_nat k) 0) as [|_]; [lia|].
      destruct (Z.eqb_spec (Z.of_nat k) 1) as [|_]; [lia|]. cbn [negb].
      erewrite bind_Ret; cycle 1.
      { apply (move_fd_1 k (opened (cstr mem pout) (Z.lor O_WRONLY O_CREATE))
                 (opened (cstr mem pin) O_RDONLY) f1);
          cbn [ofile record with_ofile]; [lookups|lookups|done|lookups]. }
      cbn [ofile record with_ofile after].
      rewrite (table_moved _ k 1) by (rewrite ?length_insert; lookups; lia).
      erewrite bind_Stop; cycle 1.
      { unfold exec_command. rewrite Hn. unfold load_str, bind, ret, sys_exec. rewrite He.
        reflexivity. }
      eexists. split; [reflexivity|]. unfold w0. cbn [ofile trace record after with_ofile].
      split; [lookups|]. split; [lookups|]. split; [intros j Hj; lookups|].
      rewrite <- !app_assoc. done.
    + unfold ret at 1. unfold bind at 1.
      erewrite bind_Stop; cycle 1.
      { unfold exec_command. rewrite Hn. unfold load_str, bind, ret, sys_exec. rewrite He.
        reflexivity. }
      eexists. split; [reflexivity|]. unfold w0. cbn [ofile trace record after with_ofile].
      split; [lookups|]. split; [lookups|]. split; [intros j Hj; lookups|].
      rewrite <- !app_assoc. done.
  - unfold ret at 1. unfold bind at 1.
    destruct (RedirectionType_eqb (r_type (redirect cmd 1)) REDIRECT_OUTPUT) eqn:Eo.
    + apply RedirectionType_eqb_eq in Eo. destruct (Hout Eo) as [Hp' Hc']. rewrite Hp'.
      unfold load_str at 1. rewrite bind_assoc. unfold bind at 1. unfold ret at 1.
      rewrite bind_assoc.
      unfold bind at 1. unfold sys_open at 1. rewrite Hc'.
      change (ofile w0) with (ofile w). rewrite Hk.
      destruct (Z.ltb_spec (Z.of_nat k) 0) as [|_]; [lia|].
      destruct (Z.eqb_spec (Z.of_nat k) 1) as [|_]; [lia|]. cbn [negb].
      erewrite bind_Ret; cycle 1.
      { apply (move_fd_1 k (opened (cstr mem pout) (Z.lor O_WRONLY O_CREATE)) f0 f1);
          cbn [ofile record with_ofile]; [lookups|lookups|done|lookups]. }
      cbn [ofile record with_ofile after].
      rewrite (table_moved _ k 1) by (done || lia).
      erewrite bind_Stop; cycle 1.
      { unfold exec_command. rewrite Hn. unfold load_str, bind, ret, sys_exec. rewrite He.
        reflexivity. }
      eexists. split; [reflexivity|]. unfold w0. cbn [ofile trace record after with_ofile].
      split; [lookups|]. split; [lookups|]. split; [intros j Hj; lookups|].
      rewrite <- !app_assoc. done.
    + unfold ret at 1. unfold bind at 1.
      erewrite bind_Stop; cycle 1.
      { unfold exec_command. rewrite Hn. unfold load_str, bind, ret, sys_exec. rewrite He.
        reflexivity. }
      eexists. split; [reflexivity|]. unfold w0. cbn [ofile trace record after with_ofile].
      split; [done|]. split; [done|]. split; [done|].
      rewrite <- !app_assoc. done.
Qed.

(** X18, an instance: [cat < in > out] in the child *)
Lemma runSimpleCommand_child_redirects_witness :
  let sh := first_command "cat < in > out" in
  let cmd := nth 0 (_simples (_cmd_data sh)) (zero_simple 8) in
  exists w',
    runSimpleCommand (as_child 0) (fun _ => 0%Z) (fun _ _ => true) (fun _ _ => true)
      0 1 512 (buffer (cmdline sh)) cmd fresh_world = Stop w' /\
    ofile w' !! 0 = Some (Some (opened (list_ascii_of_string "in") 0)) /\
    ofile w' !! 1 = Some (Some (opened (list_ascii_of_string "out") 513)).
Proof.
  cbv zeta.
  destruct (runSimpleCommand_child_redirects (as_child 0) (fun _ => 0%Z) (fun _ _ => true)
              (fun _ _ => true) 0 1 512
              (buffer (cmdline (first_command "cat < in > out")))
              (nth 0 (_simples (_cmd_data (first_command "cat < in > out"))) (zero_simple 8))
              fresh_world 0 3 (inherited 0) (inherited 1) 6 11)
    as (w' & Hrun & H0 & H1 & _).
  - reflexivity.
  - computed.
  - computed.
  - reflexivity.
  - reflexivity.
  - reflexivity.
  - intros _. split; computed.
  - intros _. split; computed.
  - reflexivity.
  - exists w'. split; [exact Hrun|]. split.
    + rewrite H0. vm_compute. reflexivity.
    + rewrite H1. vm_compute. reflexivity.
Defined.

(** X19: a file that cannot be opened ends the child of
    [runSimpleCommand] before [exec]: after the failed [open] it prints
    the diagnostic and calls [exit(1)].  That holds for the input
    redirection, whatever else the command has, and for the output
    redirection of a command without an input redirection. *)
Theorem runSimpleCommand_cannot_open
  (fork_result wait_status : nat -> Z) (can_open : list ascii -> Z -> bool)
  (exec_ok : list ascii -> list (list ascii) -> bool) (O_RDONLY O_WRONLY O_CREATE : Z)
  (mem : list ascii) (cmd : SimpleCommand) (w : world) (p : nat) :
  fork_result (forks w) = 0%Z -> s_type cmd = CMD_SIMPLE ->
  let run :=
    runSimpleCommand fork_result wait_status can_open exec_ok
      O_RDONLY O_WRONLY O_CREATE mem cmd w in
  let stopped flags :=
    Stop {| ofile := ofile w;
            trace := trace w ++
                     [ev_fork 0; ev_open (cstr mem p) flags (-1);
                      ev_diag (ErrorS "Cannot open file descriptor"); ev_exit 1];
            forks := S (forks w); waits := waits w; pipes := pipes w |} in
  (r_type (redirect cmd 0) = REDIRECT_INPUT -> path (redirect cmd 0) = Some p ->
   can_open (cstr mem p) O_RDONLY = false ->
   run = stopped O_RDONLY) /\
  (r_type (redirect cmd 0) <> REDIRECT_INPUT ->
   r_type (redirect cmd 1) = REDIRECT_OUTPUT -> path (redirect cmd 1) = Some p ->
   can_open (cstr mem p) (Z.lor O_WRONLY O_CREATE) = false ->
   run = stopped (Z.lor O_WRONLY O_CREATE)).
Proof.
  intros Hf Hty. cbv zeta. split.
  - intros Hi Hp Hc. unfold runSimpleCommand.
    unfold bind at 1. unfold sys_fork at 1. rewrite Hf. cbn [Z.eqb].
    rewrite Hty. cbn [CommandType_eqb].
    rewrite Hi, Hp. cbn [RedirectionType_eqb].
    cbv [bind ret load_str sys_open diag sys_exit record ofile trace forks waits pipes].
    rewrite Hc. cbn [Z.ltb Z.compare]. rewrite <- !app_assoc. done.
  - intros Hi Ho Hp Hc. unfold runSimpleCommand.
    unfold bind at 1. unfold sys_fork at 1. rewrite Hf. cbn [Z.eqb].
    rewrite Hty. cbn [CommandType_eqb].
    destruct (r_type (redirect cmd 0)) eqn:E0; [done|..];
      rewrite Ho, Hp; cbn [RedirectionType_eqb];
      cbv [bind ret load_str sys_open diag sys_exit record ofile trace forks waits pipes];
      rewrite Hc; cbn [Z.ltb Z.compare]; rewrite <- !app_assoc; done.
Qed.

(** X19, an instance: [cat < in] where [in] cannot be opened *)
Lemma runSimpleCommand_cannot_open_witness :
  let sh := first_command "cat < in" in
  runSimpleCommand (as_child 0) (fun _ => 0%Z) (fun _ _ => false) (fun _ _ => true)
    0 1 512 (buffer (cmdline sh)) (nth 0 (_simples (_cmd_data sh)) (zero_simple 8)) fresh_world
  = Stop {| ofile := ofile fresh_world;
            trace := [ev_fork 0; ev_open (list_ascii_of_string "in") 0 (-1);
                      ev_diag (ErrorS "Cannot open file descriptor"); ev_exit 1];
            forks := 1; waits := 0; pipes := 0 |}.
Proof.
  cbv zeta.
  destruct (runSimpleCommand_cannot_open (as_child 0) (fun _ => 0%Z) (fun _ _ => false)
              (fun _ _ => true) 0 1 512 (buffer (cmdline (first_command "cat < in")))
              (nth 0 (_simples (_cmd_data (first_command "cat < in"))) (zero_simple 8))
              fresh_world 6) as [H _].
  - reflexivity.
  - computed.
  - rewrite H.
    + vm_compute. reflexivity.
    + computed.
    + computed.
    + reflexivity.
Defined.

(** X20: the commands that [RunCommand] runs itself, in the shell and
    without a call of [fork].  [quit] stops the shell ([should_run] is
    [NO]) and, with an argument, sets [last_exit_status] to its value;
    [exit] ends the process at once, with the value of its argument or
    with 0; [cd] changes to the directory of its argument, or to [/]
    without one, prints a diagnostic when that fails, and returns 0 with
    the shell as it was. *)
Theorem RunCommand_builtins
  (fork_result wait_status : nat -> Z) (can_open : list ascii -> Z -> bool)
  (exec_ok : list ascii -> list (list ascii) -> bool) (chdir_ok : list ascii -> bool)
  (O_RDONLY O_WRONLY O_CREATE : Z) (atoi : list ascii -> Z) (mem : list ascii)
  (pipeFD0 : Z * Z) (shell : ShellState) (simple : SimpleCommand) (k n a : nat) (w : world) :
  c_type (cmd (_cmd_data shell)) = CMD_SIMPLE ->
  c_cmd (cmd (_cmd_data shell)) = ref_simple k ->
  _simples (_cmd_data shell) !! k = Some simple ->
  name simple = Some n ->
  (1 < argc simple -> argv simple !! 1 = Some (Some a)) ->
  let run :=
    RunCommand fork_result wait_status can_open exec_ok chdir_ok
      O_RDONLY O_WRONLY O_CREATE atoi mem pipeFD0 shell w in
  let with_arg := (1 <? argc simple)%nat in
  (cstr mem n = list_ascii_of_string "quit" ->
   run = Ret (0%Z,
              {| should_run := NO;
                 last_exit_status :=
                   if with_arg then atoi (cstr mem a) else last_exit_status shell;
                 cmdline := cmdline shell; tokens := tokens shell;
                 _cmd_data := _cmd_data shell |}) w) /\
  (cstr mem n = list_ascii_of_string "exit" ->
   run = Stop (record (ev_exit (if with_arg then atoi (cstr mem a) else 0%Z)) w)) /\
  (cstr mem n = list_ascii_of_string "cd" ->
   let dir := if with_arg then cstr mem a else DEFAULT_HOME_DIR in
   run = Ret (0%Z, shell)
           (after (if chdir_ok dir then [ev_chdir dir 0]
                   else [ev_chdir dir (-1);
                         ev_diag (ErrorU "Directory does not exist or cannot be found!")])
              (ofile w) w)).
Proof.
  intros Hty Hk Hs Hn Harg. cbv zeta.
  split; [|split]; intros Hnm; unfold RunCommand; rewrite Hty, Hk, Hs, Hn;
    unfold load_str at 1; unfold bind at 1; unfold ret at 1; rewrite Hnm.
  - change (strcmp_eq (list_ascii_of_string "quit") "quit") with true. cbv iota.
    destruct (Nat.ltb_spec 1 (argc simple)) as [H1|H1]; [|done].
    unfold load_arg1, cptr in *. rewrite (Harg H1). done.
  - change (strcmp_eq (list_ascii_of_string "exit") "quit") with false.
    change (strcmp_eq (list_ascii_of_string "exit") "exit") with true. cbv iota.
    destruct (Nat.ltb_spec 1 (argc simple)) as [H1|H1]; [|done].
    unfold load_arg1, cptr in *. rewrite (Harg H1). done.
  - change (strcmp_eq (list_ascii_of_string "cd") "quit") with false.
    change (strcmp_eq (list_ascii_of_string "cd") "exit") with false.
    change (strcmp_eq (list_ascii_of_string "cd") "cd") with true. cbv iota.
    assert ((if (1 <? argc simple)%nat
             then match argv simple !! 1 with Some p => p | None => None end
             else None) = if (1 <? argc simple)%nat then Some a else None) as ->.
    { unfold cptr in *. destruct (Nat.ltb_spec 1 (argc simple)) as [H1|H1]; [|done].
      by rewrite (Harg H1). }
    assert (match (if (1 <? argc simple)%nat then Some a else None) with
            | Some k0 => cstr mem k0
            | None => DEFAULT_HOME_DIR
            end = if (1 <? argc simple)%nat then cstr mem a else DEFAULT_HOME_DIR) as ->
        by (by destruct (1 <? argc simple)%nat).
    set (dir := if (1 <? argc simple)%nat then cstr mem a else DEFAULT_HOME_DIR).
    cbv [bind ret sys_chdir diag record after ofile trace forks waits pipes].
    destruct (chdir_ok dir); cbn [Z.ltb Z.compare]; [done|].
    by rewrite <- app_assoc.
Qed.

(** X20, an instance: [quit 3] *)
Lemma RunCommand_builtins_witness :
  let sh := first_command "quit 3" in
  RunCommand as_parent (fun _ => 0%Z) (fun _ _ => true) (fun _ _ => true) (fun _ => true)
    0 1 512 (fun s => Z.of_nat (length s) + 2)%Z (buffer (cmdline sh)) (0%Z, 0%Z) sh fresh_world
  = Ret (0%Z,
         {| should_run := NO; last_exit_status := 3;
            cmdline := cmdline sh; tokens := tokens sh; _cmd_data := _cmd_data sh |})
      fresh_world.
Proof.
  cbv zeta.
  destruct (RunCommand_builtins as_parent (fun _ => 0%Z) (fun _ _ => true) (fun _ _ => true)
              (fun _ => true) 0 1 512 (fun s => Z.of_nat (length s) + 2)%Z
              (buffer (cmdline (first_command "quit 3"))) (0%Z, 0%Z)
              (first_command "quit 3")
              (nth 0 (_simples (_cmd_data (first_command "quit 3"))) (zero_simple 8))
              0 0 5 fresh_world) as [H _].
  - computed.
  - computed.
  - computed.
  - computed.
  - intros _. computed.
  - rewrite H.
    + vm_compute. reflexivity.
    + computed.
Defined.

Section Pipeline_exec_fails.

Variable fork_result : nat -> Z.
Variable wait_status : nat -> Z.
Variable can_open : list ascii -> Z -> bool.
Variable exec_ok : list ascii -> list (list ascii) -> bool.
Variables O_RDONLY O_WRONLY O_CREATE : Z.
Variable mem : list ascii.

Local Abbreviation pipeline_loop :=
  (pipeline_loop fork_result can_open exec_ok O_RDONLY O_WRONLY O_CREATE mem).
Local Abbreviation stage_setup := (stage_setup can_open O_RDONLY O_WRONLY O_CREATE mem).
Local Abbreviation exec_command := (exec_command exec_ok mem).

(** The loop in the child of stage [x + j]: after [j] calls of [fork] as a
    parent the next one returns 0; the child connects itself, calls
    [exec], and, should that return, goes on with the loop. *)
Lemma pipeline_loop_child_step simples pipeline numCommands pipeFD j n x w k command :
  j < n ->
  (forall i, i < j -> fork_result (forks w + i) <> 0%Z) ->
  fork_result (forks w + j) = 0%Z ->
  c_cmd (nth (x + j) (commands pipeline) zero_command) = ref_simple k ->
  simples !! k = Some command ->
  pipeline_loop simples pipeline numCommands pipeFD n x w =
  ((stage_setup numCommands (x + j) pipeFD command ;;; exec_command command ;;; ret tt) ;;;
   pipeline_loop simples pipeline numCommands pipeFD (n - S j) (x + S j))
    {| ofile := ofile w;
       trace := trace w ++ fork_events fork_result (forks w) j ++ [ev_fork 0];
       forks := forks w + S j; waits := waits w; pipes := pipes w |}.
Proof.
  revert n x w. induction j as [|j IH]; intros n x w Hn Hpar Hch Hk Hs.
  - destruct n as [|n]; [lia|]. cbn [Tsh.pipeline_loop].
    rewrite Nat.add_0_r in *. unfold bind at 1. unfold sys_fork at 1.
    rewrite Hch. cbn [Z.eqb]. rewrite Hk, Hs.
    unfold fork_events. cbn [seq map app].
    replace (forks w + 1) with (S (forks w)) by lia.
    replace (x + 1) with (S x) by lia.
    replace (S n - 1) with n by lia. done.
  - destruct n as [|n]; [lia|]. cbn [Tsh.pipeline_loop].
    unfold bind at 1. unfold sys_fork at 1.
    pose proof (Hpar 0 ltac:(lia)) as H0. rewrite Nat.add_0_r in H0.
    destruct (Z.eqb_spec (fork_result (forks w)) 0) as [E|_]; [done|].
    unfold bind at 1. unfold ret at 1.
    rewrite (IH n (S x)); cbn [forks ofile trace waits pipes].
    + replace (S x + j) with (x + S j) by lia.
      replace (S x + S j) with (x + S (S j)) by lia.
      replace (S (forks w) + S j) with (forks w + S (S j)) by lia.
      rewrite fork_events_S. rewrite <- app_assoc. done.
    + lia.
    + intros i Hi. replace (S (forks w) + i) with (forks w + S i) by lia. apply Hpar. lia.
    + replace (S (forks w) + j) with (forks w + S j) by lia. done.
    + replace (S x + j) with (x + S j) by lia. done.
    + done.
Qed.

Lemma exec_command_fails command nm w :
  name command = Some nm ->
  exec_ok (cstr mem nm) (load_argv mem (argv command)) = false ->
  exec_command command w =
  Ret (-1)%Z (after [ev_exec (cstr mem nm) (load_argv mem (argv command))] (ofile w) w).
Proof.
  intros Hn He. unfold Tsh.exec_command. rewrite Hn.
  unfold load_str. unfold bind, ret, sys_exec. rewrite He. done.
Qed.

Lemma sys_close_returns fd w :
  exists c t, sys_close fd w = Ret c (after [ev_close fd c] t w).
Proof.
  unfold sys_close. destruct (fd_file (ofile w) fd); eexists _, _; reflexivity.
Qed.

End Pipeline_exec_fails.

(** X21: a child of [runPipelineCommnad] whose [exec] fails is not ended:
    it goes on with the loop of its parent, calls [fork] for each stage
    after its own, closes the two descriptors of the pipe, calls [wait]
    once for each stage of the pipeline, and returns 0 to its caller. *)
Theorem runPipelineCommnad_exec_fails
  (fork_result wait_status : nat -> Z) (can_open : list ascii -> Z -> bool)
  (exec_ok : list ascii -> list (list ascii) -> bool) (O_RDONLY O_WRONLY O_CREATE : Z)
  (mem : list ascii) (simples : list SimpleCommand) (pipeFD0 : Z * Z)
  (pipeline : Pipeline) (w : world) (r wr : nat) (f0 f1 : file)
  (x k : nat) (command : SimpleCommand) (nm : nat) :
  ofile w !! 0 = Some (Some f0) -> ofile w !! 1 = Some (Some f1) ->
  fdalloc (ofile w) = Some r ->
  fdalloc (<[r:=Some (pipe_read (pipes w))]> (ofile w)) = Some wr ->
  let N := p_len pipeline in
  x < N ->
  (forall i, i < N -> i <> x -> fork_result (forks w + i) <> 0%Z) ->
  fork_result (forks w + x) = 0%Z ->
  c_cmd (nth x (commands pipeline) zero_command) = ref_simple k ->
  simples !! k = Some command ->
  slots_usable command ->
  name command = Some nm ->
  exec_ok (cstr mem nm) (load_argv mem (argv command)) = false ->
  exists w' own c1 c2,
    runPipelineCommnad fork_result wait_status can_open exec_ok
      O_RDONLY O_WRONLY O_CREATE mem simples pipeFD0 pipeline w = Ret 0%Z w' /\
    trace w' =
      trace w ++ [ev_pipe 0] ++ fork_events fork_result (forks w) x ++ [ev_fork 0] ++
      wiring_events N x r wr ++ own ++
      [ev_exec (cstr mem nm) (load_argv mem (argv command))] ++
      fork_events fork_result (forks w + S x) (N - S x) ++
      [ev_close (Z.of_nat r) c1; ev_close (Z.of_nat wr) c2] ++
      wait_events wait_status (waits w) N /\
    forks w' = forks w + N /\ waits w' = waits w + N.
Proof.
  intros H0 H1 Hr Hwr N Hx Hpar Hch Hk Hs Hslots Hn He. subst N.
  unfold runPipelineCommnad.
  destruct (sys_pipe_spec pipeFD0
              (fun r0 : Z * (Z * Z) =>
                 pipeline_loop fork_result can_open exec_ok O_RDONLY O_WRONLY O_CREATE mem
                   simples pipeline (p_len pipeline) r0.2 (p_len pipeline) 0 ;;;
                 sys_close r0.2.1 ;;; sys_close r0.2.2 ;;;
                 wait_loop wait_status (p_len pipeline) ;;; ret 0%Z)
              w r wr f0 f1 H0 H1 Hr Hwr) as (Ht & _ & ->).
  cbn [fst snd].
  set (w1 := {| ofile := _; trace := trace w ++ [ev_pipe 0] |}).
  set (wx := {| ofile := ofile w1;
                trace := trace w1 ++ fork_events fork_result (forks w1) x ++ [ev_fork 0];
                forks := forks w1 + S x; waits := waits w1; pipes := pipes w1 |}).
  destruct (stage_setup_spec can_open O_RDONLY O_WRONLY O_CREATE mem
              (p_len pipeline) x r wr (pipes w) f0 f1 command wx Ht Hslots)
    as (t' & own & Hsetup & _).
  set (w2 := after (wiring_events (p_len pipeline) x r wr ++ own) t' wx) in *.
  set (w3 := after [ev_exec (cstr mem nm) (load_argv mem (argv command))] (ofile w2) w2).
  assert (pipeline_loop fork_result can_open exec_ok O_RDONLY O_WRONLY O_CREATE mem
            simples pipeline (p_len pipeline) (Z.of_nat r, Z.of_nat wr) (p_len pipeline) 0 w1
          = Ret tt {| ofile := ofile w3;
                      trace := trace w3 ++
                               fork_events fork_result (forks w3) (p_len pipeline - S x);
                      forks := forks w3 + (p_len pipeline - S x);
                      waits := waits w3; pipes := pipes w3 |}) as Hloop.
  { rewrite (pipeline_loop_child_step fork_result can_open exec_ok O_RDONLY O_WRONLY O_CREATE
               mem simples pipeline (p_len pipeline) _ x (p_len pipeline) 0 w1 k command);
      try done.
    - fold wx. rewrite bind_assoc. erewrite bind_Ret by exact Hsetup.
      rewrite bind_assoc. erewrite bind_Ret by (by apply exec_command_fails).
      fold w3. unfold bind at 1. unfold ret at 1.
      apply pipeline_loop_parent. intros j Hj.
      replace (forks w3 + j) with (forks w + (S x + j)) by (cbn; lia).
      apply Hpar; lia.
    - intros i Hi. apply Hpar; lia. }
  erewrite bind_Ret by exact Hloop.
  match goal with |- context [bind (sys_close (Z.of_nat r)) _ ?w0] =>
    destruct (sys_close_returns (Z.of_nat r) w0) as (c1 & t1 & Hc1) end.
  erewrite bind_Ret by exact Hc1.
  match goal with |- context [bind (sys_close (Z.of_nat wr)) _ ?w0] =>
    destruct (sys_close_returns (Z.of_nat wr) w0) as (c2 & t2 & Hc2) end.
  erewrite bind_Ret by exact Hc2.
  erewrite bind_Ret by apply wait_loop_spec.
  unfold ret. eexists _, own, c1, c2. split; [reflexivity|].
  unfold after, w3, w2, wx, w1. cbn [ofile trace forks waits pipes after].
  split; [|split; lia].
  rewrite <- !app_assoc. done.
Qed.

(** X21, an instance: the first stage of [a | b], where [a] is not found *)
Lemma runPipelineCommnad_exec_fails_witness :
  let sh := first_command "a | b" in
  exists w',
    runPipelineCommnad (as_child 0) (fun _ => 0%Z) (fun _ _ => true) (fun _ _ => false)
      0 1 512 (buffer (cmdline sh)) (_simples (_cmd_data sh)) (0%Z, 0%Z)
      (_pipeline (_cmd_data sh)) fresh_world = Ret 0%Z w' /\
    forks w' = 2 /\ waits w' = 2.
Proof.
  cbv zeta.
  destruct (runPipelineCommnad_exec_fails (as_child 0) (fun _ => 0%Z) (fun _ _ => true)
              (fun _ _ => false) 0 1 512 (buffer (cmdline (first_command "a | b")))
              (_simples (_cmd_data (first_command "a | b"))) (0%Z, 0%Z)
              (_pipeline (_cmd_data (first_command "a | b"))) fresh_world
              3 4 (inherited 0) (inherited 1) 0 0
              (nth 0 (_simples (_cmd_data (first_command "a | b"))) (zero_simple 8)) 0)
    as (w' & own & c1 & c2 & Hrun & _ & Hf & Hw).
  - reflexivity.
  - reflexivity.
  - reflexivity.
  - reflexivity.
  - computed.
  - assert (p_len (_pipeline (_cmd_data (first_command "a | b"))) = 2) as -> by computed.
    intros [|[|i]] Hi Hne; [done|discriminate|lia].
  - reflexivity.
  - computed.
  - computed.
  - vm_compute. repeat constructor; (lia || discriminate || done).
  - computed.
  - reflexivity.
  - exists w'. split; [exact Hrun|]. split.
    + rewrite Hf. computed.
    + rewrite Hw. computed.
Defined.

(** ** The redirections of the stages of a pipeline *)

(** The descriptor that [open] returns in a stage that has connected
    itself to the pipe is the one that was the read end. *)
Lemma fdalloc_after_wiring (t0 : list (option file)) r wr i a b g f0 f1 :
  t0 !! 0 = Some (Some f0) -> t0 !! 1 = Some (Some f1) ->
  fdalloc t0 = Some r -> fdalloc (<[r:=Some a]> t0) = Some wr -> i < 2 ->
  r < wr /\ 2 <= r /\ wr < length t0 /\
  fdalloc (<[wr:=None]> (<[r:=None]> (<[i:=Some g]> (<[i:=None]>
             (<[wr:=Some b]> (<[r:=Some a]> t0)))))) = Some r.
Proof.
  intros H0 H1 Hr Hwr Hi.
  destruct (fdalloc_Some _ _ Hr) as [Hrn Hrl].
  destruct (fdalloc_Some _ _ Hwr) as [Hwn Hwl].
  assert (r < length t0) as Hrlen by (by eapply lookup_lt_Some).
  assert (wr < length t0) as Hwlen
      by (apply lookup_lt_Some in Hwn; by rewrite length_insert in Hwn).
  assert (wr <> r) as Hne.
  { intros ->. rewrite list_lookup_insert_eq in Hwn by done. done. }
  assert (r < wr) as Hlt.
  { destruct (Nat.lt_ge_cases r wr); [done|]. exfalso.
    destruct (Hrl wr ltac:(lia)) as [f Hf].
    rewrite list_lookup_insert_ne in Hwn by done. congruence. }
  assert (2 <= r) as Hr2 by (destruct r as [|[|r]]; [congruence|congruence|lia]).
  split; [done|]. split; [done|]. split; [done|].
  apply fdalloc_first.
  - rewrite list_lookup_insert_ne by lia.
    apply list_lookup_insert_eq. rewrite !length_insert. lia.
  - intros j Hj. rewrite !(list_lookup_insert_ne _ wr) by lia.
    rewrite (list_lookup_insert_ne _ r) by lia.
    destruct (decide (j = i)) as [->|Hji].
    + eexists. apply list_lookup_insert_eq. rewrite !length_insert. lia.
    + rewrite !(list_lookup_insert_ne _ i) by lia.
      rewrite !list_lookup_insert_ne by lia. by apply Hrl.
Qed.

Section Stage_redirections.

Variable fork_result : nat -> Z.
Variable wait_status : nat -> Z.
Variable can_open : list ascii -> Z -> bool.
Variable exec_ok : list ascii -> list (list ascii) -> bool.
Variables O_RDONLY O_WRONLY O_CREATE : Z.
Variable mem : list ascii.

Local Abbreviation stage_redirect := (stage_redirect can_open mem).

(** The loop over the slots, for slots that are not of the type it looks
    for. *)
Lemma stage_redirect_skip ty flags rs fd w :
  Forall (fun s => r_type s <> ty) rs -> stage_redirect ty flags rs fd w = Ret fd w.
Proof.
  induction 1 as [|s rs Hs _ IH]; [done|]. cbn [Tsh.stage_redirect].
  destruct (RedirectionType_eqb (r_type s) ty) eqn:E; [|done].
  by apply RedirectionType_eqb_eq in E.
Qed.

(** The loop over the slots, one of which is of the type it looks for. *)
Lemma stage_redirect_one ty flags pre s post fd w p k :
  Forall (fun s => r_type s <> ty) pre -> Forall (fun s => r_type s <> ty) post ->
  r_type s = ty -> (dest_fd s < 0)%Z -> path s = Some p ->
  can_open (cstr mem p) flags = true -> fdalloc (ofile w) = Some k ->
  stage_redirect ty flags (pre ++ s :: post) fd w =
  Ret (Z.of_nat k)
    (after [ev_open (cstr mem p) flags (Z.of_nat k)]
       (<[k:=Some (opened (cstr mem p) flags)]> (ofile w)) w).
Proof.
  intros Hpre Hpost Hty Hd Hp Hc Hk.
  induction Hpre as [|s' pre Hs' _ IH]; cbn [app Tsh.stage_redirect].
  - rewrite Hty. assert (RedirectionType_eqb ty ty = true) as -> by (by destruct ty).
    destruct (Z.leb_spec 0 (dest_fd s)) as [|_]; [lia|]. rewrite Hp.
    unfold load_str. unfold bind at 1. unfold ret at 1.
    unfold bind, sys_open. rewrite Hc, Hk.
    by rewrite stage_redirect_skip.
  - destruct (RedirectionType_eqb (r_type s') ty) eqn:E; [|done].
    by apply RedirectionType_eqb_eq in E.
Qed.

End Stage_redirections.

Section Stage_setup_facts.

Variable can_open : list ascii -> Z -> bool.
Variables O_RDONLY O_WRONLY O_CREATE : Z.
Variable mem : list ascii.

Local Abbreviation stage_setup := (stage_setup can_open O_RDONLY O_WRONLY O_CREATE mem).

(** The first stage with an input redirection. *)
Lemma stage_setup_first_input numCommands r wr id f0 f1 command p w :
  piped (ofile w) r wr id f0 f1 ->
  fdalloc (<[wr:=None]> (<[r:=None]> (<[1:=Some (pipe_write id)]> (<[1:=None]> (ofile w)))))
  = Some r ->
  r_type (redirect command 0) = REDIRECT_INPUT ->
  (dest_fd (redirect command 0) < 0)%Z -> path (redirect command 0) = Some p ->
  r_type (redirect command 1) <> REDIRECT_INPUT ->
  r_type (redirect command 2) <> REDIRECT_INPUT ->
  can_open (cstr mem p) O_RDONLY = true ->
  exists t',
    stage_setup numCommands 0 (Z.of_nat r, Z.of_nat wr) command w =
    Ret tt (after [ev_close 1 0; ev_dup (Z.of_nat wr) 1;
                   ev_close (Z.of_nat r) 0; ev_close (Z.of_nat wr) 0;
                   ev_open (cstr mem p) O_RDONLY (Z.of_nat r);
                   ev_close 0 0; ev_dup (Z.of_nat r) 0; ev_close (Z.of_nat r) 0] t' w) /\
    t' !! 0 = Some (Some (opened (cstr mem p) O_RDONLY)) /\
    t' !! 1 = Some (Some (pipe_write id)).
Proof.
  intros Ht Hfree Hty Hd Hp H1 H2 Hc.
  destruct (piped_length _ _ _ _ _ _ Ht) as (Hr & Hwr & Hl2).
  pose proof Ht as [H0 H1' Hpr Hpw Hr2 Hw2 Hne].
  unfold Tsh.stage_setup. cbn [Nat.eqb fst snd].
  erewrite (wire_first _ _ _ _ _ _ Ht) by done.
  set (w1 := after _ _ w).
  unfold bind at 1.
  change (slots command) with
    ([] ++ redirect command 0 :: [redirect command 1; redirect command 2]).
  rewrite (stage_redirect_one can_open mem REDIRECT_INPUT O_RDONLY []
             (redirect command 0) [redirect command 1; redirect command 2] (-1) w1 p r)
    by first [done | by repeat constructor | (unfold w1; cbn [ofile after]; exact Hfree)].
  destruct (Z.leb_spec 0 (Z.of_nat r)) as [_|]; [|lia].
  erewrite (move_fd_0 r (opened (cstr mem p) O_RDONLY) f0); cycle 1.
  { unfold w1. cbn [ofile after]. lookups. }
  { done. }
  { unfold w1. cbn [ofile after]. lookups. }
  unfold w1. rewrite !after_after. cbn [ofile after app].
  eexists. split; [reflexivity|]. split; lookups.
Qed.

(** The last stage with an output redirection. *)
Lemma stage_setup_last_output numCommands x r wr id f0 f1 command p w :
  piped (ofile w) r wr id f0 f1 ->
  fdalloc (<[wr:=None]> (<[r:=None]> (<[0:=Some (pipe_read id)]> (<[0:=None]> (ofile w)))))
  = Some r ->
  0 < x -> S x = numCommands ->
  r_type (redirect command 1) = REDIRECT_OUTPUT ->
  (dest_fd (redirect command 1) < 0)%Z -> path (redirect command 1) = Some p ->
  r_type (redirect command 0) <> REDIRECT_OUTPUT ->
  r_type (redirect command 2) <> REDIRECT_OUTPUT ->
  can_open (cstr mem p) (Z.lor O_WRONLY O_CREATE) = true ->
  exists t',
    stage_setup numCommands x (Z.of_nat r, Z.of_nat wr) command w =
    Ret tt (after [ev_close 0 0; ev_dup (Z.of_nat r) 0;
                   ev_close (Z.of_nat r) 0; ev_close (Z.of_nat wr) 0;
                   ev_open (cstr mem p) (Z.lor O_WRONLY O_CREATE) (Z.of_nat r);
                   ev_close 1 0; ev_dup (Z.of_nat r) 1; ev_close (Z.of_nat r) 0] t' w) /\
    t' !! 0 = Some (Some (pipe_read id)) /\
    t' !! 1 = Some (Some (opened (cstr mem p) (Z.lor O_WRONLY O_CREATE))).
Proof.
  intros Ht Hfree Hx HN Hty Hd Hp H0' H2 Hc.
  destruct (piped_length _ _ _ _ _ _ Ht) as (Hr & Hwr & Hl2).
  pose proof Ht as [H0 H1 Hpr Hpw Hr2 Hw2 Hne].
  unfold Tsh.stage_setup. cbn [fst snd].
  destruct (Nat.eqb_spec x 0) as [|_]; [lia|].
  destruct (Z.eqb_spec (Z.of_nat x) (Z.of_nat numCommands - 1)) as [_|]; [|lia].
  erewrite (wire_last _ _ _ _ _ _ Ht) by done.
  set (w1 := after _ _ w).
  unfold bind at 1.
  change (slots command) with
    ([redirect command 0] ++ redirect command 1 :: [redirect command 2]).
  rewrite (stage_redirect_one can_open mem REDIRECT_OUTPUT (Z.lor O_WRONLY O_CREATE)
             [redirect command 0] (redirect command 1) [redirect command 2] (-1) w1 p r)
    by first [done | by repeat constructor | (unfold w1; cbn [ofile after]; exact Hfree)].
  destruct (Z.leb_spec 0 (Z.of_nat r)) as [_|]; [|lia].
  erewrite (move_fd_1 r (opened (cstr mem p) (Z.lor O_WRONLY O_CREATE)) (pipe_read id) f1);
    cycle 1.
  { unfold w1. cbn [ofile after]. lookups. }
  { unfold w1. cbn [ofile after]. lookups. }
  { done. }
  { unfold w1. cbn [ofile after]. lookups. }
  unfold w1. rewrite !after_after. cbn [ofile after app].
  eexists. split; [reflexivity|]. split; lookups.
Qed.

End Stage_setup_facts.

(** X22: the redirections that the stages of a pipeline take.  The child
    of the first stage opens the file of its input redirection, and has
    it as descriptor 0 and the write end of the pipe as descriptor 1 when
    it calls [exec]; its slot for descriptor 1 is not looked at, so that
    an output redirection of the first stage is ignored.  The child of
    the last stage (of two or more) opens the file of its output
    redirection, and has it as descriptor 1 and the read end of the pipe
    as descriptor 0; an input redirection of the last stage is ignored. *)
Theorem runPipelineCommnad_stage_redirections
  (fork_result wait_status : nat -> Z) (can_open : list ascii -> Z -> bool)
  (exec_ok : list ascii -> list (list ascii) -> bool) (O_RDONLY O_WRONLY O_CREATE : Z)
  (mem : list ascii) (simples : list SimpleCommand) (pipeFD0 : Z * Z)
  (pipeline : Pipeline) (w : world) (r wr : nat) (f0 f1 : file) :
  ofile w !! 0 = Some (Some f0) -> ofile w !! 1 = Some (Some f1) ->
  fdalloc (ofile w) = Some r ->
  fdalloc (<[r:=Some (pipe_read (pipes w))]> (ofile w)) = Some wr ->
  let N := p_len pipeline in
  let run :=
    runPipelineCommnad fork_result wait_status can_open exec_ok
      O_RDONLY O_WRONLY O_CREATE mem simples pipeFD0 pipeline w in
  (forall k command nm p,
      0 < N -> fork_result (forks w) = 0%Z ->
      c_cmd (nth 0 (commands pipeline) zero_command) = ref_simple k ->
      simples !! k = Some command ->
      r_type (redirect command 0) = REDIRECT_INPUT ->
      (dest_fd (redirect command 0) < 0)%Z -> path (redirect command 0) = Some p ->
      r_type (redirect command 1) <> REDIRECT_INPUT ->
      r_type (redirect command 2) <> REDIRECT_INPUT ->
      can_open (cstr mem p) O_RDONLY = true ->
      name command = Some nm ->
      exec_ok (cstr mem nm) (load_argv mem (argv command)) = true ->
      exists w',
        run = Stop w' /\
        trace w' =
          trace w ++
          [ev_pipe 0; ev_fork 0; ev_close 1 0; ev_dup (Z.of_nat wr) 1;
           ev_close (Z.of_nat r) 0; ev_close (Z.of_nat wr) 0;
           ev_open (cstr mem p) O_RDONLY (Z.of_nat r);
           ev_close 0 0; ev_dup (Z.of_nat r) 0; ev_close (Z.of_nat r) 0;
           ev_exec (cstr mem nm) (load_argv mem (argv command))] /\
        fd_file (ofile w') 0 = Some (opened (cstr mem p) O_RDONLY) /\
        fd_file (ofile w') 1 = Some (pipe_write (pipes w))) /\
  (forall x k command nm p,
      0 < x -> S x = N ->
      (forall i, i < x -> fork_result (forks w + i) <> 0%Z) ->
      fork_result (forks w + x) = 0%Z ->
      c_cmd (nth x (commands pipeline) zero_command) = ref_simple k ->
      simples !! k = Some command ->
      r_type (redirect command 1) = REDIRECT_OUTPUT ->
      (dest_fd (redirect command 1) < 0)%Z -> path (redirect command 1) = Some p ->
      r_type (redirect command 0) <> REDIRECT_OUTPUT ->
      r_type (redirect command 2) <> REDIRECT_OUTPUT ->
      can_open (cstr mem p) (Z.lor O_WRONLY O_CREATE) = true ->
      name command = Some nm ->
      exec_ok (cstr mem nm) (load_argv mem (argv command)) = true ->
      exists w',
        run = Stop w' /\
        trace w' =
          trace w ++ [ev_pipe 0] ++ fork_events fork_result (forks w) x ++
          [ev_fork 0; ev_close 0 0; ev_dup (Z.of_nat r) 0;
           ev_close (Z.of_nat r) 0; ev_close (Z.of_nat wr) 0;
           ev_open (cstr mem p) (Z.lor O_WRONLY O_CREATE) (Z.of_nat r);
           ev_close 1 0; ev_dup (Z.of_nat r) 1; ev_close (Z.of_nat r) 0;
           ev_exec (cstr mem nm) (load_argv mem (argv command))] /\
        fd_file (ofile w') 0 = Some (pipe_read (pipes w)) /\
        fd_file (ofile w') 1 = Some (opened (cstr mem p) (Z.lor O_WRONLY O_CREATE))).
Proof.
  intros H0 H1 Hr Hwr. cbv zeta.
  assert (forall K : Z * (Z * Z) -> M Z,
             piped (<[wr:=Some (pipe_write (pipes w))]>
                      (<[r:=Some (pipe_read (pipes w))]> (ofile w)))
               r wr (pipes w) f0 f1 /\
             bind (sys_pipe pipeFD0) K w =
             K (0%Z, (Z.of_nat r, Z.of_nat wr))
               {| ofile := <[wr:=Some (pipe_write (pipes w))]>
                             (<[r:=Some (pipe_read (pipes w))]> (ofile w));
                  trace := trace w ++ [ev_pipe 0]; forks := forks w; waits := waits w;
                  pipes := S (pipes w) |}) as Hpipe.
  { intros K. destruct (sys_pipe_spec pipeFD0 K w r wr f0 f1 H0 H1 Hr Hwr) as (? & _ & ?).
    done. }
  split.
  - intros k command nm p HN Hf Hk Hs Hty Hd Hp Hn1 Hn2 Hc Hn He.
    unfold runPipelineCommnad.
    destruct (Hpipe
                (fun r0 : Z * (Z * Z) =>
                   pipeline_loop fork_result can_open exec_ok O_RDONLY O_WRONLY O_CREATE mem
                     simples pipeline (p_len pipeline) r0.2 (p_len pipeline) 0 ;;;
                   sys_close r0.2.1 ;;; sys_close r0.2.2 ;;;
                   wait_loop wait_status (p_len pipeline) ;;; ret 0%Z)) as [Ht ->].
    cbn [fst snd].
    set (w1 := {| ofile := _; trace := trace w ++ [ev_pipe 0] |}).
    set (wx := {| ofile := ofile w1;
                  trace := trace w1 ++ fork_events fork_result (forks w1) 0 ++ [ev_fork 0];
                  forks := forks w1 + 1; waits := waits w1; pipes := pipes w1 |}).
    destruct (fdalloc_after_wiring (ofile w) r wr 1 (pipe_read (pipes w))
                (pipe_write (pipes w)) (pipe_write (pipes w)) f0 f1 H0 H1 Hr Hwr ltac:(lia))
      as (_ & _ & _ & Hfree).
    destruct (stage_setup_first_input can_open O_RDONLY O_WRONLY O_CREATE mem
                (p_len pipeline) r wr (pipes w) f0 f1 command p wx Ht Hfree
                Hty Hd Hp Hn1 Hn2 Hc) as (t' & Hsetup & Ht0 & Ht1).
    eexists. split; [|split; [|split]].
    + apply bind_Stop.
      apply (pipeline_loop_child fork_result can_open exec_ok O_RDONLY O_WRONLY O_CREATE mem
               simples pipeline (p_len pipeline) _ 0 (p_len pipeline) 0 w1 k command);
        try done; [intros i Hi; lia|by rewrite Nat.add_0_r|].
      fold wx. erewrite bind_Ret by exact Hsetup.
      apply bind_Stop. by apply exec_command_ok.
    + unfold after, wx, w1, fork_events. cbn [trace forks seq map app].
      rewrite <- !app_assoc. done.
    + change 0%Z with (Z.of_nat 0). rewrite fd_file_nat. cbn [ofile after]. by rewrite Ht0.
    + change 1%Z with (Z.of_nat 1). rewrite fd_file_nat. cbn [ofile after]. by rewrite Ht1.
  - intros x k command nm p Hx HN Hpar Hf Hk Hs Hty Hd Hp Hn0 Hn2 Hc Hn He.
    unfold runPipelineCommnad.
    destruct (Hpipe
                (fun r0 : Z * (Z * Z) =>
                   pipeline_loop fork_result can_open exec_ok O_RDONLY O_WRONLY O_CREATE mem
                     simples pipeline (p_len pipeline) r0.2 (p_len pipeline) 0 ;;;
                   sys_close r0.2.1 ;;; sys_close r0.2.2 ;;;
                   wait_loop wait_status (p_len pipeline) ;;; ret 0%Z)) as [Ht ->].
    cbn [fst snd].
    set (w1 := {| ofile := _; trace := trace w ++ [ev_pipe 0] |}).
    set (wx := {| ofile := ofile w1;
                  trace := trace w1 ++ fork_events fork_result (forks w1) x ++ [ev_fork 0];
                  forks := forks w1 + S x; waits := waits w1; pipes := pipes w1 |}).
    destruct (fdalloc_after_wiring (ofile w) r wr 0 (pipe_read (pipes w))
                (pipe_write (pipes w)) (pipe_read (pipes w)) f0 f1 H0 H1 Hr Hwr ltac:(lia))
      as (_ & _ & _ & Hfree).
    destruct (stage_setup_last_output can_open O_RDONLY O_WRONLY O_CREATE mem
                (p_len pipeline) x r wr (pipes w) f0 f1 command p wx Ht Hfree
                Hx HN Hty Hd Hp Hn0 Hn2 Hc) as (t' & Hsetup & Ht0 & Ht1).
    eexists. split; [|split; [|split]].
    + apply bind_Stop.
      apply (pipeline_loop_child fork_result can_open exec_ok O_RDONLY O_WRONLY O_CREATE mem
               simples pipeline (p_len pipeline) _ x (p_len pipeline) 0 w1 k command);
        try done; [lia|].
      fold wx. erewrite bind_Ret by exact Hsetup.
      apply bind_Stop. by apply exec_command_ok.
    + unfold after, wx, w1. cbn [trace forks]. rewrite <- !app_assoc. done.
    + change 0%Z with (Z.of_nat 0). rewrite fd_file_nat. cbn [ofile after]. by rewrite Ht0.
    + change 1%Z with (Z.of_nat 1). rewrite fd_file_nat. cbn [ofile after]. by rewrite Ht1.
Qed.

(** X22, an instance: [cat < in > x | wc > out], first and last stage *)
Lemma runPipelineCommnad_stage_redirections_witness :
  let sh := first_command "cat < in > x | wc > out" in
  let run fork_result :=
    runPipelineCommnad fork_result (fun _ => 0%Z) (fun _ _ => true) (fun _ _ => true)
      0 1 512 (buffer (cmdline sh)) (_simples (_cmd_data sh)) (0%Z, 0%Z)
      (_pipeline (_cmd_data sh)) fresh_world in
  (exists w', run (as_child 0) = Stop w' /\
     fd_file (ofile w') 0 = Some (opened (list_ascii_of_string "in") 0) /\
     fd_file (ofile w') 1 = Some (pipe_write 0)) /\
  (exists w', run (as_child 1) = Stop w' /\
     fd_file (ofile w') 0 = Some (pipe_read 0) /\
     fd_file (ofile w') 1 = Some (opened (list_ascii_of_string "out") 513)).
Proof.
  cbv zeta. split.
  - destruct (runPipelineCommnad_stage_redirections (as_child 0) (fun _ => 0%Z)
                (fun _ _ => true) (fun _ _ => true) 0 1 512
                (buffer (cmdline (first_command "cat < in > x | wc > out")))
                (_simples (_cmd_data (first_command "cat < in > x | wc > out"))) (0%Z, 0%Z)
                (_pipeline (_cmd_data (first_command "cat < in > x | wc > out")))
                fresh_world 3 4 (inherited 0) (inherited 1)
                eq_refl eq_refl eq_refl eq_refl) as [Hfirst _].
    destruct (Hfirst 0
                (nth 0 (_simples (_cmd_data (first_command "cat < in > x | wc > out")))
                   (zero_simple 8)) 0 6) as (w' & Hrun & _ & Hfd0 & Hfd1);
      [computed|reflexivity|computed|computed|computed|computed|computed|computed|computed|
       reflexivity|computed|reflexivity|].
    exists w'. split; [exact Hrun|]. split.
    + rewrite Hfd0. vm_compute. reflexivity.
    + exact Hfd1.
  - destruct (runPipelineCommnad_stage_redirections (as_child 1) (fun _ => 0%Z)
                (fun _ _ => true) (fun _ _ => true) 0 1 512
                (buffer (cmdline (first_command "cat < in > x | wc > out")))
                (_simples (_cmd_data (first_command "cat < in > x | wc > out"))) (0%Z, 0%Z)
                (_pipeline (_cmd_data (first_command "cat < in > x | wc > out")))
                fresh_world 3 4 (inherited 0) (inherited 1)
                eq_refl eq_refl eq_refl eq_refl) as [_ Hlast].
    destruct (Hlast 1 1
                (nth 1 (_simples (_cmd_data (first_command "cat < in > x | wc > out")))
                   (zero_simple 8)) 15 20) as (w' & Hrun & _ & Hfd0 & Hfd1);
      [lia|computed| |reflexivity|computed|computed|computed|computed|computed|computed|
       computed|reflexivity|computed|reflexivity|].
    { intros i Hi. assert (i = 0) as -> by lia. discriminate. }
    exists w'. split; [exact Hrun|]. split.
    + exact Hfd0.
    + rewrite Hfd1. vm_compute. reflexivity.
Defined.

(** ** The main loop *)

Lemma bind_ext {A B} (m : M A) (k1 k2 : A -> M B) w :
  (forall a w', k1 a w' = k2 a w') -> bind m k1 w = bind m k2 w.
Proof. intros H. unfold bind. destruct (m w); auto. Qed.

(** [ReadLine] takes from the input at least the bytes that it stores. *)
Lemma ReadLine_loop_consumes sg nleft input p buf :
  let r := ReadLine_loop sg nleft input p buf in
  length r.2 + (nleft - r.1.1) <= length input.
Proof.
  revert input p buf. induction nleft as [|nleft IH]; intros input p buf; cbn [ReadLine_loop].
  - simpl. lia.
  - destruct input as [|c input]; [simpl; lia|].
    destruct (Ascii.eqb c newline || is_EOF sg c); [simpl; lia|].
    specialize (IH input (S p) (<[p:=c]> buf)). cbv zeta in IH.
    pose proof (ReadLine_loop_nleft sg nleft input (S p) (<[p:=c]> buf)).
    cbn [length]. lia.
Qed.

Section Main_facts.

Variable N : nat.
Variable char_is_signed : bool.
Variable sizeof_tokens : nat.
Variable strchr_finds_nul : bool.
Variables MAXA MAXP MAXC : nat.
Variable fork_result : nat -> Z.
Variable wait_status : nat -> Z.
Variable can_open : list ascii -> Z -> bool.
Variable exec_ok : list ascii -> list (list ascii) -> bool.
Variable chdir_ok : list ascii -> bool.
Variables O_RDONLY O_WRONLY O_CREATE : Z.
Variable atoi : list ascii -> Z.
Variable pipeFD0 : Z * Z.

Local Abbreviation GetCommand :=
  (GetCommand N char_is_signed sizeof_tokens strchr_finds_nul MAXA MAXP MAXC).
Local Abbreviation main_loop :=
  (main_loop N char_is_signed sizeof_tokens strchr_finds_nul MAXA MAXP MAXC
     fork_result wait_status can_open exec_ok chdir_ok O_RDONLY O_WRONLY O_CREATE atoi pipeFD0).

(** [GetCommand] returns a positive value only when it has taken bytes
    from the input, and stops the shell otherwise. *)
Lemma GetCommand_consumes shell input :
  let g := GetCommand shell input in
  ((0 < gc_ret g)%Z -> length (gc_input g) < length input) /\
  (~ (0 < gc_ret g)%Z -> should_run (gc_shell g) = 0%Z).
Proof.
  cbv zeta. unfold Tsh.GetCommand, ReadLine.
  pose proof (ReadLine_loop_consumes char_is_signed N input 0
                (buffer (ClearLine N (cmdline shell)))) as Hc.
  cbv zeta in Hc.
  destruct (ReadLine_loop char_is_signed N input 0 (buffer (ClearLine N (cmdline shell))))
    as [[nleft buf] input'].
  cbn [fst snd rl_ret rl_line rl_input] in *.
  destruct (Z.ltb_spec 0 (Z.of_nat (N - nleft))) as [Hpos|Hpos].
  - destruct (Tokenize _ _ _) as [line tl]. destruct (ParseCommand _ _ _ _ _) as [cd log].
    cbn [gc_ret gc_input gc_shell]. split; [intros _; lia|lia].
  - cbn [gc_ret gc_input gc_shell should_run]. split; [lia|done].
Qed.

Lemma main_loop_eq fuel shell input :
  main_loop (S fuel) shell input =
  if (should_run shell =? 0)%Z then ret (Some (shell, input))
  else
    diags (gc_log (GetCommand shell input)) ;;;
    if (0 <? gc_ret (GetCommand shell input))%Z then
      r <- RunCommand fork_result wait_status can_open exec_ok chdir_ok
             O_RDONLY O_WRONLY O_CREATE atoi
             (buffer (cmdline (gc_shell (GetCommand shell input))))
             pipeFD0 (gc_shell (GetCommand shell input)) ;;
      main_loop fuel (snd r) (gc_input (GetCommand shell input))
    else main_loop fuel (gc_shell (GetCommand shell input)) (gc_input (GetCommand shell input)).
Proof. reflexivity. Qed.

Lemma main_loop_stopped fuel shell input w :
  should_run shell = 0%Z -> main_loop (S fuel) shell input w = Ret (Some (shell, input)) w.
Proof. intros H. rewrite main_loop_eq. by rewrite H. Qed.

(** With more iterations than the input has bytes, and two more, one more
    iteration changes nothing. *)
Lemma main_loop_S fuel shell input w :
  length input + 2 <= fuel ->
  main_loop (S fuel) shell input w = main_loop fuel shell input w.
Proof.
  revert shell input w. induction fuel as [|fuel IH]; intros shell input w Hfuel; [lia|].
  rewrite (main_loop_eq (S fuel) shell input), (main_loop_eq fuel shell input).
  destruct (should_run shell =? 0)%Z; [done|].
  destruct (GetCommand_consumes shell input) as [Hpos Hstop]. cbv zeta in Hpos, Hstop.
  apply bind_ext. intros _ w1.
  destruct (Z.ltb_spec 0 (gc_ret (GetCommand shell input))) as [H|H].
  - apply bind_ext. intros r w2. apply IH. specialize (Hpos H). lia.
  - destruct fuel as [|fuel]; [lia|]. rewrite !main_loop_stopped by (apply Hstop; lia). done.
Qed.

Lemma main_loop_fuel fuel fuel' shell input w :
  length input + 2 <= fuel -> fuel <= fuel' ->
  main_loop fuel' shell input w = main_loop fuel shell input w.
Proof.
  intros Hfuel Hle. induction Hle as [|fuel' Hle IH]; [done|].
  rewrite main_loop_S by lia. done.
Qed.

(** With that many iterations the loop is not left for lack of fuel. *)
Lemma main_loop_enough fuel shell input w w' :
  length input + 2 <= fuel -> main_loop fuel shell input w <> Ret None w'.
Proof.
  revert shell input w. induction fuel as [|fuel IH]; intros shell input w Hfuel; [lia|].
  rewrite main_loop_eq. destruct (should_run shell =? 0)%Z; [done|].
  destruct (GetCommand_consumes shell input) as [Hpos Hstop]. cbv zeta in Hpos, Hstop.
  intros (? & w1 & _ & Hrun)%bind_Ret_inv. revert Hrun.
  destruct (Z.ltb_spec 0 (gc_ret (GetCommand shell input))) as [H|H].
  - intros (r & w2 & _ & Hrun)%bind_Ret_inv. revert Hrun. apply IH.
    specialize (Hpos H). lia.
  - destruct fuel as [|fuel]; [lia|]. rewrite main_loop_stopped by (apply Hstop; lia). done.
Qed.

End Main_facts.

(** ** Lines that fit *)

Lemma strlen_app_nul_any (l r : list ascii) : strlen (l ++ NUL :: r) = strlen l.
Proof.
  induction l as [|c l IH]; [done|]. cbn [app strlen].
  destruct (Ascii.eqb c NUL); [done|]. by rewrite IH.
Qed.

(** The first of the lines of an input, and what follows it. *)
Lemma input_lines_first (sg : bool) (input : list ascii) :
  exists l ls,
    input_lines sg input = l :: ls /\ Forall (in_line sg) l /\
    ((input = l /\ ls = []) \/
     (exists c rest, input = l ++ c :: rest /\ ~ in_line sg c /\ ls = input_lines sg rest)).
Proof.
  induction input as [|c input (l & ls & Hl & Hin & IH)].
  - exists [], []. split; [done|]. split; [done|]. by left.
  - cbn [input_lines]. destruct (Ascii.eqb c newline || is_EOF sg c) eqn:Ec.
    + exists [], (input_lines sg input). split; [done|]. split; [done|]. right.
      exists c, input. split; [done|]. split; [|done]. unfold in_line. by rewrite Ec.
    + rewrite Hl. exists (c :: l), ls. split; [done|]. split; [by constructor|].
      destruct IH as [[-> ->]|(c' & rest & -> & Hc' & ->)]; [by left|].
      right. by exists c', rest.
Qed.

(** [ReadLine] into a cleared buffer, on a line shorter than the buffer
    that a byte or the end of the input ends. *)
Lemma ReadLine_cleared_line (N : nat) (sg : bool) (line : BufferedLine) (pre rest : list ascii) :
  Forall (in_line sg) pre -> length pre < N ->
  match rest with [] => True | c :: _ => ~ in_line sg c end ->
  let r := ReadLine N sg (ClearLine N line) (pre ++ rest) in
  rl_ret r = length pre /\
  buffer (rl_line r) = pre ++ replicate (N - length pre) NUL /\
  rl_input r = drop 1 rest.
Proof.
  intros Hpre Hlen Hrest. unfold ReadLine, ClearLine. cbn [buffer].
  rewrite ReadLine_loop_app by (rewrite ?length_replicate; done || lia).
  destruct (N - length pre) as [|m] eqn:Em; [lia|].
  assert (N - S m = length pre) as Hn by lia.
  assert (<[length pre:=NUL]>
            (take 0 (replicate N NUL) ++ pre ++ drop (0 + length pre) (replicate N NUL))
          = pre ++ replicate (S m) NUL) as Hins.
  { rewrite take_0, drop_replicate. cbn [app Nat.add]. rewrite Em.
    rewrite insert_app_r_alt by lia. by rewrite Nat.sub_diag. }
  destruct rest as [|c rest]; cbn [ReadLine_loop].
  - cbv zeta. cbn [rl_ret rl_line len buffer rl_input]. rewrite Hn, Hins. done.
  - unfold in_line in Hrest.
    destruct (Ascii.eqb c newline || is_EOF sg c); [|done].
    cbv zeta. cbn [rl_ret rl_line len buffer rl_input]. rewrite Hn, Hins. done.
Qed.

(** [Tokenize] leaves a zero byte inside a buffer that has one. *)
Lemma Tokenize_terminated (sizeof_tokens : nat) (strchr_finds_nul : bool) (line : BufferedLine) :
  terminated (buffer line) ->
  terminated (buffer (Tokenize sizeof_tokens strchr_finds_nul line).1).
Proof.
  unfold terminated. intros Hterm.
  pose proof (Tokenize_loop_buffer sizeof_tokens strchr_finds_nul (buffer line)) as H.
  cbv zeta in H. unfold Tokenize.
  destruct (Tokenize_loop sizeof_tokens strchr_finds_nul _ _ 0 (buffer line) []) as [buf toks].
  cbn [fst snd buffer] in *. destruct H as (Hlen & _ & Hnul & _).
  pose proof (strlen_le_nul buf (strlen (buffer line))) as Hle.
  destruct (Hnul (strlen (buffer line))) as [E|E]; [|specialize (Hle E); lia].
  rewrite E in Hle. specialize (Hle (strlen_rd (buffer line))). lia.
Qed.

(** [Tokenize] stores no more tokens than the line has. *)
Lemma Tokenize_count (sizeof_tokens : nat) (strchr_finds_nul : bool) (line : BufferedLine) :
  tl_len (Tokenize sizeof_tokens strchr_finds_nul line).2
  <= length (lex_tokens false 0 (take (strlen (buffer line)) (buffer line))).
Proof.
  destruct (Tokenize_loop_line_exact sizeof_tokens strchr_finds_nul (buffer line))
    as (rest & Hrest & _). cbv zeta in Hrest. unfold Tokenize.
  destruct (Tokenize_loop sizeof_tokens strchr_finds_nul _ _ 0 (buffer line) []) as [buf toks].
  cbn [snd tl_len] in *. rewrite Hrest, length_app. lia.
Qed.

Section Fits.

Variable N : nat.
Variable char_is_signed : bool.
Variable sizeof_tokens TSH_MAX_NUM_TOKENS : nat.
Variable strchr_finds_nul : bool.
Variables MAXA MAXP MAXC : nat.

Local Abbreviation GetCommand :=
  (GetCommand N char_is_signed sizeof_tokens strchr_finds_nul MAXA MAXP MAXC).
Local Abbreviation fits input :=
  (Forall (line_fits N TSH_MAX_NUM_TOKENS) (input_lines char_is_signed input)).

(** On an input whose lines fit, [GetCommand] stores inside the buffer and
    inside the array of the tokens, and leaves an input whose lines fit. *)
Lemma GetCommand_fits shell input :
  fits input ->
  let g := GetCommand shell input in
  Z.to_nat (gc_ret g) < N /\
  ((0 < gc_ret g)%Z ->
   tl_len (tokens (gc_shell g)) <= TSH_MAX_NUM_TOKENS /\
   terminated (buffer (cmdline (gc_shell g)))) /\
  fits (gc_input g).
Proof.
  intros Hfits. cbv zeta.
  destruct (input_lines_first char_is_signed input) as (l & ls & Hl & Hin & Hshape).
  rewrite Hl in Hfits. apply Forall_cons in Hfits as [[Hlen Htoks] Hls].
  assert (exists rest, input = l ++ rest /\
                       match rest with [] => True | c :: _ => ~ in_line char_is_signed c end /\
                       fits (drop 1 rest)) as (rest & -> & Hrest & Hnext).
  { destruct Hshape as [[-> ->]|(c & rest & -> & Hc & ->)].
    - exists []. rewrite app_nil_r. split; [done|]. split; [done|].
      cbn [drop input_lines]. constructor; [|done]. split; simpl; lia.
    - exists (c :: rest). split; [done|]. split; [done|]. exact Hls. }
  unfold Tsh.GetCommand.
  destruct (ReadLine_cleared_line N char_is_signed (cmdline shell) l rest Hin Hlen Hrest)
    as (Hret & Hbuf & Hinput).
  destruct (ReadLine N char_is_signed (ClearLine N (cmdline shell)) (l ++ rest))
    as [[n0 buf] ret ti input'].
  cbn [rl_ret rl_line buffer rl_input len] in *. subst ret buf input'.
  destruct (Z.ltb_spec 0 (Z.of_nat (length l))) as [Hpos|Hpos].
  - set (line := {| len := n0; buffer := l ++ replicate (N - length l) NUL |}).
    assert (strlen (buffer line) = strlen l) as Hstrlen.
    { unfold line. cbn [buffer]. destruct (N - length l) as [|m] eqn:Em; [lia|].
      change (replicate (S m) NUL) with (NUL :: replicate m NUL).
      apply strlen_app_nul_any. }
    pose proof (Tokenize_count sizeof_tokens strchr_finds_nul line) as Hcount.
    pose proof (Tokenize_terminated sizeof_tokens strchr_finds_nul line) as Hterm.
    rewrite Hstrlen in Hcount.
    assert (take (strlen l) (buffer line) = take (strlen l) l) as Htake.
    { unfold line. cbn [buffer]. pose proof (strlen_le l). by rewrite take_app_le. }
    rewrite Htake in Hcount.
    assert (terminated (buffer line)) as Hline.
    { unfold terminated. rewrite Hstrlen. unfold line. cbn [buffer].
      rewrite length_app, length_replicate. pose proof (strlen_le l). lia. }
    specialize (Hterm Hline).
    destruct (Tokenize sizeof_tokens strchr_finds_nul line) as [line' tl].
    destruct (ParseCommand _ _ _ _ _) as [cd log].
    cbn [fst snd gc_ret gc_input gc_shell tokens cmdline] in *.
    split; [lia|]. split; [|done]. intros _. split; [lia|done].
  - cbn [gc_ret gc_input gc_shell]. split; [lia|]. split; [lia|done].
Qed.

End Fits.

(** X23: on an input whose lines fit -- every one is shorter than the
    buffer of the line and has no more tokens than the array of the tokens
    has elements -- the call of [GetCommand] at the head of the loop of
    [main] stores inside the two arrays, takes at least one byte from the
    input unless it stops the shell, and leaves an input whose lines fit.
    The loop of [main] is therefore left after no more iterations than the
    input has bytes, and two more: with that much fuel [main] does not
    return for lack of it -- the process ends by [exit] or [exec], or uses
    a null pointer -- and more fuel gives the same run.  This bounds the
    number of lines read, not the time: a system call of the model
    returns at once. *)
Theorem main_loop_bounded
  (N : nat) (char_is_signed : bool) (sizeof_tokens TSH_MAX_NUM_TOKENS : nat)
  (strchr_finds_nul : bool)
  (MAXA MAXP MAXC : nat) (fork_result wait_status : nat -> Z)
  (can_open : list ascii -> Z -> bool) (exec_ok : list ascii -> list (list ascii) -> bool)
  (chdir_ok : list ascii -> bool) (O_RDONLY O_WRONLY O_CREATE : Z)
  (atoi : list ascii -> Z) (pipeFD0 : Z * Z)
  (fuel : nat) (input : list ascii) (w : world) :
  Forall (line_fits N TSH_MAX_NUM_TOKENS) (input_lines char_is_signed input) ->
  length input + 2 <= fuel ->
  (forall shell,
      let g := GetCommand N char_is_signed sizeof_tokens strchr_finds_nul MAXA MAXP MAXC
                 shell input in
      Z.to_nat (gc_ret g) < N /\
      ((0 < gc_ret g)%Z ->
       tl_len (tokens (gc_shell g)) <= TSH_MAX_NUM_TOKENS /\
       terminated (buffer (cmdline (gc_shell g))) /\
       length (gc_input g) < length input) /\
      (~ (0 < gc_ret g)%Z -> should_run (gc_shell g) = NO) /\
      Forall (line_fits N TSH_MAX_NUM_TOKENS) (input_lines char_is_signed (gc_input g))) /\
  (let run fuel :=
     main N char_is_signed sizeof_tokens strchr_finds_nul MAXA MAXP MAXC
       fork_result wait_status can_open exec_ok chdir_ok O_RDONLY O_WRONLY O_CREATE atoi
       pipeFD0 fuel input w in
   (forall a w', run fuel <> Ret a w') /\
   (forall fuel', fuel <= fuel' -> run fuel' = run fuel)).
Proof.
  intros Hfits Hfuel. split.
  - intros shell. cbv zeta.
    destruct (GetCommand_fits N char_is_signed sizeof_tokens TSH_MAX_NUM_TOKENS
                strchr_finds_nul MAXA MAXP MAXC shell input Hfits) as (Hret & Htok & Hnext).
    destruct (GetCommand_consumes N char_is_signed sizeof_tokens strchr_finds_nul
                MAXA MAXP MAXC shell input) as [Hpos Hstop].
    split; [done|]. split; [|split; [done|done]].
    intros H. destruct (Htok H) as [H1 H2]. split; [done|]. split; [done|]. by apply Hpos.
  - cbv zeta. unfold main. split.
    + intros a w' (r & w1 & Hloop & Hexit)%bind_Ret_inv.
      destruct r as [[shell rest]|]; [done|].
      by apply main_loop_enough in Hloop.
    + intros fuel' Hle. unfold bind.
      pose proof (main_loop_fuel N char_is_signed sizeof_tokens strchr_finds_nul
                    MAXA MAXP MAXC fork_result wait_status can_open exec_ok chdir_ok
                    O_RDONLY O_WRONLY O_CREATE atoi pipeFD0 fuel fuel'
                    (this_shell N MAXA MAXP MAXC) input w Hfuel Hle) as E.
      by rewrite E.
Qed.

(** X23, an instance: the input [quit 3], with a buffer of 64 bytes and an
    array of 64 tokens *)
Lemma main_loop_bounded_witness :
  let run fuel :=
    main 64 false 1024 false 8 4 8 as_parent (fun _ => 0%Z) (fun _ _ => true)
      (fun _ _ => true) (fun _ => true) 0 1 512 (fun s => Z.of_nat (length s) + 2)%Z
      (0%Z, 0%Z) fuel (typed "quit 3") fresh_world in
  let g := GetCommand 64 false 1024 false 8 4 8 (this_shell 64 8 4 8) (typed "quit 3") in
  Forall (line_fits 64 64) (input_lines false (typed "quit 3")) /\
  tl_len (tokens (gc_shell g)) <= 64 /\
  run 20 = run 9 /\ run 9 = Stop (record (ev_exit 3) fresh_world).
Proof.
  cbv zeta.
  assert (Forall (line_fits 64 64) (input_lines false (typed "quit 3"))) as Hfits.
  { vm_compute. repeat (constructor; [split; lia|]). constructor. }
  destruct (main_loop_bounded 64 false 1024 64 false 8 4 8 as_parent (fun _ => 0%Z)
              (fun _ _ => true) (fun _ _ => true) (fun _ => true) 0 1 512
              (fun s => Z.of_nat (length s) + 2)%Z (0%Z, 0%Z) 9 (typed "quit 3") fresh_world
              Hfits)
    as [Hcall [_ H]].
  - vm_compute. lia.
  - split; [exact Hfits|]. split.
    + destruct (Hcall (this_shell 64 8 4 8)) as (_ & Htok & _).
      apply Htok. vm_compute. reflexivity.
    + split; [apply H; lia|]. vm_compute. reflexivity.
Defined.

(** X24: at the end of the input, and on an empty line, the shell ends
    with the exit status 0 and runs nothing: [ReadLine] returns 0, which
    [GetCommand] stores as [last_exit_status] while it stops the shell. *)
Theorem main_end_of_input
  (N : nat) (char_is_signed : bool) (sizeof_tokens : nat) (strchr_finds_nul : bool)
  (MAXA MAXP MAXC : nat) (fork_result wait_status : nat -> Z)
  (can_open : list ascii -> Z -> bool) (exec_ok : list ascii -> list (list ascii) -> bool)
  (chdir_ok : list ascii -> bool) (O_RDONLY O_WRONLY O_CREATE : Z)
  (atoi : list ascii -> Z) (pipeFD0 : Z * Z)
  (fuel : nat) (input : list ascii) (w : world) :
  match input with [] => True | c :: _ => c = newline end ->
  main N char_is_signed sizeof_tokens strchr_finds_nul MAXA MAXP MAXC
    fork_result wait_status can_open exec_ok chdir_ok O_RDONLY O_WRONLY O_CREATE atoi
    pipeFD0 (S (S fuel)) input w
  = Stop (record (ev_exit 0) w).
Proof.
  intros Hin. unfold main. rewrite main_loop_eq.
  change (should_run (this_shell N MAXA MAXP MAXC) =? 0)%Z with false. cbv iota.
  set (g := GetCommand N char_is_signed sizeof_tokens strchr_finds_nul MAXA MAXP MAXC
              (this_shell N MAXA MAXP MAXC) input).
  assert (gc_ret g = 0%Z /\ gc_log g = [] /\ should_run (gc_shell g) = NO /\
          last_exit_status (gc_shell g) = 0%Z) as (Hret & Hlog & Hrun & Hstatus).
  { unfold g, GetCommand, ReadLine, ClearLine. cbn [buffer].
    destruct N as [|n]; cbn [ReadLine_loop].
    - cbv zeta. cbn [rl_ret Nat.sub]. done.
    - destruct input as [|c rest].
      + cbv zeta. rewrite Nat.sub_diag. done.
      + subst c. change (Ascii.eqb newline newline) with true. cbn [orb]. cbv zeta.
        rewrite Nat.sub_diag. done. }
  rewrite Hlog, Hret. cbn [diags]. change (0 <? 0)%Z with false. cbv iota.
  unfold bind at 2. unfold ret at 1.
  rewrite main_loop_eq, Hrun. change (NO =? 0)%Z with true. cbv iota.
  unfold bind, ret, sys_exit. by rewrite Hstatus.
Qed.

(** X24, an instance: an empty line before [ls] *)
Lemma main_end_of_input_witness :
  main 64 false 1024 false 8 4 8 as_parent (fun _ => 0%Z) (fun _ _ => true)
    (fun _ _ => true) (fun _ => true) 0 1 512 (fun _ => 0%Z) (0%Z, 0%Z)
    2 (newline :: typed "ls") fresh_world
  = Stop (record (ev_exit 0) fresh_world).
Proof.
  apply (main_end_of_input 64 false 1024 false 8 4 8 as_parent (fun _ => 0%Z)
           (fun _ _ => true) (fun _ _ => true) (fun _ => true) 0 1 512 (fun _ => 0%Z)
           (0%Z, 0%Z) 0 (newline :: typed "ls") fresh_world).
  reflexivity.
Defined.
